(** * svg2sheet: a shallow embedding of the layout, compositing, dimension
    resolution, backend registry and metadata code, with the properties the
    specification states about them.

    Conventions of the embedding.
    - A Go [int] is a [Z] in the 64-bit two's complement range; arithmetic
      wraps around ([wrap]), division by zero panics.
    - A Go [float64] is a [spec_float] at precision 53 and [emax] 1024, with
      the IEEE 754 operations of the Standard Library's [SpecFloat].
    - A Go [string] is a sequence of bytes: a [string] of 8-bit [ascii].
    - A call that can return an error or panic returns a [result]. *)

From Stdlib Require Import ZArith Lia Bool List String Ascii.
From Stdlib Require Import Floats.SpecFloat.
From stdpp Require Import gmap strings list.

Local Open Scope string_scope.
Local Open Scope Z_scope.

(* ================================================================== *)
(** * Part I: the program                                               *)
(* ================================================================== *)

(** ** Go's [int] *)

Definition int_min : Z := - 2 ^ 63.
Definition int_max : Z := 2 ^ 63 - 1.

(** [fits z]: [z] is representable as an [int]. *)
Definition fits (z : Z) : Prop := int_min <= z <= int_max.
Definition fitsb (z : Z) : bool := (int_min <=? z) && (z <=? int_max).

(** Two's complement wrap-around of an exact result. *)
Definition wrap (z : Z) : Z := (z + 2 ^ 63) mod 2 ^ 64 - 2 ^ 63.

Definition iadd (a b : Z) : Z := wrap (a + b).
Definition isub (a b : Z) : Z := wrap (a - b).
Definition imul (a b : Z) : Z := wrap (a * b).

(** [a / b] and [a % b] truncate toward zero; a zero divisor panics
    ([None]). *)
Definition iquot (a b : Z) : option Z :=
  if b =? 0 then None else Some (wrap (Z.quot a b)).
Definition irem (a b : Z) : option Z :=
  if b =? 0 then None else Some (Z.rem a b).

(** ** Errors and results *)

Inductive error : Type :=
  | Errorf (msg : string)
  | Wrapf (msg : string) (cause : error)
  | ConverterNotFoundError (ConverterType : string)
  | ConverterUnavailableError (ConverterType Reason : string).

(** [e.Error()] *)
Fixpoint Error (e : error) : string :=
  match e with
  | Errorf msg => msg
  | Wrapf msg cause => msg ++ Error cause
  | ConverterNotFoundError t => "converter not found: " ++ t
  | ConverterUnavailableError t r =>
      "converter " ++ t ++ " is not available: " ++ r
  end.

Inductive result (A : Type) : Type :=
  | Ok (a : A)
  | Err (e : error)
  | Panic (msg : string).
Arguments Ok {A} a.
Arguments Err {A} e.
Arguments Panic {A} msg.

(** Sequencing: an error or a panic ends the computation.  With these
    instances stdpp's [x ← r; k] notation applies to [result]. *)
#[global] Instance result_ret : MRet result := fun A a => Ok a.
#[global] Instance result_bind : MBind result := fun A B k r =>
  match r with
  | Ok a => k a
  | Err e => Err e
  | Panic m => Panic m
  end.

(** ** Go's [float64] *)

Definition float64 : Type := spec_float.

Module f64.
Definition prec : Z := 53.
Definition emax : Z := 1024.

Definition mul : float64 -> float64 -> float64 := SFmul prec emax.
Definition div : float64 -> float64 -> float64 := SFdiv prec emax.
Definition sqrt : float64 -> float64 := SFsqrt prec emax.
Definition eqb : float64 -> float64 -> bool := SFeqb.
Definition ltb : float64 -> float64 -> bool := SFltb.

Definition zero : float64 := S754_zero false.

(** [float64(n)] for an [int] [n]: the nearest double, ties to even. *)
Definition of_int (n : Z) : float64 := binary_normalize prec emax n 0 false.

(** The integer part of a finite double [m * 2^e], toward zero. *)
Definition trunc_mag (m : positive) (e : Z) : Z := Z.shiftl (Zpos m) e.

(** [int(f)]: the fractional part is discarded.  Go leaves the result
    open when the value does not fit; this is what amd64 produces
    (the "integer indefinite" value). *)
Definition to_int (f : float64) : Z :=
  match f with
  | S754_zero _ => 0
  | S754_finite s m e =>
      let t := trunc_mag m e in
      let v := if s then - t else t in
      if fitsb v then v else int_min
  | S754_infinity _ | S754_nan => int_min
  end.

(** [math.Ceil]: the least integer value not below [f]; zeros,
    infinities and NaN are returned as they are. *)
Definition Ceil (f : float64) : float64 :=
  match f with
  | S754_finite s m e =>
      if 0 <=? e then f
      else
        let d := 2 ^ (- e) in
        let c := if s then - (Zpos m / d) else (Zpos m + d - 1) / d in
        binary_normalize prec emax c 0 s
  | _ => f
  end.

(** [math.Sqrt] *)
Definition Sqrt : float64 -> float64 := sqrt.
End f64.

(** ** package unicode/utf8 *)

Module utf8.

Definition byte (c : ascii) : Z := Z.of_N (N_of_ascii c).
Definition chr (b : Z) : ascii := ascii_of_N (Z.to_N b).

Definition RuneError : Z := 65533.
Definition MaxRune : Z := 1114111.

(** [utf8.DecodeRune] on byte values: the first rune of a byte sequence
    and its width; an invalid or short encoding is [RuneError] of width 1
    (width 0 when the input is empty). *)
Definition decode (p : list Z) : Z * nat :=
  match p with
  | [] => (RuneError, 0%nat)
  | p0 :: p1 =>
      if p0 <? 128 then (p0, 1%nat)
      else if (p0 <? 194) || (244 <? p0) then (RuneError, 1%nat)
      else
        let sz : nat := if p0 <? 224 then 2%nat
                        else if p0 <? 240 then 3%nat else 4%nat in
        let lo := if p0 =? 224 then 160 else if p0 =? 240 then 144 else 128 in
        let hi := if p0 =? 237 then 159 else if p0 =? 244 then 143 else 191 in
        if (length p <? sz)%nat then (RuneError, 1%nat)
        else
          match p1 with
          | b1 :: p2 =>
              if (b1 <? lo) || (hi <? b1) then (RuneError, 1%nat)
              else if (sz <=? 2)%nat then
                (Z.lor (Z.shiftl (Z.land p0 31) 6) (Z.land b1 63), 2%nat)
              else
                match p2 with
                | b2 :: p3 =>
                    if (b2 <? 128) || (191 <? b2) then (RuneError, 1%nat)
                    else if (sz <=? 3)%nat then
                      (Z.lor (Z.lor (Z.shiftl (Z.land p0 15) 12)
                                    (Z.shiftl (Z.land b1 63) 6))
                             (Z.land b2 63), 3%nat)
                    else
                      match p3 with
                      | b3 :: _ =>
                          if (b3 <? 128) || (191 <? b3) then (RuneError, 1%nat)
                          else
                            (Z.lor (Z.lor (Z.lor (Z.shiftl (Z.land p0 7) 18)
                                                 (Z.shiftl (Z.land b1 63) 12))
                                          (Z.shiftl (Z.land b2 63) 6))
                                   (Z.land b3 63), 4%nat)
                      | [] => (RuneError, 1%nat)
                      end
                | [] => (RuneError, 1%nat)
                end
          | [] => (RuneError, 1%nat)
          end
  end.

Definition DecodeRune (p : list ascii) : Z * nat := decode (map byte p).

(** [utf8.AppendRune] to an empty buffer, as byte values: the UTF-8
    encoding of a rune; a surrogate or out-of-range rune is encoded as
    [RuneError]. *)
Definition encode (r : Z) : list Z :=
  let enc3 (r : Z) :=
    [Z.lor 224 (Z.shiftr r 12);
     Z.lor 128 (Z.land (Z.shiftr r 6) 63);
     Z.lor 128 (Z.land r 63)] in
  if (0 <=? r) && (r <=? 127) then [r]
  else if (0 <=? r) && (r <=? 2047) then
    [Z.lor 192 (Z.shiftr r 6); Z.lor 128 (Z.land r 63)]
  else if (r <? 0) || (MaxRune <? r) || ((55296 <=? r) && (r <=? 57343))
  then enc3 RuneError
  else if r <=? 65535 then enc3 r
  else
    [Z.lor 240 (Z.shiftr r 18);
     Z.lor 128 (Z.land (Z.shiftr r 12) 63);
     Z.lor 128 (Z.land (Z.shiftr r 6) 63);
     Z.lor 128 (Z.land r 63)].

Definition EncodeRune (r : Z) : list ascii := map chr (encode r).

(** The runes of a byte sequence with their encodings, as a [range] loop
    over a string yields them. *)
Fixpoint runes (fuel : nat) (p : list ascii) : list (Z * list ascii) :=
  match fuel, p with
  | S fuel', _ :: _ =>
      let '(r, size) := DecodeRune p in
      (r, firstn size p) :: runes fuel' (skipn size p)
  | _, _ => []
  end.

(** [utf8.ValidString]: no byte fails to decode. *)
Definition ValidString (s : string) : bool :=
  let p := list_ascii_of_string s in
  forallb (fun rb => negb ((fst rb =? RuneError)
                           && (length (snd rb) =? 1)%nat))
          (runes (length p) p).

End utf8.

(** ** package unicode *)

Module unicode.

(** [unicode.IsSpace]: the code points with the White_Space property. *)
Definition IsSpace (r : Z) : bool :=
  ((9 <=? r) && (r <=? 13)) || (r =? 32) || (r =? 133) || (r =? 160)
  || (r =? 5760) || ((8192 <=? r) && (r <=? 8202)) || (r =? 8232)
  || (r =? 8233) || (r =? 8239) || (r =? 8287) || (r =? 12288).

End unicode.

(** ** package strings *)

Module strings.

Definition quote : string := String (ascii_of_nat 34) EmptyString.

Fixpoint HasPrefix (s prefix : string) : bool :=
  match prefix with
  | EmptyString => true
  | String c prefix' =>
      match s with
      | String d s' => Ascii.eqb c d && HasPrefix s' prefix'
      | EmptyString => false
      end
  end.

(** [strings.Index]: the index of the first instance of [substr] in [s],
    or -1. *)
Fixpoint Index (s substr : string) : Z :=
  if HasPrefix s substr then 0
  else
    match s with
    | EmptyString => -1
    | String _ s' =>
        let i := Index s' substr in
        if i <? 0 then -1 else i + 1
    end.

(** [s[i:]] and [s[i:j]], for indices within the string. *)
Fixpoint from (s : string) (i : nat) : string :=
  match i, s with
  | S i', String _ s' => from s' i'
  | _, _ => s
  end.

Fixpoint upto (s : string) (j : nat) : string :=
  match j, s with
  | S j', String c s' => String c (upto s' j')
  | _, _ => EmptyString
  end.

Definition slice (s : string) (i j : Z) : string :=
  upto (from s (Z.to_nat i)) (Z.to_nat (j - i)).

Definition len (s : string) : Z := Z.of_nat (String.length s).

Definition HasSuffix (s suffix : string) : bool :=
  (len suffix <=? len s)
  && String.eqb (from s (Z.to_nat (len s - len suffix))) suffix.

Definition TrimSuffix (s suffix : string) : string :=
  if HasSuffix s suffix then slice s 0 (len s - len suffix) else s.

(** [strings.Fields]: the maximal runs of non-space runes. *)
Fixpoint fields (rs : list (Z * list ascii)) (cur : list ascii)
    : list string :=
  match rs with
  | [] => match cur with [] => [] | _ => [string_of_list_ascii cur] end
  | (r, bytes) :: rs' =>
      if unicode.IsSpace r then
        match cur with
        | [] => fields rs' []
        | _ => string_of_list_ascii cur :: fields rs' []
        end
      else fields rs' (cur ++ bytes)
  end.

Definition Fields (s : string) : list string :=
  let p := list_ascii_of_string s in
  fields (utf8.runes (length p) p) [].

End strings.

(** ** package strconv: [ParseFloat] and [Atoi] *)

Module strconv.

Definition within (c : ascii) (set : string) : bool :=
  existsb (Ascii.eqb c) (list_ascii_of_string set).

Definition is_digit (c : ascii) : bool := within c "0123456789".

(** [lower]: the byte with bit [0x20] set. *)
Definition lower (c : ascii) : ascii := utf8.chr (Z.lor (utf8.byte c) 32).

Definition is_hex_letter (c : ascii) : bool := within (lower c) "abcdef".

Definition digit_value (c : ascii) : Z :=
  if is_digit c then utf8.byte c - 48 else utf8.byte (lower c) - 97 + 10.

(** [commonPrefixLenIgnoreCase], for a lower-case [prefix]. *)
Fixpoint commonPrefixLenIgnoreCase (s prefix : list ascii) : Z :=
  match s, prefix with
  | c :: s', p :: prefix' =>
      let c := if within c "ABCDEFGHIJKLMNOPQRSTUVWXYZ" then lower c else c in
      if Ascii.eqb c p then 1 + commonPrefixLenIgnoreCase s' prefix' else 0
  | _, _ => 0
  end.

(** [special]: infinities and NaN; the value and the bytes consumed. *)
Definition special (s : list ascii) : option (float64 * Z) :=
  let inf (neg : bool) (nsign : Z) (s : list ascii) :=
    let n := commonPrefixLenIgnoreCase s (list_ascii_of_string "infinity") in
    let n := if (3 <? n) && (n <? 8) then 3 else n in
    if (n =? 3) || (n =? 8) then Some (S754_infinity neg, nsign + n) else None in
  match s with
  | [] => None
  | c :: s' =>
      if within c "+-" then inf (Ascii.eqb c "-") 1 s'
      else if within c "iI" then inf false 0 s
      else if within c "nN" then
        if commonPrefixLenIgnoreCase s (list_ascii_of_string "nan") =? 3
        then Some (S754_nan, 3) else None
      else None
  end.

(** [underscoreOK]: underscores only between digits (or after a base
    prefix). [saw] is 0 at the beginning, 1 after a digit, 2 after an
    underscore, 3 after anything else. *)
Fixpoint underscore_walk (hex : bool) (saw : Z) (s : list ascii) : bool :=
  match s with
  | [] => negb (saw =? 2)
  | c :: s' =>
      if is_digit c || (hex && is_hex_letter c) then underscore_walk hex 1 s'
      else if Ascii.eqb c "_" then
        if saw =? 1 then underscore_walk hex 2 s' else false
      else if saw =? 2 then false
      else underscore_walk hex 3 s'
  end.

Definition underscoreOK (s : list ascii) : bool :=
  let s := match s with
           | c :: s' => if within c "+-" then s' else s
           | [] => s
           end in
  match s with
  | c0 :: c1 :: s' =>
      if Ascii.eqb c0 "0" && within (lower c1) "box"
      then underscore_walk (Ascii.eqb (lower c1) "x") 1 s'
      else underscore_walk false 0 s
  | _ => underscore_walk false 0 s
  end.

(** What [readFloat] collects from the digits: the integer of all
    mantissa digits, the number of digits after the point, and flags. *)
Record Mantissa : Type := {
  digits : Z; fraction : Z; sawdot : bool; sawdigits : bool;
  underscores : bool
}.

Fixpoint read_mantissa (hex : bool) (s : list ascii) (st : Mantissa)
    : Mantissa * list ascii :=
  match s with
  | [] => (st, [])
  | c :: s' =>
      if Ascii.eqb c "_" then
        read_mantissa hex s'
          {| digits := digits st; fraction := fraction st;
             sawdot := sawdot st; sawdigits := sawdigits st;
             underscores := true |}
      else if Ascii.eqb c "." then
        if sawdot st then (st, s)
        else read_mantissa hex s'
               {| digits := digits st; fraction := fraction st;
                  sawdot := true; sawdigits := sawdigits st;
                  underscores := underscores st |}
      else if is_digit c || (hex && is_hex_letter c) then
        read_mantissa hex s'
          {| digits := digits st * (if hex then 16 else 10) + digit_value c;
             fraction := if sawdot st then fraction st + 1 else fraction st;
             sawdot := sawdot st; sawdigits := true;
             underscores := underscores st |}
      else (st, s)
  end.

(** The exponent digits; the value stops growing at 10000. *)
Fixpoint read_exponent (s : list ascii) (e : Z) (underscores : bool)
    : Z * bool * list ascii :=
  match s with
  | c :: s' =>
      if Ascii.eqb c "_" then read_exponent s' e true
      else if is_digit c then
        read_exponent s' (if e <? 10000 then e * 10 + digit_value c else e)
          underscores
      else (e, underscores, s)
  | [] => (e, underscores, [])
  end.

(** The double nearest to [(-1)^neg * m * 10^e] or, for a hexadecimal
    literal, [(-1)^neg * m * 2^e], ties to even. *)
Definition nearest (hex neg : bool) (m e : Z) : float64 :=
  match m with
  | Zpos p =>
      if hex then binary_round f64.prec f64.emax neg p e
      else if 0 <=? e then
        binary_normalize f64.prec f64.emax
          ((if neg then -1 else 1) * (m * 10 ^ e)) 0 neg
      else
        f64.div (S754_finite neg p 0)
                (S754_finite false (Z.to_pos (10 ^ (- e))) 0)
  | _ => S754_zero neg
  end.

(** [strconv.ParseFloat s 64]; [None] for a syntax or range error. *)
Definition ParseFloat (str : string) : option float64 :=
  let s := list_ascii_of_string str in
  match special s with
  | Some (v, n) => if n =? Z.of_nat (length s) then Some v else None
  | None =>
      let '(neg, s1) :=
        match s with
        | c :: s' => if Ascii.eqb c "+" then (false, s')
                     else if Ascii.eqb c "-" then (true, s') else (false, s)
        | [] => (false, s)
        end in
      let '(hex, s2) :=
        match s1 with
        | c0 :: c1 :: (_ :: _) as s' =>
            if Ascii.eqb c0 "0" && Ascii.eqb (lower c1) "x"
            then (true, s') else (false, s1)
        | _ => (false, s1)
        end in
      let '(mant, s3) :=
        read_mantissa hex s2
          {| digits := 0; fraction := 0; sawdot := false;
             sawdigits := false; underscores := false |} in
      if negb (sawdigits mant) then None
      else
        let exponent :=
          match s3 with
          | c :: s4 =>
              if Ascii.eqb (lower c) (if hex then "p" else "e")%char then
                match s4 with
                | [] => None
                | d :: s5 =>
                    let '(esign, s6) :=
                      if Ascii.eqb d "+" then (1, s5)
                      else if Ascii.eqb d "-" then (-1, s5) else (1, s4) in
                    match s6 with
                    | d0 :: _ =>
                        if is_digit d0 then
                          let '(e, us, rest) :=
                            read_exponent s6 0 (underscores mant) in
                          Some (e * esign, us, rest)
                        else None
                    | [] => None
                    end
                end
              else if hex then None
              else Some (0, underscores mant, s3)
          | [] => if hex then None else Some (0, underscores mant, s3)
          end in
        match exponent with
        | None => None
        | Some (e, us, rest) =>
            if us && negb (underscoreOK s) then None
            else
              match rest with
              | _ :: _ => None
              | [] =>
                  let scale := if hex then 4 else 1 in
                  match nearest hex neg (digits mant)
                          (e - scale * fraction mant) with
                  | S754_infinity _ => None
                  | f => Some f
                  end
              end
        end
  end.

(** [strconv.Atoi]; [None] for a syntax or range error. *)
Definition Atoi (str : string) : option Z :=
  let s := list_ascii_of_string str in
  let '(neg, ds) :=
    match s with
    | c :: s' => if Ascii.eqb c "+" then (false, s')
                 else if Ascii.eqb c "-" then (true, s') else (false, s)
    | [] => (false, s)
    end in
  match ds with
  | [] => None
  | _ =>
      if forallb is_digit ds then
        let v := fold_left (fun acc c => acc * 10 + digit_value c) ds 0 in
        let v := if neg then - v else v in
        if fitsb v then Some v else None
      else None
  end.

End strconv.

(** ** package fmt: [Sscanf] with the format ["%f"] *)

Module fmt.

(** [SkipSpace] of a scan that does not treat newlines as space: [None]
    for the error "unexpected newline". *)
Fixpoint SkipSpace (fuel : nat) (p : list ascii) : option (list ascii) :=
  match fuel, p with
  | S fuel', c :: _ =>
      let '(r, size) := utf8.DecodeRune p in
      if (r =? 13) && match skipn size p with
                      | d :: _ => Ascii.eqb d (ascii_of_nat 10)
                      | [] => false
                      end
      then SkipSpace fuel' (skipn size p)
      else if r =? 10 then None
      else if unicode.IsSpace r then SkipSpace fuel' (skipn size p)
      else Some p
  | _, _ => Some p
  end.

(** [accept]: consume the next character if it is in the set. *)
Definition accept (ok : string) (st : list ascii * list ascii)
    : bool * (list ascii * list ascii) :=
  let '(buf, p) := st in
  match p with
  | c :: p' => if strconv.within c ok then (true, ((buf ++ [c])%list, p'))
               else (false, st)
  | [] => (false, st)
  end.

Fixpoint accept_all (ok : string) (buf p : list ascii)
    : list ascii * list ascii :=
  match p with
  | c :: p' => if strconv.within c ok then accept_all ok (buf ++ [c])%list p'
               else (buf, p)
  | [] => (buf, p)
  end.

(** Three characters in a row, each from its set; what was accepted
    stays consumed when a later one fails. *)
Definition accept3 (a b c : string) (st : list ascii * list ascii)
    : bool * (list ascii * list ascii) :=
  let '(ok1, st1) := accept a st in
  if ok1 then
    let '(ok2, st2) := accept b st1 in
    if ok2 then accept c st2 else (false, st2)
  else (false, st1).

(** [floatToken]: the text of the next floating-point number, which may
    be malformed. *)
Definition floatToken (p : list ascii) : string :=
  let '(nan, st) := accept3 "nN" "aA" "nN" ([], p) in
  if nan then string_of_list_ascii (fst st)
  else
    let st := snd (accept "+-" st) in
    let '(inf, st) := accept3 "iI" "nN" "fF" st in
    if inf then string_of_list_ascii (fst st)
    else
      let '(zero, st) := accept "0" st in
      let '(hex, st) := if zero then accept "xX" st else (false, st) in
      let digits := if hex then "0123456789aAbBcCdDeEfF_" else "0123456789_" in
      let exp := if hex then "pP" else "eEpP" in
      let st := accept_all digits (fst st) (snd st) in
      let '(point, st) := accept "." st in
      let st := if point then accept_all digits (fst st) (snd st) else st in
      let '(e, st) := accept exp st in
      let st :=
        if e then
          let st := snd (accept "+-" st) in
          accept_all "0123456789_" (fst st) (snd st)
        else st in
      string_of_list_ascii (fst st).

(** [convertFloat]: a decimal mantissa may carry a binary exponent
    ([1.5p3]); everything else is left to [strconv.ParseFloat]. *)
Definition convertFloat (str : string) : option float64 :=
  let p := strings.Index str "p" in
  if (0 <=? p) && negb (0 <=? strings.Index str "x")
               && negb (0 <=? strings.Index str "X")
  then
    f ← strconv.ParseFloat (strings.slice str 0 p);
    m ← strconv.Atoi (strings.from str (Z.to_nat (p + 1)));
    Some (SFldexp f64.prec f64.emax f m)
  else strconv.ParseFloat str.

(** [fmt.Sscanf(str, "%f", &result)]: the scanned value, or [None] when
    an error is returned. *)
Definition Sscanf_f (str : string) : option float64 :=
  let p := list_ascii_of_string str in
  p ← SkipSpace (length p) p;
  match p with
  | [] => None
  | _ => convertFloat (floatToken p)
  end.

End fmt.

(** ** package config *)

Module config.
Record Config : Type := {
  Input : string;
  Output : string;
  Scale : float64;
  Width : Z;
  Height : Z;
  TileWidth : Z;
  TileHeight : Z;
  Cols : Z;
  Rows : Z;
  Padding : Z;
  Sort : string;
  Meta : string;
  Trim : bool;
  Force : bool;
  Verbose : bool;
  Converter : string
}.
End config.

(** ** package svg: conversion options and the converter registry *)

Module svg.

Record ConversionOptions : Type := {
  Scale : float64;
  Width : Z;
  Height : Z;
  Verbose : bool
}.

Definition NewConversionOptions (cfg : config.Config) : ConversionOptions :=
  {| Scale := config.Scale cfg;
     Width := config.Width cfg;
     Height := config.Height cfg;
     Verbose := config.Verbose cfg |}.

(** [CalculateDimensions]: the target width and height of a conversion.
    The Go function returns two ints and no error. *)
Definition CalculateDimensions (opts : ConversionOptions)
    (origWidth origHeight : float64) : Z * Z :=
  if f64.eqb (Scale opts) f64.zero && (Width opts =? 0) && (Height opts =? 0)
  then (f64.to_int origWidth, f64.to_int origHeight)
  else if f64.ltb f64.zero (Scale opts)
  then (f64.to_int (f64.mul origWidth (Scale opts)),
        f64.to_int (f64.mul origHeight (Scale opts)))
  else if (0 <? Width opts) && (0 <? Height opts)
  then (Width opts, Height opts)
  else if 0 <? Width opts
  then
    let aspectRatio := f64.div origHeight origWidth in
    (Width opts, f64.to_int (f64.mul (f64.of_int (Width opts)) aspectRatio))
  else if 0 <? Height opts
  then
    let aspectRatio := f64.div origWidth origHeight in
    (f64.to_int (f64.mul (f64.of_int (Height opts)) aspectRatio), Height opts)
  else (f64.to_int origWidth, f64.to_int origHeight).

(** The [SVGConverter] interface.  Only the methods the registry calls
    are kept; [IsAvailable] is the outcome of the availability probe on
    the current host ([None] for a nil error). *)
Record SVGConverter : Type := {
  Name : string;
  Description : string;
  IsAvailable : option error
}.

Abbreviation Factory := (ConversionOptions -> SVGConverter).

Record ConverterRegistry : Type := {
  converters : gmap string Factory
}.

Definition Register (r : ConverterRegistry) (converterType : string)
    (factory : Factory) : ConverterRegistry :=
  {| converters := <[converterType := factory]> (converters r) |}.

Definition Create (r : ConverterRegistry) (converterType : string)
    (opts : ConversionOptions) : result SVGConverter :=
  match converters r !! converterType with
  | None => Err (ConverterNotFoundError converterType)
  | Some factory =>
      let converter := factory opts in
      match IsAvailable converter with
      | Some err =>
          Err (ConverterUnavailableError converterType (Error err))
      | None => Ok converter
      end
  end.

Record ConverterInfo : Type := {
  Type_ : string;
  InfoName : string;
  InfoDescription : string;
  Available : bool
}.

Definition GetConverterInfo (r : ConverterRegistry) (converterType : string)
    (opts : ConversionOptions) : result ConverterInfo :=
  match converters r !! converterType with
  | None => Err (ConverterNotFoundError converterType)
  | Some factory =>
      let converter := factory opts in
      Ok {| Type_ := converterType;
            InfoName := Name converter;
            InfoDescription := Description converter;
            Available := match IsAvailable converter with
                         | None => true | Some _ => false end |}
  end.

(** [parseFloatRod] parses a float from a string, handling units. *)
Definition parseFloatRod (s : string) : option float64 :=
  let s := strings.TrimSuffix s "px" in
  let s := strings.TrimSuffix s "pt" in
  let s := strings.TrimSuffix s "em" in
  let s := strings.TrimSuffix s "rem" in
  fmt.Sscanf_f s.

(** [parseFloatRSVG]: the same code in the rsvg converter. *)
Definition parseFloatRSVG (s : string) : option float64 :=
  let s := strings.TrimSuffix s "px" in
  let s := strings.TrimSuffix s "pt" in
  let s := strings.TrimSuffix s "em" in
  let s := strings.TrimSuffix s "rem" in
  fmt.Sscanf_f s.

(** The body shared, word for word, by the two [parseSVGDimensions]
    methods; they differ in the float parser they call. *)
Definition parseSVGDimensionsWith (parseFloat : string -> option float64)
    (svgData : string) : result (float64 * float64) :=
  let svgStr := svgData in
  (* Default dimensions if not found *)
  let width := f64.of_int 100 in
  let height := f64.of_int 100 in
  (* Look for viewBox attribute first *)
  let '(width, height) :=
    let viewBoxStart := strings.Index svgStr ("viewBox=" ++ strings.quote) in
    if negb (viewBoxStart =? -1) then
      let viewBoxStart := viewBoxStart + 9 in
      let viewBoxEnd :=
        strings.Index (strings.from svgStr (Z.to_nat viewBoxStart))
          strings.quote in
      if negb (viewBoxEnd =? -1) then
        let viewBox :=
          strings.slice svgStr viewBoxStart (viewBoxStart + viewBoxEnd) in
        let parts := strings.Fields viewBox in
        if (4 <=? length parts)%nat then
          let width := match parseFloat (nth 2 parts "") with
                       | Some w => w | None => width end in
          let height := match parseFloat (nth 3 parts "") with
                        | Some h => h | None => height end in
          (width, height)
        else (width, height)
      else (width, height)
    else (width, height) in
  (* Look for width and height attributes *)
  let width :=
    let widthStart := strings.Index svgStr ("width=" ++ strings.quote) in
    if negb (widthStart =? -1) then
      let widthStart := widthStart + 7 in
      let widthEnd :=
        strings.Index (strings.from svgStr (Z.to_nat widthStart))
          strings.quote in
      if negb (widthEnd =? -1) then
        let widthStr :=
          strings.slice svgStr widthStart (widthStart + widthEnd) in
        match parseFloat widthStr with Some w => w | None => width end
      else width
    else width in
  let height :=
    let heightStart := strings.Index svgStr ("height=" ++ strings.quote) in
    if negb (heightStart =? -1) then
      let heightStart := heightStart + 8 in
      let heightEnd :=
        strings.Index (strings.from svgStr (Z.to_nat heightStart))
          strings.quote in
      if negb (heightEnd =? -1) then
        let heightStr :=
          strings.slice svgStr heightStart (heightStart + heightEnd) in
        match parseFloat heightStr with Some h => h | None => height end
      else height
    else height in
  Ok (width, height).

Module RodConverter.
(** [parseSVGDimensions] extracts width and height from SVG data. *)
Definition parseSVGDimensions (svgData : string) : result (float64 * float64) :=
  parseSVGDimensionsWith parseFloatRod svgData.
End RodConverter.

Module RSVGConverter.
Definition parseSVGDimensions (svgData : string) : result (float64 * float64) :=
  parseSVGDimensionsWith parseFloatRSVG svgData.
End RSVGConverter.

End svg.

(** ** package image (the part of Go's library the program uses) *)

Module image.

Record Point : Type := { X : Z; Y : Z }.
Record Rectangle : Type := { Min : Point; Max : Point }.

(** [image.Rect]: the corners are swapped where needed so that
    [Min <= Max] in both coordinates. *)
Definition Rect (x0 y0 x1 y1 : Z) : Rectangle :=
  let '(x0, x1) := if x1 <? x0 then (x1, x0) else (x0, x1) in
  let '(y0, y1) := if y1 <? y0 then (y1, y0) else (y0, y1) in
  {| Min := {| X := x0; Y := y0 |}; Max := {| X := x1; Y := y1 |} |}.

Definition Dx (r : Rectangle) : Z := isub (X (Max r)) (X (Min r)).
Definition Dy (r : Rectangle) : Z := isub (Y (Max r)) (Y (Min r)).

Definition InRect (x y : Z) (r : Rectangle) : bool :=
  (X (Min r) <=? x) && (x <? X (Max r)) &&
  (Y (Min r) <=? y) && (y <? Y (Max r)).

(** A colour as [Color.RGBA()] returns it: four alpha-premultiplied
    16-bit channels. *)
Record Color : Type := { R : Z; G : Z; B : Z; A : Z }.

Definition Transparent : Color := {| R := 0; G := 0; B := 0; A := 0 |}.

(** What an RGBA image keeps of a colour: the high byte of each
    channel, read back as [v * 0x101]. *)
Definition rgba8 (c : Color) : Color :=
  let ch v := ((Z.shiftr v 8) mod 256) * 257 in
  {| R := ch (R c); G := ch (G c); B := ch (B c); A := ch (A c) |}.

(** The [image.Image] interface: bounds and a pixel at every point. *)
Record Image : Type := { Bounds : Rectangle; At : Z -> Z -> Color }.

(** [mul3NonNeg]: [x * y * z], or -1 when an argument is negative or
    the product does not fit an [int]. *)
Definition mul3NonNeg (x y z : Z) : Z :=
  if (x <? 0) || (y <? 0) || (z <? 0) then -1
  else if 2 ^ 64 <=? x * y then -1
  else if 2 ^ 64 <=? x * y * z then -1
  else if wrap (x * y * z) <? 0 then -1
  else wrap (x * y * z).

(** [image.NewRGBA]: a fully transparent image; panics on a rectangle
    whose pixel buffer length does not fit an [int]. *)
Definition NewRGBA (r : Rectangle) : result Image :=
  if mul3NonNeg 4 (Dx r) (Dy r) <? 0
  then Panic "image: NewRGBA Rectangle has huge or negative dimensions"
  else Ok {| Bounds := r; At := fun _ _ => Transparent |}.

(** The [Set] method of an RGBA image: a point outside the bounds is
    ignored. *)
Definition Set_ (img : Image) (x y : Z) (c : Color) : Image :=
  if InRect x y (Bounds img)
  then {| Bounds := Bounds img;
          At := fun x' y' =>
            if (x' =? x) && (y' =? y) then rgba8 c else At img x' y' |}
  else img.

End image.

(** ** package image/draw *)

Module draw.

Inductive Op : Type := Over | Src.

Record Call : Type := {
  r : image.Rectangle;
  src : image.Image;
  sp : image.Point;
  op : Op
}.

(** A destination image under construction: the freshly allocated
    image and the [draw.Draw] calls applied to it, oldest first. *)
Record Canvas : Type := { Dst : image.Image; Calls : list Call }.

Definition NewCanvas (dst : image.Image) : Canvas :=
  {| Dst := dst; Calls := [] |}.

Definition Draw (dst : Canvas) (r : image.Rectangle) (src : image.Image)
    (sp : image.Point) (op : Op) : Canvas :=
  {| Dst := Dst dst;
     Calls := Calls dst ++ [ {| r := r; src := src; sp := sp; op := op |} ] |}.

End draw.

(** ** package path/filepath (Unix) *)

Module filepath.

Definition slash : ascii := "/"%char.
Definition dot : ascii := "."%char.

Definition chars (s : string) : list ascii := list_ascii_of_string s.
Definition str (l : list ascii) : string := string_of_list_ascii l.

Fixpoint drop_slashes (l : list ascii) : list ascii :=
  match l with
  | c :: l' => if Ascii.eqb c slash then drop_slashes l' else l
  | [] => []
  end.

Fixpoint take_elem (l : list ascii) : list ascii :=
  match l with
  | c :: l' => if Ascii.eqb c slash then [] else c :: take_elem l'
  | [] => []
  end.

(** [filepath.Base] *)
Definition Base (path : string) : string :=
  if String.eqb path "" then "."
  else
    let last := take_elem (drop_slashes (rev (chars path))) in
    match last with
    | [] => "/"
    | _ => str (rev last)
    end.

(** On the reversed path: the characters after the last dot of the last
    element, dot included, if there is one. *)
Fixpoint ext_rev (l acc : list ascii) : list ascii :=
  match l with
  | c :: l' =>
      if Ascii.eqb c slash then []
      else if Ascii.eqb c dot then c :: acc
      else ext_rev l' (c :: acc)
  | [] => []
  end.

(** [filepath.Ext] *)
Definition Ext (path : string) : string := str (ext_rev (rev (chars path)) []).

End filepath.

(** ** package utils *)

Module utils.

Record FileMapping : Type := {
  PNGPath : string;
  OriginalPath : string;
  IsTemporary : bool
}.

(** [for x := lo; x < hi; x++]: the values [x] takes. *)
Fixpoint upfrom (lo : Z) (n : nat) : list Z :=
  match n with
  | O => []
  | S k => lo :: upfrom (lo + 1) k
  end.
Definition loop (lo hi : Z) : list Z := upfrom lo (Z.to_nat (hi - lo)).

Record ContentBounds : Type := {
  minX : Z; minY : Z; maxX : Z; maxY : Z; found : bool
}.

(** The body of the scanning loop of [TrimTransparent]. *)
Definition scan_pixel (img : image.Image) (y : Z) (st : ContentBounds)
    (x : Z) : ContentBounds :=
  if 0 <? image.A (image.At img x y) then
    if negb (found st) then
      {| minX := x; minY := y; maxX := x; maxY := y; found := true |}
    else
      let minX1 := if x <? minX st then x else minX st in
      let maxX1 := if maxX st <? x then x else maxX st in
      let minY1 := if y <? minY st then y else minY st in
      let maxY1 := if maxY st <? y then y else maxY st in
      {| minX := minX1; minY := minY1; maxX := maxX1; maxY := maxY1;
         found := true |}
  else st.

Definition scan (img : image.Image) : ContentBounds :=
  let bounds := image.Bounds img in
  let bmin := image.Min bounds in
  let bmax := image.Max bounds in
  fold_left
    (fun st y =>
       fold_left (scan_pixel img y) (loop (image.X bmin) (image.X bmax)) st)
    (loop (image.Y bmin) (image.Y bmax))
    {| minX := image.X bmax; minY := image.Y bmax;
       maxX := image.X bmin; maxY := image.Y bmin; found := false |}.

(** [TrimTransparent] removes transparent edges from an image. *)
Definition TrimTransparent (img : image.Image) : result image.Image :=
  let st := scan img in
  if negb (found st) then image.NewRGBA (image.Rect 0 0 1 1)
  else
    let trimmedBounds :=
      image.Rect 0 0 (iadd (isub (maxX st) (minX st)) 1)
                     (iadd (isub (maxY st) (minY st)) 1) in
    result ← image.NewRGBA trimmedBounds;
    mret
      (fold_left
         (fun res y =>
            fold_left
              (fun res x =>
                 image.Set_ res (isub x (minX st)) (isub y (minY st))
                   (image.At img x y))
              (loop (minX st) (maxX st + 1)) res)
         (loop (minY st) (maxY st + 1)) result).

(** [ResizeImage] resizes an image to the given dimensions by nearest
    neighbour sampling. *)
Definition ResizeImage (img : image.Image) (width height : Z)
    : result image.Image :=
  let bounds := image.Bounds img in
  let srcWidth := image.Dx bounds in
  let srcHeight := image.Dy bounds in
  if (srcWidth =? width) && (srcHeight =? height) then mret img
  else
    result ← image.NewRGBA (image.Rect 0 0 width height);
    let scaleX := f64.div (f64.of_int srcWidth) (f64.of_int width) in
    let scaleY := f64.div (f64.of_int srcHeight) (f64.of_int height) in
    mret
      (fold_left
         (fun res y =>
            fold_left
              (fun res x =>
                 let srcX := f64.to_int (f64.mul (f64.of_int x) scaleX) in
                 let srcY := f64.to_int (f64.mul (f64.of_int y) scaleY) in
                 let srcX :=
                   if srcWidth <=? srcX then isub srcWidth 1 else srcX in
                 let srcY :=
                   if srcHeight <=? srcY then isub srcHeight 1 else srcY in
                 image.Set_ res x y
                   (image.At img
                      (iadd (image.X (image.Min bounds)) srcX)
                      (iadd (image.Y (image.Min bounds)) srcY)))
              (loop 0 width) res)
         (loop 0 height) result).

End utils.

(** ** package metadata: the data model *)

Module metadata.

Record SpriteInfo : Type := {
  Name : string;
  X : Z;
  Y : Z;
  Width : Z;
  Height : Z;
  Index : Z
}.

Record SpritesheetMetadata : Type := {
  SheetWidth : Z;
  SheetHeight : Z;
  TileWidth : Z;
  TileHeight : Z;
  Cols : Z;
  Rows : Z;
  Padding : Z;
  Sprites : list SpriteInfo
}.

End metadata.

(** ** package spritesheet *)

Module spritesheet.

Record Generator : Type := { config_ : config.Config }.

Definition NewGenerator (cfg : config.Config) : Generator :=
  {| config_ := cfg |}.

Record ImageInfo : Type := {
  Image : image.Image;
  Filename : string;
  OriginalPath : string;
  Width : Z;
  Height : Z
}.

Record Layout : Type := {
  Cols : Z;
  Rows : Z;
  TileWidth : Z;
  TileHeight : Z;
  Padding : Z;
  LayoutWidth : Z;
  LayoutHeight : Z
}.

(** The files the generator reads and writes: the outcome of opening
    and decoding a PNG file, and of the three steps of saving one. *)
Record FS : Type := {
  DecodePNG : string -> result image.Image;
  MkdirAllDir : string -> option error;
  Create : string -> option error;
  EncodePNG : string -> draw.Canvas -> option error
}.

Definition loadImage (fs : FS) (filename : string) : result image.Image :=
  DecodePNG fs filename.

(** [processImage]: trim when asked to, then resize to the tile
    dimensions if they do not match. *)
Definition processImage (g : Generator) (img : image.Image)
    : result image.Image :=
  img ← (if config.Trim (config_ g) then utils.TrimTransparent img
         else mret img);
  let bounds := image.Bounds img in
  if negb (image.Dx bounds =? config.TileWidth (config_ g))
     || negb (image.Dy bounds =? config.TileHeight (config_ g))
  then utils.ResizeImage img (config.TileWidth (config_ g))
                             (config.TileHeight (config_ g))
  else mret img.

Definition originalName (path : string) : string :=
  let originalName := filepath.Base path in
  let ext := filepath.Ext originalName in
  if negb (String.eqb ext "")
  then String.substring 0
         (String.length originalName - String.length ext) originalName
  else originalName.

Fixpoint loadImages (fs : FS) (g : Generator)
    (fileMappings : list utils.FileMapping) : result (list ImageInfo) :=
  match fileMappings with
  | [] => mret []
  | mapping :: rest =>
      match loadImage fs (utils.PNGPath mapping) with
      | Err err =>
          Err (Wrapf ("failed to load " ++ utils.PNGPath mapping ++ ": ") err)
      | Panic m => Panic m
      | Ok img =>
          processedImg ← processImage g img;
          let info :=
            {| Image := processedImg;
               Filename := originalName (utils.OriginalPath mapping);
               OriginalPath := utils.OriginalPath mapping;
               Width := image.Dx (image.Bounds processedImg);
               Height := image.Dy (image.Bounds processedImg) |} in
          images ← loadImages fs g rest;
          mret (info :: images)
      end
  end.

(** [calculateLayout] determines the spritesheet layout. *)
Definition calculateLayout (g : Generator) (imageCount : Z) : Layout :=
  let cfg := config_ g in
  let ceil_div (a b : Z) : Z :=
    f64.to_int (f64.Ceil (f64.div (f64.of_int a) (f64.of_int b))) in
  let '(cols, rows) :=
    if 0 <? config.Cols cfg then
      let cols := config.Cols cfg in
      (cols, ceil_div imageCount cols)
    else if 0 <? config.Rows cfg then
      let rows := config.Rows cfg in
      (ceil_div imageCount rows, rows)
    else
      let cols := f64.to_int (f64.Ceil (f64.Sqrt (f64.of_int imageCount))) in
      (cols, ceil_div imageCount cols) in
  let width := iadd (imul cols (config.TileWidth cfg))
                    (imul (isub cols 1) (config.Padding cfg)) in
  let height := iadd (imul rows (config.TileHeight cfg))
                     (imul (isub rows 1) (config.Padding cfg)) in
  {| Cols := cols;
     Rows := rows;
     TileWidth := config.TileWidth cfg;
     TileHeight := config.TileHeight cfg;
     Padding := config.Padding cfg;
     LayoutWidth := width;
     LayoutHeight := height |}.

Definition getSpriteName (g : Generator) (filename : string) : string :=
  filename.

Definition divide_by_zero : string := "runtime error: integer divide by zero".

(** The placement loop of [createSpritesheet], from index [i] on. *)
Fixpoint place (g : Generator) (layout : Layout) (i : Z)
    (images : list ImageInfo)
    (st : draw.Canvas * metadata.SpritesheetMetadata)
    : result (draw.Canvas * metadata.SpritesheetMetadata) :=
  match images with
  | [] => mret st
  | imgInfo :: rest =>
      match irem i (Cols layout), iquot i (Cols layout) with
      | Some col, Some row =>
          let '(spritesheet, meta) := st in
          let x := imul col (iadd (TileWidth layout) (Padding layout)) in
          let y := imul row (iadd (TileHeight layout) (Padding layout)) in
          let destRect :=
            image.Rect x y (iadd x (TileWidth layout))
                           (iadd y (TileHeight layout)) in
          let spritesheet :=
            draw.Draw spritesheet destRect (Image imgInfo)
              {| image.X := 0; image.Y := 0 |} draw.Over in
          let sprite :=
            {| metadata.Name := getSpriteName g (Filename imgInfo);
               metadata.X := x;
               metadata.Y := y;
               metadata.Width := TileWidth layout;
               metadata.Height := TileHeight layout;
               metadata.Index := i |} in
          let meta :=
            {| metadata.SheetWidth := metadata.SheetWidth meta;
               metadata.SheetHeight := metadata.SheetHeight meta;
               metadata.TileWidth := metadata.TileWidth meta;
               metadata.TileHeight := metadata.TileHeight meta;
               metadata.Cols := metadata.Cols meta;
               metadata.Rows := metadata.Rows meta;
               metadata.Padding := metadata.Padding meta;
               metadata.Sprites := metadata.Sprites meta ++ [sprite] |} in
          place g layout (i + 1) rest (spritesheet, meta)
      | _, _ => Panic divide_by_zero
      end
  end.

(** [createSpritesheet] creates the spritesheet image and its metadata. *)
Definition createSpritesheet (g : Generator) (images : list ImageInfo)
    (layout : Layout)
    : result (draw.Canvas * metadata.SpritesheetMetadata) :=
  spritesheet ← image.NewRGBA
    (image.Rect 0 0 (LayoutWidth layout) (LayoutHeight layout));
  let meta :=
    {| metadata.SheetWidth := LayoutWidth layout;
       metadata.SheetHeight := LayoutHeight layout;
       metadata.TileWidth := TileWidth layout;
       metadata.TileHeight := TileHeight layout;
       metadata.Cols := Cols layout;
       metadata.Rows := Rows layout;
       metadata.Padding := Padding layout;
       metadata.Sprites := [] |} in
  place g layout 0 images (draw.NewCanvas spritesheet, meta).

Definition saveSpritesheet (fs : FS) (img : draw.Canvas)
    (outputPath : string) : option error :=
  match MkdirAllDir fs outputPath with
  | Some err => Some (Wrapf "failed to create output directory: " err)
  | None =>
      match Create fs outputPath with
      | Some err => Some (Wrapf "failed to create output file: " err)
      | None =>
          match EncodePNG fs outputPath img with
          | Some err => Some (Wrapf "failed to encode PNG: " err)
          | None => None
          end
      end
  end.

(** [Generate] creates a spritesheet from the given PNG files. *)
Definition Generate (fs : FS) (g : Generator)
    (fileMappings : list utils.FileMapping) (outputPath : string)
    : result metadata.SpritesheetMetadata :=
  if (Z.of_nat (length fileMappings) =? 0)
  then Err (Errorf "no PNG files provided")
  else
    match loadImages fs g fileMappings with
    | Err err => Err (Wrapf "failed to load images: " err)
    | Panic m => Panic m
    | Ok images =>
        let layout := calculateLayout g (Z.of_nat (length images)) in
        match createSpritesheet g images layout with
        | Err err => Err (Wrapf "failed to create spritesheet: " err)
        | Panic m => Panic m
        | Ok (spritesheet, metadata) =>
            match saveSpritesheet fs spritesheet outputPath with
            | Some err => Err (Wrapf "failed to save spritesheet: " err)
            | None => Ok metadata
            end
        end
    end.

End spritesheet.

(** ** package encoding/json, for the metadata types *)

Module json.

(** A JSON text as a tree.  A number keeps its literal; a string is kept
    decoded. *)
Inductive Value : Type :=
  | Null
  | Bool (b : bool)
  | Number (literal : string)
  | Str (s : string)
  | Array (elements : list Value)
  | Object (members : list (string * Value)).

Definition dq : ascii := ascii_of_nat 34.
Definition lf : ascii := ascii_of_nat 10.
Definition chars (s : string) : list ascii := list_ascii_of_string s.

(** *** Encoding *)

Definition hex_digit (n : Z) : ascii :=
  nth (Z.to_nat n) (chars "0123456789abcdef") "0"%char.

(** [htmlSafeSet]: the ASCII bytes written as they are. *)
Definition htmlSafe (b : Z) : bool :=
  (32 <=? b) && (b <? 128)
  && negb ((b =? 34) || (b =? 92) || (b =? 60) || (b =? 62) || (b =? 38)).

(** What [appendString] writes for one rune of the source. *)
Definition escape_rune (rb : Z * list ascii) : list ascii :=
  let '(r, bytes) := rb in
  if r <? 128 then
    if htmlSafe r then bytes
    else if (r =? 92) || (r =? 34) then ["\"%char; utf8.chr r]
    else if r =? 8 then chars "\b"
    else if r =? 12 then chars "\f"
    else if r =? 10 then chars "\n"
    else if r =? 13 then chars "\r"
    else if r =? 9 then chars "\t"
    else (chars "\u00"
          ++ [hex_digit (Z.shiftr r 4); hex_digit (Z.land r 15)])%list
  else if (r =? utf8.RuneError) && (length bytes =? 1)%nat then chars "\ufffd"
  else if (r =? 8232) || (r =? 8233) then
    (chars "\u202" ++ [hex_digit (Z.land r 15)])%list
  else bytes.

(** [appendString] with HTML escaping: a quoted JSON string. *)
Definition appendString (s : string) : list ascii :=
  let p := chars s in
  (dq :: flat_map escape_rune (utf8.runes (length p) p) ++ [dq])%list.

(** The decimal digits of a natural number, most significant first. *)
Fixpoint digits_of (fuel : nat) (n : Z) : list ascii :=
  match fuel with
  | O => []
  | S fuel' =>
      if n <? 10 then [utf8.chr (48 + n)]
      else (digits_of fuel' (n / 10) ++ [utf8.chr (48 + n mod 10)])%list
  end.

(** [strconv.AppendInt] in base 10. *)
Definition Itoa (z : Z) : list ascii :=
  let n := Z.abs z in
  let ds := digits_of (S (Z.to_nat (Z.log2 n))) n in
  if z <? 0 then "-"%char :: ds else ds.

(** A line break and the indentation of a nesting depth: what [Indent]
    writes with the prefix [""] and the indent of two spaces. *)
Definition newline (depth : nat) : list ascii :=
  lf :: concat (repeat (chars "  ") depth).

(** The indented text of a tree. *)
Fixpoint render (depth : nat) (v : Value) : list ascii :=
  match v with
  | Null => chars "null"
  | Bool true => chars "true"
  | Bool false => chars "false"
  | Number literal => chars literal
  | Str s => appendString s
  | Array [] => chars "[]"
  | Array (e :: es) =>
      ("["%char :: newline (S depth) ++ render (S depth) e
       ++ flat_map (fun e => ","%char :: newline (S depth)
                             ++ render (S depth) e) es
       ++ newline depth ++ ["]"%char])%list
  | Object [] => chars "{}"
  | Object (m :: ms) =>
      ("{"%char :: newline (S depth) ++ appendString (fst m)
       ++ chars ": " ++ render (S depth) (snd m)
       ++ flat_map (fun m => ","%char :: newline (S depth)
                             ++ appendString (fst m) ++ chars ": "
                             ++ render (S depth) (snd m)) ms
       ++ newline depth ++ ["}"%char])%list
  end.

Definition int_value (z : Z) : Value := Number (string_of_list_ascii (Itoa z)).

(** The tree [Marshal] walks out of a sprite and of the metadata: the
    fields in declaration order under their [json] names. *)
Definition sprite_value (s : metadata.SpriteInfo) : Value :=
  Object [("name", Str (metadata.Name s));
          ("x", int_value (metadata.X s));
          ("y", int_value (metadata.Y s));
          ("width", int_value (metadata.Width s));
          ("height", int_value (metadata.Height s));
          ("index", int_value (metadata.Index s))].

Definition metadata_value (m : metadata.SpritesheetMetadata) : Value :=
  Object [("width", int_value (metadata.SheetWidth m));
          ("height", int_value (metadata.SheetHeight m));
          ("tile_width", int_value (metadata.TileWidth m));
          ("tile_height", int_value (metadata.TileHeight m));
          ("cols", int_value (metadata.Cols m));
          ("rows", int_value (metadata.Rows m));
          ("padding", int_value (metadata.Padding m));
          ("sprites", Array (map sprite_value (metadata.Sprites m)))].

(** [json.MarshalIndent(metadata, "", "  ")].  (A nil sprite slice would
    be written as null; the generator always makes the slice.) *)
Definition MarshalIndent (m : metadata.SpritesheetMetadata) : string :=
  string_of_list_ascii (render 0 (metadata_value m)).

(** *** Decoding: the syntax *)

Definition is_ws (c : ascii) : bool := strconv.within c (String " " (String (ascii_of_nat 9) (String (ascii_of_nat 13) (String lf EmptyString)))).

Fixpoint skip_ws (p : list ascii) : list ascii :=
  match p with
  | c :: p' => if is_ws c then skip_ws p' else p
  | [] => []
  end.

Definition hex_value (c : ascii) : option Z :=
  if strconv.is_digit c || strconv.is_hex_letter c
  then Some (strconv.digit_value c) else None.

Definition hex4 (a b c d : ascii) : option Z :=
  a ← hex_value a; b ← hex_value b; c ← hex_value c; d ← hex_value d;
  Some (((a * 16 + b) * 16 + c) * 16 + d).

Definition is_surrogate (r : Z) : bool := (55296 <=? r) && (r <? 57344).

(** [utf16.DecodeRune] *)
Definition utf16_pair (r1 r2 : Z) : option Z :=
  if (55296 <=? r1) && (r1 <? 56320) && (56320 <=? r2) && (r2 <? 57344)
  then Some (Z.lor (Z.shiftl (r1 - 55296) 10) (r2 - 56320) + 65536)
  else None.

(** The rest of a string literal after its opening quote: the decoded
    string, coerced to well-formed UTF-8, and the input after the closing
    quote. *)
Fixpoint string_body (p acc : list ascii) : option (string * list ascii) :=
  match p with
  | [] => None
  | c :: r =>
      if Ascii.eqb c dq then Some (string_of_list_ascii acc, r)
      else if Ascii.eqb c "\" then
        match r with
        | [] => None
        | e :: r1 =>
            if Ascii.eqb e dq || Ascii.eqb e "\" || Ascii.eqb e "/"
            then string_body r1 (acc ++ [e])
            else if Ascii.eqb e "b" then string_body r1 (acc ++ [ascii_of_nat 8])
            else if Ascii.eqb e "f" then string_body r1 (acc ++ [ascii_of_nat 12])
            else if Ascii.eqb e "n" then string_body r1 (acc ++ [lf])
            else if Ascii.eqb e "r" then string_body r1 (acc ++ [ascii_of_nat 13])
            else if Ascii.eqb e "t" then string_body r1 (acc ++ [ascii_of_nat 9])
            else if Ascii.eqb e "u" then
              match r1 with
              | h1 :: h2 :: h3 :: h4 :: r2 =>
                  match hex4 h1 h2 h3 h4 with
                  | None => None
                  | Some rr =>
                      if is_surrogate rr then
                        match r2 with
                        | b1 :: u1 :: g1 :: g2 :: g3 :: g4 :: r3 =>
                            match
                              (if Ascii.eqb b1 "\" && Ascii.eqb u1 "u"
                               then match hex4 g1 g2 g3 g4 with
                                    | Some rr1 => utf16_pair rr rr1
                                    | None => None
                                    end
                               else None)
                            with
                            | Some dec =>
                                string_body r3 (acc ++ utf8.EncodeRune dec)
                            | None =>
                                string_body r2
                                  (acc ++ utf8.EncodeRune utf8.RuneError)
                            end
                        | _ =>
                            string_body r2
                              (acc ++ utf8.EncodeRune utf8.RuneError)
                        end
                      else string_body r2 (acc ++ utf8.EncodeRune rr)
                  end
              | _ => None
              end
            else None
        end
      else if utf8.byte c <? 32 then None
      else if utf8.byte c <? 128 then string_body r (acc ++ [c])
      else
        let '(rr, size) := utf8.DecodeRune p in
        let acc := (acc ++ utf8.EncodeRune rr)%list in
        match size, r with
        | 2%nat, _ :: r2 => string_body r2 acc
        | 3%nat, _ :: _ :: r3 => string_body r3 acc
        | 4%nat, _ :: _ :: _ :: r4 => string_body r4 acc
        | _, _ => string_body r acc
        end
  end.

Fixpoint take_digits (p acc : list ascii) : list ascii * list ascii :=
  match p with
  | c :: p' => if strconv.is_digit c then take_digits p' (acc ++ [c]) else (acc, p)
  | [] => (acc, [])
  end.

(** A number literal: sign, integer part, fraction, exponent. *)
Definition number (p : list ascii) : option (string * list ascii) :=
  let '(sign, p) :=
    match p with
    | c :: p' => if Ascii.eqb c "-" then ([c], p') else ([], p)
    | [] => ([], p)
    end in
  match p with
  | d :: p1 =>
      if negb (strconv.is_digit d) then None
      else
        let '(int, p2) :=
          if Ascii.eqb d "0" then ((sign ++ [d])%list, p1)
          else take_digits p1 (sign ++ [d]) in
        let frac :=
          match p2 with
          | c :: f :: p3 =>
              if Ascii.eqb c "." then
                if strconv.is_digit f then Some (take_digits p3 (int ++ [c; f]))
                else None
              else Some (int, p2)
          | [c] => if Ascii.eqb c "." then None else Some (int, p2)
          | [] => Some (int, p2)
          end in
        match frac with
        | None => None
        | Some (lit, p4) =>
            match p4 with
            | e :: p5 =>
                if strconv.within e "eE" then
                  let '(lit, p6) :=
                    match p5 with
                    | s :: p6 =>
                        if strconv.within s "+-" then ((lit ++ [e; s])%list, p6)
                        else ((lit ++ [e])%list, p5)
                    | [] => ((lit ++ [e])%list, p5)
                    end in
                  match p6 with
                  | x :: _ =>
                      if strconv.is_digit x then
                        let '(lit, rest) := take_digits p6 lit in
                        Some (string_of_list_ascii lit, rest)
                      else None
                  | [] => None
                  end
                else Some (string_of_list_ascii lit, p4)
            | [] => Some (string_of_list_ascii lit, p4)
            end
        end
  | [] => None
  end.

Definition literal (word : string) (v : Value) (p : list ascii)
    : option (Value * list ascii) :=
  let w := chars word in
  if forallb (fun x => x) (zip_with Ascii.eqb (firstn (length w) p) w)
     && (length w <=? length p)%nat
  then Some (v, skipn (length w) p) else None.

Definition maxNestingDepth : nat := 10000.

(** One value, with what follows it; [depth] is the number of arrays and
    objects that are open. *)
Fixpoint value (fuel depth : nat) (p : list ascii) {struct fuel}
    : option (Value * list ascii) :=
  match fuel with
  | O => None
  | S fuel =>
      match p with
      | [] => None
      | c :: r =>
          if Ascii.eqb c "{" then
            if (maxNestingDepth <=? depth)%nat then None
            else
              match skip_ws r with
              | c2 :: r2 =>
                  if Ascii.eqb c2 "}" then Some (Object [], r2)
                  else members fuel (S depth) (c2 :: r2) []
              | [] => None
              end
          else if Ascii.eqb c "[" then
            if (maxNestingDepth <=? depth)%nat then None
            else
              match skip_ws r with
              | c2 :: r2 =>
                  if Ascii.eqb c2 "]" then Some (Array [], r2)
                  else elements fuel (S depth) (c2 :: r2) []
              | [] => None
              end
          else if Ascii.eqb c dq then
            match string_body r [] with
            | Some (s, r1) => Some (Str s, r1)
            | None => None
            end
          else if Ascii.eqb c "t" then literal "true" (Bool true) p
          else if Ascii.eqb c "f" then literal "false" (Bool false) p
          else if Ascii.eqb c "n" then literal "null" Null p
          else
            match number p with
            | Some (lit, r1) => Some (Number lit, r1)
            | None => None
            end
      end
  end
with elements (fuel depth : nat) (p : list ascii) (acc : list Value)
    {struct fuel} : option (Value * list ascii) :=
  match fuel with
  | O => None
  | S fuel =>
      match value fuel depth p with
      | Some (v, r) =>
          match skip_ws r with
          | c :: r1 =>
              if Ascii.eqb c "," then
                elements fuel depth (skip_ws r1) (acc ++ [v])
              else if Ascii.eqb c "]" then Some (Array (acc ++ [v]), r1)
              else None
          | [] => None
          end
      | None => None
      end
  end
with members (fuel depth : nat) (p : list ascii)
    (acc : list (string * Value)) {struct fuel}
    : option (Value * list ascii) :=
  match fuel with
  | O => None
  | S fuel =>
      match p with
      | c :: r =>
          if Ascii.eqb c dq then
            match string_body r [] with
            | Some (k, r1) =>
                match skip_ws r1 with
                | c1 :: r2 =>
                    if Ascii.eqb c1 ":" then
                      match value fuel depth (skip_ws r2) with
                      | Some (v, r3) =>
                          match skip_ws r3 with
                          | c3 :: r4 =>
                              if Ascii.eqb c3 "," then
                                members fuel depth (skip_ws r4)
                                  (acc ++ [(k, v)])
                              else if Ascii.eqb c3 "}"
                              then Some (Object (acc ++ [(k, v)]), r4)
                              else None
                          | [] => None
                          end
                      | None => None
                      end
                    else None
                | [] => None
                end
            | None => None
            end
          else None
      | [] => None
      end
  end.

(** A whole JSON text: one value between optional white space. *)
Definition parse (data : string) : option Value :=
  let p := skip_ws (chars data) in
  match value (S (2 * length p)) 0 p with
  | Some (v, rest) =>
      match skip_ws rest with
      | [] => Some v
      | _ => None
      end
  | None => None
  end.

(** *** Decoding: into the metadata types *)

(** [foldName]: letters in upper case; the two runes that fold to an
    ASCII letter are the long s and the Kelvin sign. *)
Definition fold_rune (r : Z) : Z :=
  if (97 <=? r) && (r <=? 122) then r - 32
  else if r =? 383 then 83
  else if r =? 8490 then 75
  else r.

Definition foldName (s : string) : list Z :=
  let p := chars s in
  map (fun rb => fold_rune (fst rb)) (utf8.runes (length p) p).

(** A key selects the field of that name, or else the field whose name
    is the same up to case. *)
Definition selects (key name : string) : bool :=
  String.eqb key name || forallb (fun x => x)
    (zip_with Z.eqb (foldName key) (foldName name))
  && (length (foldName key) =? length (foldName name))%nat.

(** A value for an [int] field; null leaves the field as it is. *)
Definition decode_int (v : Value) (cur : Z) : option Z :=
  match v with
  | Null => Some cur
  | Number literal => strconv.Atoi literal
  | _ => None
  end.

Definition decode_string (v : Value) (cur : string) : option string :=
  match v with
  | Null => Some cur
  | Str s => Some s
  | _ => None
  end.

Definition set_sprite_field (key : string) (v : Value)
    (s : metadata.SpriteInfo) : option metadata.SpriteInfo :=
  let upd name x y w h i :=
    {| metadata.Name := name; metadata.X := x; metadata.Y := y;
       metadata.Width := w; metadata.Height := h; metadata.Index := i |} in
  let '(name, x, y, w, h, i) :=
    (metadata.Name s, metadata.X s, metadata.Y s, metadata.Width s,
     metadata.Height s, metadata.Index s) in
  if selects key "name" then n ← decode_string v name; Some (upd n x y w h i)
  else if selects key "x" then n ← decode_int v x; Some (upd name n y w h i)
  else if selects key "y" then n ← decode_int v y; Some (upd name x n w h i)
  else if selects key "width" then n ← decode_int v w; Some (upd name x y n h i)
  else if selects key "height" then n ← decode_int v h; Some (upd name x y w n i)
  else if selects key "index" then n ← decode_int v i; Some (upd name x y w h n)
  else Some s.

Definition zero_sprite : metadata.SpriteInfo :=
  {| metadata.Name := ""; metadata.X := 0; metadata.Y := 0;
     metadata.Width := 0; metadata.Height := 0; metadata.Index := 0 |}.

Definition decode_sprite (v : Value) (cur : metadata.SpriteInfo)
    : option metadata.SpriteInfo :=
  match v with
  | Null => Some cur
  | Object ms =>
      fold_left (fun acc m => s ← acc; set_sprite_field (fst m) (snd m) s)
                ms (Some cur)
  | _ => None
  end.

(** An array into the sprite slice: element [i] is decoded into the
    element the slice already has at [i], or into a zero sprite.  (A
    third occurrence of the key in one object would also see elements
    left in the slice's spare capacity; the model does not keep those.) *)
Fixpoint decode_elements (vs : list Value) (old : list metadata.SpriteInfo)
    : option (list metadata.SpriteInfo) :=
  match vs with
  | [] => Some []
  | v :: vs' =>
      s ← decode_sprite v (hd zero_sprite old);
      rest ← decode_elements vs' (tl old);
      Some (s :: rest)
  end.

Definition decode_sprites (v : Value) (cur : list metadata.SpriteInfo)
    : option (list metadata.SpriteInfo) :=
  match v with
  | Null => Some []
  | Array vs => decode_elements vs cur
  | _ => None
  end.

Definition set_metadata_field (key : string) (v : Value)
    (m : metadata.SpritesheetMetadata) : option metadata.SpritesheetMetadata :=
  let upd w h tw th c r p s :=
    {| metadata.SheetWidth := w; metadata.SheetHeight := h;
       metadata.TileWidth := tw; metadata.TileHeight := th;
       metadata.Cols := c; metadata.Rows := r; metadata.Padding := p;
       metadata.Sprites := s |} in
  let '(w, h, tw, th, c, r, p, s) :=
    (metadata.SheetWidth m, metadata.SheetHeight m, metadata.TileWidth m,
     metadata.TileHeight m, metadata.Cols m, metadata.Rows m,
     metadata.Padding m, metadata.Sprites m) in
  if selects key "width" then n ← decode_int v w; Some (upd n h tw th c r p s)
  else if selects key "height" then
    n ← decode_int v h; Some (upd w n tw th c r p s)
  else if selects key "tile_width" then
    n ← decode_int v tw; Some (upd w h n th c r p s)
  else if selects key "tile_height" then
    n ← decode_int v th; Some (upd w h tw n c r p s)
  else if selects key "cols" then n ← decode_int v c; Some (upd w h tw th n r p s)
  else if selects key "rows" then n ← decode_int v r; Some (upd w h tw th c n p s)
  else if selects key "padding" then
    n ← decode_int v p; Some (upd w h tw th c r n s)
  else if selects key "sprites" then
    l ← decode_sprites v s; Some (upd w h tw th c r p l)
  else Some m.

Definition zero_metadata : metadata.SpritesheetMetadata :=
  {| metadata.SheetWidth := 0; metadata.SheetHeight := 0;
     metadata.TileWidth := 0; metadata.TileHeight := 0;
     metadata.Cols := 0; metadata.Rows := 0; metadata.Padding := 0;
     metadata.Sprites := [] |}.

Definition decode_metadata (v : Value) (cur : metadata.SpritesheetMetadata)
    : option metadata.SpritesheetMetadata :=
  match v with
  | Null => Some cur
  | Object ms =>
      fold_left (fun acc m => s ← acc; set_metadata_field (fst m) (snd m) s)
                ms (Some cur)
  | _ => None
  end.

(** [json.Unmarshal(data, &metadata)] into a zero value.  The text of
    Go's error is not modelled. *)
Definition Unmarshal (data : string) : result metadata.SpritesheetMetadata :=
  match parse data with
  | None => Err (Errorf "json: syntax error")
  | Some v =>
      match decode_metadata v zero_metadata with
      | Some m => Ok m
      | None => Err (Errorf "json: cannot unmarshal")
      end
  end.

End json.

(** ** package metadata: export and load *)

Module exporter.

(** The files: their contents, and the paths at which a directory cannot
    be made or a file cannot be written. *)
Record Disk : Type := {
  files : gmap string string;
  MkdirAllDir : string -> option error;
  unwritable : string -> option error
}.

Definition WriteFile (d : Disk) (path data : string) : Disk * option error :=
  match unwritable d path with
  | Some err => (d, Some err)
  | None =>
      ({| files := <[path := data]> (files d);
          MkdirAllDir := MkdirAllDir d;
          unwritable := unwritable d |}, None)
  end.

Definition ReadFile (d : Disk) (path : string) : result string :=
  match files d !! path with
  | Some data => Ok data
  | None => Err (Errorf ("open " ++ path ++ ": no such file or directory"))
  end.

(** [Export] saves the metadata to a JSON file. *)
Definition Export (d : Disk) (meta : metadata.SpritesheetMetadata)
    (outputPath : string) : Disk * option error :=
  match MkdirAllDir d outputPath with
  | Some err => (d, Some (Wrapf "failed to create output directory: " err))
  | None =>
      let jsonData := json.MarshalIndent meta in
      match WriteFile d outputPath jsonData with
      | (d', Some err) => (d', Some (Wrapf "failed to write metadata file: " err))
      | (d', None) => (d', None)
      end
  end.

(** [LoadMetadata] loads metadata from a JSON file. *)
Definition LoadMetadata (d : Disk) (inputPath : string)
    : result metadata.SpritesheetMetadata :=
  match ReadFile d inputPath with
  | Err err => Err (Wrapf "failed to read metadata file: " err)
  | Panic m => Panic m
  | Ok data =>
      match json.Unmarshal data with
      | Err err => Err (Wrapf "failed to unmarshal metadata: " err)
      | Panic m => Panic m
      | Ok meta => Ok meta
      end
  end.

End exporter.

(** ** package config: the methods of [Config] *)

Module Config.

Definition SortByName : string := "name".
Definition SortByCTime : string := "ctime".
Definition SortManual : string := "manual".

Definition ConverterOkSVG : string := "oksvg".
Definition ConverterRod : string := "rod".
Definition ConverterRSVG : string := "rsvg".

(** [Validate] checks if the configuration is valid. *)
Definition Validate (c : config.Config) : option error :=
  if String.eqb (config.Input c) "" then
    Some (Errorf "input path is required")
  else if String.eqb (config.Output c) "" then
    Some (Errorf "output path is required")
  else if negb (f64.eqb (config.Scale c) f64.zero)
          && (negb (config.Width c =? 0) || negb (config.Height c =? 0)) then
    Some (Errorf "cannot specify both scale and width/height")
  else if f64.ltb (config.Scale c) f64.zero then
    Some (Errorf "scale must be positive")
  else if (config.Width c <? 0) || (config.Height c <? 0) then
    Some (Errorf "width and height must be positive")
  else if (config.TileWidth c <? 0) || (config.TileHeight c <? 0) then
    Some (Errorf "tile dimensions must be positive")
  else if (config.Cols c <? 0) || (config.Rows c <? 0) then
    Some (Errorf "cols and rows must be positive")
  else if (0 <? config.Cols c) && (0 <? config.Rows c) then
    Some (Errorf "cannot specify both cols and rows")
  else if config.Padding c <? 0 then
    Some (Errorf "padding must be non-negative")
  else if negb (String.eqb (config.Sort c) "")
          && negb (String.eqb (config.Sort c) SortByName
                   || String.eqb (config.Sort c) SortByCTime
                   || String.eqb (config.Sort c) SortManual) then
    Some (Errorf ("invalid sort mode: " ++ config.Sort c
                  ++ " (must be name, ctime, or manual)"))
  else if negb (String.eqb (config.Converter c) "")
          && negb (String.eqb (config.Converter c) ConverterOkSVG
                   || String.eqb (config.Converter c) ConverterRod
                   || String.eqb (config.Converter c) ConverterRSVG) then
    Some (Errorf ("invalid converter: " ++ config.Converter c
                  ++ " (must be oksvg, rod, or rsvg)"))
  else None.

(** [SetDefaults] sets default values for the configuration. *)
Definition SetDefaults (c : config.Config) : config.Config :=
  let scale :=
    if f64.eqb (config.Scale c) f64.zero && (config.Width c =? 0)
       && (config.Height c =? 0)
    then f64.of_int 1 else config.Scale c in
  let sort := if String.eqb (config.Sort c) "" then SortByName
              else config.Sort c in
  let converter := if String.eqb (config.Converter c) "" then ConverterOkSVG
                   else config.Converter c in
  let tileWidth := if config.TileWidth c =? 0 then 64
                   else config.TileWidth c in
  let tileHeight := if config.TileHeight c =? 0 then 64
                    else config.TileHeight c in
  let cols := if (config.Cols c =? 0) && (config.Rows c =? 0) then 8
              else config.Cols c in
  {| config.Input := config.Input c; config.Output := config.Output c;
     config.Scale := scale; config.Width := config.Width c;
     config.Height := config.Height c;
     config.TileWidth := tileWidth; config.TileHeight := tileHeight;
     config.Cols := cols; config.Rows := config.Rows c;
     config.Padding := config.Padding c;
     config.Sort := sort; config.Meta := config.Meta c;
     config.Trim := config.Trim c; config.Force := config.Force c;
     config.Verbose := config.Verbose c; config.Converter := converter |}.

(** [IsSpritesheetMode]: true if a spritesheet is generated. *)
Definition IsSpritesheetMode (c : config.Config) : bool :=
  (0 <? config.TileWidth c) && (0 <? config.TileHeight c)
  && ((0 <? config.Cols c) || (0 <? config.Rows c)).

(** [IsSVGInput]: true if the input appears to be an SVG file. *)
Definition IsSVGInput (c : config.Config) : bool :=
  String.eqb (filepath.Ext (config.Input c)) ".svg".

(** [GetOutputExt]: the expected output file extension. *)
Definition GetOutputExt (c : config.Config) : string :=
  if negb (String.eqb (config.Meta c) "") then ".json" else ".png".

End Config.

(** ** package svg: the built-in backends and the converter *)

Module backends.

(** What the availability probes find on the host: the path of a
    Chrome or Chromium browser (empty when there is none), the outcome of
    looking [rsvg-convert] up and of running it, and the outcome of
    running [inkscape]. *)
Record Host : Type := {
  browser : string;
  rsvg_LookPath : option error;
  rsvg_version : option error;
  inkscape_version : option error
}.

Definition NewOkSVGConverter (options : svg.ConversionOptions)
    : svg.SVGConverter :=
  {| svg.Name := "OkSVG";
     svg.Description := "Pure Go SVG renderer using oksvg+rasterx. Fast and lightweight, good for simple SVGs.";
     svg.IsAvailable := None |}.

Definition NewRodConverter (host : Host) (options : svg.ConversionOptions)
    : svg.SVGConverter :=
  {| svg.Name := "Rod Browser";
     svg.Description := "High-quality SVG rendering using Chrome/Chromium browser automation. Excellent compatibility and quality.";
     svg.IsAvailable :=
       if String.eqb (browser host) ""
       then Some (Errorf "Chrome/Chromium browser not found") else None |}.

Definition NewRSVGConverter (host : Host) (options : svg.ConversionOptions)
    : svg.SVGConverter :=
  {| svg.Name := "RSVG (librsvg)";
     svg.Description := "System rsvg-convert command using librsvg. Excellent SVG compatibility and performance.";
     svg.IsAvailable :=
       match rsvg_LookPath host with
       | Some _ =>
           Some (Errorf "rsvg-convert command not found. Please install librsvg2-bin (Ubuntu/Debian) or librsvg (macOS/Homebrew)")
       | None =>
           match rsvg_version host with
           | Some err => Some (Wrapf "rsvg-convert command failed: " err)
           | None => None
           end
       end |}.

Definition NewInkscapeConverter (host : Host) (options : svg.ConversionOptions)
    : svg.SVGConverter :=
  {| svg.Name := "Inkscape";
     svg.Description := "Inkscape command-line tool. Professional-grade SVG rendering with excellent compatibility and features.";
     svg.IsAvailable :=
       match inkscape_version host with
       | Some _ =>
           Some (Errorf "inkscape command not found - please install Inkscape (https://inkscape.org/)")
       | None => None
       end |}.

(** [NewConverterRegistry] registers the built-in converters.  The
    constant [config.ConverterInkscape] is not in the configuration
    source; its value is the parameter [ConverterInkscape]. *)
Definition NewConverterRegistry (ConverterInkscape : string) (host : Host)
    : svg.ConverterRegistry :=
  let registry := {| svg.converters := ∅ |} in
  let registry := svg.Register registry Config.ConverterOkSVG NewOkSVGConverter in
  let registry := svg.Register registry Config.ConverterRod (NewRodConverter host) in
  let registry := svg.Register registry Config.ConverterRSVG (NewRSVGConverter host) in
  svg.Register registry ConverterInkscape (NewInkscapeConverter host).

(** [ListAvailable]: the available converters, in the order in which the
    [range] over the map visits the registered types; Go leaves that
    order open, so it is the argument [order]. *)
Definition ListAvailable (r : svg.ConverterRegistry) (order : list string)
    (opts : svg.ConversionOptions) : list string :=
  fold_left
    (fun available converterType =>
       match svg.converters r !! converterType with
       | Some factory =>
           match svg.IsAvailable (factory opts) with
           | None => (available ++ [converterType])%list
           | Some _ => available
           end
       | None => available
       end)
    order [].

(** The [Converter] that wraps the configured backend. *)
Record Converter : Type := {
  config_ : config.Config;
  backend : svg.SVGConverter;
  registry : svg.ConverterRegistry
}.

(** [NewConverter] creates a converter with the backend the configuration
    names. *)
Definition NewConverter (ConverterInkscape : string) (host : Host)
    (cfg : config.Config) : result Converter :=
  let registry := NewConverterRegistry ConverterInkscape host in
  let options := svg.NewConversionOptions cfg in
  match svg.Create registry (config.Converter cfg) options with
  | Err err =>
      Err (Wrapf ("failed to create " ++ config.Converter cfg
                  ++ " converter: ") err)
  | Panic m => Panic m
  | Ok backend =>
      Ok {| config_ := cfg; backend := backend; registry := registry |}
  end.

End backends.


(** ** package metadata: validation and lookup *)

Module Exporter.

(** The verb [%d] of an [int]. *)
Definition d (z : Z) : string := string_of_list_ascii (json.Itoa z).

(** The loop of [ValidateMetadata] over the sprites, from index [i] on. *)
Fixpoint validate_sprites (meta : metadata.SpritesheetMetadata) (i : Z)
    (sprites : list metadata.SpriteInfo) : option error :=
  match sprites with
  | [] => None
  | sprite :: rest =>
      if String.eqb (metadata.Name sprite) "" then
        Some (Errorf ("sprite " ++ d i ++ " has empty name"))
      else if (metadata.X sprite <? 0) || (metadata.Y sprite <? 0) then
        Some (Errorf ("sprite " ++ metadata.Name sprite
                      ++ " has invalid position: (" ++ d (metadata.X sprite)
                      ++ ", " ++ d (metadata.Y sprite) ++ ")"))
      else if (metadata.Width sprite <=? 0) || (metadata.Height sprite <=? 0)
      then
        Some (Errorf ("sprite " ++ metadata.Name sprite
                      ++ " has invalid dimensions: "
                      ++ d (metadata.Width sprite) ++ "x"
                      ++ d (metadata.Height sprite)))
      else if (metadata.SheetWidth meta
                 <? iadd (metadata.X sprite) (metadata.Width sprite))
              || (metadata.SheetHeight meta
                    <? iadd (metadata.Y sprite) (metadata.Height sprite))
      then
        Some (Errorf ("sprite " ++ metadata.Name sprite
                      ++ " extends beyond spritesheet bounds"))
      else validate_sprites meta (i + 1) rest
  end.

(** [ValidateMetadata] validates the metadata structure. *)
Definition ValidateMetadata (meta : metadata.SpritesheetMetadata)
    : option error :=
  if (metadata.SheetWidth meta <=? 0) || (metadata.SheetHeight meta <=? 0)
  then
    Some (Errorf ("invalid spritesheet dimensions: "
                  ++ d (metadata.SheetWidth meta) ++ "x"
                  ++ d (metadata.SheetHeight meta)))
  else if (metadata.TileWidth meta <=? 0) || (metadata.TileHeight meta <=? 0)
  then
    Some (Errorf ("invalid tile dimensions: "
                  ++ d (metadata.TileWidth meta) ++ "x"
                  ++ d (metadata.TileHeight meta)))
  else if (metadata.Cols meta <=? 0) || (metadata.Rows meta <=? 0) then
    Some (Errorf ("invalid grid dimensions: "
                  ++ d (metadata.Cols meta) ++ "x" ++ d (metadata.Rows meta)))
  else if (length (metadata.Sprites meta) =? 0)%nat then
    Some (Errorf "no sprites in metadata")
  else validate_sprites meta 0 (metadata.Sprites meta).

(** The loop of [GetSpriteByName]. *)
Fixpoint find_sprite (sprites : list metadata.SpriteInfo) (name : string)
    : option metadata.SpriteInfo :=
  match sprites with
  | [] => None
  | sprite :: rest =>
      if String.eqb (metadata.Name sprite) name then Some sprite
      else find_sprite rest name
  end.

(** [GetSpriteByName] finds a sprite by name in the metadata. *)
Definition GetSpriteByName (meta : metadata.SpritesheetMetadata)
    (name : string) : result metadata.SpriteInfo :=
  match find_sprite (metadata.Sprites meta) name with
  | Some sprite => Ok sprite
  | None => Err (Errorf ("sprite not found: " ++ name))
  end.

(** [GetSpriteByIndex] finds a sprite by index in the metadata. *)
Definition GetSpriteByIndex (meta : metadata.SpritesheetMetadata)
    (index : Z) : result metadata.SpriteInfo :=
  if (index <? 0) || (Z.of_nat (length (metadata.Sprites meta)) <=? index)
  then Err (Errorf ("sprite index out of range: " ++ d index))
  else
    match metadata.Sprites meta !! Z.to_nat index with
    | Some sprite => Ok sprite
    | None => Panic "runtime error: index out of range"
    end.

(** One line of the CSV file. *)
Definition csv_line (sprite : metadata.SpriteInfo) : string :=
  metadata.Name sprite ++ "," ++ d (metadata.X sprite) ++ ","
  ++ d (metadata.Y sprite) ++ "," ++ d (metadata.Width sprite) ++ ","
  ++ d (metadata.Height sprite) ++ "," ++ d (metadata.Index sprite)
  ++ String json.lf "".

Definition csv_header : string :=
  "name,x,y,width,height,index" ++ String json.lf "".

(** [ExportCSV] exports the metadata in CSV format. *)
Definition ExportCSV (disk : exporter.Disk)
    (meta : metadata.SpritesheetMetadata) (outputPath : string)
    : exporter.Disk * option error :=
  match exporter.MkdirAllDir disk outputPath with
  | Some err => (disk, Some (Wrapf "failed to create output directory: " err))
  | None =>
      let csvContent :=
        fold_left (fun content sprite => content ++ csv_line sprite)
                  (metadata.Sprites meta) csv_header in
      match exporter.WriteFile disk outputPath csvContent with
      | (disk', Some err) =>
          (disk', Some (Wrapf "failed to write CSV file: " err))
      | (disk', None) => (disk', None)
      end
  end.

End Exporter.


(** ** package utils: names of files *)

Module files.

(** [GetFileExtension] returns the file extension (including the dot). *)
Definition GetFileExtension (path : string) : string := filepath.Ext path.

(** [GetFileNameWithoutExt] returns the filename without extension. *)
Definition GetFileNameWithoutExt (path : string) : string :=
  let base := filepath.Base path in
  let ext := filepath.Ext base in
  if String.eqb ext "" then base
  else String.substring 0 (String.length base - String.length ext) base.

End files.


(** ** package utils: the other image helpers *)

Module imaging.

(** [IsTransparent] checks if a pixel is transparent. *)
Definition IsTransparent (c : image.Color) : bool := image.A c =? 0.

(** The body of the scanning loop of [GetImageBounds]. *)
Definition bounds_pixel (img : image.Image) (y : Z)
    (st : utils.ContentBounds) (x : Z) : utils.ContentBounds :=
  if negb (IsTransparent (image.At img x y)) then
    if negb (utils.found st) then
      {| utils.minX := x; utils.minY := y; utils.maxX := x; utils.maxY := y;
         utils.found := true |}
    else
      let minX1 := if x <? utils.minX st then x else utils.minX st in
      let maxX1 := if utils.maxX st <? x then x else utils.maxX st in
      let minY1 := if y <? utils.minY st then y else utils.minY st in
      let maxY1 := if utils.maxY st <? y then y else utils.maxY st in
      {| utils.minX := minX1; utils.minY := minY1; utils.maxX := maxX1;
         utils.maxY := maxY1; utils.found := true |}
  else st.

(** [GetImageBounds] returns the actual content bounds of an image
    (excluding transparent areas). *)
Definition GetImageBounds (img : image.Image) : image.Rectangle :=
  let bounds := image.Bounds img in
  let bmin := image.Min bounds in
  let bmax := image.Max bounds in
  let st :=
    fold_left
      (fun st y =>
         fold_left (bounds_pixel img y)
                   (utils.loop (image.X bmin) (image.X bmax)) st)
      (utils.loop (image.Y bmin) (image.Y bmax))
      {| utils.minX := image.X bmax; utils.minY := image.Y bmax;
         utils.maxX := image.X bmin; utils.maxY := image.Y bmin;
         utils.found := false |} in
  if negb (utils.found st) then image.Rect 0 0 0 0
  else image.Rect (utils.minX st) (utils.minY st)
                  (iadd (utils.maxX st) 1) (iadd (utils.maxY st) 1).

(** [x / 2] on [int]s. *)
Definition half (x : Z) : Z := wrap (Z.quot x 2).

(** [CenterImage] centers an image within a canvas of the given size. *)
Definition CenterImage (img : image.Image) (canvasWidth canvasHeight : Z)
    : result draw.Canvas :=
  let bounds := image.Bounds img in
  let imgWidth := image.Dx bounds in
  let imgHeight := image.Dy bounds in
  canvas ← image.NewRGBA (image.Rect 0 0 canvasWidth canvasHeight);
  let x := half (isub canvasWidth imgWidth) in
  let y := half (isub canvasHeight imgHeight) in
  let destRect := image.Rect x y (iadd x imgWidth) (iadd y imgHeight) in
  mret (draw.Draw (draw.NewCanvas canvas) destRect img (image.Min bounds)
          draw.Over).

(** [PadImage] adds padding around an image. *)
Definition PadImage (img : image.Image) (padding : Z) : result draw.Canvas :=
  let bounds := image.Bounds img in
  let imgWidth := image.Dx bounds in
  let imgHeight := image.Dy bounds in
  let newWidth := iadd imgWidth (imul 2 padding) in
  let newHeight := iadd imgHeight (imul 2 padding) in
  result ← image.NewRGBA (image.Rect 0 0 newWidth newHeight);
  let destRect :=
    image.Rect padding padding (iadd padding imgWidth)
               (iadd padding imgHeight) in
  mret (draw.Draw (draw.NewCanvas result) destRect img (image.Min bounds)
          draw.Over).

(** [CreateTransparentImage] creates a transparent image of the given
    size. *)
Definition CreateTransparentImage (width height : Z) : result image.Image :=
  image.NewRGBA (image.Rect 0 0 width height).

(** [CopyImage] creates a copy of an image. *)
Definition CopyImage (img : image.Image) : result draw.Canvas :=
  let bounds := image.Bounds img in
  result ← image.NewRGBA bounds;
  mret (draw.Draw (draw.NewCanvas result) bounds img (image.Min bounds)
          draw.Src).

End imaging.


(** ** package utils: validation of the configuration and of counts *)

Module validation.

(** The verb [%d] of an [int]. *)
Definition d (z : Z) : string := string_of_list_ascii (json.Itoa z).

(** [ValidateSpritesheetConfig] validates the spritesheet-specific
    configuration. *)
Definition ValidateSpritesheetConfig (cfg : config.Config) : option error :=
  if (config.TileWidth cfg <=? 0) || (config.TileHeight cfg <=? 0) then
    Some (Errorf ("tile dimensions must be positive: "
                  ++ d (config.TileWidth cfg) ++ "x"
                  ++ d (config.TileHeight cfg)))
  else
    let maxTileSize := 2048 in
    if (maxTileSize <? config.TileWidth cfg)
       || (maxTileSize <? config.TileHeight cfg) then
      Some (Errorf ("tile dimensions too large (max " ++ d maxTileSize
                    ++ "): " ++ d (config.TileWidth cfg) ++ "x"
                    ++ d (config.TileHeight cfg)))
    else if (config.Cols cfg <=? 0) && (config.Rows cfg <=? 0) then
      Some (Errorf "either cols or rows must be specified for spritesheet")
    else if (0 <? config.Cols cfg) && (0 <? config.Rows cfg) then
      Some (Errorf "cannot specify both cols and rows")
    else
      let maxGridSize := 100 in
      if (maxGridSize <? config.Cols cfg) || (maxGridSize <? config.Rows cfg)
      then
        Some (Errorf ("grid size too large (max " ++ d maxGridSize
                      ++ "): cols=" ++ d (config.Cols cfg) ++ ", rows="
                      ++ d (config.Rows cfg)))
      else if config.Padding cfg <? 0 then
        Some (Errorf ("padding cannot be negative: "
                      ++ d (config.Padding cfg)))
      else
        let maxPadding := 100 in
        if maxPadding <? config.Padding cfg then
          Some (Errorf ("padding too large (max " ++ d maxPadding ++ "): "
                        ++ d (config.Padding cfg)))
        else None.

(** [ValidateFileCount] validates the number of files for processing. *)
Definition ValidateFileCount (count : Z) (mode : string) : option error :=
  if count <=? 0 then Some (Errorf "no files to process")
  else
    let maxFiles := 1000 in
    if maxFiles <? count then
      Some (Errorf ("too many files to process (max " ++ d maxFiles ++ "): "
                    ++ d count))
    else if String.eqb mode "spritesheet" then
      let maxSprites := 256 in
      if maxSprites <? count then
        Some (Errorf ("too many sprites for spritesheet (max "
                      ++ d maxSprites ++ "): " ++ d count))
      else None
    else None.

(** An [int] division, which panics on a zero divisor. *)
Definition idiv (a b : Z) : result Z :=
  match iquot a b with
  | Some q => Ok q
  | None => Panic spritesheet.divide_by_zero
  end.

(** The estimate of [ValidateMemoryUsage], in bytes ([int64], which is
    the width of [int]). *)
Definition estimatedMemory (cfg : config.Config) (fileCount : Z) : result Z :=
  let tileSize := imul (imul (config.TileWidth cfg) (config.TileHeight cfg)) 4 in
  if Config.IsSpritesheetMode cfg then
    let tilesMemory := imul fileCount tileSize in
    let cols := config.Cols cfg in
    let rows := config.Rows cfg in
    cols ← (if cols =? 0 then idiv (isub (iadd fileCount rows) 1) rows
            else mret cols);
    rows ← (if rows =? 0 then idiv (isub (iadd fileCount cols) 1) cols
            else mret rows);
    let spritesheetWidth :=
      iadd (imul cols (config.TileWidth cfg))
           (imul (isub cols 1) (config.Padding cfg)) in
    let spritesheetHeight :=
      iadd (imul rows (config.TileHeight cfg))
           (imul (isub rows 1) (config.Padding cfg)) in
    let spritesheetMemory :=
      imul (imul spritesheetWidth spritesheetHeight) 4 in
    mret (iadd tilesMemory spritesheetMemory)
  else mret tileSize.

(** [ValidateMemoryUsage] estimates and validates the memory usage. *)
Definition ValidateMemoryUsage (cfg : config.Config) (fileCount : Z)
    : result (option error) :=
  estimatedMemory ← estimatedMemory cfg fileCount;
  let maxMemory := 500 * 1024 * 1024 in
  if maxMemory <? estimatedMemory then
    mret (Some (Errorf ("estimated memory usage too high: "
                        ++ d (Z.quot estimatedMemory (1024 * 1024))
                        ++ " MB (max 500 MB)")))
  else mret None.

End validation.


(** ** package cmd: the PNG files of a spritesheet *)

Module cmd.

(** What [preparePNGFiles] asks of its environment: [os.CreateTemp],
    which names the file it has created among the files that exist, and
    the [ConvertFile] method of the converter. *)
Record Env : Type := {
  CreateTemp : string -> gset string -> string + error;
  ConvertFile : string -> string -> option error
}.

(** [utils.CreateTempFile] creates a temporary file with the given
    extension; the second component is the set of files that exist
    afterwards. *)
Definition CreateTempFile (env : Env) (ext : string) (disk : gset string)
    : result string * gset string :=
  match CreateTemp env ("svg2sheet_*" ++ ext) disk with
  | inl tempPath => (Ok tempPath, {[ tempPath ]} ∪ disk)
  | inr err => (Err (Wrapf "failed to create temp file: " err), disk)
  end.

(** The closure [cleanup], applied to the temporary files it has
    captured. *)
Definition cleanup (tempFiles : list string) (disk : gset string)
    : gset string :=
  fold_left (fun disk tempFile => disk ∖ {[ tempFile ]}) tempFiles disk.

(** The loop of [preparePNGFiles]. *)
Fixpoint prepare (env : Env) (files : list string)
    (fileMappings : list utils.FileMapping) (tempFiles : list string)
    (disk : gset string)
    : result (list utils.FileMapping * list string) * gset string :=
  match files with
  | [] => (Ok (fileMappings, tempFiles), disk)
  | file :: rest =>
      let ext := filepath.Ext file in
      if String.eqb ext ".png" then
        prepare env rest
          (fileMappings ++ [ {| utils.PNGPath := file;
                                utils.OriginalPath := file;
                                utils.IsTemporary := false |} ])
          tempFiles disk
      else if String.eqb ext ".svg" then
        match CreateTempFile env ".png" disk with
        | (Err err, disk) =>
            (Err (Wrapf "failed to create temp file: " err),
             cleanup tempFiles disk)
        | (Panic m, disk) => (Panic m, disk)
        | (Ok tempFile, disk) =>
            match ConvertFile env file tempFile with
            | Some err =>
                (Err (Wrapf ("failed to convert " ++ file ++ ": ") err),
                 cleanup tempFiles disk)
            | None =>
                prepare env rest
                  (fileMappings ++ [ {| utils.PNGPath := tempFile;
                                        utils.OriginalPath := file;
                                        utils.IsTemporary := true |} ])
                  (tempFiles ++ [tempFile]) disk
            end
        end
      else prepare env rest fileMappings tempFiles disk
  end.

(** [preparePNGFiles] converts the SVG files to temporary PNG files and
    returns the mappings, with the temporary files that [cleanup] is to
    remove. *)
Definition preparePNGFiles (env : Env) (files : list string)
    (disk : gset string)
    : result (list utils.FileMapping * list string) * gset string :=
  prepare env files [] [] disk.

End cmd.


(** ** package utils: sorting the input files *)

Module sorting.

(** [sort.Slice] comes from the standard library: it is the parameter
    [Slice] of the functions below, applied to the slice and to the order
    [less] on its elements.  [os.Stat] is the parameter [Stat]; of the file
    information only the modification time is used, a number here. *)
Definition Sorter : Type := forall A : Type, list A -> (A -> A -> bool) -> list A.

Definition Stater : Type := string -> Z + error.

Record FileInfo : Type := { Path : string; Name : string; CTime : Z }.

(** [sortByName] sorts files alphabetically by filename. *)
Definition sortByName (Slice : Sorter) (files : list string) : list string :=
  let sorted := files in
  Slice string sorted
    (fun a b =>
       let nameI := filepath.Base a in
       let nameJ := filepath.Base b in
       String.ltb nameI nameJ).

(** The first loop of [sortByCTime]. *)
Fixpoint stat_files (Stat : Stater) (files : list string)
    (fileInfos : list FileInfo) : result (list FileInfo) :=
  match files with
  | [] => mret fileInfos
  | file :: rest =>
      match Stat file with
      | inr err => Err (Wrapf ("failed to stat file " ++ file ++ ": ") err)
      | inl modTime =>
          stat_files Stat rest
            (fileInfos ++ [ {| Path := file; Name := filepath.Base file;
                               CTime := modTime |} ])
      end
  end.

(** [sortByCTime] sorts files by creation/modification time. *)
Definition sortByCTime (Slice : Sorter) (Stat : Stater) (files : list string)
    : result (list string) :=
  fileInfos ← stat_files Stat files [];
  let fileInfos :=
    Slice FileInfo fileInfos (fun a b => CTime a <? CTime b) in
  mret (map Path fileInfos).

(** [SortFiles] sorts files according to the specified mode. *)
Definition SortFiles (Slice : Sorter) (Stat : Stater) (files : list string)
    (mode : string) : result (list string) :=
  if (length files =? 0)%nat then Ok files
  else if String.eqb mode Config.SortByName then
    Ok (sortByName Slice files)
  else if String.eqb mode Config.SortByCTime then
    sortByCTime Slice Stat files
  else if String.eqb mode Config.SortManual then Ok files
  else Err (Errorf ("unsupported sort mode: " ++ mode)).

End sorting.

(** ** Specification-side definitions *)

(** From here on the definitions do not embed code: they name what the
    specification states, to be compared with the program. *)

Definition succeeded {A} (r : result A) : bool :=
  match r with Ok _ => true | _ => false end.

(** [allocatable w h]: [image.NewRGBA (image.Rect 0 0 w h)] does not
    panic. *)
Definition allocatable (w h : Z) : Prop :=
  0 <= image.mul3NonNeg 4 (image.Dx (image.Rect 0 0 w h))
                          (image.Dy (image.Rect 0 0 w h)).

Module grid.

(** Row-major placement: the pixel origin of the cell of ordinal [i], as
    an [int]. *)
Definition origin_x (layout : spritesheet.Layout) (i : Z) : Z :=
  wrap ((i mod spritesheet.Cols layout)
        * (spritesheet.TileWidth layout + spritesheet.Padding layout)).
Definition origin_y (layout : spritesheet.Layout) (i : Z) : Z :=
  wrap ((i / spritesheet.Cols layout)
        * (spritesheet.TileHeight layout + spritesheet.Padding layout)).

Definition sprite_at (layout : spritesheet.Layout) (i : Z)
    (tile : spritesheet.ImageInfo) : metadata.SpriteInfo :=
  {| metadata.Name := spritesheet.Filename tile;
     metadata.X := origin_x layout i;
     metadata.Y := origin_y layout i;
     metadata.Width := spritesheet.TileWidth layout;
     metadata.Height := spritesheet.TileHeight layout;
     metadata.Index := i |}.

Definition call_at (layout : spritesheet.Layout) (i : Z)
    (tile : spritesheet.ImageInfo) : draw.Call :=
  {| draw.r :=
       image.Rect (origin_x layout i) (origin_y layout i)
         (iadd (origin_x layout i) (spritesheet.TileWidth layout))
         (iadd (origin_y layout i) (spritesheet.TileHeight layout));
     draw.src := spritesheet.Image tile;
     draw.sp := {| image.X := 0; image.Y := 0 |};
     draw.op := draw.Over |}.

(** The tiles with their ordinals, counting from [i]. *)
Fixpoint numbered {A} (f : Z -> spritesheet.ImageInfo -> A) (i : Z)
    (tiles : list spritesheet.ImageInfo) : list A :=
  match tiles with
  | [] => []
  | tile :: rest => f i tile :: numbered f (i + 1) rest
  end.

End grid.

(** Sample data for the examples. *)

Definition blank (w h : Z) : image.Image :=
  {| image.Bounds := image.Rect 0 0 w h;
     image.At := fun _ _ => image.Transparent |}.

Definition tile_named (name : string) (w h : Z) : spritesheet.ImageInfo :=
  {| spritesheet.Image := blank w h;
     spritesheet.Filename := name;
     spritesheet.OriginalPath := name ++ ".png";
     spritesheet.Width := w;
     spritesheet.Height := h |}.

Definition sample_config : config.Config :=
  {| config.Input := "in"; config.Output := "out.png";
     config.Scale := f64.zero; config.Width := 0; config.Height := 0;
     config.TileWidth := 64; config.TileHeight := 64;
     config.Cols := 2; config.Rows := 0; config.Padding := 2;
     config.Sort := "name"; config.Meta := ""; config.Trim := false;
     config.Force := false; config.Verbose := false;
     config.Converter := "oksvg" |}.

Definition sample_generator : spritesheet.Generator :=
  spritesheet.NewGenerator sample_config.

(** Tiles of 64x64 with padding 2 in two columns. *)
Definition sample_layout : spritesheet.Layout :=
  {| spritesheet.Cols := 2; spritesheet.Rows := 2;
     spritesheet.TileWidth := 64; spritesheet.TileHeight := 64;
     spritesheet.Padding := 2;
     spritesheet.LayoutWidth := 130; spritesheet.LayoutHeight := 130 |}.

Definition result_value {A} (r : result A) : option A :=
  match r with Ok a => Some a | _ => None end.

(** [image_ok img]: the bounds are a well-formed rectangle of [int]
    coordinates whose pixel buffer length fits an [int], as for every
    image that a decoder or [image.NewRGBA] has allocated. *)
Definition image_ok (img : image.Image) : Prop :=
  let b := image.Bounds img in
  fits (image.X (image.Min b)) /\ fits (image.Y (image.Min b)) /\
  fits (image.X (image.Max b)) /\ fits (image.Y (image.Max b)) /\
  image.X (image.Min b) <= image.X (image.Max b) /\
  image.Y (image.Min b) <= image.Y (image.Max b) /\
  4 * (image.X (image.Max b) - image.X (image.Min b))
    * (image.Y (image.Max b) - image.Y (image.Min b)) <= int_max.

(** [has_size w h img]: the image is [w] pixels wide and [h] high. *)
Definition has_size (w h : Z) (img : image.Image) : Prop :=
  image.Dx (image.Bounds img) = w /\ image.Dy (image.Bounds img) = h.

(** Rounding to the nearest integer, halves away from zero (the
    specification's [round]); [None] for infinities and NaN. *)
Definition round_nearest (f : float64) : option Z :=
  match f with
  | S754_zero _ => Some 0
  | S754_finite s m e =>
      let k := if 0 <=? e then Zpos m * 2 ^ e
               else (2 * Zpos m + 2 ^ (- e)) / 2 ^ (1 - e) in
      Some (if s then - k else k)
  | _ => None
  end.

(** [truncates f z]: [z] is the integer part of the finite double [f],
    the integer next to [f] toward zero. *)
Definition truncates (f : float64) (z : Z) : Prop :=
  match f with
  | S754_zero _ => z = 0
  | S754_finite s m e =>
      exists k, z = (if s then - k else k) /\ 0 <= k /\
                if 0 <=? e then k = Zpos m * 2 ^ e
                else k * 2 ^ (- e) <= Zpos m < (k + 1) * 2 ^ (- e)
  | _ => False
  end.

(** [int_valued f]: [f] is finite and its integer part fits an [int]. *)
Definition int_valued (f : float64) : Prop :=
  match f with
  | S754_zero _ => True
  | S754_finite s m e => f64.trunc_mag m e <= int_max
  | _ => False
  end.

(** The request shapes of the specification's resolution rules. *)
Inductive RequestShape : Type :=
  | NothingSet | ScaleSet | BothSet | OnlyWidth | OnlyHeight.

(** The shape of a valid request: a scale excludes a width or height, and
    no field is negative. *)
Definition request_shape (opts : svg.ConversionOptions) : option RequestShape :=
  if f64.eqb (svg.Scale opts) f64.zero then
    match svg.Width opts ?= 0, svg.Height opts ?= 0 with
    | Eq, Eq => Some NothingSet
    | Gt, Gt => Some BothSet
    | Gt, Eq => Some OnlyWidth
    | Eq, Gt => Some OnlyHeight
    | _, _ => None
    end
  else if f64.ltb f64.zero (svg.Scale opts)
          && (svg.Width opts =? 0) && (svg.Height opts =? 0)
  then Some ScaleSet
  else None.

(** The resolved dimensions, rule by rule, each fractional value cut to
    its integer part. *)
Definition resolved (opts : svg.ConversionOptions) (w h : float64)
    (shape : RequestShape) : Z * Z :=
  match shape with
  | NothingSet => (f64.to_int w, f64.to_int h)
  | ScaleSet => (f64.to_int (f64.mul w (svg.Scale opts)),
                 f64.to_int (f64.mul h (svg.Scale opts)))
  | BothSet => (svg.Width opts, svg.Height opts)
  | OnlyWidth =>
      (svg.Width opts,
       f64.to_int (f64.mul (f64.of_int (svg.Width opts)) (f64.div h w)))
  | OnlyHeight =>
      (f64.to_int (f64.mul (f64.of_int (svg.Height opts)) (f64.div w h)),
       svg.Height opts)
  end.

(** Sample requests. *)
Definition width_one : svg.ConversionOptions :=
  {| svg.Scale := f64.zero; svg.Width := 1; svg.Height := 0;
     svg.Verbose := false |}.

(** The double 0.25. *)
Definition quarter : float64 := S754_finite false (2 ^ 52) (-54).

Definition scale_quarter : svg.ConversionOptions :=
  {| svg.Scale := quarter; svg.Width := 0; svg.Height := 0;
     svg.Verbose := false |}.

(** ** Rounding, for the proofs about [float64] *)

(** What [binary_round_aux] does after its first shift. *)
Definition round_tail (mrs : shr_record) (e : Z) : spec_float :=
  let '(mrs2, e2) :=
    shr_fexp 53 1024
      (round_nearest_even (shr_m mrs) (loc_of_shr_record mrs)) e loc_Exact in
  match shr_m mrs2 with
  | Z0 => S754_zero false
  | Zpos m => if e2 <=? 1024 - 53 then S754_finite false m e2
              else S754_infinity false
  | Zneg _ => S754_nan
  end.

(** Where the exact quotient [N / D] with remainder [r] lies between two
    consecutive integers. *)
Definition loc_frac (r D : Z) : location :=
  if r =? 0 then loc_Exact else loc_Inexact (2 * r ?= D).

(** Where the exact square root of [q * q + r] lies between [q] and
    [q + 1]. *)
Definition loc_sqrt (q r : Z) : location :=
  if r =? 0 then loc_Exact else loc_Inexact (if r <=? q then Lt else Gt).

(** The least integer whose square is not below [n]. *)
Definition ceil_sqrt (n : Z) : Z :=
  if Z.sqrt n * Z.sqrt n =? n then Z.sqrt n else Z.sqrt n + 1.

(** The least integer [k] with [k * c] not below [n]. *)
Definition ceil_div (n c : Z) : Z := (n + c - 1) / c.


(** A registry with one backend that is available and one that is not. *)
Definition always_available : svg.Factory := fun _ =>
  {| svg.Name := "OkSVG"; svg.Description := "Pure Go SVG renderer";
     svg.IsAvailable := None |}.

Definition never_available : svg.Factory := fun _ =>
  {| svg.Name := "RSVG (librsvg)"; svg.Description := "System rsvg-convert";
     svg.IsAvailable := Some (Errorf "rsvg-convert command not found") |}.

Definition sample_registry : svg.ConverterRegistry :=
  svg.Register
    (svg.Register {| svg.converters := ∅ |} "oksvg" always_available)
    "rsvg" never_available.

Definition sample_options : svg.ConversionOptions :=
  {| svg.Scale := f64.zero; svg.Width := 0; svg.Height := 0;
     svg.Verbose := false |}.

(** What the scanning loop of [TrimTransparent] maintains: once a pixel
    was found, the content bounds lie inside the image bounds. *)
Definition scan_inv (img : image.Image) (st : utils.ContentBounds) : Prop :=
  utils.found st = true ->
  image.X (image.Min (image.Bounds img)) <= utils.minX st /\
  utils.minX st <= utils.maxX st /\
  utils.maxX st < image.X (image.Max (image.Bounds img)) /\
  image.Y (image.Min (image.Bounds img)) <= utils.minY st /\
  utils.minY st <= utils.maxY st /\
  utils.maxY st < image.Y (image.Max (image.Bounds img)).

(** Seven tiles of 64x64 in three columns. *)
Definition layout_7_3_config : config.Config :=
  {| config.Input := "in"; config.Output := "out.png";
     config.Scale := f64.zero; config.Width := 0; config.Height := 0;
     config.TileWidth := 64; config.TileHeight := 64;
     config.Cols := 3; config.Rows := 0; config.Padding := 0;
     config.Sort := "name"; config.Meta := ""; config.Trim := false;
     config.Force := false; config.Verbose := false;
     config.Converter := "oksvg" |}.

(** ** The intrinsic size of an SVG text, as the specification words it *)

Module probe.

(** The text between the first occurrence of [name=] with its opening
    double quote and the next double quote, when both are there. *)
Definition attribute (svg name : string) : option string :=
  let start := strings.Index svg (name ++ "=" ++ strings.quote) in
  if start =? -1 then None
  else
    let start := start + (strings.len name + 2) in
    let stop := strings.Index (strings.from svg (Z.to_nat start)) strings.quote in
    if stop =? -1 then None
    else Some (strings.slice svg start (start + stop)).

(** The number an explicit attribute gives, if it has one. *)
Definition explicit (svg name : string) : option float64 :=
  match attribute svg name with
  | Some text => svg.parseFloatRod text
  | None => None
  end.

(** The number the [k]-th field of the bounding-box attribute gives, when
    the attribute has at least four fields. *)
Definition boxed (svg : string) (k : nat) : option float64 :=
  match attribute svg "viewBox" with
  | Some text =>
      let parts := strings.Fields text in
      if (4 <=? length parts)%nat then svg.parseFloatRod (nth k parts "")
      else None
  | None => None
  end.

Definition first_of (a b : option float64) (default : float64) : float64 :=
  match a, b with
  | Some x, _ => x
  | None, Some y => y
  | None, None => default
  end.

(** Explicit attribute first, then the bounding box, then 100. *)
Definition size (svg : string) : float64 * float64 :=
  (first_of (explicit svg "width") (boxed svg 2) (f64.of_int 100),
   first_of (explicit svg "height") (boxed svg 3) (f64.of_int 100)).

(** No unit suffix that the parser strips is left at the end. *)
Definition unit_free (s : string) : Prop :=
  strings.HasSuffix s "px" = false /\ strings.HasSuffix s "pt" = false /\
  strings.HasSuffix s "em" = false /\ strings.HasSuffix s "rem" = false.

(** A source with a bounding box of 30x40 and explicit 10x20. *)
Definition both : string :=
  "<svg width=" ++ strings.quote ++ "10" ++ strings.quote
  ++ " height=" ++ strings.quote ++ "20" ++ strings.quote
  ++ " viewBox=" ++ strings.quote ++ "0 0 30 40" ++ strings.quote ++ ">".

End probe.


(** ** The metadata file, as the specification words it *)

Module wire.

(** [all_from lo n f]: [f] holds of the [n] integers from [lo] on. *)
Fixpoint all_from (lo : Z) (n : nat) (f : Z -> bool) : bool :=
  match n with
  | O => true
  | S k => f lo && all_from (lo + 1) k f
  end.

Definition list_eqb (a b : list Z) : bool :=
  (length a =? length b)%nat && forallb (fun x => x) (zip_with Z.eqb a b).

(** A byte sequence is rejected as a whole by the decoder, or it is one
    rune above ASCII that is encoded back to the same bytes. *)
Definition round_trips (bs : list Z) : bool :=
  let '(r, n) := utf8.decode bs in
  ((r =? utf8.RuneError) && (n =? 1)%nat)
  || ((n =? length bs)%nat && (128 <=? r) && list_eqb (utf8.encode r) bs).

(** [good r n]: the decoded rune is not the error of width 1. *)
Definition good (r : Z) (n : nat) : Prop := ~ (r = utf8.RuneError /\ n = 1%nat).

Definition valid_rune (rb : Z * list ascii) : bool :=
  negb ((fst rb =? utf8.RuneError) && (length (snd rb) =? 1)%nat).

Definition digit (d : Z) : ascii := utf8.chr (48 + d).

(** What may follow a number literal: nothing, or a byte that is not a
    digit, a point or an exponent mark. *)
Definition stops (rest : list ascii) : Prop :=
  match rest with
  | [] => True
  | c :: _ => strconv.is_digit c = false /\ Ascii.eqb c "." = false /\
              strconv.within c "eE" = false
  end.

(** What follows a value in an indented text: nothing, a comma or a line
    break. *)
Definition delimited (rest : list ascii) : Prop :=
  match rest with
  | [] => True
  | c :: _ => c = ","%char \/ c = json.lf
  end.

(** [reads w dp d v]: the text of [v] at indentation [d] begins with a
    byte that is not white space, and [value] with a fuel of at least [w]
    reads [v] back from it at nesting depth [dp], before any delimited
    rest. *)
Definition reads (w dp d : nat) (v : json.Value) : Prop :=
  (exists c l, json.render d v = c :: l /\ json.is_ws c = false) /\
  forall fuel rest, (w <= fuel)%nat -> delimited rest ->
    json.value fuel dp (json.render d v ++ rest) = Some (v, rest).

(** The text of one member, and of the members and elements after the
    first. *)
Definition member_text (d : nat) (m : string * json.Value) : list ascii :=
  (json.appendString (fst m) ++ json.chars ": "
   ++ json.render (S d) (snd m))%list.

Definition more_members (d : nat) (ms : list (string * json.Value))
    : list ascii :=
  flat_map (fun m => ","%char :: json.newline (S d)
                     ++ json.appendString (fst m) ++ json.chars ": "
                     ++ json.render (S d) (snd m))%list ms.

Definition more_elements (d : nat) (es : list json.Value) : list ascii :=
  flat_map (fun e => ","%char :: json.newline (S d)
                     ++ json.render (S d) e)%list es.

Definition member_reads (w dp d : nat) (m : string * json.Value) : Prop :=
  utf8.ValidString (fst m) = true /\ reads w dp (S d) (snd m).

(** The metadata a Go program can hold and the file keeps: every field an
    [int], every sprite name well-formed UTF-8. *)
Definition sprite_ok (s : metadata.SpriteInfo) : Prop :=
  utf8.ValidString (metadata.Name s) = true /\
  fits (metadata.X s) /\ fits (metadata.Y s) /\
  fits (metadata.Width s) /\ fits (metadata.Height s) /\
  fits (metadata.Index s).

Definition metadata_ok (m : metadata.SpritesheetMetadata) : Prop :=
  fits (metadata.SheetWidth m) /\ fits (metadata.SheetHeight m) /\
  fits (metadata.TileWidth m) /\ fits (metadata.TileHeight m) /\
  fits (metadata.Cols m) /\ fits (metadata.Rows m) /\
  fits (metadata.Padding m) /\ Forall sprite_ok (metadata.Sprites m).

(** A disk without files on which every path can be written. *)
Definition empty_disk : exporter.Disk :=
  {| exporter.files := ∅; exporter.MkdirAllDir := fun _ => None;
     exporter.unwritable := fun _ => None |}.

(** A sheet of two sprites, one with a name outside ASCII. *)
Definition sample_metadata : metadata.SpritesheetMetadata :=
  {| metadata.SheetWidth := 130; metadata.SheetHeight := 64;
     metadata.TileWidth := 64; metadata.TileHeight := 64;
     metadata.Cols := 2; metadata.Rows := 1; metadata.Padding := 2;
     metadata.Sprites :=
       [ {| metadata.Name := "a<b"; metadata.X := 0; metadata.Y := 0;
            metadata.Width := 64; metadata.Height := 64; metadata.Index := 0 |};
         {| metadata.Name := "caf" ++ String (ascii_of_nat 195)
                               (String (ascii_of_nat 169) "");
            metadata.X := 66; metadata.Y := -1;
            metadata.Width := 64; metadata.Height := 64;
            metadata.Index := 1 |} ] |}.

(** A sheet of one sprite, named by the two bytes [61 ff] (a file name
    that is not UTF-8), and the same sheet with the second byte replaced by
    the encoding of U+FFFD. *)
Definition sheet_named (name : string) : metadata.SpritesheetMetadata :=
  {| metadata.SheetWidth := 64; metadata.SheetHeight := 64;
     metadata.TileWidth := 64; metadata.TileHeight := 64;
     metadata.Cols := 1; metadata.Rows := 1; metadata.Padding := 0;
     metadata.Sprites :=
       [ {| metadata.Name := name; metadata.X := 0; metadata.Y := 0;
            metadata.Width := 64; metadata.Height := 64;
            metadata.Index := 0 |} ] |}.

Definition latin1_name : string := String "a" (String (ascii_of_nat 255) "").

Definition replaced_name : string :=
  String "a" (String (ascii_of_nat 239) (String (ascii_of_nat 191)
    (String (ascii_of_nat 189) ""))).

End wire.

(** The metadata that [ValidateMetadata] accepts. *)
Definition sprite_valid (meta : metadata.SpritesheetMetadata)
    (s : metadata.SpriteInfo) : Prop :=
  metadata.Name s <> "" /\ 0 <= metadata.X s /\ 0 <= metadata.Y s /\
  0 < metadata.Width s /\ 0 < metadata.Height s /\
  iadd (metadata.X s) (metadata.Width s) <= metadata.SheetWidth meta /\
  iadd (metadata.Y s) (metadata.Height s) <= metadata.SheetHeight meta.

Definition metadata_valid (meta : metadata.SpritesheetMetadata) : Prop :=
  0 < metadata.SheetWidth meta /\ 0 < metadata.SheetHeight meta /\
  0 < metadata.TileWidth meta /\ 0 < metadata.TileHeight meta /\
  0 < metadata.Cols meta /\ 0 < metadata.Rows meta /\
  metadata.Sprites meta <> [] /\
  Forall (sprite_valid meta) (metadata.Sprites meta).

(** The metadata [createSpritesheet] makes of a layout and tiles. *)
Definition metadata_of (layout : spritesheet.Layout)
    (tiles : list spritesheet.ImageInfo) : metadata.SpritesheetMetadata :=
  {| metadata.SheetWidth := spritesheet.LayoutWidth layout;
     metadata.SheetHeight := spritesheet.LayoutHeight layout;
     metadata.TileWidth := spritesheet.TileWidth layout;
     metadata.TileHeight := spritesheet.TileHeight layout;
     metadata.Cols := spritesheet.Cols layout;
     metadata.Rows := spritesheet.Rows layout;
     metadata.Padding := spritesheet.Padding layout;
     metadata.Sprites := grid.numbered (grid.sprite_at layout) 0 tiles |}.

(** A sheet of one tile of 64x64 named [a]. *)
Definition one_sprite_sheet : metadata.SpritesheetMetadata :=
  {| metadata.SheetWidth := 64; metadata.SheetHeight := 64;
     metadata.TileWidth := 64; metadata.TileHeight := 64;
     metadata.Cols := 1; metadata.Rows := 1; metadata.Padding := 0;
     metadata.Sprites :=
       [ {| metadata.Name := "a"; metadata.X := 0; metadata.Y := 0;
            metadata.Width := 64; metadata.Height := 64;
            metadata.Index := 0 |} ] |}.


(** [visible img x y]: the pixel is inside the bounds and not fully
    transparent. *)
Definition visible (img : image.Image) (x y : Z) : Prop :=
  image.InRect x y (image.Bounds img) = true /\
  0 < image.A (image.At img x y).

(** The points a loop over rows [ys] with an inner loop over columns
    [xs] visits, in order. *)
Definition points (ys xs : list Z) : list (Z * Z) :=
  flat_map (fun y => map (fun x => (x, y)) xs) ys.

(** What the scan knows after the points [seen]: nothing visible among
    them if nothing was found, and else their tight bounding box. *)
Definition box_of (img : image.Image) (seen : list (Z * Z))
    (st : utils.ContentBounds) : Prop :=
  let shown p := 0 < image.A (image.At img (fst p) (snd p)) in
  (utils.found st = false -> forall p, In p seen -> ~ shown p) /\
  (utils.found st = true ->
   (forall p, In p seen -> shown p ->
      utils.minX st <= fst p <= utils.maxX st /\
      utils.minY st <= snd p <= utils.maxY st) /\
   (exists p, In p seen /\ shown p /\ fst p = utils.minX st) /\
   (exists p, In p seen /\ shown p /\ fst p = utils.maxX st) /\
   (exists p, In p seen /\ shown p /\ snd p = utils.minY st) /\
   (exists p, In p seen /\ shown p /\ snd p = utils.maxY st)).

(** A configuration that names only its input and output, and a host
    with nothing installed. *)
Definition bare_config : config.Config :=
  {| config.Input := "icons"; config.Output := "sheet.png";
     config.Scale := f64.zero; config.Width := 0; config.Height := 0;
     config.TileWidth := 0; config.TileHeight := 0;
     config.Cols := 0; config.Rows := 0; config.Padding := 0;
     config.Sort := ""; config.Meta := ""; config.Trim := false;
     config.Force := false; config.Verbose := false;
     config.Converter := "" |}.

Definition bare_host : backends.Host :=
  {| backends.browser := "";
     backends.rsvg_LookPath := Some (Errorf "executable file not found in $PATH");
     backends.rsvg_version := None;
     backends.inkscape_version := Some (Errorf "executable file not found in $PATH") |}.

(** An image of 3x3 whose only visible pixel is the one in the middle. *)
Definition dot_image : image.Image :=
  {| image.Bounds := image.Rect 0 0 3 3;
     image.At := fun x y =>
       if (x =? 1) && (y =? 1)
       then {| image.R := 65535; image.G := 0; image.B := 0;
               image.A := 65535 |}
       else image.Transparent |}.

(** A file system in which every file decodes to a blank image of 64x64
    and every write succeeds. *)
Definition blank_files : spritesheet.FS :=
  {| spritesheet.DecodePNG := fun _ => Ok (blank 64 64);
     spritesheet.MkdirAllDir := fun _ => None;
     spritesheet.Create := fun _ => None;
     spritesheet.EncodePNG := fun _ _ => None |}.

(** A file system in which the file [b.png] cannot be opened. *)
Definition missing_b : spritesheet.FS :=
  {| spritesheet.DecodePNG := fun path =>
       if String.eqb path "b.png"
       then Err (Errorf "open b.png: no such file or directory")
       else Ok (blank 64 64);
     spritesheet.MkdirAllDir := fun _ => None;
     spritesheet.Create := fun _ => None;
     spritesheet.EncodePNG := fun _ _ => None |}.

Definition png_file (path : string) : utils.FileMapping :=
  {| utils.PNGPath := path; utils.OriginalPath := path;
     utils.IsTemporary := false |}.

(** A source whose stroke width comes before its width. *)
Definition stroked : string :=
  "<svg stroke-width=" ++ strings.quote ++ "3" ++ strings.quote
  ++ " width=" ++ strings.quote ++ "200" ++ strings.quote ++ ">".


(** [os.CreateTemp] creates a file that did not exist. *)
Definition names_fresh (env : cmd.Env) : Prop :=
  forall pattern disk path,
    cmd.CreateTemp env pattern disk = inl path -> path ∉ disk.

(** The files that [preparePNGFiles] keeps. *)
Definition wanted (file : string) : bool :=
  String.eqb (filepath.Ext file) ".png"
  || String.eqb (filepath.Ext file) ".svg".

(** A mapping is either a PNG file itself or a temporary file made of an
    SVG file. *)
Definition mapping_ok (m : utils.FileMapping) : Prop :=
  if utils.IsTemporary m
  then filepath.Ext (utils.OriginalPath m) = ".svg"
  else filepath.Ext (utils.OriginalPath m) = ".png" /\
       utils.PNGPath m = utils.OriginalPath m.

(** An environment in which every conversion succeeds, and one in which
    the file [bad.svg] cannot be converted. *)
Definition converting : cmd.Env :=
  {| cmd.CreateTemp := fun _ disk => inl (fresh disk);
     cmd.ConvertFile := fun _ _ => None |}.

Definition failing_on_bad : cmd.Env :=
  {| cmd.CreateTemp := fun _ disk => inl (fresh disk);
     cmd.ConvertFile := fun file _ =>
       if String.eqb file "bad.svg" then Some (Errorf "failed to parse SVG")
       else None |}.


(** The contract of [sort.Slice] that the properties use: the sorted slice
    holds the elements of the slice. *)
Definition permutes (Slice : sorting.Sorter) : Prop :=
  forall (A : Type) (l : list A) (less : A -> A -> bool),
    Slice A l less ≡ₚ l.

(** A sort by insertion, and the modification times of three files. *)
Fixpoint insert_sorted {A : Type} (less : A -> A -> bool) (x : A)
    (l : list A) : list A :=
  match l with
  | [] => [x]
  | y :: l' => if less y x then y :: insert_sorted less x l' else x :: l
  end.

Definition insertion_sort : sorting.Sorter := fun A l less =>
  fold_right (insert_sorted less) [] l.

Definition sample_times : sorting.Stater := fun file =>
  if String.eqb file "icons/b.svg" then inl 10
  else if String.eqb file "icons/a.png" then inl 30
  else if String.eqb file "icons/c.svg" then inl 20
  else inr (Errorf "no such file or directory").

(* ================================================================== *)
(** * Part II: properties                                               *)
(* ================================================================== *)

Example calculateLayout_7_3 :
  let cfg := {| config.Input := ""; config.Output := ""; config.Scale := f64.zero;
                config.Width := 0; config.Height := 0; config.TileWidth := 64;
                config.TileHeight := 64; config.Cols := 3; config.Rows := 0;
                config.Padding := 0; config.Sort := ""; config.Meta := "";
                config.Trim := false; config.Force := false;
                config.Verbose := false; config.Converter := "" |} in
  spritesheet.calculateLayout (spritesheet.NewGenerator cfg) 7 =
  {| spritesheet.Cols := 3; spritesheet.Rows := 3; spritesheet.TileWidth := 64;
     spritesheet.TileHeight := 64; spritesheet.Padding := 0;
     spritesheet.LayoutWidth := 192; spritesheet.LayoutHeight := 192 |}.
Proof. vm_compute. reflexivity. Qed.

Example CalculateDimensions_quarter :
  svg.CalculateDimensions
    {| svg.Scale := S754_finite false (2 ^ 52) (-54); svg.Width := 0;
       svg.Height := 0; svg.Verbose := false |}
    (f64.of_int 7) (f64.of_int 7) = (1, 1).
Proof. vm_compute. reflexivity. Qed.

(** ** Go's [int]: wrap-around *)

Section IntArith.

Lemma wrap_fits (z : Z) : fits z -> wrap z = z.
Proof.
  unfold fits, wrap, int_min, int_max. intros H.
  rewrite Z.mod_small; lia.
Qed.

Lemma wrap_range (z : Z) : fits (wrap z).
Proof.
  unfold fits, wrap, int_min, int_max.
  pose proof (Z.mod_pos_bound (z + 2 ^ 63) (2 ^ 64)). lia.
Qed.

Lemma wrap_eqm (z : Z) : wrap z mod 2 ^ 64 = z mod 2 ^ 64.
Proof.
  unfold wrap.
  rewrite Zminus_mod, Z.mod_mod by lia.
  rewrite <- Zminus_mod. f_equal. lia.
Qed.

Lemma wrap_congr (a b : Z) : a mod 2 ^ 64 = b mod 2 ^ 64 -> wrap a = wrap b.
Proof.
  intros H. unfold wrap.
  rewrite (Zplus_mod a), (Zplus_mod b), H. reflexivity.
Qed.

Lemma imul_iadd_exact (a b c : Z) : imul a (iadd b c) = wrap (a * (b + c)).
Proof.
  unfold imul, iadd. apply wrap_congr.
  rewrite Zmult_mod, wrap_eqm, <- Zmult_mod. reflexivity.
Qed.

Lemma canvas_side_exact (n t p : Z) :
  iadd (imul n t) (imul (isub n 1) p) = wrap (n * t + (n - 1) * p).
Proof.
  unfold iadd, imul, isub. apply wrap_congr.
  rewrite Zplus_mod, !wrap_eqm.
  rewrite (Zmult_mod (wrap (n - 1)) p), wrap_eqm, <- Zmult_mod.
  rewrite <- Zplus_mod. reflexivity.
Qed.

Lemma irem_pos (i c : Z) : 0 <= i -> 0 < c -> irem i c = Some (i mod c).
Proof.
  intros Hi Hc. unfold irem.
  destruct (Z.eqb_spec c 0); [lia|].
  rewrite Z.rem_mod_nonneg by lia. reflexivity.
Qed.

Lemma iquot_pos (i c : Z) :
  0 <= i <= int_max -> 0 < c -> iquot i c = Some (i / c).
Proof.
  intros Hi Hc. unfold iquot.
  destruct (Z.eqb_spec c 0); [lia|].
  rewrite Z.quot_div_nonneg by lia.
  rewrite wrap_fits; [reflexivity|].
  unfold fits, int_min, int_max in *.
  pose proof (Z.div_pos i c). pose proof (Z.div_le_upper_bound i c i).
  assert (i / c <= i) by (apply Z.div_le_upper_bound; nia).
  assert (0 <= i / c) by (apply Z.div_pos; lia). lia.
Qed.

End IntArith.

(** ** The converter registry *)

Section Registry.

Variable r : svg.ConverterRegistry.
Variable opts : svg.ConversionOptions.

Lemma Create_unknown (id : string) :
  svg.converters r !! id = None ->
  svg.Create r id opts = Err (ConverterNotFoundError id).
Proof. intros H. unfold svg.Create. rewrite H. reflexivity. Qed.

Lemma Create_unavailable (id : string) (factory : svg.Factory) (err : error) :
  svg.converters r !! id = Some factory ->
  svg.IsAvailable (factory opts) = Some err ->
  svg.Create r id opts = Err (ConverterUnavailableError id (Error err)).
Proof. intros H Ha. unfold svg.Create. rewrite H, Ha. reflexivity. Qed.

Lemma Create_Ok_inv (id : string) (c : svg.SVGConverter) :
  svg.Create r id opts = Ok c ->
  exists factory, svg.converters r !! id = Some factory /\
                  c = factory opts /\ svg.IsAvailable c = None.
Proof.
  unfold svg.Create. intros H.
  destruct (svg.converters r !! id) as [factory|] eqn:Hl; [|discriminate].
  destruct (svg.IsAvailable (factory opts)) eqn:Ha; [discriminate|].
  inversion H; subst. eauto.
Qed.

End Registry.

(** C7. For an identifier that is not registered, [Create] fails with the
    not-found error carrying the identifier; for a registered identifier
    whose converter reports that it is unavailable, [Create] fails with the
    unavailable error carrying the identifier and the reason; in neither
    case is a converter returned, and a converter that [Create] does
    return passed its availability check. *)
Theorem Create_never_returns_unavailable
    (r : svg.ConverterRegistry) (id : string) (opts : svg.ConversionOptions) :
  (svg.converters r !! id = None ->
     svg.Create r id opts = Err (ConverterNotFoundError id)) /\
  (forall factory err,
     svg.converters r !! id = Some factory ->
     svg.IsAvailable (factory opts) = Some err ->
     svg.Create r id opts = Err (ConverterUnavailableError id (Error err))) /\
  (forall c, svg.Create r id opts = Ok c -> svg.IsAvailable c = None).
Proof.
  split; [apply Create_unknown|].
  split; [intros; eapply Create_unavailable; eauto|].
  intros c H. destruct (Create_Ok_inv _ _ _ _ H) as (f & _ & _ & Ha). exact Ha.
Qed.

Lemma Create_never_returns_unavailable_witness :
  svg.Create sample_registry "rod" sample_options
    = Err (ConverterNotFoundError "rod") /\
  svg.Create sample_registry "rsvg" sample_options
    = Err (ConverterUnavailableError "rsvg" "rsvg-convert command not found") /\
  svg.IsAvailable (always_available sample_options) = None.
Proof.
  pose proof (Create_never_returns_unavailable sample_registry "rod"
                sample_options) as (H1 & _ & _).
  pose proof (Create_never_returns_unavailable sample_registry "rsvg"
                sample_options) as (_ & H2 & _).
  pose proof (Create_never_returns_unavailable sample_registry "oksvg"
                sample_options) as (_ & _ & H3).
  split; [apply H1; reflexivity|].
  split; [apply (H2 never_available (Errorf "rsvg-convert command not found"));
          reflexivity|].
  apply H3. reflexivity.
Defined.

(** ** Placement *)

Section Placement.

Variable g : spritesheet.Generator.
Variable layout : spritesheet.Layout.

Lemma numbered_length {A} (f : Z -> spritesheet.ImageInfo -> A) tiles i :
  length (grid.numbered f i tiles) = length tiles.
Proof. revert i. induction tiles as [|t ts IH]; intros i; simpl; auto. Qed.

Lemma numbered_lookup {A} (f : Z -> spritesheet.ImageInfo -> A) tiles :
  forall i (k : nat) tile,
    tiles !! k = Some tile ->
    grid.numbered f i tiles !! k = Some (f (i + Z.of_nat k) tile).
Proof.
  induction tiles as [|t ts IH]; intros i k tile Hk; [discriminate|].
  destruct k as [|k]; simpl in *.
  - inversion Hk; subst. now rewrite Z.add_0_r.
  - rewrite (IH (i + 1) k tile Hk). do 2 f_equal. lia.
Qed.

(** One turn of the loop, in a layout with a positive column count. *)
Lemma place_step (i : Z) tile rest sheet meta :
  0 < spritesheet.Cols layout -> 0 <= i <= int_max ->
  spritesheet.place g layout i (tile :: rest) (sheet, meta) =
  spritesheet.place g layout (i + 1) rest
    ({| draw.Dst := draw.Dst sheet;
        draw.Calls := draw.Calls sheet ++ [grid.call_at layout i tile] |},
     {| metadata.SheetWidth := metadata.SheetWidth meta;
        metadata.SheetHeight := metadata.SheetHeight meta;
        metadata.TileWidth := metadata.TileWidth meta;
        metadata.TileHeight := metadata.TileHeight meta;
        metadata.Cols := metadata.Cols meta;
        metadata.Rows := metadata.Rows meta;
        metadata.Padding := metadata.Padding meta;
        metadata.Sprites :=
          metadata.Sprites meta ++ [grid.sprite_at layout i tile] |}).
Proof.
  intros Hc Hi. simpl.
  rewrite irem_pos, iquot_pos by lia.
  rewrite !imul_iadd_exact. reflexivity.
Qed.

Lemma place_spec tiles :
  0 < spritesheet.Cols layout ->
  forall i sheet meta,
    0 <= i -> i + Z.of_nat (length tiles) <= int_max + 1 ->
    spritesheet.place g layout i tiles (sheet, meta) =
    Ok ({| draw.Dst := draw.Dst sheet;
           draw.Calls :=
             draw.Calls sheet ++ grid.numbered (grid.call_at layout) i tiles |},
        {| metadata.SheetWidth := metadata.SheetWidth meta;
           metadata.SheetHeight := metadata.SheetHeight meta;
           metadata.TileWidth := metadata.TileWidth meta;
           metadata.TileHeight := metadata.TileHeight meta;
           metadata.Cols := metadata.Cols meta;
           metadata.Rows := metadata.Rows meta;
           metadata.Padding := metadata.Padding meta;
           metadata.Sprites :=
             metadata.Sprites meta
               ++ grid.numbered (grid.sprite_at layout) i tiles |}).
Proof.
  intros Hc. induction tiles as [|tile rest IH]; intros i sheet meta Hi Hlen.
  - simpl. rewrite !app_nil_r. destruct sheet, meta; reflexivity.
  - rewrite place_step by (simpl length in Hlen; lia).
    rewrite IH by (simpl length in Hlen; lia).
    simpl. rewrite <- !app_assoc. reflexivity.
Qed.

(** Without tiles the loop does not run, whatever the column count. *)
Lemma place_nil i st : spritesheet.place g layout i [] st = Ok st.
Proof. reflexivity. Qed.

Lemma NewRGBA_allocatable (w h : Z) :
  allocatable w h ->
  image.NewRGBA (image.Rect 0 0 w h) =
  Ok {| image.Bounds := image.Rect 0 0 w h;
        image.At := fun _ _ => image.Transparent |}.
Proof.
  unfold allocatable, image.NewRGBA. intros H.
  destruct (Z.ltb_spec (image.mul3NonNeg 4 (image.Dx (image.Rect 0 0 w h))
                          (image.Dy (image.Rect 0 0 w h))) 0); [lia|reflexivity].
Qed.

Lemma createSpritesheet_spec tiles :
  0 < spritesheet.Cols layout ->
  Z.of_nat (length tiles) <= int_max + 1 ->
  allocatable (spritesheet.LayoutWidth layout) (spritesheet.LayoutHeight layout) ->
  exists sheet meta,
    spritesheet.createSpritesheet g tiles layout = Ok (sheet, meta) /\
    draw.Calls sheet = grid.numbered (grid.call_at layout) 0 tiles /\
    metadata.Sprites meta = grid.numbered (grid.sprite_at layout) 0 tiles /\
    metadata.SheetWidth meta = spritesheet.LayoutWidth layout /\
    metadata.SheetHeight meta = spritesheet.LayoutHeight layout.
Proof.
  intros Hc Hlen Ha. unfold spritesheet.createSpritesheet.
  rewrite (NewRGBA_allocatable _ _ Ha). cbn [mbind result_bind].
  rewrite place_spec by lia.
  eexists _, _. split; [reflexivity|]. cbn. auto.
Qed.

End Placement.

(** C1. For a non-empty sequence of tiles and a layout with a positive
    column count (whose canvas can be allocated), [createSpritesheet]
    returns a sheet and its metadata; the tile at ordinal [i] is drawn into
    the rectangle whose origin is [x = (i mod cols) * (tileWidth + padding)],
    [y = (i div cols) * (tileHeight + padding)] (as [int] values), and the
    [i]-th sprite of the metadata has that [x] and [y], the layout's tile
    width and height, and index [i], in input order.  Three tiles of 64x64
    with padding 2 in two columns get the origins (0,0), (66,0), (0,66). *)
Theorem createSpritesheet_row_major (g : spritesheet.Generator) :
  (forall (tiles : list spritesheet.ImageInfo) (layout : spritesheet.Layout)
          (i : nat) (tile : spritesheet.ImageInfo),
     tiles <> [] ->
     Z.of_nat (length tiles) <= int_max + 1 ->
     0 < spritesheet.Cols layout ->
     allocatable (spritesheet.LayoutWidth layout)
                 (spritesheet.LayoutHeight layout) ->
     tiles !! i = Some tile ->
     let x := wrap ((Z.of_nat i mod spritesheet.Cols layout)
                    * (spritesheet.TileWidth layout + spritesheet.Padding layout)) in
     let y := wrap ((Z.of_nat i / spritesheet.Cols layout)
                    * (spritesheet.TileHeight layout + spritesheet.Padding layout)) in
     exists sheet meta,
       spritesheet.createSpritesheet g tiles layout = Ok (sheet, meta) /\
       length (metadata.Sprites meta) = length tiles /\
       draw.Calls sheet !! i =
         Some {| draw.r := image.Rect x y
                             (iadd x (spritesheet.TileWidth layout))
                             (iadd y (spritesheet.TileHeight layout));
                 draw.src := spritesheet.Image tile;
                 draw.sp := {| image.X := 0; image.Y := 0 |};
                 draw.op := draw.Over |} /\
       metadata.Sprites meta !! i =
         Some {| metadata.Name := spritesheet.Filename tile;
                 metadata.X := x;
                 metadata.Y := y;
                 metadata.Width := spritesheet.TileWidth layout;
                 metadata.Height := spritesheet.TileHeight layout;
                 metadata.Index := Z.of_nat i |}) /\
  (forall a b c : spritesheet.ImageInfo,
     exists sheet meta,
       spritesheet.createSpritesheet g [a; b; c] sample_layout
         = Ok (sheet, meta) /\
       map (fun s => (metadata.X s, metadata.Y s)) (metadata.Sprites meta)
         = [(0, 0); (66, 0); (0, 66)]).
Proof.
  split.
  - intros tiles layout i tile _ Hlen Hc Ha Hi x y.
    destruct (createSpritesheet_spec g layout tiles Hc Hlen Ha)
      as (sheet & meta & Hrun & Hcalls & Hsprites & _).
    exists sheet, meta. split; [exact Hrun|].
    rewrite Hcalls, Hsprites, numbered_length.
    rewrite !(numbered_lookup _ _ 0 i tile Hi).
    split; [reflexivity|]. split; reflexivity.
  - intros a b c. eexists _, _. split; [reflexivity|]. reflexivity.
Qed.

Lemma createSpritesheet_row_major_witness :
  exists sheet meta,
    spritesheet.createSpritesheet sample_generator
      [tile_named "a" 64 64; tile_named "b" 64 64; tile_named "c" 64 64]
      sample_layout = Ok (sheet, meta) /\
    length (metadata.Sprites meta) = 3%nat /\
    draw.Calls sheet !! 2%nat =
      Some {| draw.r := image.Rect 0 66 64 130;
              draw.src := blank 64 64;
              draw.sp := {| image.X := 0; image.Y := 0 |};
              draw.op := draw.Over |} /\
    metadata.Sprites meta !! 2%nat =
      Some {| metadata.Name := "c"; metadata.X := 0; metadata.Y := 66;
              metadata.Width := 64; metadata.Height := 64;
              metadata.Index := 2 |}.
Proof.
  refine (proj1 (createSpritesheet_row_major sample_generator)
            [tile_named "a" 64 64; tile_named "b" 64 64; tile_named "c" 64 64]
            sample_layout 2%nat (tile_named "c" 64 64) _ _ _ _ _).
  - discriminate.
  - vm_compute. discriminate.
  - reflexivity.
  - vm_compute. discriminate.
  - reflexivity.
Defined.

(** C2 as stated fails: a 10x10 tile in a layout of 64x64 tiles is placed
    without any error, recorded as 64x64, and an empty tile sequence gives
    an empty sheet, not an error. *)
Lemma createSpritesheet_accepts_mismatch_and_empty :
  spritesheet.Width (tile_named "small" 10 10) = 10 /\
  spritesheet.TileWidth sample_layout = 64 /\
  snd <$> result_value
    (spritesheet.createSpritesheet sample_generator
       [tile_named "small" 10 10] sample_layout)
  = Some {| metadata.SheetWidth := 130; metadata.SheetHeight := 130;
            metadata.TileWidth := 64; metadata.TileHeight := 64;
            metadata.Cols := 2; metadata.Rows := 2; metadata.Padding := 2;
            metadata.Sprites :=
              [ {| metadata.Name := "small"; metadata.X := 0; metadata.Y := 0;
                   metadata.Width := 64; metadata.Height := 64;
                   metadata.Index := 0 |} ] |} /\
  snd <$> result_value
    (spritesheet.createSpritesheet sample_generator [] sample_layout)
  = Some {| metadata.SheetWidth := 130; metadata.SheetHeight := 130;
            metadata.TileWidth := 64; metadata.TileHeight := 64;
            metadata.Cols := 2; metadata.Rows := 2; metadata.Padding := 2;
            metadata.Sprites := [] |}.
Proof. repeat split. Qed.

Lemma numbered_sprites_size layout tiles i :
  Forall (fun s => metadata.Width s = spritesheet.TileWidth layout /\
                   metadata.Height s = spritesheet.TileHeight layout)
         (grid.numbered (grid.sprite_at layout) i tiles).
Proof.
  revert i. induction tiles as [|t ts IH]; intros i; simpl; constructor; auto.
Qed.

(** C2, amended. [createSpritesheet] validates nothing: for every tile
    sequence, empty or not and whatever the dimensions of its tiles, and
    every layout with a positive column count whose canvas can be
    allocated, it returns a sheet with one sprite per tile, each recorded
    with the layout's tile width and height.  The empty input is refused
    earlier: [Generate] fails on an empty file list. *)
Theorem createSpritesheet_validates_nothing (g : spritesheet.Generator) :
  (forall fs outputPath,
     spritesheet.Generate fs g [] outputPath
       = Err (Errorf "no PNG files provided")) /\
  (forall (tiles : list spritesheet.ImageInfo) (layout : spritesheet.Layout),
     Z.of_nat (length tiles) <= int_max + 1 ->
     tiles = [] \/ 0 < spritesheet.Cols layout ->
     allocatable (spritesheet.LayoutWidth layout)
                 (spritesheet.LayoutHeight layout) ->
     exists sheet meta,
       spritesheet.createSpritesheet g tiles layout = Ok (sheet, meta) /\
       length (metadata.Sprites meta) = length tiles /\
       Forall (fun s => metadata.Width s = spritesheet.TileWidth layout /\
                        metadata.Height s = spritesheet.TileHeight layout)
              (metadata.Sprites meta)).
Proof.
  split; [reflexivity|].
  intros tiles layout Hlen [->|Hc] Ha.
  - unfold spritesheet.createSpritesheet.
    rewrite (NewRGBA_allocatable _ _ Ha). cbn.
    eexists _, _. split; [reflexivity|]. cbn. split; [reflexivity|constructor].
  - destruct (createSpritesheet_spec g layout tiles Hc Hlen Ha)
      as (sheet & meta & Hrun & _ & Hs & _).
    exists sheet, meta. split; [exact Hrun|].
    rewrite Hs, numbered_length. split; [reflexivity|].
    apply numbered_sprites_size.
Qed.

Lemma createSpritesheet_validates_nothing_witness :
  exists sheet meta,
    spritesheet.createSpritesheet sample_generator
      [tile_named "small" 10 10] sample_layout = Ok (sheet, meta) /\
    length (metadata.Sprites meta) = 1%nat /\
    Forall (fun s => metadata.Width s = 64 /\ metadata.Height s = 64)
           (metadata.Sprites meta).
Proof.
  refine (proj2 (createSpritesheet_validates_nothing sample_generator)
            [tile_named "small" 10 10] sample_layout _ _ _).
  - vm_compute. discriminate.
  - right. reflexivity.
  - vm_compute. discriminate.
Defined.

(** ** Tile loading: trimming and resizing *)

Section Images.

Lemma Dx_Rect (w h : Z) : 0 <= w <= int_max -> image.Dx (image.Rect 0 0 w h) = w.
Proof.
  intros Hw. unfold image.Rect, image.Dx.
  destruct (Z.ltb_spec w 0); [lia|]. destruct (h <? 0); cbn;
    unfold isub; rewrite Z.sub_0_r; apply wrap_fits;
    unfold fits, int_min, int_max in *; lia.
Qed.

Lemma Dy_Rect (w h : Z) : 0 <= h <= int_max -> image.Dy (image.Rect 0 0 w h) = h.
Proof.
  intros Hh. unfold image.Rect, image.Dy.
  destruct (Z.ltb_spec h 0); [lia|]. destruct (w <? 0); cbn;
    unfold isub; rewrite Z.sub_0_r; apply wrap_fits;
    unfold fits, int_min, int_max in *; lia.
Qed.

Lemma NewRGBA_Bounds r img : image.NewRGBA r = Ok img -> image.Bounds img = r.
Proof.
  unfold image.NewRGBA. destruct (_ <? 0); [discriminate|].
  intros H; inversion H; reflexivity.
Qed.

Lemma Set_Bounds img x y c :
  image.Bounds (image.Set_ img x y c) = image.Bounds img.
Proof. unfold image.Set_. destruct (image.InRect _ _ _); reflexivity. Qed.

(** A loop that only sets pixels leaves the bounds as they are. *)
Lemma fold_Set_Bounds {A B} (ys : list A) (xs : list B)
    (px : A -> B -> Z * Z) (col : A -> B -> image.Color) img :
  image.Bounds
    (fold_left
       (fun res y =>
          fold_left
            (fun res x => image.Set_ res (fst (px y x)) (snd (px y x)) (col y x))
            xs res)
       ys img)
  = image.Bounds img.
Proof.
  revert img. induction ys as [|y ys IH]; intros img; simpl; [reflexivity|].
  rewrite IH. clear IH. revert img.
  induction xs as [|x xs IHx]; intros img; simpl; [reflexivity|].
  rewrite IHx. apply Set_Bounds.
Qed.

Lemma mul3NonNeg_fits (w h : Z) :
  0 <= w -> 1 <= h -> 4 * w * h <= int_max -> 0 <= image.mul3NonNeg 4 w h.
Proof.
  intros Hw Hh Hb. unfold image.mul3NonNeg, int_max in *.
  destruct (Z.ltb_spec 4 0); [lia|].
  destruct (Z.ltb_spec w 0); [lia|].
  destruct (Z.ltb_spec h 0); [lia|]. cbn [orb].
  assert (4 * w <= 4 * w * h) by nia.
  destruct (Z.leb_spec (2 ^ 64) (4 * w)); [lia|].
  destruct (Z.leb_spec (2 ^ 64) (4 * w * h)); [lia|].
  rewrite wrap_fits by (unfold fits, int_min, int_max; lia).
  destruct (Z.ltb_spec (4 * w * h) 0); lia.
Qed.

Lemma ResizeImage_size img w h out :
  0 <= w <= int_max -> 0 <= h <= int_max ->
  utils.ResizeImage img w h = Ok out -> has_size w h out.
Proof.
  intros Hw Hh. unfold utils.ResizeImage, has_size.
  destruct (Z.eqb_spec (image.Dx (image.Bounds img)) w) as [Ew|Nw];
    [destruct (Z.eqb_spec (image.Dy (image.Bounds img)) h) as [Eh|Nh]|]; cbn [andb].
  - intros H; inversion H; subst; auto.
  - destruct (image.NewRGBA (image.Rect 0 0 w h)) as [base| |] eqn:Hn;
      cbn; try discriminate.
    intros H; inversion H; subst; clear H.
    rewrite (fold_Set_Bounds _ _ (fun y x => (x, y))).
    rewrite (NewRGBA_Bounds _ _ Hn). auto using Dx_Rect, Dy_Rect.
  - destruct (image.NewRGBA (image.Rect 0 0 w h)) as [base| |] eqn:Hn;
      cbn; try discriminate.
    intros H; inversion H; subst; clear H.
    rewrite (fold_Set_Bounds _ _ (fun y x => (x, y))).
    rewrite (NewRGBA_Bounds _ _ Hn). auto using Dx_Rect, Dy_Rect.
Qed.

Lemma ResizeImage_total img w h :
  allocatable w h -> exists out, utils.ResizeImage img w h = Ok out.
Proof.
  intros Ha. unfold utils.ResizeImage.
  destruct (_ && _); [eexists; reflexivity|].
  rewrite (NewRGBA_allocatable _ _ Ha). cbn. eexists; reflexivity.
Qed.

End Images.

Section Trim.

Variable img : image.Image.

Lemma upfrom_In x lo n : In x (utils.upfrom lo n) -> lo <= x < lo + Z.of_nat n.
Proof.
  revert lo. induction n as [|n IH]; intros lo; simpl; [tauto|].
  intros [<-|H]; [lia|]. apply IH in H. lia.
Qed.

Lemma loop_In x lo hi : In x (utils.loop lo hi) -> lo <= x < hi.
Proof. unfold utils.loop. intros H. apply upfrom_In in H. lia. Qed.

Lemma fold_left_inv {A B} (P : A -> Prop) (f : A -> B -> A) (l : list B) :
  (forall a x, In x l -> P a -> P (f a x)) ->
  forall a, P a -> P (fold_left f l a).
Proof.
  induction l as [|x l IH]; intros Hf a Ha; simpl; [exact Ha|].
  apply IH; [intros; apply Hf; simpl; auto|apply Hf; simpl; auto].
Qed.

Lemma scan_pixel_inv y st x :
  image.X (image.Min (image.Bounds img)) <= x
    < image.X (image.Max (image.Bounds img)) ->
  image.Y (image.Min (image.Bounds img)) <= y
    < image.Y (image.Max (image.Bounds img)) ->
  scan_inv img st -> scan_inv img (utils.scan_pixel img y st x).
Proof.
  intros Hx Hy Hst. unfold utils.scan_pixel.
  destruct (0 <? _); [|exact Hst].
  destruct (utils.found st) eqn:Hf; cbn [negb].
  - specialize (Hst Hf). intros _. cbn.
    repeat match goal with |- context [?a <? ?b] => destruct (Z.ltb_spec a b) end;
      lia.
  - intros _. cbn. lia.
Qed.

Lemma scan_scan_inv : scan_inv img (utils.scan img).
Proof.
  unfold utils.scan. apply fold_left_inv.
  - intros st y Hy Hst. apply fold_left_inv; [|exact Hst].
    intros st' x Hx Hst'. apply loop_In in Hx, Hy.
    apply scan_pixel_inv; auto.
  - intros Hf. discriminate.
Qed.

Lemma TrimTransparent_total :
  image_ok img -> exists out, utils.TrimTransparent img = Ok out.
Proof.
  intros (Fx0 & Fy0 & Fx1 & Fy1 & Hx & Hy & Hbuf).
  unfold utils.TrimTransparent. pose proof scan_scan_inv as Hinv.
  unfold scan_inv in Hinv.
  destruct (utils.found (utils.scan img)) eqn:Hf; cbn [negb].
  - specialize (Hinv eq_refl).
    destruct Hinv as (A1 & A2 & A3 & B1 & B2 & B3).
    set (st := utils.scan img) in *.
    assert (Wb : image.X (image.Max (image.Bounds img))
                 - image.X (image.Min (image.Bounds img)) <= int_max)
      by (unfold int_max in *; nia).
    assert (Hb : image.Y (image.Max (image.Bounds img))
                 - image.Y (image.Min (image.Bounds img)) <= int_max)
      by (unfold int_max in *; nia).
    assert (Hw : iadd (isub (utils.maxX st) (utils.minX st)) 1
                 = utils.maxX st - utils.minX st + 1).
    { unfold iadd, isub. unfold fits, int_min, int_max in *.
      rewrite (wrap_fits (_ - _)) by (unfold fits, int_min, int_max; lia).
      apply wrap_fits. unfold fits, int_min, int_max; lia. }
    assert (Hh : iadd (isub (utils.maxY st) (utils.minY st)) 1
                 = utils.maxY st - utils.minY st + 1).
    { unfold iadd, isub. unfold fits, int_min, int_max in *.
      rewrite (wrap_fits (_ - _)) by (unfold fits, int_min, int_max; lia).
      apply wrap_fits. unfold fits, int_min, int_max; lia. }
    rewrite Hw, Hh.
    rewrite NewRGBA_allocatable; [cbn; eexists; reflexivity|].
    unfold allocatable. unfold fits, int_min, int_max in *.
    rewrite Dx_Rect, Dy_Rect by (unfold int_max; lia).
    apply mul3NonNeg_fits; unfold int_max in *; try lia.
    match type of Hbuf with 4 * ?W * ?H <= _ =>
      assert (utils.maxX st - utils.minX st + 1 <= W) by lia;
      assert (utils.maxY st - utils.minY st + 1 <= H) by lia
    end.
    nia.
  - eexists. reflexivity.
Qed.

End Trim.

Section Loading.

Variable g : spritesheet.Generator.

Let tw := config.TileWidth (spritesheet.config_ g).
Let th := config.TileHeight (spritesheet.config_ g).

Hypothesis tw_range : 0 <= tw <= int_max.
Hypothesis th_range : 0 <= th <= int_max.

Lemma processImage_size img out :
  spritesheet.processImage g img = Ok out -> has_size tw th out.
Proof.
  unfold spritesheet.processImage.
  destruct (if config.Trim (spritesheet.config_ g)
            then utils.TrimTransparent img else mret img) as [t| |];
    cbn [mbind result_bind]; try discriminate.
  fold tw th.
  destruct (Z.eqb_spec (image.Dx (image.Bounds t)) tw) as [Ew|Nw];
    [destruct (Z.eqb_spec (image.Dy (image.Bounds t)) th) as [Eh|Nh]|];
    cbn [negb orb].
  - intros H; inversion H; subst. split; assumption.
  - apply ResizeImage_size; assumption.
  - apply ResizeImage_size; assumption.
Qed.

Lemma processImage_total img :
  image_ok img -> allocatable tw th ->
  exists out, spritesheet.processImage g img = Ok out.
Proof.
  intros Hok Ha. unfold spritesheet.processImage.
  assert (exists t, (if config.Trim (spritesheet.config_ g)
                     then utils.TrimTransparent img else mret img) = Ok t)
    as [t ->].
  { destruct (config.Trim _); [apply TrimTransparent_total; exact Hok|].
    eexists; reflexivity. }
  cbn [mbind result_bind]. fold tw th.
  destruct (_ || _); [apply ResizeImage_total; exact Ha|eexists; reflexivity].
Qed.

Lemma loadImages_size fs mappings :
  forall tiles,
    spritesheet.loadImages fs g mappings = Ok tiles ->
    length tiles = length mappings /\
    Forall (fun t => has_size tw th (spritesheet.Image t) /\
                     spritesheet.Width t = tw /\ spritesheet.Height t = th)
           tiles.
Proof.
  induction mappings as [|m ms IH]; intros tiles; simpl.
  - intros H; inversion H; subst. split; [reflexivity|constructor].
  - unfold spritesheet.loadImage.
    destruct (spritesheet.DecodePNG fs (utils.PNGPath m)) as [img| |];
      try discriminate.
    destruct (spritesheet.processImage g img) as [p| |] eqn:Hp;
      cbn [mbind result_bind]; try discriminate.
    destruct (spritesheet.loadImages fs g ms) as [rest| |];
      cbn [mbind result_bind]; try discriminate.
    intros H; inversion H; subst; clear H.
    destruct (IH rest eq_refl) as [Hl Hall].
    split; [simpl; congruence|].
    constructor; [|exact Hall]. cbn.
    pose proof (processImage_size _ _ Hp) as Hs. destruct Hs as [Hx Hy].
    unfold has_size. auto.
Qed.

(** Loading succeeds when every file decodes to a well-formed image. *)
Lemma loadImages_total fs mappings :
  allocatable tw th ->
  Forall (fun m => exists img,
            spritesheet.DecodePNG fs (utils.PNGPath m) = Ok img /\ image_ok img)
         mappings ->
  exists tiles, spritesheet.loadImages fs g mappings = Ok tiles.
Proof.
  intros Ha. induction 1 as [|m ms (img & Hd & Hok) _ [rest IH]]; simpl.
  - eexists; reflexivity.
  - unfold spritesheet.loadImage. rewrite Hd.
    destruct (processImage_total img Hok Ha) as [p ->].
    cbn [mbind result_bind]. rewrite IH. cbn. eexists; reflexivity.
Qed.

End Loading.

(** C9. With a tile size that is a non-negative [int] pair, every image
    that leaves [processImage] is exactly [TileWidth] by [TileHeight]:
    an image of another size is resized to it (and an image of that size
    is passed on).  [processImage] does return an image for every
    well-formed input when an image of the tile size can be allocated, and
    every tile that [loadImages] hands to the compositor has the tile
    size, both as an image and in its recorded width and height. *)
Theorem loaded_tiles_have_tile_size (g : spritesheet.Generator) :
  let tw := config.TileWidth (spritesheet.config_ g) in
  let th := config.TileHeight (spritesheet.config_ g) in
  0 <= tw <= int_max -> 0 <= th <= int_max ->
  (forall img,
     image_ok img -> allocatable tw th ->
     exists out, spritesheet.processImage g img = Ok out /\ has_size tw th out) /\
  (forall fs mappings tiles,
     spritesheet.loadImages fs g mappings = Ok tiles ->
     length tiles = length mappings /\
     Forall (fun t => has_size tw th (spritesheet.Image t) /\
                      spritesheet.Width t = tw /\ spritesheet.Height t = th)
            tiles) /\
  (forall fs mappings,
     allocatable tw th ->
     Forall (fun m => exists img,
               spritesheet.DecodePNG fs (utils.PNGPath m) = Ok img /\
               image_ok img) mappings ->
     exists tiles, spritesheet.loadImages fs g mappings = Ok tiles).
Proof.
  intros tw th Hw Hh. split; [|split].
  - intros img Hok Ha.
    destruct (processImage_total g img Hok Ha) as [out Hout].
    exists out. split; [exact Hout|].
    exact (processImage_size g Hw Hh img out Hout).
  - intros fs mappings tiles. apply loadImages_size; assumption.
  - intros fs mappings. apply loadImages_total.
Qed.

Lemma loaded_tiles_have_tile_size_witness :
  exists out,
    spritesheet.processImage sample_generator (blank 10 10) = Ok out /\
    has_size 64 64 out.
Proof.
  refine (proj1 (loaded_tiles_have_tile_size sample_generator _ _)
            (blank 10 10) _ _).
  - vm_compute. split; discriminate.
  - vm_compute. split; discriminate.
  - vm_compute. repeat split; discriminate.
  - vm_compute. discriminate.
Defined.

(** A 2x2 image whose pixels carry their own coordinates, resized to 4x4:
    the pixel (3, 2) is sampled from (1, 1). *)
Example ResizeImage_samples_nearest :
  let src :=
    {| image.Bounds := image.Rect 0 0 2 2;
       image.At := fun x y =>
         {| image.R := 256 * x; image.G := 256 * y; image.B := 0;
            image.A := 65535 |} |} in
  (fun out => (image.Bounds out, image.At out 3 2))
    <$> result_value (utils.ResizeImage src 4 4)
  = Some (image.Rect 0 0 4 4,
          {| image.R := 257; image.G := 257; image.B := 0;
             image.A := 65535 |}).
Proof. vm_compute. reflexivity. Qed.

(** ** Dimension resolution *)

Example quarter_is_one_over_four :
  f64.div (f64.of_int 1) (f64.of_int 4) = quarter.
Proof. vm_compute. reflexivity. Qed.

(** C5 as stated fails: a request for width 1 on a 100x1 source resolves
    the height to 0, and that pair is returned; [CalculateDimensions] has
    no error result. *)
Lemma CalculateDimensions_returns_zero_height :
  svg.CalculateDimensions width_one (f64.of_int 100) (f64.of_int 1) = (1, 0).
Proof. vm_compute. reflexivity. Qed.

(** C5, amended. Dimension resolution returns the resolved pair for every
    source size and every valid request, by the rule of the request's
    shape, and has no failure: a resolved width or height that is not
    positive is returned as it is. *)
Theorem CalculateDimensions_resolves (opts : svg.ConversionOptions)
    (w h : float64) (shape : RequestShape) :
  request_shape opts = Some shape ->
  svg.CalculateDimensions opts w h = resolved opts w h shape.
Proof.
  unfold request_shape, svg.CalculateDimensions.
  destruct (f64.eqb (svg.Scale opts) f64.zero) eqn:Hz.
  - assert (Hlt : f64.ltb f64.zero (svg.Scale opts) = false).
    { revert Hz. unfold f64.eqb, f64.ltb, SFeqb, SFltb, f64.zero.
      destruct (svg.Scale opts) as [[]|[]| |[] ? ?]; cbn; congruence. }
    rewrite Hlt.
    destruct (Z.compare_spec (svg.Width opts) 0) as [Hw|Hw|Hw];
      destruct (Z.compare_spec (svg.Height opts) 0) as [Hh|Hh|Hh];
      intros H; inversion H; subst; clear H; cbn [andb resolved];
      repeat match goal with
        | |- context [?a =? ?b] => destruct (Z.eqb_spec a b); try lia
        | |- context [?a <? ?b] => destruct (Z.ltb_spec a b); try lia
        end; cbn [andb]; reflexivity.
  - cbn [andb].
    destruct (f64.ltb f64.zero (svg.Scale opts)); cbn [andb]; [|discriminate].
    destruct (_ && _); intros H; inversion H; reflexivity.
Qed.

Lemma CalculateDimensions_resolves_witness :
  svg.CalculateDimensions width_one (f64.of_int 100) (f64.of_int 1) = (1, 0).
Proof.
  exact (CalculateDimensions_resolves width_one (f64.of_int 100) (f64.of_int 1)
           OnlyWidth eq_refl).
Defined.

(** C6 as stated fails: 7 scaled by 0.25 is 1.75, which resolves to 1 and
    not to the nearest integer 2. *)
Lemma CalculateDimensions_scale_does_not_round :
  f64.mul (f64.of_int 7) quarter = S754_finite false (7 * 2 ^ 50) (-52) /\
  round_nearest (f64.mul (f64.of_int 7) quarter) = Some 2 /\
  svg.CalculateDimensions scale_quarter (f64.of_int 7) (f64.of_int 7) = (1, 1).
Proof. vm_compute. repeat split. Qed.

Lemma to_int_truncates (f : float64) :
  int_valued f -> truncates f (f64.to_int f).
Proof.
  destruct f as [s|s| |s m e]; cbn; try tauto.
  unfold f64.trunc_mag. intros Hb.
  set (t := Z.shiftl (Z.pos m) e) in *.
  assert (Ht : 0 <= t) by (apply Z.shiftl_nonneg; lia).
  assert (Hf : fitsb (if s then - t else t) = true).
  { unfold fitsb, int_min, int_max in *. destruct s; lia. }
  rewrite Hf. exists t. split; [reflexivity|]. split; [exact Ht|].
  subst t. destruct (Z.leb_spec 0 e).
  - apply Z.shiftl_mul_pow2. assumption.
  - rewrite Z.shiftl_div_pow2 by lia.
    assert (0 < 2 ^ (- e)) by (apply Z.pow_pos_nonneg; lia).
    pose proof (Z.div_mod (Z.pos m) (2 ^ (- e))).
    pose proof (Z.mod_pos_bound (Z.pos m) (2 ^ (- e))). nia.
Qed.

(** C6, amended. For a request with scale [s > 0] and every source size,
    dimension resolution returns the scaled dimensions cut to their integer
    parts, toward zero: [(trunc (w * s), trunc (h * s))]. *)
Theorem CalculateDimensions_scale (opts : svg.ConversionOptions)
    (w h : float64) :
  f64.ltb f64.zero (svg.Scale opts) = true ->
  svg.CalculateDimensions opts w h
    = (f64.to_int (f64.mul w (svg.Scale opts)),
       f64.to_int (f64.mul h (svg.Scale opts))) /\
  (int_valued (f64.mul w (svg.Scale opts)) ->
   truncates (f64.mul w (svg.Scale opts))
             (fst (svg.CalculateDimensions opts w h))) /\
  (int_valued (f64.mul h (svg.Scale opts)) ->
   truncates (f64.mul h (svg.Scale opts))
             (snd (svg.CalculateDimensions opts w h))).
Proof.
  intros Hs.
  assert (E : svg.CalculateDimensions opts w h
              = (f64.to_int (f64.mul w (svg.Scale opts)),
                 f64.to_int (f64.mul h (svg.Scale opts)))).
  { unfold svg.CalculateDimensions. rewrite Hs.
    assert (Hz : f64.eqb (svg.Scale opts) f64.zero = false).
    { revert Hs. unfold f64.eqb, f64.ltb, SFeqb, SFltb, f64.zero.
      destruct (svg.Scale opts) as [[]|[]| |[] ? ?]; cbn; congruence. }
    rewrite Hz. reflexivity. }
  rewrite E. cbn [fst snd]. auto using to_int_truncates.
Qed.

Lemma CalculateDimensions_scale_witness :
  svg.CalculateDimensions scale_quarter (f64.of_int 7) (f64.of_int 7) = (1, 1)
  /\ truncates (S754_finite false (7 * 2 ^ 50) (-52)) 1.
Proof.
  pose proof (CalculateDimensions_scale scale_quarter (f64.of_int 7)
                (f64.of_int 7) eq_refl) as (H1 & H2 & _).
  split; [exact H1|].
  apply H2. vm_compute. discriminate.
Defined.

(** ** Double precision arithmetic on integers *)

Section Digits.

Lemma digits2_pos_size (p : positive) : digits2_pos p = Pos.size p.
Proof. induction p; simpl; congruence. Qed.

Lemma digits2_bounds (p : positive) :
  2 ^ (Zpos (digits2_pos p) - 1) <= Zpos p < 2 ^ Zpos (digits2_pos p).
Proof.
  rewrite digits2_pos_size. split.
  - pose proof (Pos.size_le p) as H.
    apply Pos2Z.pos_le_pos in H. rewrite Pos2Z.inj_pow in H.
    change (Z.pos p~0) with (2 * Z.pos p) in H.
    replace (Z.pos (Pos.size p)) with (Z.succ (Z.pos (Pos.size p) - 1)) in H by lia.
    rewrite Z.pow_succ_r in H by lia. lia.
  - pose proof (Pos.size_gt p) as H.
    apply Pos2Z.pos_lt_pos in H. rewrite Pos2Z.inj_pow in H. exact H.
Qed.

Lemma digits2_unique (p : positive) (d : Z) :
  2 ^ (d - 1) <= Zpos p < 2 ^ d -> Zpos (digits2_pos p) = d.
Proof.
  intros [Hl Hu]. pose proof (digits2_bounds p) as [Bl Bu].
  assert (0 < d).
  { destruct (Z.ltb_spec 0 d); [assumption|].
    rewrite (Z.pow_neg_r 2 (d - 1)) in Hl by lia.
    destruct (Z.eq_dec d 0) as [->|]; [simpl in Hu; lia|].
    rewrite (Z.pow_neg_r 2 d) in Hu by lia. lia. }
  destruct (Z.lt_trichotomy (Zpos (digits2_pos p)) d) as [L|[E|G]]; [|exact E|].
  - assert (2 ^ Zpos (digits2_pos p) <= 2 ^ (d - 1))
      by (apply Z.pow_le_mono_r; lia). lia.
  - assert (2 ^ d <= 2 ^ (Zpos (digits2_pos p) - 1))
      by (apply Z.pow_le_mono_r; lia). lia.
Qed.

Lemma iter_xO_mul (p : positive) (k : positive) :
  Zpos (Pos.iter xO p k) = Zpos p * 2 ^ Zpos k.
Proof.
  revert p. induction k using Pos.peano_ind; intros p.
  - simpl. lia.
  - rewrite Pos.iter_succ. rewrite Pos2Z.inj_xO, IHk.
    rewrite Pos2Z.inj_succ, Z.pow_succ_r by lia. lia.
Qed.

End Digits.

Section RoundAux.

Lemma Zdigits2_53 (m : Z) : 2 ^ 52 <= m < 2 ^ 53 -> Zdigits2 m = 53.
Proof.
  intros H. destruct m as [|p|p]; try lia. simpl.
  apply digits2_unique. exact H.
Qed.

Lemma Zdigits2_54 (m : Z) : 2 ^ 53 <= m < 2 ^ 54 -> Zdigits2 m = 54.
Proof.
  intros H. destruct m as [|p|p]; try lia. simpl.
  apply digits2_unique. exact H.
Qed.

Lemma shr_fexp_53 (m e : Z) (l : location) :
  2 ^ 52 <= m < 2 ^ 53 -> -1074 <= e ->
  shr_fexp 53 1024 m e l = (shr_record_of_loc m l, e).
Proof.
  intros Hm He. unfold shr_fexp. rewrite (Zdigits2_53 m Hm).
  replace (fexp 53 1024 (53 + e) - e) with 0 by (unfold fexp, emin; lia).
  reflexivity.
Qed.

Lemma shr_fexp_54 (m e : Z) (l : location) :
  2 ^ 53 <= m < 2 ^ 54 -> -1075 <= e ->
  shr_fexp 53 1024 m e l = (shr_1 (shr_record_of_loc m l), e + 1).
Proof.
  intros Hm He. unfold shr_fexp. rewrite (Zdigits2_54 m Hm).
  replace (fexp 53 1024 (54 + e) - e) with 1 by (unfold fexp, emin; lia).
  reflexivity.
Qed.

Lemma shr_m_of_loc m l : shr_m (shr_record_of_loc m l) = m.
Proof. destruct l as [|[]]; reflexivity. Qed.

Lemma loc_of_shr_of_loc m l : loc_of_shr_record (shr_record_of_loc m l) = l.
Proof. destruct l as [|[]]; reflexivity. Qed.

Lemma round_nearest_even_range m l :
  m <= round_nearest_even m l <= m + 1.
Proof. destruct l as [|[]]; simpl; try lia. destruct (Z.even m); lia. Qed.


Lemma binary_round_aux_tail (m e : Z) (l : location) :
  binary_round_aux 53 1024 false m e l =
  let '(mrs, e1) := shr_fexp 53 1024 m e l in round_tail mrs e1.
Proof. reflexivity. Qed.

(** Rounding a 53-bit mantissa: the result is finite and has the value of
    the rounded mantissa at the same exponent. *)
Lemma round_tail_53 (m e : Z) (l : location) :
  2 ^ 52 <= m < 2 ^ 53 -> -1074 <= e <= 970 ->
  exists m3 e3,
    round_tail (shr_record_of_loc m l) e = S754_finite false m3 e3 /\
    e <= e3 /\ Zpos m3 * 2 ^ (e3 - e) = round_nearest_even m l /\
    (2 ^ 52 <= Zpos m3 < 2 ^ 53) /\
    (round_nearest_even m l < 2 ^ 53 -> e3 = e).
Proof.
  intros Hm He. unfold round_tail.
  rewrite shr_m_of_loc, loc_of_shr_of_loc.
  pose proof (round_nearest_even_range m l) as Hr.
  set (m1 := round_nearest_even m l) in *.
  destruct (Z.ltb_spec m1 (2 ^ 53)) as [Hlt|Hge].
  - rewrite shr_fexp_53 by lia. cbn [shr_record_of_loc shr_m].
    destruct m1 as [|p1|p1] eqn:E; try lia.
    destruct (Z.leb_spec e (1024 - 53)); [|lia].
    exists p1, e. rewrite Z.sub_diag. split; [reflexivity|]. lia.
  - assert (E : m1 = 2 ^ 53) by lia. rewrite E.
    rewrite shr_fexp_54 by lia.
    change (shr_m (shr_1 (shr_record_of_loc (2 ^ 53) loc_Exact)))
      with (2 ^ 52).
    change (2 ^ 52) with (Zpos (Z.to_pos (2 ^ 52))) at 1. cbv iota.
    destruct (Z.leb_spec (e + 1) (1024 - 53)); [|lia].
    exists (Z.to_pos (2 ^ 52)), (e + 1).
    split; [reflexivity|]. split; [lia|].
    replace (e + 1 - e) with 1 by lia.
    split; [reflexivity|]. split; [|lia].
    change (Z.pos (Z.to_pos (2 ^ 52))) with (2 ^ 52). lia.
Qed.

Lemma binary_round_aux_53 (m e : Z) (l : location) :
  2 ^ 52 <= m < 2 ^ 53 -> -1074 <= e <= 970 ->
  exists m3 e3,
    binary_round_aux 53 1024 false m e l = S754_finite false m3 e3 /\
    e <= e3 /\ Zpos m3 * 2 ^ (e3 - e) = round_nearest_even m l /\
    (2 ^ 52 <= Zpos m3 < 2 ^ 53) /\
    (round_nearest_even m l < 2 ^ 53 -> e3 = e).
Proof.
  intros Hm He. rewrite binary_round_aux_tail, shr_fexp_53 by lia.
  apply round_tail_53; assumption.
Qed.

End RoundAux.

Section OfInt.

(** A positive integer below [2^53] converts exactly: the mantissa is the
    integer shifted up to 53 bits. *)
Lemma of_int_exact (n d : Z) :
  2 ^ (d - 1) <= n < 2 ^ d -> 1 <= d <= 53 ->
  exists m,
    f64.of_int n = S754_finite false m (d - 53) /\
    Zpos m = n * 2 ^ (53 - d) /\ 2 ^ 52 <= Zpos m < 2 ^ 53.
Proof.
  intros Hn Hd.
  assert (0 < 2 ^ (d - 1)) by (apply Z.pow_pos_nonneg; lia).
  destruct n as [|p|p]; try lia.
  unfold f64.of_int, binary_normalize, binary_round.
  rewrite (digits2_unique p d Hn).
  replace (fexp f64.prec f64.emax (d + 0)) with (d - 53)
    by (unfold fexp, emin, f64.prec, f64.emax; lia).
  unfold shl_align.
  assert (Hm : forall m : positive,
             Zpos m = Zpos p * 2 ^ (53 - d) ->
             exists m0,
               binary_round_aux f64.prec f64.emax false (Zpos m) (d - 53) loc_Exact
               = S754_finite false m0 (d - 53) /\
               Zpos m0 = Zpos p * 2 ^ (53 - d) /\ 2 ^ 52 <= Zpos m0 < 2 ^ 53).
  { intros m Em.
    assert (Hb : 2 ^ 52 <= Zpos m < 2 ^ 53).
    { rewrite Em.
      replace (2 ^ 52) with (2 ^ (d - 1) * 2 ^ (53 - d))
        by (rewrite <- Z.pow_add_r by lia; f_equal; lia).
      replace (2 ^ 53) with (2 ^ d * 2 ^ (53 - d))
        by (rewrite <- Z.pow_add_r by lia; f_equal; lia).
      assert (0 < 2 ^ (53 - d)) by (apply Z.pow_pos_nonneg; lia).
      split; [apply Z.mul_le_mono_nonneg_r; lia|apply Z.mul_lt_mono_pos_r; lia]. }
    destruct (binary_round_aux_53 (Zpos m) (d - 53) loc_Exact Hb ltac:(lia))
      as (m3 & e3 & Hr & _ & Hv & Hb3 & He3).
    cbn [round_nearest_even] in Hv, He3.
    assert (e3 = d - 53) by (apply He3; lia). subst e3.
    rewrite Z.sub_diag, Z.mul_1_r in Hv.
    exists m3. split; [exact Hr|]. split; [congruence|exact Hb3]. }
  destruct (d - 53 - 0) as [|k|k] eqn:Ek.
  - assert (d = 53) by lia. subst d. apply (Hm p). simpl. lia.
  - lia.
  - apply Hm. rewrite iter_xO_mul. f_equal. f_equal. lia.
Qed.

Lemma Z_digits_exists (n : Z) :
  0 < n < 2 ^ 53 -> exists d, 2 ^ (d - 1) <= n < 2 ^ d /\ 1 <= d <= 53.
Proof.
  intros Hn. exists (Z.log2 n + 1).
  pose proof (Z.log2_spec n ltac:(lia)) as [Hl Hu].
  replace (Z.log2 n + 1 - 1) with (Z.log2 n) by lia.
  replace (Z.succ (Z.log2 n)) with (Z.log2 n + 1) in Hu by lia.
  split; [lia|].
  pose proof (Z.log2_nonneg n).
  assert (Z.log2 n < 53) by (apply Z.log2_lt_pow2; lia). lia.
Qed.

Lemma to_int_of_int (n : Z) : 0 <= n < 2 ^ 53 -> f64.to_int (f64.of_int n) = n.
Proof.
  intros Hn. destruct (Z.eq_dec n 0) as [->|Hz]; [reflexivity|].
  destruct (Z_digits_exists n ltac:(lia)) as (d & Hd & Hr).
  destruct (of_int_exact n d Hd Hr) as (m & -> & Hm & _).
  unfold f64.to_int, f64.trunc_mag. rewrite Hm.
  rewrite Z.shiftl_div_pow2 by lia.
  replace (- (d - 53)) with (53 - d) by lia.
  rewrite Z.div_mul by (apply Z.pow_nonzero; lia).
  unfold fitsb, int_min, int_max.
  destruct (Z.leb_spec (- 2 ^ 63) n); [|lia].
  destruct (Z.leb_spec n (2 ^ 63 - 1)); [|lia]. reflexivity.
Qed.

End OfInt.

Section Quotients.


Lemma new_location_frac (D r : Z) :
  0 <= r < D -> new_location D r = loc_frac r D.
Proof.
  intros Hr. unfold new_location, new_location_even, new_location_odd, loc_frac.
  destruct (Z.even D) eqn:Ev; [reflexivity|].
  destruct (r =? 0); [reflexivity|]. f_equal.
  assert (Od : Z.odd D = true) by (rewrite <- Z.negb_even, Ev; reflexivity).
  apply Z.odd_spec in Od. destruct Od as [k Hk].
  destruct (Z.compare_spec (2 * r + 1) D), (Z.compare_spec (2 * r) D);
    try reflexivity; lia.
Qed.

Lemma loc_frac_scale (r D k : Z) :
  0 < k -> loc_frac (r * k) (D * k) = loc_frac r D.
Proof.
  intros Hk. unfold loc_frac.
  destruct (Z.eqb_spec r 0) as [->|Hr].
  - reflexivity.
  - destruct (Z.eqb_spec (r * k) 0) as [E|_]; [nia|]. f_equal.
    destruct (Z.compare_spec (2 * r) D), (Z.compare_spec (2 * (r * k)) (D * k));
      try reflexivity; nia.
Qed.

Lemma shr_1_spec (m : Z) (r s : bool) :
  0 <= m ->
  shr_1 {| shr_m := m; shr_r := r; shr_s := s |} =
  {| shr_m := m / 2; shr_r := Z.odd m; shr_s := r || s |}.
Proof.
  intros Hm. destruct m as [|[p|p|]|p]; try lia; cbn [shr_1].
  - reflexivity.
  - f_equal. rewrite Pos2Z.inj_xI. apply Z.div_unique with 1; lia.
  - f_equal. rewrite Pos2Z.inj_xO. apply Z.div_unique with 0; lia.
  - reflexivity.
Qed.

Lemma shr_record_of_loc_bits (m : Z) (l : location) :
  shr_record_of_loc m l =
  {| shr_m := m;
     shr_r := match l with loc_Inexact Eq | loc_Inexact Gt => true | _ => false end;
     shr_s := match l with loc_Inexact Lt | loc_Inexact Gt => true | _ => false end |}.
Proof. destruct l as [|[]]; reflexivity. Qed.

(** One more bit shifted out: the quotient by [2 * D]. *)
Lemma shr_1_frac (N D : Z) :
  0 < D -> 0 <= N ->
  shr_1 (shr_record_of_loc (N / D) (loc_frac (N mod D) D)) =
  shr_record_of_loc (N / (D * 2)) (loc_frac (N mod (D * 2)) (D * 2)).
Proof.
  intros HD HN.
  pose proof (Z.mod_pos_bound N D HD) as Hr.
  assert (Hq : 0 <= N / D) by (apply Z.div_pos; lia).
  rewrite <- Z.div_div by lia.
  rewrite Z.rem_mul_r by lia.
  set (q := N / D) in *. set (r := N mod D) in *.
  pose proof (Z.mod_pos_bound q 2 ltac:(lia)) as Hb.
  rewrite (shr_record_of_loc_bits q), shr_1_spec by assumption.
  rewrite Zodd_mod. unfold loc_frac.
  assert (Hcase : q mod 2 = 0 \/ q mod 2 = 1) by lia.
  destruct (Z.eqb_spec r 0) as [Er|Nr]; destruct Hcase as [E|E]; rewrite E.
  - rewrite Er. replace (0 + D * 0) with 0 by lia. reflexivity.
  - rewrite Er. replace (0 + D * 1) with D by lia.
    destruct (Z.eqb_spec D 0); [lia|].
    replace (2 * D ?= D * 2) with Eq by (symmetry; apply Z.compare_eq_iff; lia).
    reflexivity.
  - replace (r + D * 0) with r by lia.
    destruct (Z.eqb_spec r 0); [lia|].
    replace (2 * r ?= D * 2) with Lt by (symmetry; apply Z.compare_lt_iff; lia).
    destruct (2 * r ?= D); reflexivity.
  - replace (r + D * 1) with (r + D) by lia.
    destruct (Z.eqb_spec (r + D) 0); [lia|].
    replace (2 * (r + D) ?= D * 2) with Gt
      by (symmetry; apply Z.compare_gt_iff; lia).
    destruct (2 * r ?= D); reflexivity.
Qed.

(** Rounding a quotient whose integer part has 53 or 54 bits: one bit is
    shifted out in the second case ([sh = 1]); the result is finite and
    has the value of the quotient by [D * 2^sh] rounded to nearest even. *)
Lemma binary_round_aux_quot (N D e : Z) :
  0 < D -> 0 <= N -> 2 ^ 52 <= N / D < 2 ^ 54 -> -1074 <= e <= 969 ->
  exists sh m3 e3,
    binary_round_aux 53 1024 false (N / D) e (loc_frac (N mod D) D)
      = S754_finite false m3 e3 /\
    (sh = 0 \/ sh = 1) /\
    (2 ^ 52 <= N / (D * 2 ^ sh) < 2 ^ 53) /\
    e + sh <= e3 /\
    Zpos m3 * 2 ^ (e3 - (e + sh)) =
      round_nearest_even (N / (D * 2 ^ sh))
        (loc_frac (N mod (D * 2 ^ sh)) (D * 2 ^ sh)).
Proof.
  intros HD HN Hq He.
  destruct (Z.ltb_spec (N / D) (2 ^ 53)) as [Hlt|Hge].
  - destruct (binary_round_aux_53 (N / D) e (loc_frac (N mod D) D)
                ltac:(lia) ltac:(lia)) as (m3 & e3 & Hr & Hle & Hv & _).
    exists 0, m3, e3. rewrite Z.pow_0_r, Z.mul_1_r, Z.add_0_r.
    split; [exact Hr|]. split; [left; reflexivity|].
    split; [lia|]. split; [exact Hle|exact Hv].
  - rewrite binary_round_aux_tail, shr_fexp_54 by lia.
    rewrite shr_1_frac by lia.
    assert (Hq2 : 2 ^ 52 <= N / (D * 2) < 2 ^ 53).
    { rewrite <- Z.div_div by lia. split.
      - apply Z.div_le_lower_bound; lia.
      - apply Z.div_lt_upper_bound; lia. }
    destruct (round_tail_53 (N / (D * 2)) (e + 1)
                (loc_frac (N mod (D * 2)) (D * 2)) Hq2 ltac:(lia))
      as (m3 & e3 & Hr & Hle & Hv & _).
    exists 1, m3, e3. rewrite Z.pow_1_r.
    split; [exact Hr|]. split; [right; reflexivity|].
    split; [exact Hq2|]. split; [exact Hle|exact Hv].
Qed.

End Quotients.

Section Division.

Lemma SFdiv_core_normal (m1 m2 : positive) (e1 e2 : Z) :
  2 ^ 52 <= Zpos m1 < 2 ^ 53 -> 2 ^ 52 <= Zpos m2 < 2 ^ 53 ->
  -1021 <= e1 - e2 ->
  SFdiv_core_binary 53 1024 (Zpos m1) e1 (Zpos m2) e2 =
  ((Zpos m1 * 2 ^ 53) / Zpos m2, e1 - e2 - 53,
   loc_frac ((Zpos m1 * 2 ^ 53) mod Zpos m2) (Zpos m2)).
Proof.
  intros H1 H2 He. unfold SFdiv_core_binary. cbn [Zdigits2].
  rewrite (digits2_unique m1 53), (digits2_unique m2 53) by (simpl; lia).
  replace (Z.min (fexp 53 1024 (53 + e1 - (53 + e2))) (e1 - e2))
    with (e1 - e2 - 53) by (unfold fexp, emin; lia).
  replace (e1 - e2 - (e1 - e2 - 53)) with 53 by lia.
  cbv beta iota zeta.
  rewrite Z.shiftl_mul_pow2 by lia.
  pose proof (Z.mod_pos_bound (Zpos m1 * 2 ^ 53) (Zpos m2) ltac:(lia)) as Hr.
  unfold Z.div, Z.modulo in *.
  destruct (Z.div_eucl (Z.pos m1 * 2 ^ 53) (Z.pos m2)) as [q r].
  cbn [fst snd] in *. rewrite new_location_frac by exact Hr. reflexivity.
Qed.

(** The double quotient of two positive integers below [2^53]: a finite
    positive double whose mantissa, at the scale [2^-t], is the scaled
    quotient rounded to nearest even. *)
Lemma div_of_ints (n c : Z) :
  0 < n < 2 ^ 53 -> 0 < c < 2 ^ 53 ->
  exists m3 e3 t,
    f64.div (f64.of_int n) (f64.of_int c) = S754_finite false m3 e3 /\
    0 <= t /\ 0 <= e3 + t /\
    (2 ^ 52 <= (n * 2 ^ t) / c < 2 ^ 53) /\
    Zpos m3 * 2 ^ (e3 + t) =
      round_nearest_even ((n * 2 ^ t) / c) (loc_frac ((n * 2 ^ t) mod c) c).
Proof.
  intros Hn Hc.
  destruct (Z_digits_exists n Hn) as (dn & Hdn & Rn).
  destruct (Z_digits_exists c Hc) as (dc & Hdc & Rc).
  destruct (of_int_exact n dn Hdn Rn) as (m1 & -> & Em1 & B1).
  destruct (of_int_exact c dc Hdc Rc) as (m2 & -> & Em2 & B2).
  unfold f64.div, SFdiv. cbn [xorb].
  change f64.prec with 53. change f64.emax with 1024.
  rewrite SFdiv_core_normal by (try assumption; lia).
  set (N := Z.pos m1 * 2 ^ 53). set (D := Z.pos m2).
  assert (HD : 0 < D) by (subst D; lia).
  assert (HN : 0 <= N) by (subst N; lia).
  assert (Hq : 2 ^ 52 <= N / D < 2 ^ 54).
  { subst N D. split.
    - apply Z.div_le_lower_bound; [lia|]. nia.
    - apply Z.div_lt_upper_bound; [lia|]. nia. }
  destruct (binary_round_aux_quot N D (dn - 53 - (dc - 53) - 53) HD HN Hq
              ltac:(lia)) as (sh & m3 & e3 & Hr & Hsh & Hb & Hle & Hv).
  set (t := 53 - dn + dc - sh).
  assert (Ht : 0 <= t) by (subst t; lia).
  set (k := 2 ^ (53 - dc + sh)).
  assert (Hk : 0 < k) by (subst k; apply Z.pow_pos_nonneg; lia).
  assert (EN : N = (n * 2 ^ t) * k).
  { subst N k t. rewrite Em1, <- !Z.mul_assoc, <- !Z.pow_add_r by lia.
    f_equal. f_equal. lia. }
  assert (ED : D * 2 ^ sh = c * k).
  { subst D k. rewrite Em2, <- Z.mul_assoc, <- Z.pow_add_r by lia. reflexivity. }
  rewrite ED, EN in Hb, Hv.
  rewrite Z.div_mul_cancel_r in Hb, Hv by lia.
  rewrite Z.mul_mod_distr_r in Hv by lia.
  rewrite loc_frac_scale in Hv by lia.
  exists m3, e3, t. split; [exact Hr|]. split; [exact Ht|].
  replace (e3 + t) with (e3 - (dn - 53 - (dc - 53) - 53 + sh)) by (subst t; lia).
  split; [lia|]. split; [exact Hb|exact Hv].
Qed.

End Division.

Section Ceiling.

Lemma ceil_scale (a d k : Z) :
  0 <= a -> 0 < d -> 0 < k ->
  (a * k + d * k - 1) / (d * k) = (a + d - 1) / d.
Proof.
  intros Ha Hd Hk.
  pose proof (Z.div_mod (a + d - 1) d ltac:(lia)) as E.
  pose proof (Z.mod_pos_bound (a + d - 1) d Hd) as B.
  set (q := (a + d - 1) / d) in *. set (r := (a + d - 1) mod d) in *.
  symmetry. apply Z.div_unique with (r * k + k - 1); [left; nia|nia].
Qed.

(** [int(math.Ceil(f))] for a finite positive double given at the scale
    [2^-t]. *)
Lemma to_int_Ceil (m3 : positive) (e3 t : Z) :
  0 <= t -> 0 <= e3 + t ->
  (Zpos m3 * 2 ^ (e3 + t) + 2 ^ t - 1) / 2 ^ t < 2 ^ 53 ->
  f64.to_int (f64.Ceil (S754_finite false m3 e3)) =
  (Zpos m3 * 2 ^ (e3 + t) + 2 ^ t - 1) / 2 ^ t.
Proof.
  intros Ht Het Hb. unfold f64.Ceil.
  assert (HT : 0 < 2 ^ t) by (apply Z.pow_pos_nonneg; lia).
  destruct (Z.leb_spec 0 e3) as [He|He].
  - assert (E : (Zpos m3 * 2 ^ (e3 + t) + 2 ^ t - 1) / 2 ^ t = Zpos m3 * 2 ^ e3).
    { symmetry. apply Z.div_unique with (2 ^ t - 1); [left; lia|].
      rewrite Z.pow_add_r by lia. lia. }
    rewrite E in *. unfold f64.to_int, f64.trunc_mag.
    rewrite Z.shiftl_mul_pow2 by lia.
    assert (0 < 2 ^ e3) by (apply Z.pow_pos_nonneg; lia).
    unfold fitsb, int_min, int_max.
    destruct (Z.leb_spec (- 2 ^ 63) (Z.pos m3 * 2 ^ e3)); [|nia].
    destruct (Z.leb_spec (Z.pos m3 * 2 ^ e3) (2 ^ 63 - 1)); [|lia].
    reflexivity.
  - set (d := 2 ^ (- e3)).
    assert (Hd : 0 < d) by (subst d; apply Z.pow_pos_nonneg; lia).
    set (k := 2 ^ (e3 + t)).
    assert (Hk : 0 < k) by (subst k; apply Z.pow_pos_nonneg; lia).
    assert (ET : 2 ^ t = d * k).
    { subst d k. rewrite <- Z.pow_add_r by lia. f_equal. lia. }
    rewrite ET in *. rewrite ceil_scale in * by lia.
    change (binary_normalize f64.prec f64.emax ((Z.pos m3 + d - 1) / d) 0 false)
      with (f64.of_int ((Z.pos m3 + d - 1) / d)).
    apply to_int_of_int. split; [apply Z.div_pos; lia|exact Hb].
Qed.

(** The arithmetic at the heart of the layout: the ceiling of the rounded
    quotient is the ceiling of the exact one. *)
Lemma ceil_round_quot (n c t : Z) :
  0 < n < 2 ^ 53 -> 0 < c -> 0 <= t -> 2 ^ 52 <= (n * 2 ^ t) / c ->
  (round_nearest_even ((n * 2 ^ t) / c) (loc_frac ((n * 2 ^ t) mod c) c)
     + 2 ^ t - 1) / 2 ^ t
  = (n + c - 1) / c.
Proof.
  intros Hn Hc Ht Hq.
  assert (HT : 0 < 2 ^ t) by (apply Z.pow_pos_nonneg; lia).
  set (T := 2 ^ t) in *.
  pose proof (Z.div_mod n c ltac:(lia)) as En.
  pose proof (Z.mod_pos_bound n c Hc) as Bn.
  set (k := n / c) in *. set (r := n mod c) in *.
  assert (Hk : 0 <= k) by (subst k; apply Z.div_pos; lia).
  pose proof (Z.div_mod (n * T) c ltac:(lia)) as Eq.
  pose proof (Z.mod_pos_bound (n * T) c Hc) as Bq.
  set (q := (n * T) / c) in *. set (r' := (n * T) mod c) in *.
  pose proof (round_nearest_even_range q (loc_frac r' c)) as HM.
  destruct (Z.eq_dec r 0) as [Er|Nr].
  - (* c divides n *)
    assert (Eq' : q = k * T /\ r' = 0).
    { assert (n * T = c * (k * T) + 0) by nia.
      split.
      - subst q. symmetry. apply Z.div_unique with 0; [left; lia|lia].
      - subst r'. symmetry. apply Z.mod_unique with (k * T); [left; lia|lia]. }
    destruct Eq' as [-> ->]. cbn [loc_frac Z.eqb round_nearest_even].
    transitivity k.
    + symmetry. apply Z.div_unique with (T - 1); [left; lia|lia].
    + apply Z.div_unique with (c - 1); [left; lia|nia].
  - (* a remainder is left: both sides are [k + 1] *)
    assert (Hq1 : k * T <= q).
    { subst q. apply Z.div_le_lower_bound; [lia|]. nia. }
    assert (Hq2 : q + 1 <= (k + 1) * T).
    { assert (q < (k + 1) * T); [|lia].
      subst q. apply Z.div_lt_upper_bound; [lia|]. nia. }
    assert (HM' : k * T < round_nearest_even q (loc_frac r' c)).
    { destruct (Z.eq_dec q (k * T)) as [E|N]; [|lia].
      assert (Er' : r' = r * T) by nia.
      assert (Hc2 : c < 2 * T).
      { destruct (Z.ltb_spec c (2 * T)); [assumption|exfalso].
        assert (2 * (k * T) <= k * c) by nia. nia. }
      unfold loc_frac. destruct (Z.eqb_spec r' 0); [nia|].
      replace (2 * r' ?= c) with Gt
        by (symmetry; apply Z.compare_gt_iff; nia).
      cbn [round_nearest_even]. lia. }
    transitivity (k + 1).
    + symmetry.
      apply Z.div_unique
        with (round_nearest_even q (loc_frac r' c) + T - 1 - (k + 1) * T);
        [left; lia|lia].
    + apply Z.div_unique with (r - 1); [left; lia|nia].
Qed.

(** [int(math.Ceil(float64(n) / float64(c)))] is the exact ceiling of the
    quotient, for positive integers below [2^53]. *)
Lemma ceil_div_exact (n c : Z) :
  0 < n < 2 ^ 53 -> 0 < c < 2 ^ 53 ->
  f64.to_int (f64.Ceil (f64.div (f64.of_int n) (f64.of_int c)))
  = (n + c - 1) / c.
Proof.
  intros Hn Hc.
  destruct (div_of_ints n c Hn Hc) as (m3 & e3 & t & -> & Ht & Het & Hb & Hv).
  pose proof (ceil_round_quot n c t Hn ltac:(lia) Ht ltac:(lia)) as E.
  rewrite <- Hv in E. rewrite <- E.
  apply to_int_Ceil; try assumption.
  rewrite E. apply Z.div_lt_upper_bound; [lia|]. nia.
Qed.

End Ceiling.

Section SquareRoot.



Lemma SFsqrt_core_normal (m : positive) (e h : Z) :
  2 ^ 52 <= Zpos m < 2 ^ 53 -> -52 <= e <= 0 -> h = (e + 54) / 2 ->
  SFsqrt_core_binary 53 1024 (Zpos m) e =
  (Z.sqrt (Zpos m * 2 ^ (e + 106 - 2 * h)), h - 53,
   loc_sqrt (Z.sqrt (Zpos m * 2 ^ (e + 106 - 2 * h)))
     (Zpos m * 2 ^ (e + 106 - 2 * h)
      - Z.sqrt (Zpos m * 2 ^ (e + 106 - 2 * h))
        * Z.sqrt (Zpos m * 2 ^ (e + 106 - 2 * h)))).
Proof.
  intros Hm He Hh. unfold SFsqrt_core_binary. cbn [Zdigits2].
  rewrite (digits2_unique m 53) by (simpl; lia).
  rewrite !Z.div2_div.
  replace ((53 + e + 1) / 2) with h by (subst h; f_equal; lia).
  assert (E2 : e / 2 = h - 27).
  { subst h. replace (e + 54) with (e + 27 * 2) by lia.
    rewrite Z.div_add by lia. lia. }
  rewrite E2.
  pose proof (Z.div_mod (e + 54) 2 ltac:(lia)) as Ed.
  pose proof (Z.mod_pos_bound (e + 54) 2 ltac:(lia)) as Bd.
  rewrite <- Hh in Ed.
  replace (Z.min (fexp 53 1024 h) (h - 27)) with (h - 53)
    by (unfold fexp, emin; lia).
  replace (e - 2 * (h - 53)) with (e + 106 - 2 * h) by lia.
  assert (Hs : 52 <= e + 106 - 2 * h <= 53) by lia.
  destruct (e + 106 - 2 * h) as [|s|s] eqn:Es; try lia.
  rewrite Z.shiftl_mul_pow2 by lia.
  set (m' := Z.pos m * 2 ^ Z.pos s).
  pose proof (Z.sqrtrem_spec m' ltac:(subst m'; lia)) as Hspec.
  pose proof (Z.sqrtrem_sqrt m') as Hfst.
  destruct (Z.sqrtrem m') as [q r]. cbn [fst] in Hfst. subst q.
  destruct Hspec as [Hsq Hr].
  replace (m' - Z.sqrt m' * Z.sqrt m') with r by lia.
  reflexivity.
Qed.

(** The double square root of a positive integer below [2^52]: a finite
    positive double whose mantissa, at the scale [2^-T], is the square
    root of [n * 4^T] rounded to nearest. *)
Lemma sqrt_of_int (n : Z) :
  0 < n < 2 ^ 52 ->
  exists m3 e3 T,
    f64.sqrt (f64.of_int n) = S754_finite false m3 e3 /\
    27 <= T /\ 0 <= e3 + T /\
    (2 ^ 52 <= Z.sqrt (n * 4 ^ T) < 2 ^ 53) /\
    Zpos m3 * 2 ^ (e3 + T) =
      round_nearest_even (Z.sqrt (n * 4 ^ T))
        (loc_sqrt (Z.sqrt (n * 4 ^ T))
           (n * 4 ^ T - Z.sqrt (n * 4 ^ T) * Z.sqrt (n * 4 ^ T))).
Proof.
  intros Hn.
  destruct (Z_digits_exists n ltac:(lia)) as (dn & Hdn & Rn).
  assert (Hdn52 : dn <= 52).
  { destruct (Z.leb_spec dn 52); [assumption|exfalso].
    assert (2 ^ 52 <= 2 ^ (dn - 1)) by (apply Z.pow_le_mono_r; lia). lia. }
  destruct (of_int_exact n dn Hdn Rn) as (m1 & -> & Em1 & B1).
  unfold f64.sqrt, SFsqrt.
  change f64.prec with 53. change f64.emax with 1024.
  set (h := (dn - 53 + 54) / 2).
  rewrite (SFsqrt_core_normal m1 (dn - 53) h B1 ltac:(lia) eq_refl).
  pose proof (Z.div_mod (dn - 53 + 54) 2 ltac:(lia)) as Ed.
  pose proof (Z.mod_pos_bound (dn - 53 + 54) 2 ltac:(lia)) as Bd.
  fold h in Ed.
  set (T := 53 - h).
  assert (HT : 27 <= T) by (subst T; lia).
  assert (Em' : Z.pos m1 * 2 ^ (dn - 53 + 106 - 2 * h) = n * 4 ^ T).
  { rewrite Em1. change 4 with (2 ^ 2). rewrite <- Z.pow_mul_r by lia.
    rewrite <- Z.mul_assoc, <- Z.pow_add_r by lia.
    f_equal. f_equal. subst T. lia. }
  rewrite Em'. set (m' := n * 4 ^ T).
  assert (Hm' : 2 ^ 104 <= m' < 2 ^ 106).
  { subst m'. rewrite <- Em'.
    assert (Hs : 52 <= dn - 53 + 106 - 2 * h <= 53) by lia.
    assert (2 ^ 52 <= 2 ^ (dn - 53 + 106 - 2 * h) <= 2 ^ 53)
      by (split; apply Z.pow_le_mono_r; lia).
    change (2 ^ 104) with (2 ^ 52 * 2 ^ 52).
    change (2 ^ 106) with (2 ^ 53 * 2 ^ 53). nia. }
  assert (Hq : 2 ^ 52 <= Z.sqrt m' < 2 ^ 53).
  { split.
    - apply Z.sqrt_le_square; [lia|lia|].
      change (2 ^ 52 * 2 ^ 52) with (2 ^ 104). lia.
    - apply Z.sqrt_lt_square; [lia|lia|].
      change (2 ^ 53 * 2 ^ 53) with (2 ^ 106). lia. }
  destruct (binary_round_aux_53 (Z.sqrt m') (h - 53)
              (loc_sqrt (Z.sqrt m') (m' - Z.sqrt m' * Z.sqrt m')) Hq
              ltac:(lia)) as (m3 & e3 & Hr & Hle & Hv & _).
  exists m3, e3, T. split; [exact Hr|]. split; [exact HT|].
  replace (e3 + T) with (e3 - (h - 53)) by (subst T; lia).
  split; [lia|]. split; [exact Hq|exact Hv].
Qed.

Lemma ceil_sqrt_spec (n : Z) :
  0 < n -> (ceil_sqrt n - 1) * (ceil_sqrt n - 1) < n <= ceil_sqrt n * ceil_sqrt n.
Proof.
  intros Hn. unfold ceil_sqrt.
  pose proof (Z.sqrt_spec n ltac:(lia)) as [Hl Hu].
  pose proof (Z.sqrt_nonneg n).
  destruct (Z.eqb_spec (Z.sqrt n * Z.sqrt n) n); nia.
Qed.

(** The ceiling of the rounded square root is the ceiling of the exact
    one. *)
Lemma ceil_round_sqrt (n T : Z) :
  0 < n -> 27 <= T -> Z.sqrt (n * 4 ^ T) < 2 ^ 53 ->
  (round_nearest_even (Z.sqrt (n * 4 ^ T))
     (loc_sqrt (Z.sqrt (n * 4 ^ T))
        (n * 4 ^ T - Z.sqrt (n * 4 ^ T) * Z.sqrt (n * 4 ^ T)))
   + 2 ^ T - 1) / 2 ^ T
  = ceil_sqrt n.
Proof.
  intros Hn HT Hq.
  assert (H4 : 4 ^ T = 2 ^ T * 2 ^ T).
  { change 4 with (2 * 2). rewrite Z.pow_mul_l. reflexivity. }
  assert (HP : 2 ^ 27 <= 2 ^ T) by (apply Z.pow_le_mono_r; lia).
  rewrite H4 in *. set (P := 2 ^ T) in *.
  pose proof (Z.sqrt_spec n ltac:(lia)) as [Hl Hu].
  pose proof (Z.sqrt_nonneg n) as Hk0.
  set (k := Z.sqrt n) in *.
  pose proof (Z.sqrt_spec (n * (P * P)) ltac:(nia)) as [Ql Qu].
  pose proof (Z.sqrt_nonneg (n * (P * P))) as Hq0.
  set (q := Z.sqrt (n * (P * P))) in *.
  pose proof (round_nearest_even_range q (loc_sqrt q (n * (P * P) - q * q)))
    as HM.
  assert (Hq1 : k * P <= q).
  { subst q. apply Z.sqrt_le_square; nia. }
  assert (Hq2 : q < (k + 1) * P).
  { subst q. apply Z.sqrt_lt_square; nia. }
  unfold ceil_sqrt. fold k.
  destruct (Z.eqb_spec (k * k) n) as [E|N].
  - assert (Eq : q = k * P).
    { subst q. rewrite <- E.
      replace (k * k * (P * P)) with ((k * P) * (k * P)) by lia.
      apply Z.sqrt_square. nia. }
    rewrite Eq in *.
    replace (n * (P * P) - k * P * (k * P)) with 0 by nia.
    cbn [loc_sqrt Z.eqb round_nearest_even].
    symmetry. apply Z.div_unique with (P - 1); [left; lia|lia].
  - assert (HM' : k * P < round_nearest_even q
                            (loc_sqrt q (n * (P * P) - q * q))).
    { destruct (Z.eq_dec q (k * P)) as [E|N']; [|lia].
      assert (Hk : k < P).
      { assert (k * P < 2 ^ 53) by lia.
        destruct (Z.ltb_spec k P); [assumption|exfalso].
        assert (2 ^ 27 * 2 ^ 27 <= k * P) by nia.
        change (2 ^ 27 * 2 ^ 27) with (2 ^ 54) in *. lia. }
      unfold loc_sqrt.
      assert (Hr : q < n * (P * P) - q * q).
      { rewrite E. assert (k * k + 1 <= n) by lia. nia. }
      destruct (Z.eqb_spec (n * (P * P) - q * q) 0); [lia|].
      destruct (Z.leb_spec (n * (P * P) - q * q) q); [lia|].
      cbn [round_nearest_even]. lia. }
    symmetry.
    apply Z.div_unique
      with (round_nearest_even q (loc_sqrt q (n * (P * P) - q * q))
            + P - 1 - (k + 1) * P);
      [left; lia|lia].
Qed.

(** [int(math.Ceil(math.Sqrt(float64(n))))] is the exact ceiling of the
    square root, for positive integers below [2^52]. *)
Lemma ceil_sqrt_exact (n : Z) :
  0 < n < 2 ^ 52 ->
  f64.to_int (f64.Ceil (f64.Sqrt (f64.of_int n))) = ceil_sqrt n.
Proof.
  intros Hn. unfold f64.Sqrt.
  destruct (sqrt_of_int n Hn) as (m3 & e3 & T & -> & HT & Het & Hb & Hv).
  pose proof (ceil_round_sqrt n T ltac:(lia) HT ltac:(lia)) as E.
  rewrite <- Hv in E. rewrite <- E.
  apply to_int_Ceil; try assumption; [lia|].
  rewrite E. pose proof (ceil_sqrt_spec n ltac:(lia)) as [Hl Hu].
  unfold ceil_sqrt in *. pose proof (Z.sqrt_spec n ltac:(lia)) as [Sl Su].
  pose proof (Z.sqrt_nonneg n).
  assert (Z.sqrt n < 2 ^ 26).
  { apply Z.sqrt_lt_square; [lia|lia|].
    change (2 ^ 26 * 2 ^ 26) with (2 ^ 52). lia. }
  destruct (_ =? _); lia.
Qed.

End SquareRoot.

(** ** The layout *)

Section Layout.

Lemma ceil_div_spec (n c : Z) :
  0 < c -> (ceil_div n c - 1) * c < n <= ceil_div n c * c.
Proof.
  intros Hc. unfold ceil_div.
  pose proof (Z.div_mod (n + c - 1) c ltac:(lia)).
  pose proof (Z.mod_pos_bound (n + c - 1) c Hc). nia.
Qed.

Lemma ceil_div_pos (n c : Z) : 0 < n -> 0 < c -> 1 <= ceil_div n c <= n.
Proof.
  intros Hn Hc. pose proof (ceil_div_spec n c Hc) as [Hl Hu].
  split; [nia|].
  unfold ceil_div. apply Z.lt_succ_r. apply Z.div_lt_upper_bound; nia.
Qed.

Lemma ceil_sqrt_range (n : Z) : 0 < n < 2 ^ 52 -> 1 <= ceil_sqrt n <= 2 ^ 26.
Proof.
  intros Hn. pose proof (ceil_sqrt_spec n ltac:(lia)) as [Hl Hu].
  split; [nia|].
  destruct (Z.leb_spec (ceil_sqrt n) (2 ^ 26)); [assumption|exfalso].
  assert (2 ^ 26 * 2 ^ 26 <= (ceil_sqrt n - 1) * (ceil_sqrt n - 1)) by nia.
  change (2 ^ 26 * 2 ^ 26) with (2 ^ 52) in *. lia.
Qed.

Variable g : spritesheet.Generator.

Let cfg := spritesheet.config_ g.

Lemma calculateLayout_sides (n : Z) :
  let l := spritesheet.calculateLayout g n in
  spritesheet.LayoutWidth l =
    wrap (spritesheet.Cols l * config.TileWidth cfg
          + (spritesheet.Cols l - 1) * config.Padding cfg) /\
  spritesheet.LayoutHeight l =
    wrap (spritesheet.Rows l * config.TileHeight cfg
          + (spritesheet.Rows l - 1) * config.Padding cfg) /\
  spritesheet.TileWidth l = config.TileWidth cfg /\
  spritesheet.TileHeight l = config.TileHeight cfg /\
  spritesheet.Padding l = config.Padding cfg.
Proof.
  unfold spritesheet.calculateLayout. fold cfg.
  destruct (if 0 <? config.Cols cfg then _ else _) as [cols rows].
  cbn. rewrite !canvas_side_exact. auto.
Qed.

Lemma calculateLayout_grid (n : Z) :
  0 < n < 2 ^ 52 -> config.Cols cfg < 2 ^ 53 -> config.Rows cfg < 2 ^ 53 ->
  let l := spritesheet.calculateLayout g n in
  (0 < config.Cols cfg ->
     spritesheet.Cols l = config.Cols cfg /\
     spritesheet.Rows l = ceil_div n (config.Cols cfg)) /\
  (config.Cols cfg <= 0 -> 0 < config.Rows cfg ->
     spritesheet.Rows l = config.Rows cfg /\
     spritesheet.Cols l = ceil_div n (config.Rows cfg)) /\
  (config.Cols cfg <= 0 -> config.Rows cfg <= 0 ->
     spritesheet.Cols l = ceil_sqrt n /\
     spritesheet.Rows l = ceil_div n (ceil_sqrt n)).
Proof.
  intros Hn Hc Hr. unfold spritesheet.calculateLayout. fold cfg.
  destruct (Z.ltb_spec 0 (config.Cols cfg)) as [Pc|Nc].
  - cbn. rewrite ceil_div_exact by lia. repeat split; intros; lia.
  - destruct (Z.ltb_spec 0 (config.Rows cfg)) as [Pr|Nr].
    + cbn. rewrite ceil_div_exact by lia. repeat split; intros; lia.
    + cbn. rewrite ceil_sqrt_exact by lia.
      pose proof (ceil_sqrt_range n Hn).
      rewrite ceil_div_exact by lia. repeat split; intros; lia.
Qed.

(** Every layout has room for the tiles it was computed for. *)
Lemma calculateLayout_room (n : Z) :
  0 < n < 2 ^ 52 -> config.Cols cfg < 2 ^ 53 -> config.Rows cfg < 2 ^ 53 ->
  let l := spritesheet.calculateLayout g n in
  1 <= spritesheet.Cols l /\ 1 <= spritesheet.Rows l /\
  n <= spritesheet.Cols l * spritesheet.Rows l.
Proof.
  intros Hn Hc Hr l.
  destruct (calculateLayout_grid n Hn Hc Hr) as (H1 & H2 & H3). fold l in H1, H2, H3.
  destruct (Z.ltb_spec 0 (config.Cols cfg)) as [Pc|Nc].
  - destruct (H1 Pc) as [-> ->].
    pose proof (ceil_div_spec n (config.Cols cfg) Pc).
    pose proof (ceil_div_pos n (config.Cols cfg) ltac:(lia) Pc). lia.
  - destruct (Z.ltb_spec 0 (config.Rows cfg)) as [Pr|Nr].
    + destruct (H2 Nc Pr) as [-> ->].
      pose proof (ceil_div_spec n (config.Rows cfg) Pr).
      pose proof (ceil_div_pos n (config.Rows cfg) ltac:(lia) Pr). lia.
    + destruct (H3 Nc Nr) as [-> ->].
      pose proof (ceil_sqrt_range n Hn).
      pose proof (ceil_div_spec n (ceil_sqrt n) ltac:(lia)).
      pose proof (ceil_div_pos n (ceil_sqrt n) ltac:(lia) ltac:(lia)). lia.
Qed.

End Layout.

(** C3. For a tile count [n > 0] (below [2^52], so that its conversion
    to [float64] and the square root are exact enough) and hints that are
    ints below [2^53], [calculateLayout] returns [columns = columnsHint] and
    [rows = ceil (n / columns)] when [columnsHint > 0]; [rows = rowsHint] and
    [columns = ceil (n / rows)] when only [rowsHint > 0]; and
    [columns = ceil (sqrt n)], [rows = ceil (n / columns)] when neither hint
    is positive; the canvas width is
    [columns * tileWidth + (columns - 1) * padding] as an [int] (the exact
    value whenever it fits, see [wrap_fits]), and the height likewise.
    For 7 tiles of 64x64, padding 0 and 3 columns: 3 columns, 3 rows and a
    canvas of 192x192. *)
Theorem calculateLayout_formulas (g : spritesheet.Generator) (n : Z) :
  let cfg := spritesheet.config_ g in
  let l := spritesheet.calculateLayout g n in
  0 < n < 2 ^ 52 -> config.Cols cfg < 2 ^ 53 -> config.Rows cfg < 2 ^ 53 ->
  (0 < config.Cols cfg ->
     spritesheet.Cols l = config.Cols cfg /\
     spritesheet.Rows l = ceil_div n (spritesheet.Cols l)) /\
  (config.Cols cfg <= 0 -> 0 < config.Rows cfg ->
     spritesheet.Rows l = config.Rows cfg /\
     spritesheet.Cols l = ceil_div n (spritesheet.Rows l)) /\
  (config.Cols cfg <= 0 -> config.Rows cfg <= 0 ->
     spritesheet.Cols l = ceil_sqrt n /\
     spritesheet.Rows l = ceil_div n (spritesheet.Cols l)) /\
  spritesheet.LayoutWidth l =
    wrap (spritesheet.Cols l * config.TileWidth cfg
          + (spritesheet.Cols l - 1) * config.Padding cfg) /\
  spritesheet.LayoutHeight l =
    wrap (spritesheet.Rows l * config.TileHeight cfg
          + (spritesheet.Rows l - 1) * config.Padding cfg) /\
  spritesheet.calculateLayout (spritesheet.NewGenerator layout_7_3_config) 7 =
    {| spritesheet.Cols := 3; spritesheet.Rows := 3;
       spritesheet.TileWidth := 64; spritesheet.TileHeight := 64;
       spritesheet.Padding := 0;
       spritesheet.LayoutWidth := 192; spritesheet.LayoutHeight := 192 |}.
Proof.
  intros cfg l Hn Hc Hr.
  destruct (calculateLayout_grid g n Hn Hc Hr) as (H1 & H2 & H3).
  destruct (calculateLayout_sides g n) as (Hw & Hh & _).
  fold cfg l in H1, H2, H3, Hw, Hh.
  split; [intros P; destruct (H1 P) as [E1 E2]; rewrite E1; auto|].
  split; [intros N P; destruct (H2 N P) as [E1 E2]; rewrite E1; auto|].
  split; [intros N1 N2; destruct (H3 N1 N2) as [E1 E2]; rewrite E1; auto|].
  split; [exact Hw|]. split; [exact Hh|].
  vm_compute. reflexivity.
Qed.

Lemma calculateLayout_formulas_witness :
  let l := spritesheet.calculateLayout
             (spritesheet.NewGenerator layout_7_3_config) 7 in
  spritesheet.Cols l = 3 /\ spritesheet.Rows l = ceil_div 7 (spritesheet.Cols l).
Proof.
  refine (proj1 (calculateLayout_formulas
                   (spritesheet.NewGenerator layout_7_3_config) 7 _ _ _) _).
  - vm_compute. split; reflexivity.
  - vm_compute. reflexivity.
  - vm_compute. reflexivity.
  - vm_compute. reflexivity.
Defined.

(** ** Every sprite lies inside the canvas *)

Section InsideCanvas.

Lemma numbered_Forall {A} (P : A -> Prop)
    (f : Z -> spritesheet.ImageInfo -> A) tiles :
  forall lo,
    (forall i tile, lo <= i < lo + Z.of_nat (length tiles) -> P (f i tile)) ->
    Forall P (grid.numbered f lo tiles).
Proof.
  induction tiles as [|t ts IH]; intros lo H; simpl; constructor.
  - apply H. simpl length. lia.
  - apply IH. intros i tile Hi. apply H. simpl length. lia.
Qed.

(** A cell of a grid with [cols] columns and [rows] rows of tiles [tw] by
    [th], [pad] apart, lies inside the canvas of that grid. *)
Lemma cell_inside (i n cols rows tw th pad : Z) :
  0 <= i < n -> n <= cols * rows -> 1 <= cols -> 1 <= rows ->
  0 <= tw -> 0 <= th -> 0 <= pad ->
  0 <= (i mod cols) * (tw + pad) /\
  (i mod cols) * (tw + pad) + tw <= cols * tw + (cols - 1) * pad /\
  0 <= (i / cols) * (th + pad) /\
  (i / cols) * (th + pad) + th <= rows * th + (rows - 1) * pad.
Proof.
  intros Hi Hn Hc Hr Htw Hth Hpad.
  pose proof (Z.mod_pos_bound i cols ltac:(lia)) as Hm.
  assert (Hd0 : 0 <= i / cols) by (apply Z.div_pos; lia).
  assert (Hd : i / cols < rows) by (apply Z.div_lt_upper_bound; nia).
  repeat split; nia.
Qed.

End InsideCanvas.

(** C10. For a tile count of at least one (below [2^52]) and any hints
    (ints below [2^53]), the layout has [columns * rows >= imageCount];
    with a non-negative tile size and padding and a canvas whose
    dimensions fit an [int] and can be allocated, the compositor returns a
    sheet in which every sprite satisfies [x + width <= canvasWidth] and
    [y + height <= canvasHeight] (with [x, y >= 0]). *)
Theorem layout_holds_every_sprite (g : spritesheet.Generator)
    (tiles : list spritesheet.ImageInfo) :
  let cfg := spritesheet.config_ g in
  let n := Z.of_nat (length tiles) in
  let l := spritesheet.calculateLayout g n in
  1 <= n < 2 ^ 52 -> config.Cols cfg < 2 ^ 53 -> config.Rows cfg < 2 ^ 53 ->
  0 <= config.TileWidth cfg -> 0 <= config.TileHeight cfg ->
  0 <= config.Padding cfg ->
  fits (spritesheet.Cols l * config.TileWidth cfg
        + (spritesheet.Cols l - 1) * config.Padding cfg) ->
  fits (spritesheet.Rows l * config.TileHeight cfg
        + (spritesheet.Rows l - 1) * config.Padding cfg) ->
  allocatable (spritesheet.LayoutWidth l) (spritesheet.LayoutHeight l) ->
  n <= spritesheet.Cols l * spritesheet.Rows l /\
  exists sheet meta,
    spritesheet.createSpritesheet g tiles l = Ok (sheet, meta) /\
    length (metadata.Sprites meta) = length tiles /\
    Forall (fun s =>
              0 <= metadata.X s /\ 0 <= metadata.Y s /\
              metadata.X s + metadata.Width s <= metadata.SheetWidth meta /\
              metadata.Y s + metadata.Height s <= metadata.SheetHeight meta)
           (metadata.Sprites meta).
Proof.
  intros cfg n l Hn Hc Hr Htw Hth Hpad Fw Fh Ha.
  destruct (calculateLayout_room g n ltac:(lia) Hc Hr) as (C1 & R1 & Hroom).
  destruct (calculateLayout_sides g n) as (Hw & Hh & Etw & Eth & Epad).
  fold cfg l in C1, R1, Hroom, Hw, Hh, Etw, Eth, Epad.
  rewrite wrap_fits in Hw by exact Fw. rewrite wrap_fits in Hh by exact Fh.
  split; [exact Hroom|].
  destruct (createSpritesheet_spec g l tiles ltac:(lia)
              ltac:(unfold int_max; fold n; lia) Ha)
    as (sheet & meta & Hrun & _ & Hs & Mw & Mh).
  exists sheet, meta. split; [exact Hrun|].
  rewrite Hs, numbered_length. split; [reflexivity|].
  apply numbered_Forall. intros i tile Hi. fold n in Hi.
  unfold grid.sprite_at, grid.origin_x, grid.origin_y. cbn.
  rewrite Mw, Mh, Hw, Hh, Etw, Eth, Epad.
  pose proof (cell_inside i n (spritesheet.Cols l) (spritesheet.Rows l)
                (config.TileWidth cfg) (config.TileHeight cfg)
                (config.Padding cfg) ltac:(lia) Hroom C1 R1 Htw Hth Hpad)
    as (X0 & X1 & Y0 & Y1).
  unfold fits, int_min, int_max in Fw, Fh.
  rewrite !wrap_fits by (unfold fits, int_min, int_max; lia).
  lia.
Qed.

Lemma layout_holds_every_sprite_witness :
  exists sheet meta,
    spritesheet.createSpritesheet sample_generator
      [tile_named "a" 64 64; tile_named "b" 64 64; tile_named "c" 64 64]
      (spritesheet.calculateLayout sample_generator 3)
      = Ok (sheet, meta) /\
    length (metadata.Sprites meta) = 3%nat /\
    Forall (fun s =>
              0 <= metadata.X s /\ 0 <= metadata.Y s /\
              metadata.X s + metadata.Width s <= metadata.SheetWidth meta /\
              metadata.Y s + metadata.Height s <= metadata.SheetHeight meta)
           (metadata.Sprites meta).
Proof.
  refine (proj2 (layout_holds_every_sprite sample_generator
                   [tile_named "a" 64 64; tile_named "b" 64 64;
                    tile_named "c" 64 64] _ _ _ _ _ _ _ _ _)).
  - vm_compute. split; [discriminate|reflexivity].
  - vm_compute. reflexivity.
  - vm_compute. reflexivity.
  - vm_compute. discriminate.
  - vm_compute. discriminate.
  - vm_compute. discriminate.
  - vm_compute. split; discriminate.
  - vm_compute. split; discriminate.
  - vm_compute. discriminate.
Defined.

Example Fields_viewBox :
  strings.Fields "0 0  30 40 " = ["0"; "0"; "30"; "40"]%string.
Proof. vm_compute. reflexivity. Qed.

Example TrimSuffix_px : strings.TrimSuffix "12px" "px" = "12"%string.
Proof. vm_compute. reflexivity. Qed.

Example Sscanf_f_samples :
  fmt.Sscanf_f "10" = Some (f64.of_int 10) /\
  fmt.Sscanf_f " 2.5" = Some (S754_finite false (5 * 2 ^ 50) (-51)) /\
  fmt.Sscanf_f "0.25" = Some quarter /\
  fmt.Sscanf_f "1e2" = Some (f64.of_int 100) /\
  fmt.Sscanf_f "10r" = Some (f64.of_int 10) /\
  fmt.Sscanf_f "10p" = None /\
  fmt.Sscanf_f "10e" = None /\
  fmt.Sscanf_f "1.5p3" = Some (f64.of_int 12) /\
  fmt.Sscanf_f "0x10p0" = Some (f64.of_int 16) /\
  fmt.Sscanf_f "-0" = Some (S754_zero true) /\
  fmt.Sscanf_f "abc" = None /\
  fmt.Sscanf_f "" = None /\
  fmt.Sscanf_f "1e400" = None.
Proof. vm_compute. repeat split. Qed.

Example parseSVGDimensions_samples :
  svg.RodConverter.parseSVGDimensions
    ("<svg viewBox=" ++ strings.quote ++ "0 0 30 40" ++ strings.quote ++ ">")
    = Ok (f64.of_int 30, f64.of_int 40) /\
  svg.RodConverter.parseSVGDimensions "<svg>"
    = Ok (f64.of_int 100, f64.of_int 100) /\
  svg.RSVGConverter.parseSVGDimensions
    ("<svg width=" ++ strings.quote ++ "12px" ++ strings.quote
     ++ " height=" ++ strings.quote ++ "3em" ++ strings.quote ++ ">")
    = Ok (f64.of_int 12, f64.of_int 3).
Proof. vm_compute. repeat split. Qed.

(** ** The intrinsic-size probe *)

Section Probe.

Lemma from_app (s u : string) : strings.from (s ++ u) (String.length s) = u.
Proof. induction s as [|c s IH]; simpl; [destruct u; reflexivity|exact IH]. Qed.

Lemma upto_app (s u : string) : strings.upto (s ++ u) (String.length s) = s.
Proof.
  induction s as [|c s IH]; simpl; [destruct u; reflexivity|].
  now rewrite IH.
Qed.

Lemma len_app (s u : string) : strings.len (s ++ u) = strings.len s + strings.len u.
Proof.
  unfold strings.len. induction s as [|c s IH].
  - reflexivity.
  - change (String c s ++ u)%string with (String c (s ++ u)).
    cbn [String.length]. rewrite !Nat2Z.inj_succ. lia.
Qed.

Lemma suffix_of_app (s u v : string) :
  strings.len v = strings.len u ->
  strings.HasSuffix (s ++ u) v = String.eqb u v.
Proof.
  intros Hl. unfold strings.HasSuffix. rewrite len_app, Hl.
  replace (Z.to_nat (strings.len s + strings.len u - strings.len u))
    with (String.length s) by (unfold strings.len; lia).
  rewrite from_app.
  assert (0 <= strings.len s) by (unfold strings.len; lia).
  destruct (Z.leb_spec (strings.len u) (strings.len s + strings.len u));
    [reflexivity|lia].
Qed.

Lemma TrimSuffix_app (s u : string) : strings.TrimSuffix (s ++ u) u = s.
Proof.
  unfold strings.TrimSuffix. rewrite suffix_of_app, String.eqb_refl by reflexivity.
  unfold strings.slice. rewrite len_app.
  replace (Z.to_nat (strings.len s + strings.len u - strings.len u - 0))
    with (String.length s) by (unfold strings.len; lia).
  change (Z.to_nat 0) with 0%nat.
  assert (E : strings.from (s ++ u) 0 = (s ++ u)%string)
    by (destruct (s ++ u)%string; reflexivity).
  rewrite E. apply upto_app.
Qed.

Lemma TrimSuffix_none (s v : string) :
  strings.HasSuffix s v = false -> strings.TrimSuffix s v = s.
Proof. unfold strings.TrimSuffix. intros ->. reflexivity. Qed.

Lemma parseFloatRod_unit (s : string) :
  probe.unit_free s ->
  svg.parseFloatRod (s ++ "px") = fmt.Sscanf_f s /\
  svg.parseFloatRod (s ++ "pt") = fmt.Sscanf_f s /\
  svg.parseFloatRod (s ++ "em") = fmt.Sscanf_f s.
Proof.
  intros (Hpx & Hpt & Hem & Hrem). unfold svg.parseFloatRod.
  split; [|split].
  - rewrite TrimSuffix_app.
    rewrite (TrimSuffix_none s "pt"), (TrimSuffix_none s "em"),
      (TrimSuffix_none s "rem") by assumption.
    reflexivity.
  - rewrite (TrimSuffix_none (s ++ "pt") "px")
      by (rewrite suffix_of_app; reflexivity).
    rewrite TrimSuffix_app.
    rewrite (TrimSuffix_none s "em"), (TrimSuffix_none s "rem") by assumption.
    reflexivity.
  - rewrite (TrimSuffix_none (s ++ "em") "px")
      by (rewrite suffix_of_app; reflexivity).
    rewrite (TrimSuffix_none (s ++ "em") "pt")
      by (rewrite suffix_of_app; reflexivity).
    rewrite TrimSuffix_app.
    rewrite (TrimSuffix_none s "rem") by assumption.
    reflexivity.
Qed.

Lemma parseSVGDimensionsWith_size (svg : string) :
  svg.parseSVGDimensionsWith svg.parseFloatRod svg = Ok (probe.size svg).
Proof.
  unfold svg.parseSVGDimensionsWith, probe.size, probe.explicit, probe.boxed,
    probe.attribute.
  change (strings.len "viewBox" + 2) with 9.
  change (strings.len "width" + 2) with 7.
  change (strings.len "height" + 2) with 8.
  change ("viewBox" ++ "=" ++ strings.quote)%string
    with ("viewBox=" ++ strings.quote)%string.
  change ("width" ++ "=" ++ strings.quote)%string
    with ("width=" ++ strings.quote)%string.
  change ("height" ++ "=" ++ strings.quote)%string
    with ("height=" ++ strings.quote)%string.
  repeat match goal with
    | |- context [if ?b =? -1 then _ else _] => destruct (b =? -1)
    | |- context [if negb (?b =? -1) then _ else _] => destruct (b =? -1)
    end; cbn [negb probe.first_of];
  repeat match goal with
    | |- context [(4 <=? ?n)%nat] => destruct (4 <=? n)%nat
    | |- context [svg.parseFloatRod ?t] => destruct (svg.parseFloatRod t)
    end; reflexivity.
Qed.

End Probe.

(** C4 as stated fails: with a bounding box of 30x40 and explicit
    attributes of 10x20, both parseable, the probe returns 10x20. *)
Lemma parseSVGDimensions_prefers_explicit_size :
  probe.boxed probe.both 2 = Some (f64.of_int 30) /\
  probe.boxed probe.both 3 = Some (f64.of_int 40) /\
  probe.explicit probe.both "width" = Some (f64.of_int 10) /\
  probe.explicit probe.both "height" = Some (f64.of_int 20) /\
  svg.RodConverter.parseSVGDimensions probe.both
    = Ok (f64.of_int 10, f64.of_int 20) /\
  svg.RSVGConverter.parseSVGDimensions probe.both
    = Ok (f64.of_int 10, f64.of_int 20).
Proof. vm_compute. repeat split. Qed.

(** C4, amended. For every SVG source text the probe of both converters
    returns, for each dimension, the number of the explicit width or
    height attribute when that attribute is present and parseable, else
    the number of the bounding-box attribute, else 100: the explicit
    attributes are preferred over the bounding box.  A trailing px, pt or
    em is stripped before the number is parsed. *)
Theorem parseSVGDimensions_explicit_first (svg : string) :
  svg.RodConverter.parseSVGDimensions svg = Ok (probe.size svg) /\
  svg.RSVGConverter.parseSVGDimensions svg = Ok (probe.size svg) /\
  (forall s, probe.unit_free s ->
     svg.parseFloatRod (s ++ "px") = fmt.Sscanf_f s /\
     svg.parseFloatRod (s ++ "pt") = fmt.Sscanf_f s /\
     svg.parseFloatRod (s ++ "em") = fmt.Sscanf_f s /\
     svg.parseFloatRSVG (s ++ "px") = fmt.Sscanf_f s /\
     svg.parseFloatRSVG (s ++ "pt") = fmt.Sscanf_f s /\
     svg.parseFloatRSVG (s ++ "em") = fmt.Sscanf_f s).
Proof.
  split; [apply parseSVGDimensionsWith_size|].
  split; [apply parseSVGDimensionsWith_size|].
  intros s Hs. destruct (parseFloatRod_unit s Hs) as (H1 & H2 & H3).
  repeat split; assumption.
Qed.

Lemma parseSVGDimensions_explicit_first_witness :
  svg.parseFloatRod "12px" = Some (f64.of_int 12) /\
  svg.parseFloatRod "12pt" = Some (f64.of_int 12) /\
  svg.parseFloatRod "12em" = Some (f64.of_int 12).
Proof.
  pose proof (proj2 (proj2 (parseSVGDimensions_explicit_first "")) "12") as H.
  destruct H as (H1 & H2 & H3 & _); [vm_compute; repeat split|].
  repeat split; assumption.
Defined.

(** The fourth suffix, rem, is tested after em: of a trailing rem only
    the em is stripped. *)
Example parseFloatRod_rem :
  strings.TrimSuffix
    (strings.TrimSuffix (strings.TrimSuffix (strings.TrimSuffix
       "2rem" "px") "pt") "em") "rem" = "2r"%string /\
  svg.parseFloatRod "2rem" = Some (f64.of_int 2).
Proof. vm_compute. split; reflexivity. Qed.

(** ** The metadata file *)

Import wire.

Example Unmarshal_MarshalIndent_sample :
  json.Unmarshal (json.MarshalIndent sample_metadata) = Ok sample_metadata.
Proof. vm_compute. reflexivity. Qed.

(** *** UTF-8: a rune that decodes is encoded back to its bytes *)

Section Utf8.

Lemma chr_byte (c : ascii) : utf8.chr (utf8.byte c) = c.
Proof.
  unfold utf8.chr, utf8.byte. rewrite N2Z.id. apply ascii_N_embedding.
Qed.

Lemma all_from_spec (f : Z -> bool) n :
  forall lo, all_from lo n f = true ->
             forall x, lo <= x < lo + Z.of_nat n -> f x = true.
Proof.
  induction n as [|k IH]; intros lo H x Hx; [lia|].
  simpl in H. apply andb_prop in H as [H0 H1].
  destruct (Z.eq_dec x lo) as [->|N]; [exact H0|].
  apply (IH (lo + 1) H1). lia.
Qed.

Lemma list_eqb_eq (a b : list Z) : list_eqb a b = true -> a = b.
Proof.
  unfold list_eqb. revert b. induction a as [|x a IH]; intros [|y b] H;
    try discriminate; [reflexivity|].
  cbn in H. apply andb_prop in H as [Hl H]. apply andb_prop in H as [Hx H].
  apply Z.eqb_eq in Hx. subst y. f_equal. apply IH.
  unfold list_eqb in *. cbn. now rewrite Hl, H.
Qed.

(** The encodings of two and of three bytes are few enough to be checked
    one by one. *)
Lemma two_bytes_checked :
  all_from 194 30 (fun b0 => all_from 128 64 (fun b1 =>
    round_trips [b0; b1])) = true.
Proof. vm_compute. reflexivity. Qed.

Lemma three_bytes_checked :
  all_from 224 16 (fun b0 => all_from 128 64 (fun b1 =>
    all_from 128 64 (fun b2 => round_trips [b0; b1; b2]))) = true.
Proof. vm_compute. reflexivity. Qed.

(** The encodings of four bytes, by arithmetic: the bits of the lead byte
    and of the continuation bytes do not overlap. *)
Lemma land_shifted (a b k : Z) :
  0 <= k -> 0 <= b < 2 ^ k -> Z.land (a * 2 ^ k) b = 0.
Proof.
  intros Hk Hb. apply Z.bits_inj'. intros n Hn.
  rewrite Z.land_spec, Z.bits_0.
  destruct (Z.lt_ge_cases n k) as [Hlt|Hge].
  - rewrite Z.mul_pow2_bits_low by lia. reflexivity.
  - destruct (Z.eq_dec b 0) as [->|Hb0];
      [rewrite Z.bits_0; apply andb_false_r|].
    rewrite (Z.bits_above_log2 b n); [apply andb_false_r|lia|].
    assert (Z.log2 b < k) by (apply Z.log2_lt_pow2; lia). lia.
Qed.

Lemma lor_shifted (a b k : Z) :
  0 <= k -> 0 <= b < 2 ^ k -> Z.lor (a * 2 ^ k) b = a * 2 ^ k + b.
Proof.
  intros Hk Hb. pose proof (Z.add_lor_land (a * 2 ^ k) b) as H.
  rewrite land_shifted in H by assumption. lia.
Qed.

Lemma lead_and_continuation_bits :
  all_from 240 5 (fun b => Z.land b 7 =? b - 240) = true /\
  all_from 128 64 (fun b => Z.land b 63 =? b - 128) = true /\
  all_from 0 5 (fun x => Z.lor 240 x =? 240 + x) = true /\
  all_from 0 64 (fun x => Z.lor 128 x =? 128 + x) = true.
Proof. vm_compute. repeat split; reflexivity. Qed.

Lemma four_bytes_round_trips (b0 b1 b2 b3 : Z) :
  240 <= b0 < 245 -> 128 <= b1 < 192 -> 128 <= b2 < 192 -> 128 <= b3 < 192 ->
  round_trips [b0; b1; b2; b3] = true.
Proof.
  intros H0 H1 H2 H3.
  destruct lead_and_continuation_bits as (F0 & F1 & G0 & G1).
  pose proof (fun b H => proj1 (Z.eqb_eq _ _) (all_from_spec _ _ _ F0 b H)) as L0.
  pose proof (fun b H => proj1 (Z.eqb_eq _ _) (all_from_spec _ _ _ F1 b H)) as L1.
  pose proof (fun b H => proj1 (Z.eqb_eq _ _) (all_from_spec _ _ _ G0 b H)) as M0.
  pose proof (fun b H => proj1 (Z.eqb_eq _ _) (all_from_spec _ _ _ G1 b H)) as M1.
  cbv beta in L0, L1, M0, M1.
  unfold round_trips, utf8.decode.
  destruct (Z.ltb_spec b0 128); [lia|].
  destruct (Z.ltb_spec b0 194); [lia|].
  destruct (Z.ltb_spec 244 b0); [lia|]. cbn [orb].
  destruct (Z.ltb_spec b0 224); [lia|].
  destruct (Z.ltb_spec b0 240); [lia|].
  destruct (Z.eqb_spec b0 224); [lia|].
  destruct (Z.eqb_spec b0 237); [lia|].
  cbn [length Nat.ltb Nat.leb].
  set (lo := if b0 =? 240 then 144 else 128).
  set (hi := if b0 =? 244 then 143 else 191).
  destruct ((b1 <? lo) || (hi <? b1)) eqn:Eb1; [reflexivity|].
  apply orb_false_elim in Eb1 as [Elo Ehi].
  apply Z.ltb_ge in Elo, Ehi.
  destruct (Z.ltb_spec b2 128); [lia|].
  destruct (Z.ltb_spec 191 b2); [lia|].
  destruct (Z.ltb_spec b3 128); [lia|].
  destruct (Z.ltb_spec 191 b3); [lia|]. cbn [orb].
  rewrite (L0 b0), (L1 b1), (L1 b2), (L1 b3) by lia.
  rewrite !Z.shiftl_mul_pow2 by lia.
  set (x0 := b0 - 240). set (x1 := b1 - 128).
  set (x2 := b2 - 128). set (x3 := b3 - 128).
  assert (Hx1 : (if b0 =? 240 then 16 else 0) <= x1
                <= (if b0 =? 244 then 15 else 63)).
  { subst lo hi x1. destruct (b0 =? 240), (b0 =? 244); lia. }
  assert (Hb0 : (b0 =? 240) = (x0 =? 0) /\ (b0 =? 244) = (x0 =? 4)).
  { subst x0. split.
    - destruct (Z.eqb_spec b0 240), (Z.eqb_spec (b0 - 240) 0); lia || reflexivity.
    - destruct (Z.eqb_spec b0 244), (Z.eqb_spec (b0 - 240) 4); lia || reflexivity. }
  destruct Hb0 as [E240 E244]. rewrite E240, E244 in Hx1.
  assert (Hx0 : 0 <= x0 < 5) by (subst x0; lia).
  assert (Hx2 : 0 <= x2 < 64) by (subst x2; lia).
  assert (Hx3 : 0 <= x3 < 64) by (subst x3; lia).
  assert (Hx1' : 0 <= x1 < 64) by (subst x1; lia).
  replace b0 with (240 + x0) by (subst x0; lia).
  replace b1 with (128 + x1) by (subst x1; lia).
  replace b2 with (128 + x2) by (subst x2; lia).
  replace b3 with (128 + x3) by (subst x3; lia).
  clearbody x0 x1 x2 x3. clear - Hx0 Hx1 Hx1' Hx2 Hx3 M0 M1.
  assert (Er : Z.lor (Z.lor (Z.lor (x0 * 2 ^ 18) (x1 * 2 ^ 12)) (x2 * 2 ^ 6)) x3
               = x0 * 262144 + x1 * 4096 + x2 * 64 + x3).
  { rewrite (lor_shifted x0 (x1 * 2 ^ 12) 18) by lia.
    replace (x0 * 2 ^ 18 + x1 * 2 ^ 12)
      with ((x0 * 64 + x1) * 2 ^ 12) by lia.
    rewrite (lor_shifted _ (x2 * 2 ^ 6) 12) by lia.
    replace ((x0 * 64 + x1) * 2 ^ 12 + x2 * 2 ^ 6)
      with ((x0 * 4096 + x1 * 64 + x2) * 2 ^ 6) by lia.
    rewrite (lor_shifted _ x3 6) by lia. lia. }
  rewrite Er. set (r := x0 * 262144 + x1 * 4096 + x2 * 64 + x3).
  assert (Hr : 65536 <= r <= 1114111).
  { subst r. destruct (Z.eqb_spec x0 0), (Z.eqb_spec x0 4); lia. }
  apply orb_true_intro. right.
  change (Nat.eqb 4 4) with true. cbn [andb].
  replace (128 <=? r) with true by (symmetry; apply Z.leb_le; lia).
  cbn [andb]. unfold utf8.encode, utf8.MaxRune.
  replace (0 <=? r) with true by (symmetry; apply Z.leb_le; lia).
  replace (r <=? 127) with false by (symmetry; apply Z.leb_gt; lia).
  replace (r <=? 2047) with false by (symmetry; apply Z.leb_gt; lia).
  replace (r <? 0) with false by (symmetry; apply Z.ltb_ge; lia).
  replace (1114111 <? r) with false by (symmetry; apply Z.ltb_ge; lia).
  replace (r <=? 57343) with false by (symmetry; apply Z.leb_gt; lia).
  replace (r <=? 65535) with false by (symmetry; apply Z.leb_gt; lia).
  cbn [andb orb]. rewrite andb_false_r. 
  rewrite !Z.shiftr_div_pow2 by lia.
  change 63 with (Z.ones 6). rewrite !Z.land_ones by lia.
  change (2 ^ 18) with 262144. change (2 ^ 12) with 4096.
  change (2 ^ 6) with 64.
  assert (E0 : r / 262144 = x0) by (subst r; Z.div_mod_to_equations; lia).
  assert (E1 : (r / 4096) mod 64 = x1) by (subst r; Z.div_mod_to_equations; lia).
  assert (E2 : (r / 64) mod 64 = x2) by (subst r; Z.div_mod_to_equations; lia).
  assert (E3 : r mod 64 = x3) by (subst r; Z.div_mod_to_equations; lia).
  rewrite E0, E1, E2, E3.
  rewrite (M0 x0), (M1 x1), (M1 x2), (M1 x3) by lia.
  unfold list_eqb. cbn [length zip_with forallb Nat.eqb andb].
  rewrite !Z.eqb_refl. reflexivity.
Qed.

Ltac split_ifs :=
  repeat match goal with
    | |- context [if ?a <? ?b then _ else _] => destruct (Z.ltb_spec a b)
    | |- context [if ?a =? ?b then _ else _] => destruct (Z.eqb_spec a b)
    | |- context [(?a <? ?b) || _] => destruct (Z.ltb_spec a b); cbn [orb]
    | |- context [if false then _ else _] => cbv iota
    | |- context [if true then _ else _] => cbv iota
    end.

Lemma decode_prefix2 b0 b1 t :
  194 <= b0 < 224 -> utf8.decode (b0 :: b1 :: t) = utf8.decode [b0; b1].
Proof.
  intros H. unfold utf8.decode.
  destruct (Z.ltb_spec b0 128); [lia|].
  destruct (Z.ltb_spec b0 194); [lia|].
  destruct (Z.ltb_spec 244 b0); [lia|]. cbn [orb].
  destruct (Z.ltb_spec b0 224); [|lia]. reflexivity.
Qed.

Lemma decode_prefix3 b0 b1 b2 t :
  224 <= b0 < 240 ->
  utf8.decode (b0 :: b1 :: b2 :: t) = utf8.decode [b0; b1; b2].
Proof.
  intros H. unfold utf8.decode.
  destruct (Z.ltb_spec b0 128); [lia|].
  destruct (Z.ltb_spec b0 194); [lia|].
  destruct (Z.ltb_spec 244 b0); [lia|]. cbn [orb].
  destruct (Z.ltb_spec b0 224); [lia|].
  destruct (Z.ltb_spec b0 240); [|lia]. reflexivity.
Qed.

Lemma decode_prefix4 b0 b1 b2 b3 t :
  240 <= b0 ->
  utf8.decode (b0 :: b1 :: b2 :: b3 :: t) = utf8.decode [b0; b1; b2; b3].
Proof.
  intros H. unfold utf8.decode.
  destruct (Z.ltb_spec b0 128); [lia|].
  destruct (Z.ltb_spec b0 194); [lia|].
  destruct (Z.ltb_spec 244 b0); [reflexivity|]. cbn [orb].
  destruct (Z.ltb_spec b0 224); [lia|].
  destruct (Z.ltb_spec b0 240); [lia|]. reflexivity.
Qed.

Lemma round_trips_good bs r n :
  round_trips bs = true -> utf8.decode bs = (r, n) -> good r n ->
  n = length bs /\ 128 <= r /\ utf8.encode r = bs.
Proof.
  unfold round_trips, good. intros H E G. rewrite E in H.
  apply orb_prop in H as [H|H].
  - apply andb_prop in H as [H1 H2].
    apply Z.eqb_eq in H1. apply Nat.eqb_eq in H2. tauto.
  - apply andb_prop in H as [H H3]. apply andb_prop in H as [H1 H2].
    apply Nat.eqb_eq in H1. apply Z.leb_le in H2.
    apply list_eqb_eq in H3. auto.
Qed.

(** The shape of a multi-byte decoding: the rune is encoded back to the
    bytes it was read from, and what follows them does not matter. *)
Lemma decode_multibyte (b0 : Z) (p1 : list Z) (r : Z) (n : nat) :
  utf8.decode (b0 :: p1) = (r, n) -> good r n -> 128 <= b0 ->
  exists bs t,
    b0 :: p1 = (bs ++ t)%list /\ length bs = n /\ (2 <= n <= 4)%nat /\
    utf8.encode r = bs /\ 128 <= r /\
    (forall t', utf8.decode (bs ++ t') = (r, n)).
Proof.
  intros E G Hb.
  assert (H0 : 194 <= b0 <= 244).
  { revert E. unfold utf8.decode.
    destruct (Z.ltb_spec b0 128); [lia|].
    destruct (Z.ltb_spec b0 194);
      [intros E; inversion E; subst; exfalso; apply G; auto|].
    destruct (Z.ltb_spec 244 b0);
      [intros E; inversion E; subst; exfalso; apply G; auto|]. lia. }
  assert (Hbad : forall q, utf8.decode q = (utf8.RuneError, 1%nat) ->
                           utf8.decode q = (r, n) -> False).
  { intros q Hq Hq'. rewrite Hq in Hq'. inversion Hq'. apply G. auto. }
  destruct (Z.ltb_spec b0 224) as [L2|G2].
  - (* two bytes *)
    destruct p1 as [|b1 t].
    { exfalso. apply (Hbad [b0]); [|exact E].
      unfold utf8.decode. split_ifs; try lia; reflexivity. }
    rewrite decode_prefix2 in E by lia.
    assert (Hb1 : 128 <= b1 < 192).
    { destruct (Z.ltb_spec b1 128); [|destruct (Z.ltb_spec 191 b1)]; try lia;
        exfalso; apply (Hbad [b0; b1]); try exact E;
        unfold utf8.decode; split_ifs; try lia; try reflexivity;
        cbn; split_ifs; try lia; reflexivity. }
    pose proof (all_from_spec _ _ _ two_bytes_checked b0 ltac:(lia)) as C.
    cbv beta in C.
    pose proof (all_from_spec _ _ _ C b1 ltac:(lia)) as C1. cbv beta in C1.
    destruct (round_trips_good _ _ _ C1 E G) as (Hn & Hr & He).
    exists [b0; b1], t. split; [reflexivity|]. cbn in Hn. subst n.
    split; [reflexivity|]. split; [lia|]. split; [exact He|]. split; [exact Hr|].
    intros t'; cbn [app]; rewrite decode_prefix2 by lia; exact E.
  - destruct (Z.ltb_spec b0 240) as [L3|G3].
    + (* three bytes *)
      destruct p1 as [|b1 [|b2 t]].
      { exfalso. apply (Hbad [b0]); [|exact E].
        unfold utf8.decode. split_ifs; try lia; reflexivity. }
      { exfalso. apply (Hbad [b0; b1]); [|exact E].
        unfold utf8.decode. split_ifs; try lia; reflexivity. }
      rewrite decode_prefix3 in E by lia.
      assert (Hb1 : 128 <= b1 < 192).
      { destruct (Z.ltb_spec b1 128); [|destruct (Z.ltb_spec 191 b1)]; try lia;
          exfalso; apply (Hbad [b0; b1; b2]); try exact E;
          unfold utf8.decode; split_ifs; try lia; try reflexivity;
          cbn; split_ifs; try lia; reflexivity. }
      assert (Hb2 : 128 <= b2 < 192).
      { destruct (Z.ltb_spec b2 128); [|destruct (Z.ltb_spec 191 b2)]; try lia;
          exfalso; apply (Hbad [b0; b1; b2]); try exact E;
          unfold utf8.decode; split_ifs; try lia; try reflexivity;
          cbn; split_ifs; try lia; reflexivity. }
      pose proof (all_from_spec _ _ _ three_bytes_checked b0 ltac:(lia)) as C.
      cbv beta in C.
      pose proof (all_from_spec _ _ _ C b1 ltac:(lia)) as C1. cbv beta in C1.
      pose proof (all_from_spec _ _ _ C1 b2 ltac:(lia)) as C2. cbv beta in C2.
      destruct (round_trips_good _ _ _ C2 E G) as (Hn & Hr & He).
      exists [b0; b1; b2], t. split; [reflexivity|]. cbn in Hn. subst n.
      split; [reflexivity|]. split; [lia|]. split; [exact He|]. split; [exact Hr|].
      intros t'; cbn [app]; rewrite decode_prefix3 by lia; exact E.
    + (* four bytes *)
      destruct p1 as [|b1 [|b2 [|b3 t]]].
      { exfalso. apply (Hbad [b0]); [|exact E].
        unfold utf8.decode. split_ifs; try lia; reflexivity. }
      { exfalso. apply (Hbad [b0; b1]); [|exact E].
        unfold utf8.decode. split_ifs; try lia; reflexivity. }
      { exfalso. apply (Hbad [b0; b1; b2]); [|exact E].
        unfold utf8.decode. split_ifs; try lia; reflexivity. }
      rewrite decode_prefix4 in E by lia.
      assert (Hb1 : 128 <= b1 < 192).
      { destruct (Z.ltb_spec b1 128); [|destruct (Z.ltb_spec 191 b1)]; try lia;
          exfalso; apply (Hbad [b0; b1; b2; b3]); try exact E;
          unfold utf8.decode; split_ifs; try lia; try reflexivity;
          cbn; split_ifs; try lia; reflexivity. }
      assert (Hb2 : 128 <= b2 < 192).
      { destruct (Z.ltb_spec b2 128); [|destruct (Z.ltb_spec 191 b2)]; try lia;
          exfalso; apply (Hbad [b0; b1; b2; b3]); try exact E;
          unfold utf8.decode; split_ifs; try lia; try reflexivity;
          cbn; split_ifs; try lia; reflexivity. }
      assert (Hb3 : 128 <= b3 < 192).
      { destruct (Z.ltb_spec b3 128); [|destruct (Z.ltb_spec 191 b3)]; try lia;
          exfalso; apply (Hbad [b0; b1; b2; b3]); try exact E;
          unfold utf8.decode; split_ifs; try lia; try reflexivity;
          cbn; split_ifs; try lia; reflexivity. }
      pose proof (four_bytes_round_trips b0 b1 b2 b3 ltac:(lia) Hb1 Hb2 Hb3)
        as C3.
      destruct (round_trips_good _ _ _ C3 E G) as (Hn & Hr & He).
      exists [b0; b1; b2; b3], t. split; [reflexivity|]. cbn in Hn. subst n.
      split; [reflexivity|]. split; [lia|]. split; [exact He|]. split; [exact Hr|].
      intros t'; cbn [app]; rewrite decode_prefix4 by lia; exact E.
Qed.

End Utf8.

(** *** String literals *)

Section StringLiteral.

Lemma map_chr_byte (l : list ascii) : map utf8.chr (map utf8.byte l) = l.
Proof.
  induction l as [|c l IH]; [reflexivity|].
  cbn [map]. rewrite chr_byte, IH. reflexivity.
Qed.

(** One ASCII byte: what the encoder writes for it is read back as it. *)
Lemma string_body_ascii (c : ascii) (rest acc : list ascii) :
  utf8.byte c < 128 ->
  json.string_body (json.escape_rune (utf8.byte c, [c]) ++ rest) acc
  = json.string_body rest (acc ++ [c]).
Proof.
  intros H.
  destruct c as [b0 b1 b2 b3 b4 b5 b6 b7].
  destruct b7.
  - exfalso. destruct b0, b1, b2, b3, b4, b5, b6; vm_compute in H; discriminate.
  - clear H. destruct b0, b1, b2, b3, b4, b5, b6; reflexivity.
Qed.

Lemma high_byte (c : ascii) :
  128 <= utf8.byte c ->
  Ascii.eqb c json.dq = false /\ Ascii.eqb c "\" = false /\
  (utf8.byte c <? 32) = false /\ (utf8.byte c <? 128) = false.
Proof.
  intros H. repeat split.
  - destruct (Ascii.eqb_spec c json.dq); [subst; vm_compute in H; congruence|reflexivity].
  - destruct (Ascii.eqb_spec c "\"); [subst; vm_compute in H; congruence|reflexivity].
  - apply Z.ltb_ge. lia.
  - apply Z.ltb_ge. lia.
Qed.

Lemma line_separator (r : Z) (bytes rest acc : list ascii) :
  r = 8232 \/ r = 8233 ->
  json.string_body (json.escape_rune (r, bytes) ++ rest) acc
  = json.string_body rest (acc ++ utf8.EncodeRune r).
Proof.
  intros [-> | ->]; reflexivity.
Qed.

Lemma firstn_map_byte (n : nat) (p : list ascii) (bs t : list Z) :
  map utf8.byte p = (bs ++ t)%list -> length bs = n ->
  map utf8.byte (firstn n p) = bs /\ map utf8.byte (skipn n p) = t /\
  length (firstn n p) = n.
Proof.
  intros E L.
  assert (Hl : (n <= length p)%nat).
  { apply (f_equal (@length Z)) in E.
    rewrite length_map, length_app in E. lia. }
  rewrite <- (firstn_skipn n p) in E at 1. rewrite map_app in E.
  apply app_inj_1 in E as [E1 E2].
  - repeat split; try assumption. apply firstn_length_le. exact Hl.
  - rewrite length_map, firstn_length_le by exact Hl. lia.
Qed.

(** A string of well-formed UTF-8 is read back from its escaped form. *)
Lemma string_body_escaped (n : nat) :
  forall (p acc rest : list ascii),
    (length p <= n)%nat ->
    forallb valid_rune (utf8.runes n p) = true ->
    json.string_body
      (flat_map json.escape_rune (utf8.runes n p) ++ json.dq :: rest) acc
    = Some (string_of_list_ascii (acc ++ p), rest).
Proof.
  induction n as [|n IH]; intros p acc rest Hlen Hv.
  - destruct p; [|cbn in Hlen; lia]. cbn. rewrite app_nil_r. reflexivity.
  - destruct p as [|c t].
    { cbn. rewrite app_nil_r. reflexivity. }
    cbn [utf8.runes] in Hv |- *.
    destruct (utf8.DecodeRune (c :: t)) as [r size] eqn:E.
    cbn [forallb flat_map] in Hv |- *.
    apply andb_prop in Hv as [Hv1 Hv2].
    rewrite <- app_assoc.
    destruct (Z.ltb_spec (utf8.byte c) 128) as [Hlow|Hhigh].
    + assert (r = utf8.byte c /\ size = 1%nat) as [-> ->].
      { revert E. unfold utf8.DecodeRune. cbn [map]. unfold utf8.decode.
        destruct (Z.ltb_spec (utf8.byte c) 128); [|lia].
        intros E. inversion E. auto. }
      change (skipn 1 (c :: t)) with t in Hv2 |- *.
      change (firstn 1 (c :: t)) with [c].
      rewrite string_body_ascii by exact Hlow.
      rewrite IH; [|cbn in Hlen; lia|exact Hv2].
      rewrite <- app_assoc. reflexivity.
    + assert (G : good r size).
      { intros [-> ->]. unfold valid_rune in Hv1. cbn [fst snd] in Hv1.
        cbn [firstn length] in Hv1. vm_compute in Hv1. discriminate. }
      unfold utf8.DecodeRune in E. cbn [map] in E.
      destruct (decode_multibyte _ _ _ _ E G Hhigh)
        as (bs & tz & Hsplit & Hbs & Hsz & Henc & Hr & Hinv).
      change (utf8.byte c :: map utf8.byte t) with (map utf8.byte (c :: t))
        in Hsplit.
      destruct (firstn_map_byte size (c :: t) bs tz Hsplit Hbs)
        as (Hf & Hs & Hfl).
      set (cs := firstn size (c :: t)) in *.
      set (t' := skipn size (c :: t)) in *.
      assert (Hct : c :: t = (cs ++ t')%list)
        by (symmetry; apply firstn_skipn).
      assert (Henc' : utf8.EncodeRune r = cs).
      { unfold utf8.EncodeRune. rewrite Henc, <- Hf. apply map_chr_byte. }
      assert (Hrest : forall tail,
                json.string_body (cs ++ tail) acc
                = json.string_body tail (acc ++ cs)).
      { intros tail.
        assert (Hd : utf8.DecodeRune (cs ++ tail) = (r, size)).
        { unfold utf8.DecodeRune. rewrite map_app, Hf. apply Hinv. }
        destruct (high_byte c Hhigh) as (H1 & H2 & H3 & H4).
        destruct cs as [|c0 cs1] eqn:Ecs; [cbn in Hfl; lia|].
        assert (c0 = c) by (cbn in Hct; congruence). subst c0.
        cbn [app] in Hd |- *. cbn [json.string_body].
        rewrite H1, H2, H3, H4. rewrite Hd. rewrite Henc'.
        destruct size as [|[|[|[|[|size]]]]]; try lia;
          destruct cs1 as [|c1 [|c2 [|c3 [|c4 cs1]]]];
          cbn in Hfl; try lia; reflexivity. }
      assert (Hlen' : (length t' <= n)%nat).
      { apply (f_equal (@length ascii)) in Hct.
        rewrite length_app, Hfl in Hct. cbn [length] in Hct, Hlen. lia. }
      assert (Hgoal : json.string_body
                (json.escape_rune (r, cs)
                 ++ flat_map json.escape_rune (utf8.runes n t')
                 ++ json.dq :: rest) acc
              = json.string_body
                  (flat_map json.escape_rune (utf8.runes n t')
                   ++ json.dq :: rest) (acc ++ cs)).
      { destruct (Z.eq_dec r 8232) as [E1|N1];
          [rewrite line_separator by auto; rewrite Henc'; reflexivity|].
        destruct (Z.eq_dec r 8233) as [E2|N2];
          [rewrite line_separator by auto; rewrite Henc'; reflexivity|].
        unfold json.escape_rune.
        destruct (Z.ltb_spec r 128); [lia|].
        replace (length cs =? 1)%nat with false
          by (symmetry; apply Nat.eqb_neq; lia).
        rewrite andb_false_r.
        destruct (Z.eqb_spec r 8232); [lia|].
        destruct (Z.eqb_spec r 8233); [lia|]. cbn [orb].
        apply Hrest. }
      rewrite Hgoal, IH by assumption.
      rewrite <- app_assoc, <- Hct. reflexivity.
Qed.

Lemma string_body_appendString (s : string) (rest : list ascii) :
  utf8.ValidString s = true ->
  exists body,
    json.appendString s = json.dq :: body /\
    json.string_body (body ++ rest) [] = Some (s, rest).
Proof.
  intros H. unfold json.appendString.
  eexists. split; [reflexivity|].
  rewrite <- app_assoc. cbn [app].
  rewrite string_body_escaped; [|unfold json.chars; lia|exact H].
  cbn [app]. unfold json.chars.
  rewrite string_of_list_ascii_of_string. reflexivity.
Qed.

End StringLiteral.

(** *** Integers *)

Section Numbers.

Lemma digit_cases (d : Z) :
  0 <= d < 10 ->
  d = 0 \/ d = 1 \/ d = 2 \/ d = 3 \/ d = 4 \/ d = 5 \/ d = 6 \/ d = 7 \/
  d = 8 \/ d = 9.
Proof. lia. Qed.

Ltac each_digit H :=
  destruct (digit_cases _ H) as [->|[->|[->|[->|[->|[->|[->|[->|[->| ->]]]]]]]]].

Lemma digit_is_digit (d : Z) : 0 <= d < 10 -> strconv.is_digit (digit d) = true.
Proof. intros H. each_digit H; reflexivity. Qed.

Lemma digit_value_digit (d : Z) :
  0 <= d < 10 -> strconv.digit_value (digit d) = d.
Proof. intros H. each_digit H; reflexivity. Qed.

Lemma digit_zero (d : Z) :
  0 <= d < 10 -> Ascii.eqb (digit d) "0" = (d =? 0).
Proof. intros H. each_digit H; reflexivity. Qed.

Lemma is_digit_cases (c : ascii) :
  strconv.is_digit c = true ->
  exists d, 0 <= d < 10 /\ c = digit d.
Proof.
  unfold strconv.is_digit, strconv.within. cbn [list_ascii_of_string existsb].
  intros H.
  repeat (apply orb_prop in H as [H|H];
          [apply Ascii.eqb_eq in H; subst c|]); try discriminate.
  - exists 0. split; [lia|reflexivity].
  - exists 1. split; [lia|reflexivity].
  - exists 2. split; [lia|reflexivity].
  - exists 3. split; [lia|reflexivity].
  - exists 4. split; [lia|reflexivity].
  - exists 5. split; [lia|reflexivity].
  - exists 6. split; [lia|reflexivity].
  - exists 7. split; [lia|reflexivity].
  - exists 8. split; [lia|reflexivity].
  - exists 9. split; [lia|reflexivity].
Qed.

(** The digits of a natural number: all decimal digits, whose value is
    the number, without a leading zero. *)
Lemma digits_of_spec (fuel : nat) :
  forall n, 0 <= n < 2 ^ Z.of_nat fuel -> (0 < fuel)%nat ->
    let ds := json.digits_of fuel n in
    forallb strconv.is_digit ds = true /\
    fold_left (fun acc c => acc * 10 + strconv.digit_value c) ds 0 = n /\
    exists d ds', ds = digit d :: ds' /\ 0 <= d < 10 /\
                  (d = 0 -> n = 0 /\ ds' = []).
Proof.
  induction fuel as [|fuel IH]; intros n Hn Hf; [lia|].
  cbn [json.digits_of]. cbv zeta.
  destruct (Z.ltb_spec n 10) as [Hs|Hl].
  - fold (digit n). cbn [forallb fold_left].
    rewrite digit_is_digit, digit_value_digit by lia.
    split; [reflexivity|]. split; [lia|].
    exists n, []. split; [reflexivity|]. split; [lia|].
    intros ->. split; reflexivity.
  - assert (Hq : 0 <= n / 10 < 2 ^ Z.of_nat fuel).
    { split; [apply Z.div_pos; lia|].
      apply Z.div_lt_upper_bound; [lia|].
      rewrite Nat2Z.inj_succ, Z.pow_succ_r in Hn by lia. lia. }
    assert (Hfuel : (0 < fuel)%nat).
    { destruct fuel; [cbn in Hn; lia|lia]. }
    destruct (IH (n / 10) Hq Hfuel) as (Ha & Hb & d & ds' & Hd & Hr & Hz).
    fold (digit (n mod 10)).
    pose proof (Z.mod_pos_bound n 10 ltac:(lia)) as Hm.
    split; [|split].
    + rewrite forallb_app, Ha. cbn [forallb].
      rewrite digit_is_digit by lia. reflexivity.
    + rewrite fold_left_app, Hb. cbn [fold_left].
      rewrite digit_value_digit by lia.
      pose proof (Z.div_mod n 10 ltac:(lia)). lia.
    + exists d, (ds' ++ [digit (n mod 10)])%list. rewrite Hd.
      split; [reflexivity|]. split; [lia|].
      intros ->. destruct (Hz eq_refl) as [Hz0 _].
      pose proof (Z.div_mod n 10 ltac:(lia)). lia.
Qed.

Lemma digits_of_abs (z : Z) :
  let n := Z.abs z in
  let ds := json.digits_of (S (Z.to_nat (Z.log2 n))) n in
  forallb strconv.is_digit ds = true /\
  fold_left (fun acc c => acc * 10 + strconv.digit_value c) ds 0 = n /\
  exists d ds', ds = digit d :: ds' /\ 0 <= d < 10 /\
                (d = 0 -> n = 0 /\ ds' = []).
Proof.
  cbv zeta. apply digits_of_spec; [|lia].
  split; [lia|].
  rewrite Nat2Z.inj_succ, Z2Nat.id by apply Z.log2_nonneg.
  destruct (Z.eq_dec (Z.abs z) 0) as [->|Hne]; [reflexivity|].
  apply Z.log2_spec. lia.
Qed.

Lemma take_digits_all (ds rest acc : list ascii) :
  forallb strconv.is_digit ds = true -> stops rest ->
  json.take_digits (ds ++ rest) acc = ((acc ++ ds)%list, rest).
Proof.
  revert acc. induction ds as [|d ds IH]; intros acc Hd Hs.
  - rewrite app_nil_r. cbn [app].
    destruct rest as [|c rest]; [reflexivity|].
    cbn [json.take_digits]. destruct Hs as [-> _]. reflexivity.
  - cbn [forallb] in Hd. apply andb_prop in Hd as [Hd1 Hd2].
    cbn [app json.take_digits]. rewrite Hd1, IH by assumption.
    rewrite <- app_assoc. reflexivity.
Qed.

Lemma number_tail (lit rest : list ascii) :
  stops rest ->
  match
    match rest with
    | c :: f :: p3 =>
        if Ascii.eqb c "." then
          if strconv.is_digit f
          then Some (json.take_digits p3 (lit ++ [c; f])) else None
        else Some (lit, rest)
    | [c] => if Ascii.eqb c "." then None else Some (lit, rest)
    | [] => Some (lit, rest)
    end
  with
  | None => None
  | Some (lit, p4) =>
      match p4 with
      | e :: p5 =>
          if strconv.within e "eE" then
            let '(lit, p6) :=
              match p5 with
              | s :: p6 =>
                  if strconv.within s "+-" then ((lit ++ [e; s])%list, p6)
                  else ((lit ++ [e])%list, p5)
              | [] => ((lit ++ [e])%list, p5)
              end in
            match p6 with
            | x :: _ =>
                if strconv.is_digit x then
                  let '(lit, rest) := json.take_digits p6 lit in
                  Some (string_of_list_ascii lit, rest)
                else None
            | [] => None
            end
          else Some (string_of_list_ascii lit, p4)
      | [] => Some (string_of_list_ascii lit, p4)
      end
  end = Some (string_of_list_ascii lit, rest).
Proof.
  intros Hs. destruct rest as [|c [|f p3]]; [reflexivity| |];
    destruct Hs as (H1 & H2 & H3); rewrite H2, H3; reflexivity.
Qed.

Lemma digit_not_minus (c : ascii) :
  strconv.is_digit c = true -> Ascii.eqb c "-" = false.
Proof.
  intros H. destruct (is_digit_cases c H) as (d & Hd & ->).
  each_digit Hd; reflexivity.
Qed.

(** [number] reads back what [Itoa] writes. *)
Lemma number_Itoa (z : Z) (rest : list ascii) :
  stops rest ->
  json.number (json.Itoa z ++ rest)
  = Some (string_of_list_ascii (json.Itoa z), rest).
Proof.
  intros Hs. unfold json.Itoa. cbv zeta.
  destruct (digits_of_abs z) as (Ha & Hb & d & ds' & Hd & Hr & Hz).
  cbv zeta in Hd, Ha. rewrite Hd in *.
  cbn [forallb] in Ha. apply andb_prop in Ha as [Ha1 Ha2].
  assert (Hcore : forall sign,
    (let '(int, p2) :=
       if Ascii.eqb (digit d) "0" then ((sign ++ [digit d])%list, (ds' ++ rest)%list)
       else json.take_digits (ds' ++ rest) (sign ++ [digit d]) in
     (int, p2)) = ((sign ++ digit d :: ds')%list, rest)).
  { intros sign. rewrite digit_zero by exact Hr.
    destruct (Z.eqb_spec d 0) as [E|N].
    - destruct (Hz E) as [_ ->]. reflexivity.
    - rewrite take_digits_all by assumption.
      rewrite <- app_assoc. reflexivity. }
  destruct (Z.ltb_spec z 0) as [Hneg|Hpos].
  - unfold json.number. cbn [app]. cbn [Ascii.eqb Bool.eqb]. cbv iota.
    rewrite Ha1. cbn [negb].
    specialize (Hcore ["-"%char]).
    destruct (if Ascii.eqb (digit d) "0" then _ else _) as [int p2].
    inversion Hcore; subst int p2. cbn [app].
    apply (number_tail ("-"%char :: digit d :: ds') rest Hs).
  - unfold json.number. cbn [app].
    rewrite (digit_not_minus _ Ha1). rewrite Ha1. cbn [negb].
    specialize (Hcore []).
    destruct (if Ascii.eqb (digit d) "0" then _ else _) as [int p2].
    inversion Hcore; subst int p2. cbn [app].
    apply (number_tail (digit d :: ds') rest Hs).
Qed.

Lemma Atoi_Itoa (z : Z) :
  fits z -> strconv.Atoi (string_of_list_ascii (json.Itoa z)) = Some z.
Proof.
  intros Hfit. unfold strconv.Atoi.
  rewrite list_ascii_of_string_of_list_ascii.
  unfold json.Itoa. cbv zeta.
  destruct (digits_of_abs z) as (Ha & Hb & d & ds' & Hd & Hr & Hz).
  cbv zeta in Hd, Ha, Hb. rewrite Hd in *.
  assert (Hfb : fitsb z = true).
  { unfold fitsb. destruct Hfit. apply andb_true_intro.
    split; apply Z.leb_le; assumption. }
  destruct (Z.ltb_spec z 0) as [Hneg|Hpos].
  - cbn [Ascii.eqb Bool.eqb]. cbv iota.
    rewrite Ha, Hb. replace (- Z.abs z) with z by lia.
    rewrite Hfb. reflexivity.
  - assert (Hdig : strconv.is_digit (digit d) = true)
      by (apply digit_is_digit; exact Hr).
    replace (Ascii.eqb (digit d) "+") with false
      by (each_digit Hr; reflexivity).
    rewrite (digit_not_minus _ Hdig).
    rewrite Ha, Hb. replace (Z.abs z) with z by lia.
    rewrite Hfb. reflexivity.
Qed.

End Numbers.

(** *** Members and elements *)

Section Syntax.

Lemma skip_ws_indent (k : nat) (c : ascii) (r : list ascii) :
  json.is_ws c = false ->
  json.skip_ws (concat (repeat (json.chars "  ") k) ++ c :: r) = c :: r.
Proof.
  intros H. induction k as [|k IH].
  - cbn [repeat concat app json.skip_ws]. rewrite H. reflexivity.
  - cbn [repeat concat]. rewrite <- app_assoc. exact IH.
Qed.

Lemma skip_ws_newline (d : nat) (c : ascii) (r : list ascii) :
  json.is_ws c = false ->
  json.skip_ws (json.newline d ++ c :: r) = c :: r.
Proof.
  intros H. unfold json.newline. cbn [app json.skip_ws].
  change (json.is_ws json.lf) with true. cbv iota.
  apply skip_ws_indent. exact H.
Qed.

Lemma delimited_stops (rest : list ascii) : delimited rest -> stops rest.
Proof.
  destruct rest as [|c rest]; [trivial|].
  intros [-> | ->]; repeat split; reflexivity.
Qed.

Lemma reads_mono (w w' dp d : nat) (v : json.Value) :
  reads w dp d v -> (w <= w')%nat -> reads w' dp d v.
Proof.
  intros [H1 H2] Hw. split; [exact H1|].
  intros fuel rest Hf Hr. apply H2; [lia|exact Hr].
Qed.

Lemma Itoa_head (z : Z) :
  exists c l, json.Itoa z = c :: l /\
              (c = "-"%char \/ strconv.is_digit c = true).
Proof.
  unfold json.Itoa. cbv zeta.
  destruct (digits_of_abs z) as (Ha & _ & d & ds' & Hd & Hr & _).
  cbv zeta in Hd. rewrite Hd.
  destruct (z <? 0).
  - eexists _, _. split; [reflexivity|]. left. reflexivity.
  - eexists _, _. split; [reflexivity|]. right.
    apply digit_is_digit. exact Hr.
Qed.

Lemma reads_int (dp d : nat) (z : Z) : reads 1 dp d (json.int_value z).
Proof.
  unfold reads, json.int_value. cbn [json.render]. unfold json.chars.
  rewrite list_ascii_of_string_of_list_ascii.
  destruct (Itoa_head z) as (c & l & Hcl & Hc).
  assert (Hfacts : json.is_ws c = false /\ Ascii.eqb c "{" = false /\
                   Ascii.eqb c "[" = false /\ Ascii.eqb c json.dq = false /\
                   Ascii.eqb c "t" = false /\ Ascii.eqb c "f" = false /\
                   Ascii.eqb c "n" = false).
  { destruct Hc as [-> | Hc]; [repeat split; reflexivity|].
    destruct (is_digit_cases c Hc) as (k & Hk & ->).
    destruct (digit_cases _ Hk) as [->|[->|[->|[->|[->|[->|[->|[->|[->| ->]]]]]]]]];
      repeat split; reflexivity. }
  destruct Hfacts as (H0 & H1 & H2 & H3 & H4 & H5 & H6).
  split.
  - exists c, l. split; [exact Hcl|exact H0].
  - intros fuel rest Hf Hr. destruct fuel as [|fuel]; [lia|].
    pose proof (number_Itoa z rest (delimited_stops _ Hr)) as Hn.
    rewrite Hcl in Hn |- *. cbn [app] in Hn |- *. cbn [json.value].
    rewrite H1, H2, H3, H4, H5, H6, Hn. reflexivity.
Qed.

Lemma reads_string (dp d : nat) (s : string) :
  utf8.ValidString s = true -> reads 1 dp d (json.Str s).
Proof.
  intros Hv. unfold reads. cbn [json.render]. split.
  - unfold json.appendString. eexists _, _. split; reflexivity.
  - intros fuel rest Hf Hr. destruct fuel as [|fuel]; [lia|].
    destruct (string_body_appendString s rest Hv) as (body & -> & Hb).
    cbn [app json.value].
    change (Ascii.eqb json.dq "{") with false.
    change (Ascii.eqb json.dq "[") with false.
    change (Ascii.eqb json.dq json.dq) with true. cbv iota.
    rewrite Hb. reflexivity.
Qed.

Lemma more_members_delimited (d : nat) ms (c : ascii) rest :
  delimited (more_members d ms ++ json.newline d ++ c :: rest).
Proof.
  destruct ms as [|m ms]; cbn; auto.
Qed.

Lemma more_elements_delimited (d : nat) es (c : ascii) rest :
  delimited (more_elements d es ++ json.newline d ++ c :: rest).
Proof.
  destruct es as [|e es]; cbn; auto.
Qed.

Lemma members_step (fuel dp d : nat) (k : string) (v : json.Value)
    (rest : list ascii) (acc : list (string * json.Value)) :
  utf8.ValidString k = true ->
  (exists c l, json.render (S d) v = c :: l /\ json.is_ws c = false) ->
  json.value fuel dp (json.render (S d) v ++ rest) = Some (v, rest) ->
  json.members (S fuel) dp (member_text d (k, v) ++ rest) acc
  = match json.skip_ws rest with
    | c3 :: r4 =>
        if Ascii.eqb c3 "," then
          json.members fuel dp (json.skip_ws r4) (acc ++ [(k, v)])
        else if Ascii.eqb c3 "}"
        then Some (json.Object (acc ++ [(k, v)]), r4)
        else None
    | [] => None
    end.
Proof.
  intros Hk (c & l & Hcl & Hc) Hv.
  unfold member_text. cbn [fst snd]. rewrite <- !app_assoc.
  destruct (string_body_appendString k
              (json.chars ": " ++ json.render (S d) v ++ rest) Hk)
    as (body & -> & Hb).
  cbn [app json.members].
  change (Ascii.eqb json.dq json.dq) with true. cbv iota.
  rewrite Hb.
  change (json.chars ": ") with [":"%char; " "%char].
  cbn [app json.skip_ws].
  change (json.is_ws ":") with false. cbv iota.
  change (Ascii.eqb ":" ":") with true. cbv iota.
  change (json.is_ws " ") with true. cbv iota.
  rewrite Hcl in Hv |- *. cbn [app json.skip_ws] in Hv |- *.
  rewrite Hc. change (json.is_ws " ") with true. cbv iota. rewrite Hv. reflexivity.
Qed.

Lemma elements_step (fuel dp d : nat) (v : json.Value)
    (rest : list ascii) (acc : list json.Value) :
  json.value fuel dp (json.render (S d) v ++ rest) = Some (v, rest) ->
  json.elements (S fuel) dp (json.render (S d) v ++ rest) acc
  = match json.skip_ws rest with
    | c :: r1 =>
        if Ascii.eqb c "," then
          json.elements fuel dp (json.skip_ws r1) (acc ++ [v])
        else if Ascii.eqb c "]" then Some (json.Array (acc ++ [v]), r1)
        else None
    | [] => None
    end.
Proof.
  intros Hv. cbn [json.elements]. rewrite Hv. reflexivity.
Qed.

Lemma appendString_head (k : string) :
  exists body, json.appendString k = json.dq :: body.
Proof. unfold json.appendString. eexists. reflexivity. Qed.

Lemma members_render (w dp d : nat) (ms : list (string * json.Value)) :
  forall m acc fuel rest,
    Forall (member_reads w dp d) (m :: ms) ->
    (w + length (m :: ms) <= fuel)%nat ->
    json.members fuel dp
      (member_text d m ++ more_members d ms
       ++ json.newline d ++ "}"%char :: rest) acc
    = Some (json.Object (acc ++ m :: ms), rest).
Proof.
  induction ms as [|m2 ms IH]; intros [k v] acc fuel rest Hall Hfuel;
    (destruct fuel as [|fuel]; [cbn [length] in Hfuel; lia|]);
    inversion Hall as [|? ? [Hk [Hhead Hv]] Hrest]; subst;
    cbn [fst snd] in *.
  - rewrite members_step; try assumption.
    + cbn [more_members flat_map app].
      rewrite skip_ws_newline by reflexivity. reflexivity.
    + apply Hv; [cbn [length] in Hfuel; lia|].
      apply more_members_delimited.
  - rewrite members_step; try assumption.
    + cbn [more_members flat_map app json.skip_ws]. rewrite <- !app_assoc.
      change (json.is_ws ",") with false. cbv iota.
      change (Ascii.eqb "," ",") with true. cbv iota.
      destruct (appendString_head (fst m2)) as (body & Hbody).
      pose proof (IH m2 (acc ++ [(k, v)])%list fuel rest Hrest) as IH'.
      unfold member_text in IH'. rewrite <- !app_assoc in IH'.
      fold (more_members d ms).
      rewrite Hbody in IH' |- *. cbn [app] in IH' |- *.
      rewrite skip_ws_newline by reflexivity.
      rewrite IH' by (cbn [length] in Hfuel |- *; lia).
      reflexivity.
    + apply Hv; [cbn [length] in Hfuel; lia|].
      apply more_members_delimited.
Qed.

Lemma elements_render (w dp d : nat) (es : list json.Value) :
  forall e acc fuel rest,
    Forall (reads w dp (S d)) (e :: es) ->
    (w + length (e :: es) <= fuel)%nat ->
    json.elements fuel dp
      (json.render (S d) e ++ more_elements d es
       ++ json.newline d ++ "]"%char :: rest) acc
    = Some (json.Array (acc ++ e :: es), rest).
Proof.
  induction es as [|e2 es IH]; intros e acc fuel rest Hall Hfuel;
    (destruct fuel as [|fuel]; [cbn [length] in Hfuel; lia|]);
    inversion Hall as [|? ? [Hhead Hv] Hrest]; subst.
  - rewrite elements_step.
    + cbn [more_elements flat_map app].
      rewrite skip_ws_newline by reflexivity. reflexivity.
    + apply Hv; [cbn [length] in Hfuel; lia|].
      apply more_elements_delimited.
  - rewrite elements_step.
    + cbn [more_elements flat_map app json.skip_ws]. rewrite <- !app_assoc.
      change (json.is_ws ",") with false. cbv iota.
      change (Ascii.eqb "," ",") with true. cbv iota.
      fold (more_elements d es).
      pose proof (IH e2 (acc ++ [e])%list fuel rest Hrest) as IH'.
      inversion Hrest as [|? ? [(c & l & Hcl & Hc) _] _]; subst.
      rewrite Hcl in IH' |- *. cbn [app] in IH' |- *.
      rewrite skip_ws_newline by exact Hc.
      rewrite IH' by (cbn [length] in Hfuel |- *; lia).
      rewrite <- app_assoc. reflexivity.
    + apply Hv; [cbn [length] in Hfuel; lia|].
      apply more_elements_delimited.
Qed.

End Syntax.

(** *** Objects and arrays *)

Section Trees.

Ltac flatten := repeat (first [rewrite <- app_assoc | progress (cbn [app])]).

Lemma reads_object (w dp d : nat) (m : string * json.Value)
    (ms : list (string * json.Value)) :
  (dp < json.maxNestingDepth)%nat ->
  Forall (member_reads w (S dp) d) (m :: ms) ->
  reads (S (w + length (m :: ms))) dp d (json.Object (m :: ms)).
Proof.
  intros Hdp Hall. split.
  - cbn [json.render]. eexists _, _. split; reflexivity.
  - intros fuel rest Hf Hr. destruct fuel as [|fuel]; [lia|].
    pose proof (members_render w (S dp) d ms m [] fuel rest Hall
                  ltac:(lia)) as Hm.
    unfold member_text, more_members in Hm.
    destruct (appendString_head (fst m)) as (body & Hbody).
    cbn [json.render app]. rewrite <- ?app_assoc in Hm |- *.
    rewrite Hbody in Hm |- *. cbn [app json.value] in Hm |- *.
    change (Ascii.eqb "{" "{") with true. cbv iota.
    destruct (Nat.leb_spec json.maxNestingDepth dp) as [Hle|_]; [lia|].
    flatten. rewrite skip_ws_newline by reflexivity.
    change (Ascii.eqb json.dq "}") with false. cbv iota.
    flatten. exact Hm.
Qed.

Lemma reads_array (w dp d : nat) (e : json.Value) (es : list json.Value) :
  (dp < json.maxNestingDepth)%nat ->
  Forall (reads w (S dp) (S d)) (e :: es) ->
  reads (S (w + length (e :: es))) dp d (json.Array (e :: es)).
Proof.
  intros Hdp Hall. split.
  - cbn [json.render]. eexists _, _. split; reflexivity.
  - intros fuel rest Hf Hr. destruct fuel as [|fuel]; [lia|].
    pose proof (elements_render w (S dp) d es e [] fuel rest Hall
                  ltac:(lia)) as Hm.
    unfold more_elements in Hm.
    inversion Hall as [|? ? [(c & l & Hcl & Hc) _] _]; subst.
    cbn [json.render app]. rewrite <- ?app_assoc in Hm |- *.
    rewrite Hcl in Hm |- *. cbn [app json.value] in Hm |- *.
    change (Ascii.eqb "[" "{") with false. cbv iota.
    change (Ascii.eqb "[" "[") with true. cbv iota.
    destruct (Nat.leb_spec json.maxNestingDepth dp) as [Hle|_]; [lia|].
    flatten. rewrite skip_ws_newline by exact Hc.
    replace (Ascii.eqb c "]") with false.
    + flatten. exact Hm.
    + symmetry. apply Ascii.eqb_neq. intros ->.
      pose proof (Hv := proj2 (Forall_inv Hall)).
      specialize (Hv (S (w + length (e :: es))) [] ltac:(lia) I).
      rewrite Hcl in Hv. destruct w; cbn in Hv; discriminate.
Qed.

Lemma reads_empty_array (dp d : nat) :
  (dp < json.maxNestingDepth)%nat -> reads 1 dp d (json.Array []).
Proof.
  intros Hdp. split.
  - cbn [json.render]. eexists _, _. split; reflexivity.
  - intros fuel rest Hf Hr. destruct fuel as [|fuel]; [lia|].
    cbn [json.render]. change (json.chars "[]") with ["["%char; "]"%char].
    cbn [app json.value].
    change (Ascii.eqb "[" "{") with false. cbv iota.
    change (Ascii.eqb "[" "[") with true. cbv iota.
    destruct (Nat.leb_spec json.maxNestingDepth dp) as [Hle|_]; [lia|].
    reflexivity.
Qed.

Lemma nesting_allowed (dp : nat) :
  (dp <= 2)%nat -> (dp < json.maxNestingDepth)%nat.
Proof.
  assert (H : (3 <=? json.maxNestingDepth)%nat = true)
    by (vm_compute; reflexivity).
  apply Nat.leb_le in H. lia.
Qed.

Lemma member_int (w dp d : nat) (k : string) (z : Z) :
  utf8.ValidString k = true -> (1 <= w)%nat ->
  member_reads w dp d (k, json.int_value z).
Proof.
  intros Hk Hw. split; [exact Hk|].
  apply (reads_mono 1); [apply reads_int|exact Hw].
Qed.

Lemma reads_sprite (dp d : nat) (s : metadata.SpriteInfo) :
  (dp <= 2)%nat -> utf8.ValidString (metadata.Name s) = true ->
  reads 8 dp d (json.sprite_value s).
Proof.
  intros Hdp Hn. unfold json.sprite_value.
  apply (reads_object 1 dp d); [apply nesting_allowed; lia|].
  repeat (apply List.Forall_cons); try (apply List.Forall_nil);
    try (apply member_int; [reflexivity|lia]).
  split; [reflexivity|]. cbn [snd]. apply reads_string. exact Hn.
Qed.

Lemma reads_sprites (ss : list metadata.SpriteInfo) :
  Forall sprite_ok ss ->
  reads (9 + length ss) 1 1 (json.Array (map json.sprite_value ss)).
Proof.
  intros Hall. destruct ss as [|s ss].
  - apply (reads_mono 1); [|cbn; lia].
    apply reads_empty_array. apply nesting_allowed. lia.
  - cbn [map].
    apply (reads_mono (S (8 + length (json.sprite_value s
                                        :: map json.sprite_value ss)))).
    + apply reads_array; [apply nesting_allowed; lia|].
      change (json.sprite_value s :: map json.sprite_value ss)
        with (map json.sprite_value (s :: ss)).
      apply Forall_map. eapply Forall_impl; [exact Hall|].
      intros x Hx. apply reads_sprite; [lia|apply Hx].
    + cbn [length]. rewrite length_map. lia.
Qed.

Lemma reads_metadata (m : metadata.SpritesheetMetadata) :
  metadata_ok m ->
  reads (18 + length (metadata.Sprites m)) 0 0 (json.metadata_value m).
Proof.
  intros (_ & _ & _ & _ & _ & _ & _ & Hs). unfold json.metadata_value.
  apply (reads_mono (S (9 + length (metadata.Sprites m) + 8)));
    [|lia].
  apply (reads_object (9 + length (metadata.Sprites m)) 0 0);
    [apply nesting_allowed; lia|].
  repeat (apply List.Forall_cons); try (apply List.Forall_nil);
    try (apply member_int; [reflexivity|lia]).
  split; [reflexivity|]. cbn [snd]. apply reads_sprites. exact Hs.
Qed.

End Trees.

(** *** The round trip *)

Section RoundTrip.

Lemma more_elements_length (d : nat) (es : list json.Value) :
  (length es <= length (more_elements d es))%nat.
Proof.
  induction es as [|e es IH]; [cbn; lia|].
  cbn [more_elements flat_map length app]. fold (more_elements d es).
  rewrite length_app. lia.
Qed.

Lemma render_array_length (d : nat) (es : list json.Value) :
  (length es <= length (json.render d (json.Array es)))%nat.
Proof.
  destruct es as [|e es]; [cbn; lia|].
  cbn [json.render length]. fold (more_elements d es).
  rewrite !length_app. pose proof (more_elements_length d es). lia.
Qed.

Lemma render_metadata_length (m : metadata.SpritesheetMetadata) :
  (18 + length (metadata.Sprites m)
   <= length (json.render 0 (json.metadata_value m)))%nat.
Proof.
  pose proof (render_array_length 1
                (map json.sprite_value (metadata.Sprites m))) as H.
  rewrite length_map in H.
  unfold json.metadata_value.
  set (a := json.Array _) in *.
  cbn [json.render flat_map fst snd].
  change (json.chars ": ") with [":"%char; " "%char].
  repeat (rewrite length_app || cbn [length app]). lia.
Qed.

Lemma parse_MarshalIndent (m : metadata.SpritesheetMetadata) :
  metadata_ok m ->
  json.parse (json.MarshalIndent m) = Some (json.metadata_value m).
Proof.
  intros Hok. unfold json.parse, json.MarshalIndent, json.chars.
  rewrite list_ascii_of_string_of_list_ascii.
  destruct (reads_metadata m Hok) as [(c & l & Hcl & Hc) Hv].
  assert (Hs : json.skip_ws (json.render 0 (json.metadata_value m))
               = json.render 0 (json.metadata_value m)).
  { rewrite Hcl. cbn [json.skip_ws]. rewrite Hc. reflexivity. }
  rewrite Hs.
  pose proof (render_metadata_length m) as Hlen.
  specialize (Hv (S (2 * length (json.render 0 (json.metadata_value m))))
                [] ltac:(lia) I).
  rewrite app_nil_r in Hv. rewrite Hv. reflexivity.
Qed.

Lemma decode_int_value (z cur : Z) :
  fits z -> json.decode_int (json.int_value z) cur = Some z.
Proof. intros H. cbn [json.decode_int json.int_value]. apply Atoi_Itoa, H. Qed.

Ltac decide_selects :=
  repeat match goal with
    | |- context [json.selects ?a ?b] =>
        let v := eval vm_compute in (json.selects a b) in
        change (json.selects a b) with v
    end; cbv iota.

Ltac set_field H :=
  decide_selects; rewrite (decode_int_value _ _ H); reflexivity.

Lemma decode_sprite_value (s cur : metadata.SpriteInfo) :
  sprite_ok s -> json.decode_sprite (json.sprite_value s) cur = Some s.
Proof.
  intros (_ & Hx & Hy & Hw & Hh & Hi). destruct s as [name x y w h i].
  cbn [metadata.X metadata.Y metadata.Width metadata.Height metadata.Index]
    in *.
  unfold json.sprite_value, json.decode_sprite.
  cbn [fold_left fst snd metadata.Name metadata.X metadata.Y metadata.Width
       metadata.Height metadata.Index].
  assert (E1 : json.set_sprite_field "name" (json.Str name) cur
               = Some {| metadata.Name := name; metadata.X := metadata.X cur;
                         metadata.Y := metadata.Y cur;
                         metadata.Width := metadata.Width cur;
                         metadata.Height := metadata.Height cur;
                         metadata.Index := metadata.Index cur |}).
  { unfold json.set_sprite_field. decide_selects. reflexivity. }
  cbn [mbind option_bind]. rewrite E1. cbn [mbind option_bind].
  set (s1 := {| metadata.Name := name |}).
  assert (E2 : json.set_sprite_field "x" (json.int_value x) s1
               = Some {| metadata.Name := name; metadata.X := x;
                         metadata.Y := metadata.Y cur;
                         metadata.Width := metadata.Width cur;
                         metadata.Height := metadata.Height cur;
                         metadata.Index := metadata.Index cur |}).
  { unfold json.set_sprite_field. set_field Hx. }
  rewrite E2. cbn [mbind option_bind]. clear E2 s1 E1.
  set (s2 := {| metadata.Name := name |}).
  assert (E3 : json.set_sprite_field "y" (json.int_value y) s2
               = Some {| metadata.Name := name; metadata.X := x;
                         metadata.Y := y;
                         metadata.Width := metadata.Width cur;
                         metadata.Height := metadata.Height cur;
                         metadata.Index := metadata.Index cur |}).
  { unfold json.set_sprite_field. set_field Hy. }
  rewrite E3. cbn [mbind option_bind]. clear E3 s2.
  set (s3 := {| metadata.Name := name |}).
  assert (E4 : json.set_sprite_field "width" (json.int_value w) s3
               = Some {| metadata.Name := name; metadata.X := x;
                         metadata.Y := y; metadata.Width := w;
                         metadata.Height := metadata.Height cur;
                         metadata.Index := metadata.Index cur |}).
  { unfold json.set_sprite_field. set_field Hw. }
  rewrite E4. cbn [mbind option_bind]. clear E4 s3.
  set (s4 := {| metadata.Name := name |}).
  assert (E5 : json.set_sprite_field "height" (json.int_value h) s4
               = Some {| metadata.Name := name; metadata.X := x;
                         metadata.Y := y; metadata.Width := w;
                         metadata.Height := h;
                         metadata.Index := metadata.Index cur |}).
  { unfold json.set_sprite_field. set_field Hh. }
  rewrite E5. cbn [mbind option_bind]. clear E5 s4.
  set (s5 := {| metadata.Name := name |}).
  unfold json.set_sprite_field. set_field Hi.
Qed.

Lemma decode_elements_sprites (ss old : list metadata.SpriteInfo) :
  Forall sprite_ok ss ->
  json.decode_elements (map json.sprite_value ss) old = Some ss.
Proof.
  intros Hall. revert old.
  induction Hall as [|s ss Hs _ IH]; intros old; [reflexivity|].
  cbn [map json.decode_elements].
  rewrite (decode_sprite_value s _ Hs). cbn [mbind option_bind].
  rewrite IH. reflexivity.
Qed.

Lemma decode_metadata_value (m : metadata.SpritesheetMetadata) :
  metadata_ok m ->
  json.decode_metadata (json.metadata_value m) json.zero_metadata = Some m.
Proof.
  intros (H1 & H2 & H3 & H4 & H5 & H6 & H7 & Hs).
  destruct m as [w h tw th c r p ss].
  cbn [metadata.SheetWidth metadata.SheetHeight metadata.TileWidth
       metadata.TileHeight metadata.Cols metadata.Rows metadata.Padding
       metadata.Sprites] in *.
  unfold json.metadata_value, json.decode_metadata, json.zero_metadata.
  cbn [fold_left fst snd metadata.SheetWidth metadata.SheetHeight
       metadata.TileWidth metadata.TileHeight metadata.Cols metadata.Rows
       metadata.Padding metadata.Sprites].
  cbn [mbind option_bind].
  unfold json.set_metadata_field at 8. decide_selects.
  rewrite (decode_int_value _ _ H1).
  cbn [mbind option_bind metadata.SheetWidth metadata.SheetHeight
       metadata.TileWidth metadata.TileHeight metadata.Cols metadata.Rows
       metadata.Padding metadata.Sprites].
  unfold json.set_metadata_field at 7. decide_selects.
  rewrite (decode_int_value _ _ H2).
  cbn [mbind option_bind metadata.SheetWidth metadata.SheetHeight
       metadata.TileWidth metadata.TileHeight metadata.Cols metadata.Rows
       metadata.Padding metadata.Sprites].
  unfold json.set_metadata_field at 6. decide_selects.
  rewrite (decode_int_value _ _ H3).
  cbn [mbind option_bind metadata.SheetWidth metadata.SheetHeight
       metadata.TileWidth metadata.TileHeight metadata.Cols metadata.Rows
       metadata.Padding metadata.Sprites].
  unfold json.set_metadata_field at 5. decide_selects.
  rewrite (decode_int_value _ _ H4).
  cbn [mbind option_bind metadata.SheetWidth metadata.SheetHeight
       metadata.TileWidth metadata.TileHeight metadata.Cols metadata.Rows
       metadata.Padding metadata.Sprites].
  unfold json.set_metadata_field at 4. decide_selects.
  rewrite (decode_int_value _ _ H5).
  cbn [mbind option_bind metadata.SheetWidth metadata.SheetHeight
       metadata.TileWidth metadata.TileHeight metadata.Cols metadata.Rows
       metadata.Padding metadata.Sprites].
  unfold json.set_metadata_field at 3. decide_selects.
  rewrite (decode_int_value _ _ H6).
  cbn [mbind option_bind metadata.SheetWidth metadata.SheetHeight
       metadata.TileWidth metadata.TileHeight metadata.Cols metadata.Rows
       metadata.Padding metadata.Sprites].
  unfold json.set_metadata_field at 2. decide_selects.
  rewrite (decode_int_value _ _ H7).
  cbn [mbind option_bind metadata.SheetWidth metadata.SheetHeight
       metadata.TileWidth metadata.TileHeight metadata.Cols metadata.Rows
       metadata.Padding metadata.Sprites].
  unfold json.set_metadata_field. decide_selects.
  cbn [json.decode_sprites].
  rewrite (decode_elements_sprites ss _ Hs). reflexivity.
Qed.

Lemma Unmarshal_MarshalIndent (m : metadata.SpritesheetMetadata) :
  metadata_ok m -> json.Unmarshal (json.MarshalIndent m) = Ok m.
Proof.
  intros Hok. unfold json.Unmarshal.
  rewrite (parse_MarshalIndent m Hok), (decode_metadata_value m Hok).
  reflexivity.
Qed.

End RoundTrip.

(** *** Export and load *)

Section ExportLoad.

Lemma Export_writes (d : exporter.Disk) (m : metadata.SpritesheetMetadata)
    (path : string) :
  exporter.MkdirAllDir d path = None -> exporter.unwritable d path = None ->
  exporter.Export d m path
  = ({| exporter.files := <[path := json.MarshalIndent m]> (exporter.files d);
        exporter.MkdirAllDir := exporter.MkdirAllDir d;
        exporter.unwritable := exporter.unwritable d |}, None).
Proof.
  intros Hdir Hfile. unfold exporter.Export, exporter.WriteFile.
  rewrite Hdir, Hfile. reflexivity.
Qed.

Lemma LoadMetadata_written (d : exporter.Disk) (path data : string) :
  exporter.files d !! path = Some data ->
  exporter.LoadMetadata d path
  = match json.Unmarshal data with
    | Err err => Err (Wrapf "failed to unmarshal metadata: " err)
    | Panic msg => Panic msg
    | Ok meta => Ok meta
    end.
Proof.
  intros H. unfold exporter.LoadMetadata, exporter.ReadFile. rewrite H.
  reflexivity.
Qed.

End ExportLoad.

(** C8, as stated, does not hold: a sprite named by bytes that are not
    UTF-8 (here [a] followed by the byte 255) is exported without an error,
    and what is loaded back is a different sheet, whose sprite is named by
    [a] followed by the encoding of U+FFFD. *)
Lemma Export_replaces_invalid_bytes :
  exists d',
    exporter.Export empty_disk (sheet_named latin1_name) "sheet.json"
      = (d', None) /\
    exporter.LoadMetadata d' "sheet.json" = Ok (sheet_named replaced_name) /\
    sheet_named replaced_name <> sheet_named latin1_name /\
    json.Unmarshal (json.MarshalIndent (sheet_named latin1_name))
      = Ok (sheet_named replaced_name).
Proof.
  eexists. split; [apply Export_writes; reflexivity|].
  assert (E : json.Unmarshal (json.MarshalIndent (sheet_named latin1_name))
              = Ok (sheet_named replaced_name))
    by (vm_compute; reflexivity).
  split; [|split; [|exact E]].
  - rewrite (LoadMetadata_written _ _ (json.MarshalIndent
                                         (sheet_named latin1_name))).
    + rewrite E. reflexivity.
    + cbn [exporter.files]. apply lookup_insert_eq.
  - intros H. vm_compute in H. discriminate H.
Qed.

(** C8, amended. For every metadata value whose fields are [int]s and
    whose sprite names are well-formed UTF-8, [Unmarshal] of the text that
    [MarshalIndent] writes is that value: the same canvas, tile, grid and
    padding fields and the same sprites in the same order.  So [Export] to
    a path that can be written, followed by [LoadMetadata] of that path,
    returns the value that was exported. *)
Theorem Export_LoadMetadata_round_trip (m : metadata.SpritesheetMetadata)
    (d : exporter.Disk) (path : string) :
  metadata_ok m ->
  exporter.MkdirAllDir d path = None -> exporter.unwritable d path = None ->
  json.Unmarshal (json.MarshalIndent m) = Ok m /\
  exists d',
    exporter.Export d m path = (d', None) /\
    exporter.LoadMetadata d' path = Ok m.
Proof.
  intros Hok Hdir Hfile.
  pose proof (Unmarshal_MarshalIndent m Hok) as E.
  split; [exact E|].
  eexists. split; [apply Export_writes; assumption|].
  rewrite (LoadMetadata_written _ _ (json.MarshalIndent m)).
  - rewrite E. reflexivity.
  - cbn [exporter.files]. apply lookup_insert_eq.
Qed.

Lemma Export_LoadMetadata_round_trip_witness :
  json.Unmarshal (json.MarshalIndent sample_metadata) = Ok sample_metadata /\
  exists d',
    exporter.Export empty_disk sample_metadata "out/sheet.json" = (d', None) /\
    exporter.LoadMetadata d' "out/sheet.json" = Ok sample_metadata.
Proof.
  apply (Export_LoadMetadata_round_trip sample_metadata empty_disk
           "out/sheet.json").
  - unfold metadata_ok, sprite_ok, fits, int_min, int_max, sample_metadata.
    cbn [metadata.SheetWidth metadata.SheetHeight metadata.TileWidth
         metadata.TileHeight metadata.Cols metadata.Rows metadata.Padding
         metadata.Sprites].
    repeat (split; [lia|]).
    repeat (apply List.Forall_cons);
      [ split; [vm_compute; reflexivity|simpl; lia]
      | split; [vm_compute; reflexivity|simpl; lia]
      | apply List.Forall_nil ].
  - reflexivity.
  - reflexivity.
Defined.

(** ** Beyond the specification *)

(** ** The registry: registering, creating, listing *)

Section RegistryOps.

Variable r : svg.ConverterRegistry.
Variable opts : svg.ConversionOptions.

Lemma ListAvailable_filter_from (order : list string) :
  forall acc,
    fold_left
      (fun available converterType =>
         match svg.converters r !! converterType with
         | Some factory =>
             match svg.IsAvailable (factory opts) with
             | None => (available ++ [converterType])%list
             | Some _ => available
             end
         | None => available
         end)
      order acc
    = (acc ++ List.filter (fun id => succeeded (svg.Create r id opts)) order)%list.
Proof.
  induction order as [|id order IH]; intros acc; cbn [fold_left List.filter].
  - rewrite app_nil_r. reflexivity.
  - rewrite IH. unfold svg.Create at 2.
    destruct (svg.converters r !! id) as [f|]; cbn [succeeded].
    + destruct (svg.IsAvailable (f opts)); cbn [succeeded].
      * reflexivity.
      * rewrite <- app_assoc. reflexivity.
    + reflexivity.
Qed.

End RegistryOps.

(** X1. Registering a factory under an identifier makes [Create] for
    that identifier use it, whatever was registered there before: the
    converter it builds is returned when it is available, and the
    unavailable error with its reason otherwise.  [Create] for every other
    identifier is as it was before. *)
Theorem Register_then_Create (r : svg.ConverterRegistry) (id : string)
    (f : svg.Factory) (opts : svg.ConversionOptions) :
  svg.Create (svg.Register r id f) id opts
    = match svg.IsAvailable (f opts) with
      | Some err => Err (ConverterUnavailableError id (Error err))
      | None => Ok (f opts)
      end /\
  (forall id', id' <> id ->
     svg.Create (svg.Register r id f) id' opts = svg.Create r id' opts /\
     svg.GetConverterInfo (svg.Register r id f) id' opts
       = svg.GetConverterInfo r id' opts).
Proof.
  split.
  - unfold svg.Create, svg.Register. cbn [svg.converters].
    rewrite lookup_insert_eq. reflexivity.
  - intros id' Hne. unfold svg.Create, svg.GetConverterInfo, svg.Register.
    cbn [svg.converters]. rewrite lookup_insert_ne by congruence.
    split; reflexivity.
Qed.

Lemma Register_then_Create_witness :
  svg.Create (svg.Register sample_registry "rsvg" always_available)
    "oksvg" sample_options
  = svg.Create sample_registry "oksvg" sample_options.
Proof.
  apply (proj2 (Register_then_Create sample_registry "rsvg" always_available
                  sample_options) "oksvg").
  discriminate.
Defined.

(** X2. [GetConverterInfo] fails exactly when [Create] fails with the
    not-found error, and with that error.  For a registered identifier it
    always returns the description of the converter, and its [Available]
    flag is true exactly when [Create] returns that converter and false
    exactly when [Create] fails with the unavailable error. *)
Theorem GetConverterInfo_agrees_with_Create (r : svg.ConverterRegistry)
    (id : string) (opts : svg.ConversionOptions) :
  match svg.GetConverterInfo r id opts with
  | Err e =>
      e = ConverterNotFoundError id /\ svg.Create r id opts = Err e /\
      svg.converters r !! id = None
  | Ok info =>
      svg.Type_ info = id /\
      exists f,
        svg.converters r !! id = Some f /\
        svg.InfoName info = svg.Name (f opts) /\
        svg.InfoDescription info = svg.Description (f opts) /\
        match svg.Available info with
        | true => svg.Create r id opts = Ok (f opts)
        | false =>
            exists err,
              svg.IsAvailable (f opts) = Some err /\
              svg.Create r id opts
                = Err (ConverterUnavailableError id (Error err))
        end
  | Panic _ => False
  end.
Proof.
  unfold svg.GetConverterInfo, svg.Create.
  destruct (svg.converters r !! id) as [f|] eqn:E.
  - cbn [svg.Type_ svg.InfoName svg.InfoDescription svg.Available].
    split; [reflexivity|]. exists f. repeat split.
    destruct (svg.IsAvailable (f opts)) as [err|]; [|reflexivity].
    exists err. split; reflexivity.
  - repeat split.
Qed.

(** X3. [ListAvailable] returns, in the order in which the map is
    visited, exactly the visited identifiers for which [Create] succeeds.
    As the loop visits every registered identifier once, an identifier is
    listed if and only if [Create] returns a converter for it, and none is
    listed twice. *)
Theorem ListAvailable_lists_what_Create_returns (r : svg.ConverterRegistry)
    (order : list string) (opts : svg.ConversionOptions) :
  NoDup order ->
  (forall id, In id order <-> is_Some (svg.converters r !! id)) ->
  backends.ListAvailable r order opts
    = List.filter (fun id => succeeded (svg.Create r id opts)) order /\
  NoDup (backends.ListAvailable r order opts) /\
  forall id,
    In id (backends.ListAvailable r order opts)
    <-> exists c, svg.Create r id opts = Ok c.
Proof.
  intros Hnd Hall.
  assert (E : backends.ListAvailable r order opts
              = List.filter (fun id => succeeded (svg.Create r id opts)) order).
  { unfold backends.ListAvailable. rewrite ListAvailable_filter_from.
    reflexivity. }
  split; [exact E|]. rewrite E. split.
  - apply NoDup_ListNoDup, List.NoDup_filter, NoDup_ListNoDup. exact Hnd.
  - intros id. rewrite List.filter_In. split.
    + intros [_ H]. destruct (svg.Create r id opts) as [c| |]; try discriminate.
      exists c. reflexivity.
    + intros [c Hc]. split; [|rewrite Hc; reflexivity].
      apply Hall. unfold svg.Create in Hc.
      destruct (svg.converters r !! id); [eauto|discriminate].
Qed.

Lemma ListAvailable_lists_what_Create_returns_witness :
  backends.ListAvailable sample_registry ["rsvg"; "oksvg"] sample_options
  = ["oksvg"].
Proof.
  refine (eq_trans
            (proj1 (ListAvailable_lists_what_Create_returns sample_registry
                      ["rsvg"; "oksvg"] sample_options _ _)) _).
  - apply NoDup_cons. split; [|apply NoDup_singleton].
    intros H. apply list_elem_of_In in H. destruct H as [H | []].
    discriminate.
  - intros id. unfold sample_registry, svg.Register. cbn [svg.converters].
    rewrite !lookup_insert_is_Some, lookup_empty. cbn [In].
    split.
    + intros [<- | [<- | []]].
      * left. reflexivity.
      * right. split; [discriminate|]. left. reflexivity.
    + intros [<- | [_ [<- | [_ H]]]].
      * left. reflexivity.
      * right. left. reflexivity.
      * destruct H as [x Hx]. discriminate.
  - vm_compute. reflexivity.
Defined.


(** ** The configuration: defaults, validation, the backend it selects *)

Section Configuration.

Variable c : config.Config.

(** What [Validate] has checked when it returns no error. *)
Lemma Validate_None :
  Config.Validate c = None ->
  config.Input c <> "" /\ config.Output c <> "" /\
  0 <= config.Width c /\ 0 <= config.Height c /\
  0 <= config.TileWidth c /\ 0 <= config.TileHeight c /\
  0 <= config.Cols c /\ 0 <= config.Rows c /\
  (config.Cols c = 0 \/ config.Rows c = 0) /\
  0 <= config.Padding c /\
  (config.Sort c = "" \/ config.Sort c = "name" \/ config.Sort c = "ctime"
   \/ config.Sort c = "manual") /\
  (config.Converter c = "" \/ config.Converter c = "oksvg"
   \/ config.Converter c = "rod" \/ config.Converter c = "rsvg").
Proof.
  unfold Config.Validate.
  destruct (String.eqb_spec (config.Input c) ""); [discriminate|].
  destruct (String.eqb_spec (config.Output c) ""); [discriminate|].
  destruct (negb _ && _); [discriminate|].
  destruct (f64.ltb _ _); [discriminate|].
  destruct (Z.ltb_spec (config.Width c) 0); [discriminate|].
  destruct (Z.ltb_spec (config.Height c) 0); [discriminate|]. cbn [orb].
  destruct (Z.ltb_spec (config.TileWidth c) 0); [discriminate|].
  destruct (Z.ltb_spec (config.TileHeight c) 0); [discriminate|]. cbn [orb].
  destruct (Z.ltb_spec (config.Cols c) 0); [discriminate|].
  destruct (Z.ltb_spec (config.Rows c) 0); [discriminate|]. cbn [orb].
  destruct ((0 <? config.Cols c) && (0 <? config.Rows c)) eqn:Eboth;
    [discriminate|].
  destruct (Z.ltb_spec (config.Padding c) 0); [discriminate|].
  destruct (negb (config.Sort c =? "")%string && _) eqn:Es; [discriminate|].
  destruct (negb (config.Converter c =? "")%string && _) eqn:Ec;
    [discriminate|].
  intros _.
  assert (Hgrid : config.Cols c = 0 \/ config.Rows c = 0).
  { destruct (Z.ltb_spec 0 (config.Cols c));
      destruct (Z.ltb_spec 0 (config.Rows c)); cbn in Eboth;
      try discriminate; lia. }
  assert (Hsort : config.Sort c = "" \/ config.Sort c = "name"
                  \/ config.Sort c = "ctime" \/ config.Sort c = "manual").
  { revert Es.
    unfold Config.SortByName, Config.SortByCTime, Config.SortManual.
    destruct (String.eqb_spec (config.Sort c) ""); [tauto|].
    destruct (String.eqb_spec (config.Sort c) "name"); [tauto|].
    destruct (String.eqb_spec (config.Sort c) "ctime"); [tauto|].
    destruct (String.eqb_spec (config.Sort c) "manual"); [tauto|].
    discriminate. }
  assert (Hconv : config.Converter c = "" \/ config.Converter c = "oksvg"
                  \/ config.Converter c = "rod"
                  \/ config.Converter c = "rsvg").
  { revert Ec.
    unfold Config.ConverterOkSVG, Config.ConverterRod, Config.ConverterRSVG.
    destruct (String.eqb_spec (config.Converter c) ""); [tauto|].
    destruct (String.eqb_spec (config.Converter c) "oksvg"); [tauto|].
    destruct (String.eqb_spec (config.Converter c) "rod"); [tauto|].
    destruct (String.eqb_spec (config.Converter c) "rsvg"); [tauto|].
    discriminate. }
  repeat split; try assumption; lia.
Qed.

End Configuration.

(** X4. [SetDefaults] is idempotent: applying it to a configuration that
    already has its defaults changes nothing. *)
Theorem SetDefaults_idempotent (c : config.Config) :
  Config.SetDefaults (Config.SetDefaults c) = Config.SetDefaults c.
Proof.
  unfold Config.SetDefaults.
  cbn [config.Input config.Output config.Scale config.Width config.Height
       config.TileWidth config.TileHeight config.Cols config.Rows
       config.Padding config.Sort config.Meta config.Trim config.Force
       config.Verbose config.Converter].
  f_equal.
  - destruct (f64.eqb (config.Scale c) f64.zero && (config.Width c =? 0)
              && (config.Height c =? 0)) eqn:E.
    + apply andb_prop in E as [E E3]. apply andb_prop in E as [E1 E2].
      rewrite E2, E3. reflexivity.
    + rewrite E. reflexivity.
  - destruct (Z.eqb_spec (config.TileWidth c) 0) as [E|E]; [reflexivity|].
    destruct (Z.eqb_spec (config.TileWidth c) 0); [contradiction|reflexivity].
  - destruct (Z.eqb_spec (config.TileHeight c) 0) as [E|E]; [reflexivity|].
    destruct (Z.eqb_spec (config.TileHeight c) 0); [contradiction|reflexivity].
  - destruct ((config.Cols c =? 0) && (config.Rows c =? 0)) eqn:E.
    + reflexivity.
    + rewrite E. reflexivity.
  - unfold Config.SortByName.
    destruct (String.eqb_spec (config.Sort c) "") as [E|E]; [reflexivity|].
    destruct (String.eqb_spec (config.Sort c) ""); [contradiction|reflexivity].
  - unfold Config.ConverterOkSVG.
    destruct (String.eqb_spec (config.Converter c) "") as [E|E];
      [reflexivity|].
    destruct (String.eqb_spec (config.Converter c) "");
      [contradiction|reflexivity].
Qed.

(** X5. A configuration that passes [Validate] after [SetDefaults] (the
    order of the command) is always in spritesheet mode: both tile
    dimensions are positive, exactly one of the column and row counts is
    positive and the other is zero, and the padding is not negative. *)
Theorem defaults_then_Validate_is_spritesheet_mode (c : config.Config) :
  let d := Config.SetDefaults c in
  Config.Validate d = None ->
  Config.IsSpritesheetMode d = true /\
  0 < config.TileWidth d /\ 0 < config.TileHeight d /\
  ((0 < config.Cols d /\ config.Rows d = 0) \/
   (config.Cols d = 0 /\ 0 < config.Rows d)) /\
  0 <= config.Padding d.
Proof.
  intros d H.
  destruct (Validate_None d H)
    as (_ & _ & _ & _ & Htw & Hth & Hc & Hr & Hcr & Hp & _).
  assert (Htw' : config.TileWidth d <> 0).
  { subst d. unfold Config.SetDefaults. cbn [config.TileWidth].
    destruct (Z.eqb_spec (config.TileWidth c) 0); lia. }
  assert (Hth' : config.TileHeight d <> 0).
  { subst d. unfold Config.SetDefaults. cbn [config.TileHeight].
    destruct (Z.eqb_spec (config.TileHeight c) 0); lia. }
  assert (Hcr' : config.Cols d <> 0 \/ config.Rows d <> 0).
  { subst d. unfold Config.SetDefaults. cbn [config.Cols config.Rows].
    destruct (Z.eqb_spec (config.Cols c) 0);
      destruct (Z.eqb_spec (config.Rows c) 0); cbn [andb]; lia. }
  assert (Hgrid : (0 < config.Cols d /\ config.Rows d = 0) \/
                  (config.Cols d = 0 /\ 0 < config.Rows d)) by lia.
  split; [|repeat split; try lia; exact Hgrid].
  unfold Config.IsSpritesheetMode.
  destruct (Z.ltb_spec 0 (config.TileWidth d)); [|lia].
  destruct (Z.ltb_spec 0 (config.TileHeight d)); [|lia].
  destruct (Z.ltb_spec 0 (config.Cols d));
    destruct (Z.ltb_spec 0 (config.Rows d)); cbn; try reflexivity; lia.
Qed.

Lemma defaults_then_Validate_is_spritesheet_mode_witness :
  Config.IsSpritesheetMode (Config.SetDefaults sample_config) = true.
Proof.
  apply (defaults_then_Validate_is_spritesheet_mode sample_config).
  vm_compute. reflexivity.
Defined.

Section Backends.

Variable ConverterInkscape : string.
Variable host : backends.Host.

Lemma builtin_registered (id : string) :
  id = "oksvg" \/ id = "rod" \/ id = "rsvg" ->
  is_Some (svg.converters
             (backends.NewConverterRegistry ConverterInkscape host) !! id).
Proof.
  intros H. unfold backends.NewConverterRegistry, svg.Register.
  cbn [svg.converters].
  unfold Config.ConverterOkSVG, Config.ConverterRod, Config.ConverterRSVG.
  rewrite !lookup_insert_is_Some.
  destruct (String.eqb_spec ConverterInkscape id) as [E|E]; [left; exact E|].
  right. split; [exact E|].
  destruct H as [-> | [-> | ->]].
  - right. split; [discriminate|]. right. split; [discriminate|].
    left. reflexivity.
  - right. split; [discriminate|]. left. reflexivity.
  - left. reflexivity.
Qed.

End Backends.

(** X6. Whatever the host provides, the default backend can be created:
    for a configuration that names no converter, [NewConverter] after
    [SetDefaults] returns the converter whose backend is OkSVG (the
    registry's fourth identifier being another one than oksvg). *)
Theorem NewConverter_default_backend (ConverterInkscape : string)
    (host : backends.Host) (cfg : config.Config) :
  ConverterInkscape <> "oksvg" ->
  config.Converter cfg = "" ->
  exists conv,
    backends.NewConverter ConverterInkscape host (Config.SetDefaults cfg)
      = Ok conv /\
    svg.Name (backends.backend conv) = "OkSVG" /\
    svg.IsAvailable (backends.backend conv) = None /\
    backends.config_ conv = Config.SetDefaults cfg.
Proof.
  intros Hink Hc. unfold backends.NewConverter.
  assert (E : config.Converter (Config.SetDefaults cfg) = "oksvg").
  { unfold Config.SetDefaults. cbn [config.Converter]. rewrite Hc.
    reflexivity. }
  rewrite E. unfold svg.Create, backends.NewConverterRegistry, svg.Register.
  cbn [svg.converters].
  unfold Config.ConverterOkSVG, Config.ConverterRod, Config.ConverterRSVG.
  rewrite lookup_insert_ne by exact Hink.
  rewrite lookup_insert_ne by discriminate.
  rewrite lookup_insert_ne by discriminate.
  rewrite lookup_insert_eq.
  cbn [backends.NewOkSVGConverter svg.IsAvailable].
  eexists. split; [reflexivity|]. repeat split.
Qed.

Lemma NewConverter_default_backend_witness :
  exists conv,
    backends.NewConverter "inkscape" bare_host (Config.SetDefaults bare_config)
      = Ok conv /\
    svg.Name (backends.backend conv) = "OkSVG" /\
    svg.IsAvailable (backends.backend conv) = None /\
    backends.config_ conv = Config.SetDefaults bare_config.
Proof.
  apply (NewConverter_default_backend "inkscape" bare_host bare_config).
  - discriminate.
  - reflexivity.
Defined.

(** X7. A configuration that passes [Validate] after [SetDefaults] names
    a registered backend: [NewConverter] returns a converter whose
    availability check passed, or fails with the unavailable error for the
    named backend and the reason its check gave, and never with the
    not-found error. *)
Theorem validated_converter_is_found (ConverterInkscape : string)
    (host : backends.Host) (cfg : config.Config) :
  let d := Config.SetDefaults cfg in
  Config.Validate d = None ->
  (exists conv,
     backends.NewConverter ConverterInkscape host d = Ok conv /\
     svg.IsAvailable (backends.backend conv) = None) \/
  (exists reason,
     backends.NewConverter ConverterInkscape host d
       = Err (Wrapf ("failed to create " ++ config.Converter d
                     ++ " converter: ")
                (ConverterUnavailableError (config.Converter d) reason))).
Proof.
  intros d H.
  destruct (Validate_None d H)
    as (_ & _ & _ & _ & _ & _ & _ & _ & _ & _ & _ & Hconv).
  assert (Hne : config.Converter d <> "").
  { subst d. unfold Config.SetDefaults. cbn [config.Converter].
    destruct (String.eqb_spec (config.Converter cfg) ""); [discriminate|].
    assumption. }
  assert (Hreg : config.Converter d = "oksvg" \/ config.Converter d = "rod"
                 \/ config.Converter d = "rsvg") by tauto.
  destruct (builtin_registered ConverterInkscape host _ Hreg) as [f Hf].
  unfold backends.NewConverter, svg.Create. rewrite Hf.
  destruct (svg.IsAvailable (f (svg.NewConversionOptions d))) as [err|] eqn:Ea.
  - right. exists (Error err). reflexivity.
  - left. eexists. split; [reflexivity|exact Ea].
Qed.

Lemma validated_converter_is_found_witness :
  let d := Config.SetDefaults bare_config in
  (exists conv,
     backends.NewConverter "inkscape" bare_host d = Ok conv /\
     svg.IsAvailable (backends.backend conv) = None) \/
  (exists reason,
     backends.NewConverter "inkscape" bare_host d
       = Err (Wrapf ("failed to create " ++ config.Converter d
                     ++ " converter: ")
                (ConverterUnavailableError (config.Converter d) reason))).
Proof.
  apply (validated_converter_is_found "inkscape" bare_host bare_config).
  vm_compute. reflexivity.
Defined.


(** ** The metadata: validation and lookup *)

Section Metadata.

Variable meta : metadata.SpritesheetMetadata.

Ltac rejected :=
  split; [discriminate|];
  let H := fresh "H" in
  intros H; inversion H as [|? ? Hs _]; subst;
  unfold sprite_valid in Hs; lia.

Lemma validate_sprites_None (sprites : list metadata.SpriteInfo) :
  forall i,
    Exporter.validate_sprites meta i sprites = None
    <-> Forall (sprite_valid meta) sprites.
Proof.
  induction sprites as [|s rest IH]; intros i; cbn [Exporter.validate_sprites].
  - split; [constructor|reflexivity].
  - unfold sprite_valid at 1.
    destruct (String.eqb_spec (metadata.Name s) "") as [En|En].
    { split; [discriminate|]. intros Hall.
      inversion Hall as [|? ? Hs _]; subst.
      destruct Hs as [Hs _]. contradiction. }
    destruct (Z.ltb_spec (metadata.X s) 0);
      [rejected|].
    destruct (Z.ltb_spec (metadata.Y s) 0);
      [rejected|].
    cbn [orb].
    destruct (Z.leb_spec (metadata.Width s) 0);
      [rejected|].
    destruct (Z.leb_spec (metadata.Height s) 0);
      [rejected|].
    cbn [orb].
    destruct (Z.ltb_spec (metadata.SheetWidth meta)
                (iadd (metadata.X s) (metadata.Width s)));
      [rejected|].
    destruct (Z.ltb_spec (metadata.SheetHeight meta)
                (iadd (metadata.Y s) (metadata.Height s)));
      [rejected|].
    cbn [orb]. rewrite IH. split.
    + intros Hall. constructor; [|exact Hall]. unfold sprite_valid.
      repeat split; assumption || lia.
    + intros Hall. inversion Hall; assumption.
Qed.

Lemma ValidateMetadata_None :
  Exporter.ValidateMetadata meta = None <-> metadata_valid meta.
Proof.
  unfold Exporter.ValidateMetadata, metadata_valid.
  destruct (Z.leb_spec (metadata.SheetWidth meta) 0);
    [split; [discriminate|lia]|].
  destruct (Z.leb_spec (metadata.SheetHeight meta) 0);
    [split; [discriminate|lia]|]. cbn [orb].
  destruct (Z.leb_spec (metadata.TileWidth meta) 0);
    [split; [discriminate|lia]|].
  destruct (Z.leb_spec (metadata.TileHeight meta) 0);
    [split; [discriminate|lia]|]. cbn [orb].
  destruct (Z.leb_spec (metadata.Cols meta) 0);
    [split; [discriminate|lia]|].
  destruct (Z.leb_spec (metadata.Rows meta) 0);
    [split; [discriminate|lia]|]. cbn [orb].
  destruct (metadata.Sprites meta) as [|s rest] eqn:Es.
  - cbn. split; [discriminate|]. intros Hv. exfalso.
    destruct Hv as (_ & _ & _ & _ & _ & _ & Hv & _). apply Hv. reflexivity.
  - cbn [length Nat.eqb]. rewrite validate_sprites_None.
    split; [intros Hv; repeat split; try assumption; discriminate|].
    intros Hv. apply Hv.
Qed.

Lemma find_sprite_spec (name : string) (sprites : list metadata.SpriteInfo) :
  match Exporter.find_sprite sprites name with
  | Some s =>
      exists k : nat,
        sprites !! k = Some s /\ metadata.Name s = name /\
        forall (j : nat) t, (j < k)%nat -> sprites !! j = Some t ->
                            metadata.Name t <> name
  | None => Forall (fun t => metadata.Name t <> name) sprites
  end.
Proof.
  induction sprites as [|s rest IH]; cbn [Exporter.find_sprite].
  - constructor.
  - destruct (String.eqb_spec (metadata.Name s) name) as [E|E].
    + exists 0%nat. split; [reflexivity|]. split; [exact E|].
      intros j t Hj. lia.
    + destruct (Exporter.find_sprite rest name) as [s'|].
      * destruct IH as (k & Hk & Hn & Hfirst). exists (S k).
        split; [exact Hk|]. split; [exact Hn|].
        intros [|j] t Hj Ht.
        -- cbn in Ht. inversion Ht; subst. exact E.
        -- apply (Hfirst j t); [lia|exact Ht].
      * constructor; assumption.
Qed.

End Metadata.

Section Generated.

Variable g : spritesheet.Generator.
Variable layout : spritesheet.Layout.

Lemma createSpritesheet_metadata_of (tiles : list spritesheet.ImageInfo) :
  0 < spritesheet.Cols layout ->
  Z.of_nat (length tiles) <= int_max + 1 ->
  allocatable (spritesheet.LayoutWidth layout)
              (spritesheet.LayoutHeight layout) ->
  exists sheet,
    spritesheet.createSpritesheet g tiles layout
    = Ok (sheet, metadata_of layout tiles).
Proof.
  intros Hc Hn Ha. unfold spritesheet.createSpritesheet.
  rewrite (NewRGBA_allocatable _ _ Ha). cbn [mbind result_bind].
  rewrite (place_spec g layout tiles Hc) by lia.
  eexists. reflexivity.
Qed.

Lemma find_sprite_numbered (tiles : list spritesheet.ImageInfo) :
  NoDup (map spritesheet.Filename tiles) ->
  forall i (k : nat) tile,
    tiles !! k = Some tile ->
    Exporter.find_sprite (grid.numbered (grid.sprite_at layout) i tiles)
      (spritesheet.Filename tile)
    = Some (grid.sprite_at layout (i + Z.of_nat k) tile).
Proof.
  induction tiles as [|t ts IH]; intros Hnd i k tile Hk; [discriminate|].
  cbn [map] in Hnd. apply NoDup_cons in Hnd as [Hnotin Hnd].
  cbn [grid.numbered Exporter.find_sprite grid.sprite_at metadata.Name].
  destruct k as [|k].
  - cbn in Hk. inversion Hk; subst. rewrite String.eqb_refl.
    replace (i + Z.of_nat 0) with i by lia. reflexivity.
  - cbn in Hk.
    destruct (String.eqb_spec (spritesheet.Filename t)
                (spritesheet.Filename tile)) as [E|E].
    + exfalso. apply Hnotin. rewrite E.
      apply list_elem_of_In, in_map, list_elem_of_In.
      eapply list_elem_of_lookup_2. exact Hk.
    + rewrite (IH Hnd (i + 1) k tile Hk).
      replace (i + 1 + Z.of_nat k) with (i + Z.of_nat (S k)) by lia.
      reflexivity.
Qed.

End Generated.

(** X8. [ValidateMetadata] returns no error exactly for the metadata
    whose sheet, tile and grid dimensions are positive, that has at least
    one sprite, and whose sprites all have a non-empty name, a position
    that is not negative, positive dimensions, and [x + width] and
    [y + height] (sums of Go [int]s) within the sheet.  Where those sums do
    not overflow, every sprite of accepted metadata lies inside the
    sheet. *)
Theorem ValidateMetadata_accepts_exactly (meta : metadata.SpritesheetMetadata) :
  (Exporter.ValidateMetadata meta = None <-> metadata_valid meta) /\
  (Exporter.ValidateMetadata meta = None ->
   Forall (fun s =>
             fits (metadata.X s + metadata.Width s) ->
             fits (metadata.Y s + metadata.Height s) ->
             0 <= metadata.X s /\ 0 <= metadata.Y s /\
             metadata.X s + metadata.Width s <= metadata.SheetWidth meta /\
             metadata.Y s + metadata.Height s <= metadata.SheetHeight meta)
          (metadata.Sprites meta)).
Proof.
  split; [apply ValidateMetadata_None|].
  intros H. apply ValidateMetadata_None in H.
  destruct H as (_ & _ & _ & _ & _ & _ & _ & Hall).
  eapply Forall_impl; [exact Hall|].
  intros s (_ & Hx & Hy & _ & _ & Hw & Hh) Fx Fy.
  unfold iadd in Hw, Hh. rewrite wrap_fits in Hw, Hh by assumption.
  repeat split; assumption.
Qed.

Lemma ValidateMetadata_accepts_exactly_witness :
  Forall (fun s =>
            fits (metadata.X s + metadata.Width s) ->
            fits (metadata.Y s + metadata.Height s) ->
            0 <= metadata.X s /\ 0 <= metadata.Y s /\
            metadata.X s + metadata.Width s
              <= metadata.SheetWidth one_sprite_sheet /\
            metadata.Y s + metadata.Height s
              <= metadata.SheetHeight one_sprite_sheet)
         (metadata.Sprites one_sprite_sheet).
Proof.
  apply (proj2 (ValidateMetadata_accepts_exactly one_sprite_sheet)).
  vm_compute. reflexivity.
Defined.

Lemma numbered_sprites_valid (l : spritesheet.Layout)
    (meta : metadata.SpritesheetMetadata) (rows N : Z)
    (tiles : list spritesheet.ImageInfo) :
  1 <= spritesheet.Cols l -> 1 <= rows -> N <= spritesheet.Cols l * rows ->
  0 < spritesheet.TileWidth l -> 0 < spritesheet.TileHeight l ->
  0 <= spritesheet.Padding l ->
  metadata.SheetWidth meta
    = spritesheet.Cols l * spritesheet.TileWidth l
      + (spritesheet.Cols l - 1) * spritesheet.Padding l ->
  metadata.SheetHeight meta
    = rows * spritesheet.TileHeight l + (rows - 1) * spritesheet.Padding l ->
  metadata.SheetWidth meta <= int_max ->
  metadata.SheetHeight meta <= int_max ->
  forall lo,
    0 <= lo -> lo + Z.of_nat (length tiles) <= N ->
    Forall (fun t => spritesheet.Filename t <> "") tiles ->
    Forall (sprite_valid meta) (grid.numbered (grid.sprite_at l) lo tiles).
Proof.
  intros C1 R1 Hroom Htw Hth Hpad Ew Eh Fw Fh.
  induction tiles as [|t ts IH]; intros lo Hlo Hhi Hnm;
    cbn [grid.numbered]; constructor.
  - inversion Hnm as [|? ? Ht _]; subst. cbn [length] in Hhi.
    unfold sprite_valid, grid.sprite_at, grid.origin_x, grid.origin_y.
    cbn [metadata.Name metadata.X metadata.Y metadata.Width metadata.Height].
    rewrite Ew, Eh in *.
    pose proof (cell_inside lo N (spritesheet.Cols l) rows
                  (spritesheet.TileWidth l) (spritesheet.TileHeight l)
                  (spritesheet.Padding l) ltac:(lia) Hroom C1 R1
                  ltac:(lia) ltac:(lia) Hpad) as (X0 & X1 & Y0 & Y1).
    unfold iadd. unfold int_max in Fw, Fh.
    repeat rewrite wrap_fits by (unfold fits, int_min, int_max; lia).
    repeat split; try assumption; lia.
  - inversion Hnm; subst. apply IH; try assumption; cbn [length] in Hhi; lia.
Qed.

(** The sheet made for the calculated layout passes [ValidateMetadata]. *)
Lemma calculated_sheet_is_valid (g : spritesheet.Generator)
    (tiles : list spritesheet.ImageInfo) :
  let cfg := spritesheet.config_ g in
  let n := Z.of_nat (length tiles) in
  let l := spritesheet.calculateLayout g n in
  1 <= n < 2 ^ 52 -> config.Cols cfg < 2 ^ 53 -> config.Rows cfg < 2 ^ 53 ->
  0 < config.TileWidth cfg -> 0 < config.TileHeight cfg ->
  0 <= config.Padding cfg ->
  fits (spritesheet.Cols l * config.TileWidth cfg
        + (spritesheet.Cols l - 1) * config.Padding cfg) ->
  fits (spritesheet.Rows l * config.TileHeight cfg
        + (spritesheet.Rows l - 1) * config.Padding cfg) ->
  allocatable (spritesheet.LayoutWidth l) (spritesheet.LayoutHeight l) ->
  Forall (fun t => spritesheet.Filename t <> "") tiles ->
  exists sheet meta,
    spritesheet.createSpritesheet g tiles l = Ok (sheet, meta) /\
    Exporter.ValidateMetadata meta = None.
Proof.
  intros cfg n l Hn Hc Hr Htw Hth Hpad Fw Fh Ha Hnames.
  destruct (calculateLayout_room g n ltac:(lia) Hc Hr) as (C1 & R1 & Hroom).
  destruct (calculateLayout_sides g n) as (Hw & Hh & Etw & Eth & Epad).
  fold cfg l in C1, R1, Hroom, Hw, Hh, Etw, Eth, Epad.
  rewrite wrap_fits in Hw by exact Fw. rewrite wrap_fits in Hh by exact Fh.
  destruct (createSpritesheet_metadata_of g l tiles ltac:(lia)
              ltac:(unfold int_max; fold n; lia) Ha) as (sheet & Hrun).
  exists sheet, (metadata_of l tiles). split; [exact Hrun|].
  apply ValidateMetadata_None. unfold metadata_valid, metadata_of.
  cbn [metadata.SheetWidth metadata.SheetHeight metadata.TileWidth
       metadata.TileHeight metadata.Cols metadata.Rows metadata.Sprites].
  rewrite Hw, Hh, Etw, Eth.
  assert (Hlen : tiles <> []) by (intros ->; cbn in n; lia).
  split; [nia|]. split; [nia|]. split; [lia|]. split; [lia|].
  split; [lia|]. split; [lia|].
  split; [destruct tiles; [contradiction|discriminate]|].
  unfold fits, int_min, int_max in Fw, Fh.
  apply (numbered_sprites_valid l _ (spritesheet.Rows l) n);
    cbn [metadata.SheetWidth metadata.SheetHeight];
    rewrite ?Etw, ?Eth, ?Epad; unfold int_max; try lia; try assumption.
Qed.

(** X9. The metadata that [createSpritesheet] returns for the layout that
    [calculateLayout] computes passes [ValidateMetadata], when the tile
    dimensions are positive, the padding is not negative, the canvas
    dimensions fit an [int] and every tile has a non-empty name. *)
Theorem generated_metadata_is_valid (g : spritesheet.Generator)
    (tiles : list spritesheet.ImageInfo) :
  let cfg := spritesheet.config_ g in
  let n := Z.of_nat (length tiles) in
  let l := spritesheet.calculateLayout g n in
  1 <= n < 2 ^ 52 -> config.Cols cfg < 2 ^ 53 -> config.Rows cfg < 2 ^ 53 ->
  0 < config.TileWidth cfg -> 0 < config.TileHeight cfg ->
  0 <= config.Padding cfg ->
  fits (spritesheet.Cols l * config.TileWidth cfg
        + (spritesheet.Cols l - 1) * config.Padding cfg) ->
  fits (spritesheet.Rows l * config.TileHeight cfg
        + (spritesheet.Rows l - 1) * config.Padding cfg) ->
  allocatable (spritesheet.LayoutWidth l) (spritesheet.LayoutHeight l) ->
  Forall (fun t => spritesheet.Filename t <> "") tiles ->
  exists sheet meta,
    spritesheet.createSpritesheet g tiles l = Ok (sheet, meta) /\
    Exporter.ValidateMetadata meta = None.
Proof.
  intros cfg n l. apply calculated_sheet_is_valid.
Qed.

Lemma generated_metadata_is_valid_witness :
  exists sheet meta,
    spritesheet.createSpritesheet sample_generator
      [tile_named "a" 64 64; tile_named "b" 64 64; tile_named "c" 64 64]
      (spritesheet.calculateLayout sample_generator 3)
      = Ok (sheet, meta) /\
    Exporter.ValidateMetadata meta = None.
Proof.
  refine (generated_metadata_is_valid sample_generator
            [tile_named "a" 64 64; tile_named "b" 64 64;
             tile_named "c" 64 64] _ _ _ _ _ _ _ _ _ _).
  - vm_compute. split; [discriminate|reflexivity].
  - vm_compute. reflexivity.
  - vm_compute. reflexivity.
  - vm_compute. reflexivity.
  - vm_compute. reflexivity.
  - vm_compute. discriminate.
  - vm_compute. split; discriminate.
  - vm_compute. split; discriminate.
  - vm_compute. discriminate.
  - repeat constructor; discriminate.
Defined.

(** X10. [GetSpriteByName] returns the first sprite of the sequence that
    has the name, and fails with the not-found error exactly when no
    sprite has it; a later sprite of the same name is never returned. *)
Theorem GetSpriteByName_first_match (meta : metadata.SpritesheetMetadata)
    (name : string) :
  match Exporter.GetSpriteByName meta name with
  | Ok s =>
      exists k : nat,
        metadata.Sprites meta !! k = Some s /\ metadata.Name s = name /\
        forall (j : nat) t,
          (j < k)%nat -> metadata.Sprites meta !! j = Some t ->
          metadata.Name t <> name
  | Err e =>
      e = Errorf ("sprite not found: " ++ name) /\
      Forall (fun t => metadata.Name t <> name) (metadata.Sprites meta)
  | Panic _ => False
  end.
Proof.
  unfold Exporter.GetSpriteByName.
  pose proof (find_sprite_spec name (metadata.Sprites meta)) as H.
  destruct (Exporter.find_sprite (metadata.Sprites meta) name).
  - exact H.
  - split; [reflexivity|exact H].
Qed.

(** X11. In the metadata that [createSpritesheet] returns, the sprite at
    position [k] is the one of the [k]-th tile and carries the index [k]:
    [GetSpriteByIndex] with that index returns it, and fails with the
    out-of-range error for an index that is negative or not below the
    number of tiles.  When no two tiles have the same name,
    [GetSpriteByName] with a tile's name returns that tile's sprite. *)
Theorem lookups_in_generated_metadata (g : spritesheet.Generator)
    (layout : spritesheet.Layout) (tiles : list spritesheet.ImageInfo) :
  0 < spritesheet.Cols layout ->
  Z.of_nat (length tiles) <= int_max + 1 ->
  allocatable (spritesheet.LayoutWidth layout)
              (spritesheet.LayoutHeight layout) ->
  exists sheet meta,
    spritesheet.createSpritesheet g tiles layout = Ok (sheet, meta) /\
    (forall (k : nat) tile,
       tiles !! k = Some tile ->
       exists s,
         Exporter.GetSpriteByIndex meta (Z.of_nat k) = Ok s /\
         metadata.Index s = Z.of_nat k /\
         metadata.Name s = spritesheet.Filename tile /\
         (NoDup (map spritesheet.Filename tiles) ->
          Exporter.GetSpriteByName meta (spritesheet.Filename tile) = Ok s)) /\
    (forall i,
       i < 0 \/ Z.of_nat (length tiles) <= i ->
       Exporter.GetSpriteByIndex meta i
       = Err (Errorf ("sprite index out of range: " ++ Exporter.d i))).
Proof.
  intros Hc Hn Ha.
  destruct (createSpritesheet_metadata_of g layout tiles Hc Hn Ha)
    as (sheet & Hrun).
  exists sheet, (metadata_of layout tiles). split; [exact Hrun|]. split.
  - intros k tile Hk. exists (grid.sprite_at layout (Z.of_nat k) tile).
    assert (Hlt : (k < length tiles)%nat)
      by (apply lookup_lt_is_Some; eauto).
    split; [|split; [reflexivity|split; [reflexivity|]]].
    + unfold Exporter.GetSpriteByIndex, metadata_of.
      cbn [metadata.Sprites]. rewrite numbered_length.
      destruct (Z.ltb_spec (Z.of_nat k) 0); [lia|].
      destruct (Z.leb_spec (Z.of_nat (length tiles)) (Z.of_nat k)); [lia|].
      cbn [orb]. rewrite Nat2Z.id.
      rewrite (numbered_lookup _ tiles 0 k tile Hk). reflexivity.
    + intros Hnd. unfold Exporter.GetSpriteByName, metadata_of.
      cbn [metadata.Sprites].
      rewrite (find_sprite_numbered layout tiles Hnd 0 k tile Hk).
      reflexivity.
  - intros i Hi. unfold Exporter.GetSpriteByIndex, metadata_of.
    cbn [metadata.Sprites]. rewrite numbered_length.
    destruct (Z.ltb_spec i 0); [reflexivity|].
    destruct (Z.leb_spec (Z.of_nat (length tiles)) i); [reflexivity|]. lia.
Qed.

Lemma lookups_in_generated_metadata_witness :
  exists sheet meta,
    spritesheet.createSpritesheet sample_generator
      [tile_named "a" 64 64; tile_named "b" 64 64] sample_layout
      = Ok (sheet, meta) /\
    (forall (k : nat) tile,
       [tile_named "a" 64 64; tile_named "b" 64 64] !! k = Some tile ->
       exists s,
         Exporter.GetSpriteByIndex meta (Z.of_nat k) = Ok s /\
         metadata.Index s = Z.of_nat k /\
         metadata.Name s = spritesheet.Filename tile /\
         (NoDup (map spritesheet.Filename
                   [tile_named "a" 64 64; tile_named "b" 64 64]) ->
          Exporter.GetSpriteByName meta (spritesheet.Filename tile) = Ok s)) /\
    (forall i,
       i < 0 \/ Z.of_nat (length [tile_named "a" 64 64; tile_named "b" 64 64])
                <= i ->
       Exporter.GetSpriteByIndex meta i
       = Err (Errorf ("sprite index out of range: " ++ Exporter.d i))).
Proof.
  apply (lookups_in_generated_metadata sample_generator sample_layout
           [tile_named "a" 64 64; tile_named "b" 64 64]).
  - reflexivity.
  - vm_compute. discriminate.
  - vm_compute. discriminate.
Defined.


(** ** The generator, end to end *)

Section Generate.

Variable fs : spritesheet.FS.
Variable g : spritesheet.Generator.

Lemma loadImages_names (mappings : list utils.FileMapping) :
  forall tiles,
    spritesheet.loadImages fs g mappings = Ok tiles ->
    map spritesheet.Filename tiles
    = map (fun m => spritesheet.originalName (utils.OriginalPath m)) mappings.
Proof.
  induction mappings as [|m ms IH]; intros tiles H; cbn in H.
  - inversion H. reflexivity.
  - destruct (spritesheet.loadImage fs (utils.PNGPath m)) as [img| |];
      try discriminate.
    destruct (spritesheet.processImage g img) as [p| |]; try discriminate.
    cbn in H.
    destruct (spritesheet.loadImages fs g ms) as [rest| |]; try discriminate.
    cbn in H. inversion H; subst. cbn [map spritesheet.Filename].
    f_equal. apply IH. reflexivity.
Qed.

(** The first mapping that cannot be decoded ends the loading. *)
Lemma loadImages_first_failure (loaded : list utils.FileMapping) :
  forall (bad : utils.FileMapping) (rest : list utils.FileMapping) err,
    Forall (fun m => exists img out,
              spritesheet.DecodePNG fs (utils.PNGPath m) = Ok img /\
              spritesheet.processImage g img = Ok out) loaded ->
    spritesheet.DecodePNG fs (utils.PNGPath bad) = Err err ->
    spritesheet.loadImages fs g (loaded ++ bad :: rest)
    = Err (Wrapf ("failed to load " ++ utils.PNGPath bad ++ ": ") err).
Proof.
  induction loaded as [|m ms IH]; intros bad rest err Hall Hbad.
  - cbn. unfold spritesheet.loadImage. rewrite Hbad. reflexivity.
  - inversion Hall as [|? ? (img & out & Hd & Hp) Hrest]; subst.
    cbn [app spritesheet.loadImages]. unfold spritesheet.loadImage.
    rewrite Hd, Hp. cbn [mbind result_bind].
    rewrite (IH bad rest err Hrest Hbad). reflexivity.
Qed.

End Generate.

Lemma lookup_map_eq {A B C} (f : A -> C) (h : B -> C) :
  forall (l : list A) (l' : list B),
    map f l = map h l' ->
    forall (k : nat) b, l' !! k = Some b ->
                        exists a, l !! k = Some a /\ f a = h b.
Proof.
  induction l as [|a l IH]; intros [|b' l'] E k b Hk; try discriminate.
  cbn [map] in E. inversion E as [[E1 E2]].
  destruct k as [|k]; cbn in Hk |- *.
  - inversion Hk; subst. exists a. split; [reflexivity|exact E1].
  - apply (IH l' E2 k b Hk).
Qed.

(** X12. When every file of a non-empty list decodes to a well-formed
    image, the tile and the canvas can be allocated and the sheet can be
    saved, [Generate] returns the metadata of a sheet with the layout's
    canvas and grid, with one sprite per file in the order of the list:
    the sprite at position [k] is named after the [k]-th original file
    (its base name without the extension), has index [k], the row-major
    origin of cell [k] and the configured tile size. *)
Theorem Generate_one_sprite_per_file (fs : spritesheet.FS)
    (g : spritesheet.Generator) (mappings : list utils.FileMapping)
    (outputPath : string) :
  let cfg := spritesheet.config_ g in
  let n := Z.of_nat (length mappings) in
  let l := spritesheet.calculateLayout g n in
  1 <= n < 2 ^ 52 -> config.Cols cfg < 2 ^ 53 -> config.Rows cfg < 2 ^ 53 ->
  allocatable (config.TileWidth cfg) (config.TileHeight cfg) ->
  Forall (fun m => exists img,
            spritesheet.DecodePNG fs (utils.PNGPath m) = Ok img /\
            image_ok img) mappings ->
  allocatable (spritesheet.LayoutWidth l) (spritesheet.LayoutHeight l) ->
  spritesheet.MkdirAllDir fs outputPath = None ->
  spritesheet.Create fs outputPath = None ->
  (forall sheet, spritesheet.EncodePNG fs outputPath sheet = None) ->
  exists meta,
    spritesheet.Generate fs g mappings outputPath = Ok meta /\
    metadata.SheetWidth meta = spritesheet.LayoutWidth l /\
    metadata.SheetHeight meta = spritesheet.LayoutHeight l /\
    metadata.Cols meta = spritesheet.Cols l /\
    metadata.Rows meta = spritesheet.Rows l /\
    length (metadata.Sprites meta) = length mappings /\
    forall (k : nat) m,
      mappings !! k = Some m ->
      exists s,
        metadata.Sprites meta !! k = Some s /\
        metadata.Name s = spritesheet.originalName (utils.OriginalPath m) /\
        metadata.Index s = Z.of_nat k /\
        metadata.X s = grid.origin_x l (Z.of_nat k) /\
        metadata.Y s = grid.origin_y l (Z.of_nat k) /\
        metadata.Width s = config.TileWidth cfg /\
        metadata.Height s = config.TileHeight cfg.
Proof.
  intros cfg n l Hn Hc Hr Hat Hdec Hal Hmk Hcr Henc.
  destruct (loadImages_total g fs mappings Hat Hdec) as (tiles & Hload).
  pose proof (loadImages_names fs g mappings tiles Hload) as Hnames.
  assert (Hlen : length tiles = length mappings).
  { apply (f_equal (@length string)) in Hnames.
    rewrite !length_map in Hnames. exact Hnames. }
  destruct (calculateLayout_room g n ltac:(lia) Hc Hr) as (C1 & _ & _).
  destruct (calculateLayout_sides g n) as (_ & _ & Etw & Eth & _).
  fold l in C1, Etw, Eth.
  destruct (createSpritesheet_metadata_of g l tiles ltac:(lia)
              ltac:(rewrite Hlen; fold n; unfold int_max; lia) Hal)
    as (sheet & Hrun).
  exists (metadata_of l tiles). split.
  - unfold spritesheet.Generate.
    destruct (Z.eqb_spec (Z.of_nat (length mappings)) 0) as [E0|_];
      [subst n; lia|].
    rewrite Hload, Hlen. fold n l. rewrite Hrun.
    unfold spritesheet.saveSpritesheet. rewrite Hmk, Hcr, Henc. reflexivity.
  - unfold metadata_of.
    cbn [metadata.SheetWidth metadata.SheetHeight metadata.Cols
         metadata.Rows metadata.Sprites].
    repeat (split; [reflexivity|]).
    rewrite numbered_length. split; [exact Hlen|].
    intros k m Hk.
    destruct (lookup_map_eq _ _ tiles mappings Hnames k m Hk)
      as (tile & Ht & Hname).
    exists (grid.sprite_at l (Z.of_nat k) tile). split.
    + rewrite (numbered_lookup _ tiles 0 k tile Ht). reflexivity.
    + unfold grid.sprite_at.
      cbn [metadata.Name metadata.Index metadata.X metadata.Y
           metadata.Width metadata.Height].
      rewrite Hname, Etw, Eth. repeat split.
Qed.

Lemma Generate_one_sprite_per_file_witness :
  exists meta,
    spritesheet.Generate blank_files sample_generator
      [png_file "b.png"; png_file "a.png"; png_file "c.png"] "out.png"
    = Ok meta /\
    map metadata.Name (metadata.Sprites meta) = ["b"; "a"; "c"].
Proof.
  destruct (Generate_one_sprite_per_file blank_files sample_generator
              [png_file "b.png"; png_file "a.png"; png_file "c.png"]
              "out.png")
    as (meta & Hrun & _ & _ & _ & _ & Hlen & Hs).
  - cbn. lia.
  - cbn. lia.
  - cbn. lia.
  - vm_compute. discriminate.
  - repeat apply List.Forall_cons; [| | |apply List.Forall_nil];
      (exists (blank 64 64); split; [reflexivity|];
       unfold image_ok, fits, int_min, int_max; cbn; lia).
  - vm_compute. discriminate.
  - reflexivity.
  - reflexivity.
  - reflexivity.
  - exists meta. split; [exact Hrun|].
    destruct (Hs 0%nat _ eq_refl) as (s0 & E0 & N0 & _).
    destruct (Hs 1%nat _ eq_refl) as (s1 & E1 & N1 & _).
    destruct (Hs 2%nat _ eq_refl) as (s2 & E2 & N2 & _).
    clear Hrun Hs.
    destruct (metadata.Sprites meta) as [|t0 [|t1 [|t2 [|t3 ts]]]];
      try discriminate Hlen.
    cbn in E0, E1, E2. inversion E0; inversion E1; inversion E2; subst.
    cbn [map]. rewrite N0, N1, N2. reflexivity.
Defined.

(** X13. [Generate] on an empty list fails with its own error, whatever
    the files are.  When some file cannot be decoded, and the files before
    it could be loaded, [Generate] fails with the error of that first file,
    wrapped with its path; the files after it play no part. *)
Theorem Generate_fails_at_first_bad_file (fs : spritesheet.FS)
    (g : spritesheet.Generator) (outputPath : string) :
  spritesheet.Generate fs g [] outputPath
    = Err (Errorf "no PNG files provided") /\
  (forall loaded bad rest err,
     Forall (fun m => exists img out,
               spritesheet.DecodePNG fs (utils.PNGPath m) = Ok img /\
               spritesheet.processImage g img = Ok out) loaded ->
     spritesheet.DecodePNG fs (utils.PNGPath bad) = Err err ->
     spritesheet.Generate fs g (loaded ++ bad :: rest) outputPath
     = Err (Wrapf "failed to load images: "
              (Wrapf ("failed to load " ++ utils.PNGPath bad ++ ": ") err))).
Proof.
  split; [reflexivity|].
  intros loaded bad rest err Hall Hbad. unfold spritesheet.Generate.
  destruct (Z.eqb_spec (Z.of_nat (length (loaded ++ bad :: rest))) 0) as [E|_].
  - rewrite length_app in E. cbn [length] in E. lia.
  - rewrite (loadImages_first_failure fs g loaded bad rest err Hall Hbad).
    reflexivity.
Qed.

Lemma Generate_fails_at_first_bad_file_witness :
  spritesheet.Generate missing_b sample_generator
    [png_file "a.png"; png_file "b.png"; png_file "c.png"] "out.png"
  = Err (Wrapf "failed to load images: "
           (Wrapf "failed to load b.png: "
              (Errorf "open b.png: no such file or directory"))).
Proof.
  apply (proj2 (Generate_fails_at_first_bad_file missing_b sample_generator
                  "out.png")
           [png_file "a.png"] (png_file "b.png") [png_file "c.png"]).
  - apply List.Forall_cons; [|apply List.Forall_nil].
    exists (blank 64 64), (blank 64 64). split; reflexivity.
  - reflexivity.
Defined.


(** ** Names of sprites *)

Section Names.

Lemma str_app (a b : list ascii) :
  filepath.str (a ++ b) = (filepath.str a ++ filepath.str b)%string.
Proof.
  unfold filepath.str. induction a as [|c a IH]; [reflexivity|].
  cbn [app string_of_list_ascii]. rewrite IH. reflexivity.
Qed.

Lemma str_length (a : list ascii) :
  String.length (filepath.str a) = length a.
Proof.
  unfold filepath.str. induction a as [|c a IH]; [reflexivity|].
  cbn. rewrite IH. reflexivity.
Qed.

Lemma substring_prefix (a b : string) :
  String.substring 0 (String.length a) (a ++ b) = a.
Proof.
  induction a as [|c a IH].
  - change (("" ++ b)%string) with b. destruct b; reflexivity.
  - change ((String c a ++ b)%string) with (String c (a ++ b)%string).
    cbn [String.length String.substring]. f_equal. exact IH.
Qed.

Lemma append_empty (s : string) : (s ++ "")%string = s.
Proof.
  induction s as [|c s IH]; [reflexivity|].
  change ((String c s ++ "")%string) with (String c (s ++ "")%string).
  rewrite IH. reflexivity.
Qed.

(** The extension is the end of the path, from the last dot of its last
    element on. *)
Lemma ext_rev_suffix (l : list ascii) :
  forall acc,
    filepath.ext_rev l acc = [] \/
    exists l1 l2,
      l = (l1 ++ filepath.dot :: l2)%list /\
      filepath.ext_rev l acc = (filepath.dot :: rev l1 ++ acc)%list.
Proof.
  induction l as [|c l IH]; intros acc; cbn [filepath.ext_rev].
  - left. reflexivity.
  - destruct (Ascii.eqb_spec c filepath.slash); [left; reflexivity|].
    destruct (Ascii.eqb_spec c filepath.dot) as [->|Hd].
    + right. exists [], l. split; reflexivity.
    + destruct (IH (c :: acc)) as [E|(l1 & l2 & E1 & E2)]; [left; exact E|].
      right. exists (c :: l1), l2. split; [rewrite E1; reflexivity|].
      rewrite E2. cbn [rev]. rewrite <- app_assoc. reflexivity.
Qed.

Lemma Ext_suffix (s : string) :
  exists stem, s = (stem ++ filepath.Ext s)%string.
Proof.
  unfold filepath.Ext.
  destruct (ext_rev_suffix (rev (filepath.chars s)) [])
    as [E|(l1 & l2 & E1 & E2)].
  - rewrite E. exists s. symmetry. apply append_empty.
  - rewrite E2, app_nil_r. exists (filepath.str (rev l2)).
    rewrite <- str_app.
    apply (f_equal (@rev ascii)) in E1. rewrite rev_involutive in E1.
    rewrite rev_app_distr in E1. cbn [rev] in E1.
    rewrite <- app_assoc in E1. cbn [app] in E1.
    unfold filepath.str. rewrite <- E1. unfold filepath.chars.
    symmetry. apply string_of_list_ascii_of_string.
Qed.

Lemma append_length (a b : string) :
  String.length (a ++ b) = (String.length a + String.length b)%nat.
Proof.
  induction a as [|c a IH]; [reflexivity|].
  change ((String c a ++ b)%string) with (String c (a ++ b)%string).
  cbn [String.length]. rewrite IH. reflexivity.
Qed.

Lemma stem_of (s : string) :
  let ext := filepath.Ext s in
  (String.substring 0 (String.length s - String.length ext) s ++ ext)%string
  = s.
Proof.
  cbv zeta. destruct (Ext_suffix s) as (stem & E).
  set (ext := filepath.Ext s) in *.
  rewrite E at 1 2. rewrite append_length.
  replace (String.length stem + String.length ext - String.length ext)%nat
    with (String.length stem) by lia.
  rewrite substring_prefix. symmetry. exact E.
Qed.

End Names.

(** X14. The sprite name that [loadImages] derives from a file and the
    extension of the file's base name together are the base name: the name
    is the base name without its last extension.  It is empty exactly when
    the base name is nothing but an extension (as for a file called
    [.png]).  [GetFileNameWithoutExt] computes the same name. *)
Theorem originalName_and_Ext_give_Base (path : string) :
  (spritesheet.originalName path ++ filepath.Ext (filepath.Base path))%string
    = filepath.Base path /\
  (spritesheet.originalName path = ""
   <-> filepath.Base path = filepath.Ext (filepath.Base path)) /\
  files.GetFileNameWithoutExt path = spritesheet.originalName path /\
  (files.GetFileNameWithoutExt path
   ++ files.GetFileExtension (filepath.Base path))%string
    = filepath.Base path.
Proof.
  assert (E : (spritesheet.originalName path
               ++ filepath.Ext (filepath.Base path))%string
              = filepath.Base path).
  { unfold spritesheet.originalName.
    destruct (String.eqb_spec (filepath.Ext (filepath.Base path)) "")
      as [E0|E0]; cbn [negb].
    - rewrite E0. apply append_empty.
    - apply stem_of. }
  assert (G : files.GetFileNameWithoutExt path
              = spritesheet.originalName path).
  { unfold files.GetFileNameWithoutExt, spritesheet.originalName.
    destruct (String.eqb (filepath.Ext (filepath.Base path)) "");
      reflexivity. }
  split; [exact E|]. split; [|split; [exact G|]].
  - split.
    + intros H. rewrite H in E. cbn in E. symmetry. exact E.
    + intros H. rewrite H in E at 2.
      apply (f_equal String.length) in E. rewrite append_length in E.
      destruct (spritesheet.originalName path); [reflexivity|].
      cbn in E. lia.
  - unfold files.GetFileExtension. rewrite G. exact E.
Qed.


(** ** Trimming *)

Section Loops.

Lemma nested_fold {S : Type} (f : S -> Z -> Z -> S) (xs : list Z) :
  forall (ys : list Z) (a : S),
    fold_left (fun st y => fold_left (fun st x => f st x y) xs st) ys a
    = fold_left (fun st p => f st (fst p) (snd p)) (points ys xs) a.
Proof.
  induction ys as [|y ys IH]; intros a; [reflexivity|].
  cbn [fold_left points flat_map]. rewrite fold_left_app, IH.
  f_equal. clear. revert a.
  induction xs as [|x xs IHx]; intros a; [reflexivity|].
  cbn [map fold_left fst snd]. apply IHx.
Qed.

Lemma In_points (ys xs : list Z) (x y : Z) :
  In (x, y) (points ys xs) <-> In y ys /\ In x xs.
Proof.
  unfold points. rewrite in_flat_map. split.
  - intros (y' & Hy & Hin). apply in_map_iff in Hin as (x' & E & Hx).
    inversion E; subst. split; assumption.
  - intros [Hy Hx]. exists y. split; [exact Hy|].
    apply in_map_iff. exists x. split; [reflexivity|exact Hx].
Qed.

Lemma In_upfrom (x lo : Z) (n : nat) :
  In x (utils.upfrom lo n) <-> lo <= x < lo + Z.of_nat n.
Proof.
  revert lo. induction n as [|n IH]; intros lo; cbn [utils.upfrom In].
  - lia.
  - rewrite IH. lia.
Qed.

Lemma In_loop (x lo hi : Z) : In x (utils.loop lo hi) <-> lo <= x < hi.
Proof. unfold utils.loop. rewrite In_upfrom. lia. Qed.

End Loops.

Section Scan.

Variable img : image.Image.

Lemma scan_pixel_box (seen : list (Z * Z)) (st : utils.ContentBounds)
    (x y : Z) :
  box_of img seen st ->
  box_of img (seen ++ [(x, y)]) (utils.scan_pixel img y st x).
Proof.
  intros [Hnone Hbox]. unfold utils.scan_pixel.
  destruct (Z.ltb_spec 0 (image.A (image.At img x y))) as [Hvis|Hhid].
  - destruct (utils.found st) eqn:Hf; cbn [negb].
    + destruct (Hbox eq_refl) as (Hin & (p1 & I1 & S1 & E1) & (p2 & I2 & S2 & E2)
                                  & (p3 & I3 & S3 & E3) & (p4 & I4 & S4 & E4)).
      split; [discriminate|]. intros _.
      cbn [utils.minX utils.minY utils.maxX utils.maxY].
      split; [|split; [|split; [|split]]].
      * intros p Hp Hs. apply in_app_or in Hp as [Hp|[<-|[]]].
        -- specialize (Hin p Hp Hs).
           destruct (Z.ltb_spec x (utils.minX st));
             destruct (Z.ltb_spec (utils.maxX st) x);
             destruct (Z.ltb_spec y (utils.minY st));
             destruct (Z.ltb_spec (utils.maxY st) y); lia.
        -- cbn [fst snd].
           destruct (Z.ltb_spec x (utils.minX st));
             destruct (Z.ltb_spec (utils.maxX st) x);
             destruct (Z.ltb_spec y (utils.minY st));
             destruct (Z.ltb_spec (utils.maxY st) y); lia.
      * destruct (Z.ltb_spec x (utils.minX st)).
        -- exists (x, y). split; [apply in_or_app; right; left; reflexivity|].
           split; [exact Hvis|reflexivity].
        -- exists p1. split; [apply in_or_app; left; exact I1|]. auto.
      * destruct (Z.ltb_spec (utils.maxX st) x).
        -- exists (x, y). split; [apply in_or_app; right; left; reflexivity|].
           split; [exact Hvis|reflexivity].
        -- exists p2. split; [apply in_or_app; left; exact I2|]. auto.
      * destruct (Z.ltb_spec y (utils.minY st)).
        -- exists (x, y). split; [apply in_or_app; right; left; reflexivity|].
           split; [exact Hvis|reflexivity].
        -- exists p3. split; [apply in_or_app; left; exact I3|]. auto.
      * destruct (Z.ltb_spec (utils.maxY st) y).
        -- exists (x, y). split; [apply in_or_app; right; left; reflexivity|].
           split; [exact Hvis|reflexivity].
        -- exists p4. split; [apply in_or_app; left; exact I4|]. auto.
    + split; [discriminate|]. intros _.
      cbn [utils.minX utils.minY utils.maxX utils.maxY].
      assert (Hxy : In (x, y) (seen ++ [(x, y)]))
        by (apply in_or_app; right; left; reflexivity).
      split; [|repeat split; exists (x, y); auto].
      intros p Hp Hs. apply in_app_or in Hp as [Hp|[<-|[]]].
      * exfalso. exact (Hnone eq_refl p Hp Hs).
      * cbn [fst snd]. lia.
  - split.
    + intros Hf p Hp. apply in_app_or in Hp as [Hp|[<-|[]]].
      * exact (Hnone Hf p Hp).
      * cbn [fst snd]. lia.
    + intros Hf.
      destruct (Hbox Hf) as (Hin & (p1 & I1 & S1 & E1) & (p2 & I2 & S2 & E2)
                             & (p3 & I3 & S3 & E3) & (p4 & I4 & S4 & E4)).
      split; [|split; [|split; [|split]]].
      * intros p Hp Hs. apply in_app_or in Hp as [Hp|[<-|[]]].
        -- exact (Hin p Hp Hs).
        -- cbn [fst snd] in Hs. lia.
      * exists p1. split; [apply in_or_app; left; exact I1|]. auto.
      * exists p2. split; [apply in_or_app; left; exact I2|]. auto.
      * exists p3. split; [apply in_or_app; left; exact I3|]. auto.
      * exists p4. split; [apply in_or_app; left; exact I4|]. auto.
Qed.

Lemma scan_fold_box (ps : list (Z * Z)) :
  forall seen st,
    box_of img seen st ->
    box_of img (seen ++ ps)
      (fold_left (fun st p => utils.scan_pixel img (snd p) st (fst p)) ps st).
Proof.
  induction ps as [|[x y] ps IH]; intros seen st H; cbn [fold_left fst snd].
  - rewrite app_nil_r. exact H.
  - replace (seen ++ (x, y) :: ps)%list with ((seen ++ [(x, y)]) ++ ps)%list
      by (rewrite <- app_assoc; reflexivity).
    apply IH. apply scan_pixel_box. exact H.
Qed.

(** The scan ends with the tight bounding box of the visible pixels. *)
Lemma scan_box :
  box_of img
    (points (utils.loop (image.Y (image.Min (image.Bounds img)))
                        (image.Y (image.Max (image.Bounds img))))
            (utils.loop (image.X (image.Min (image.Bounds img)))
                        (image.X (image.Max (image.Bounds img)))))
    (utils.scan img).
Proof.
  unfold utils.scan.
  rewrite (nested_fold (fun st x y => utils.scan_pixel img y st x)).
  apply (scan_fold_box _ []).
  split; [intros _ p []|discriminate].
Qed.

End Scan.

Section Copy.

Lemma Set_At_in (res : image.Image) (x y : Z) (c : image.Color) (x' y' : Z) :
  image.InRect x y (image.Bounds res) = true ->
  image.At (image.Set_ res x y c) x' y'
  = if (x' =? x) && (y' =? y) then image.rgba8 c else image.At res x' y'.
Proof. intros H. unfold image.Set_. rewrite H. reflexivity. Qed.

(** After a loop that sets pixels inside the bounds, each to a colour
    that depends on its position only, a pixel that was set has that
    colour and every other pixel is as before. *)
Lemma fold_Set_At (col : Z -> Z -> image.Color) (ps : list (Z * Z)) :
  forall res,
    (forall p, In p ps ->
               image.InRect (fst p) (snd p) (image.Bounds res) = true) ->
    forall x y,
      image.At
        (fold_left (fun res p =>
                      image.Set_ res (fst p) (snd p) (col (fst p) (snd p)))
                   ps res) x y
      = if existsb (fun p => (x =? fst p) && (y =? snd p)) ps
        then image.rgba8 (col x y) else image.At res x y.
Proof.
  induction ps as [|[px py] ps IH]; intros res Hin x y;
    cbn [fold_left existsb fst snd]; [reflexivity|].
  rewrite IH.
  - rewrite Set_At_in by (apply (Hin (px, py)); left; reflexivity).
    destruct (existsb _ ps); [rewrite orb_true_r; reflexivity|].
    rewrite orb_false_r.
    destruct (Z.eqb_spec x px) as [->|]; [|reflexivity].
    destruct (Z.eqb_spec y py) as [->|]; reflexivity.
  - intros p Hp. rewrite Set_Bounds. apply Hin. right. exact Hp.
Qed.

Lemma fold_left_ext_In {A B : Type} (f h : A -> B -> A) (l : list B) :
  (forall a b, In b l -> f a b = h a b) ->
  forall a, fold_left f l a = fold_left h l a.
Proof.
  induction l as [|b l IH]; intros E a; [reflexivity|].
  cbn [fold_left]. rewrite (E a b) by (left; reflexivity).
  apply IH. intros a' b' Hb. apply E. right. exact Hb.
Qed.

Lemma fold_left_map {A B C : Type} (f : A -> C -> A) (m : B -> C)
    (l : list B) :
  forall a, fold_left f (map m l) a = fold_left (fun a b => f a (m b)) l a.
Proof. induction l as [|b l IH]; intros a; [reflexivity|]. apply IH. Qed.

End Copy.

Section Trimmed.

Variable img : image.Image.

Lemma In_all_points (x y : Z) :
  In (x, y)
     (points (utils.loop (image.Y (image.Min (image.Bounds img)))
                         (image.Y (image.Max (image.Bounds img))))
             (utils.loop (image.X (image.Min (image.Bounds img)))
                         (image.X (image.Max (image.Bounds img)))))
  <-> image.InRect x y (image.Bounds img) = true.
Proof.
  rewrite In_points, !In_loop. unfold image.InRect.
  rewrite !andb_true_iff, !Z.leb_le, !Z.ltb_lt. lia.
Qed.

Lemma Rect_origin (w h : Z) :
  0 <= w -> 0 <= h ->
  image.Rect 0 0 w h
  = {| image.Min := {| image.X := 0; image.Y := 0 |};
       image.Max := {| image.X := w; image.Y := h |} |}.
Proof.
  intros Hw Hh. unfold image.Rect.
  destruct (Z.ltb_spec w 0); [lia|]. destruct (Z.ltb_spec h 0); [lia|].
  reflexivity.
Qed.

(** The copying loop of [TrimTransparent], pixel by pixel. *)
Lemma copy_At (res : image.Image) (x0 y0 x1 y1 : Z) :
  fits x0 -> fits y0 -> fits x1 -> fits y1 ->
  x0 <= x1 -> y0 <= y1 -> fits (x1 - x0 + 1) -> fits (y1 - y0 + 1) ->
  image.Bounds res = image.Rect 0 0 (x1 - x0 + 1) (y1 - y0 + 1) ->
  forall x y,
    x0 <= x <= x1 -> y0 <= y <= y1 ->
    image.At
      (fold_left
         (fun res y =>
            fold_left
              (fun res x =>
                 image.Set_ res (isub x x0) (isub y y0) (image.At img x y))
              (utils.loop x0 (x1 + 1)) res)
         (utils.loop y0 (y1 + 1)) res)
      (x - x0) (y - y0)
    = image.rgba8 (image.At img x y).
Proof.
  intros Fx0 Fy0 Fx1 Fy1 Hx Hy Fw Fh Hb x y Hxr Hyr.
  unfold fits, int_min, int_max in *.
  rewrite (nested_fold
             (fun res x y =>
                image.Set_ res (isub x x0) (isub y y0) (image.At img x y))).
  set (ps := points (utils.loop y0 (y1 + 1)) (utils.loop x0 (x1 + 1))).
  set (shift := fun p : Z * Z => (fst p - x0, snd p - y0)).
  set (col := fun tx ty => image.At img (tx + x0) (ty + y0)).
  rewrite (fold_left_ext_In _
             (fun res p =>
                image.Set_ res (fst (shift p)) (snd (shift p))
                  (col (fst (shift p)) (snd (shift p))))).
  2:{ intros a [px py] Hp. apply In_points in Hp as [Hpy Hpx].
      apply In_loop in Hpy, Hpx. subst shift col. cbn [fst snd].
      unfold isub.
      rewrite !wrap_fits by (unfold fits, int_min, int_max; lia).
      replace (px - x0 + x0) with px by lia.
      replace (py - y0 + y0) with py by lia. reflexivity. }
  rewrite <- (fold_left_map
                (fun res q =>
                   image.Set_ res (fst q) (snd q) (col (fst q) (snd q)))
                shift ps).
  rewrite fold_Set_At.
  - replace (existsb _ (map shift ps)) with true.
    + subst col. cbv beta.
      replace (x - x0 + x0) with x by lia.
      replace (y - y0 + y0) with y by lia. reflexivity.
    + symmetry. apply existsb_exists. exists (x - x0, y - y0).
      split; [|cbn [fst snd]; rewrite !Z.eqb_refl; reflexivity].
      apply in_map_iff. exists (x, y). split; [reflexivity|].
      apply In_points. rewrite !In_loop. lia.
  - intros q Hq. apply in_map_iff in Hq as ([px py] & <- & Hp).
    apply In_points in Hp as [Hpy Hpx]. apply In_loop in Hpy, Hpx.
    rewrite Hb, Rect_origin by lia. subst shift. cbn [fst snd].
    unfold image.InRect. cbn [image.Min image.Max image.X image.Y].
    rewrite !andb_true_iff, !Z.leb_le, !Z.ltb_lt. lia.
Qed.

End Trimmed.

Section Boxes.

Variable img : image.Image.

Lemma scan_visible :
  let st := utils.scan img in
  (utils.found st = false -> forall x y, ~ visible img x y) /\
  (utils.found st = true ->
   (forall x y, visible img x y ->
      utils.minX st <= x <= utils.maxX st /\
      utils.minY st <= y <= utils.maxY st) /\
   (exists y, visible img (utils.minX st) y) /\
   (exists y, visible img (utils.maxX st) y) /\
   (exists x, visible img x (utils.minY st)) /\
   (exists x, visible img x (utils.maxY st))).
Proof.
  cbv zeta. pose proof (scan_box img) as [Hnone Hbox].
  assert (Hvis : forall p,
            In p (points
                    (utils.loop (image.Y (image.Min (image.Bounds img)))
                                (image.Y (image.Max (image.Bounds img))))
                    (utils.loop (image.X (image.Min (image.Bounds img)))
                                (image.X (image.Max (image.Bounds img))))) ->
            0 < image.A (image.At img (fst p) (snd p)) ->
            visible img (fst p) (snd p)).
  { intros [px py] Hp Hs. split; [|exact Hs].
    apply In_all_points. exact Hp. }
  split.
  - intros Hf x y [Hr Hs].
    apply (Hnone Hf (x, y)); [apply In_all_points; exact Hr|exact Hs].
  - intros Hf.
    destruct (Hbox Hf) as (Hin & (p1 & I1 & S1 & E1) & (p2 & I2 & S2 & E2)
                           & (p3 & I3 & S3 & E3) & (p4 & I4 & S4 & E4)).
    split; [|split; [|split; [|split]]].
    + intros x y [Hr Hs].
      apply (Hin (x, y)); [apply In_all_points; exact Hr|exact Hs].
    + exists (snd p1). rewrite <- E1. apply Hvis; assumption.
    + exists (snd p2). rewrite <- E2. apply Hvis; assumption.
    + exists (fst p3). rewrite <- E3. apply Hvis; assumption.
    + exists (fst p4). rewrite <- E4. apply Hvis; assumption.
Qed.

Lemma TrimTransparent_blank :
  utils.found (utils.scan img) = false ->
  utils.TrimTransparent img
  = Ok {| image.Bounds := image.Rect 0 0 1 1;
          image.At := fun _ _ => image.Transparent |}.
Proof.
  intros Hf. unfold utils.TrimTransparent. rewrite Hf. cbn [negb].
  apply NewRGBA_allocatable. vm_compute. discriminate.
Qed.

Lemma TrimTransparent_found :
  image_ok img ->
  let st := utils.scan img in
  utils.found st = true ->
  fits (utils.maxX st - utils.minX st + 1) /\
  fits (utils.maxY st - utils.minY st + 1) /\
  exists out,
    utils.TrimTransparent img = Ok out /\
    image.Bounds out
    = image.Rect 0 0 (utils.maxX st - utils.minX st + 1)
                     (utils.maxY st - utils.minY st + 1) /\
    (forall x y,
       utils.minX st <= x <= utils.maxX st ->
       utils.minY st <= y <= utils.maxY st ->
       image.At out (x - utils.minX st) (y - utils.minY st)
       = image.rgba8 (image.At img x y)).
Proof.
  intros (Fx0 & Fy0 & Fx1 & Fy1 & Hx & Hy & Hbuf) st Hf.
  pose proof (scan_scan_inv img) as Hinv. unfold scan_inv in Hinv.
  fold st in Hinv. specialize (Hinv Hf).
  destruct Hinv as (A1 & A2 & A3 & B1 & B2 & B3).
  unfold fits, int_min, int_max in Fx0, Fy0, Fx1, Fy1.
  assert (Wb : image.X (image.Max (image.Bounds img))
               - image.X (image.Min (image.Bounds img)) <= int_max)
    by (unfold int_max in *; nia).
  assert (Hb : image.Y (image.Max (image.Bounds img))
               - image.Y (image.Min (image.Bounds img)) <= int_max)
    by (unfold int_max in *; nia).
  unfold int_max in Wb, Hb, Hbuf.
  assert (Fw : fits (utils.maxX st - utils.minX st + 1))
    by (unfold fits, int_min, int_max; lia).
  assert (Fh : fits (utils.maxY st - utils.minY st + 1))
    by (unfold fits, int_min, int_max; lia).
  split; [exact Fw|]. split; [exact Fh|].
  unfold utils.TrimTransparent. fold st. rewrite Hf. cbn [negb].
  assert (Hw : iadd (isub (utils.maxX st) (utils.minX st)) 1
               = utils.maxX st - utils.minX st + 1).
  { unfold iadd, isub.
    rewrite (wrap_fits (_ - _)) by (unfold fits, int_min, int_max; lia).
    apply wrap_fits. exact Fw. }
  assert (Hh : iadd (isub (utils.maxY st) (utils.minY st)) 1
               = utils.maxY st - utils.minY st + 1).
  { unfold iadd, isub.
    rewrite (wrap_fits (_ - _)) by (unfold fits, int_min, int_max; lia).
    apply wrap_fits. exact Fh. }
  rewrite Hw, Hh.
  assert (Hal : allocatable (utils.maxX st - utils.minX st + 1)
                            (utils.maxY st - utils.minY st + 1)).
  { unfold allocatable.
    rewrite Dx_Rect, Dy_Rect by (unfold int_max; lia).
    apply mul3NonNeg_fits; unfold int_max; try lia.
    match type of Hbuf with 4 * ?W * ?H <= _ =>
      assert (utils.maxX st - utils.minX st + 1 <= W) by lia;
      assert (utils.maxY st - utils.minY st + 1 <= H) by lia
    end.
    nia. }
  rewrite (NewRGBA_allocatable _ _ Hal).
  cbn [mbind result_bind mret result_ret].
  eexists. split; [reflexivity|]. split.
  - apply (fold_Set_Bounds _ _
             (fun y x => (isub x (utils.minX st), isub y (utils.minY st)))
             (fun y x => image.At img x y)).
  - intros x y Hxr Hyr.
    apply copy_At; try reflexivity; try assumption;
      unfold fits, int_min, int_max; lia.
Qed.

End Boxes.

(** X15. [TrimTransparent] cuts out the tight bounding box of the
    visible pixels (those with a positive alpha).  When no pixel of a
    well-formed image is visible, the result is a transparent image of
    1x1.  Otherwise there is a box [x0..x1] by [y0..y1] that holds every
    visible pixel and has a visible pixel in its first and last column and
    row; the result has the size of that box and its origin at (0,0), and
    its pixel at [(x - x0, y - y0)] is the pixel of the source at [(x, y)],
    as an RGBA image keeps it. *)
Theorem TrimTransparent_cuts_the_visible_box (img : image.Image) :
  image_ok img ->
  exists out,
    utils.TrimTransparent img = Ok out /\
    (((forall x y, ~ visible img x y) /\
      image.Bounds out = image.Rect 0 0 1 1 /\
      (forall x y, image.At out x y = image.Transparent))
     \/
     exists x0 y0 x1 y1,
       (forall x y, visible img x y -> x0 <= x <= x1 /\ y0 <= y <= y1) /\
       (exists y, visible img x0 y) /\ (exists y, visible img x1 y) /\
       (exists x, visible img x y0) /\ (exists x, visible img x y1) /\
       image.Bounds out = image.Rect 0 0 (x1 - x0 + 1) (y1 - y0 + 1) /\
       (forall x y,
          x0 <= x <= x1 -> y0 <= y <= y1 ->
          image.At out (x - x0) (y - y0) = image.rgba8 (image.At img x y))).
Proof.
  intros Hok. destruct (scan_visible img) as [Hnone Hsome].
  destruct (utils.found (utils.scan img)) eqn:Hf.
  - destruct (TrimTransparent_found img Hok Hf)
      as (_ & _ & out & Hrun & Hb & Hat).
    destruct (Hsome eq_refl) as (H1 & H2 & H3 & H4 & H5).
    exists out. split; [exact Hrun|]. right.
    exists (utils.minX (utils.scan img)), (utils.minY (utils.scan img)),
           (utils.maxX (utils.scan img)), (utils.maxY (utils.scan img)).
    repeat (split; [assumption|]). exact Hat.
  - rewrite (TrimTransparent_blank img Hf).
    eexists. split; [reflexivity|]. left.
    split; [exact (Hnone eq_refl)|]. split; reflexivity.
Qed.

Lemma TrimTransparent_cuts_the_visible_box_witness :
  exists out,
    utils.TrimTransparent dot_image = Ok out /\
    image.Bounds out = image.Rect 0 0 1 1 /\
    image.At out 0 0 = image.rgba8 (image.At dot_image 1 1).
Proof.
  assert (V : forall x y, visible dot_image x y -> x = 1 /\ y = 1).
  { intros x y [_ H]. cbn in H.
    destruct (Z.eqb_spec x 1); destruct (Z.eqb_spec y 1); cbn in H; lia. }
  destruct (TrimTransparent_cuts_the_visible_box dot_image)
    as (out & Hrun & [(Hnone & _) | (x0 & y0 & x1 & y1 & _ & (ya & Ha)
                                     & (yb & Hb) & (xc & Hc) & (xd & Hd)
                                     & Hbounds & Hat)]).
  - unfold image_ok, fits, int_min, int_max. cbn. lia.
  - exfalso. apply (Hnone 1 1). split; [reflexivity|]. cbn. lia.
  - apply V in Ha, Hb, Hc, Hd.
    destruct Ha as [-> _], Hb as [-> _], Hc as [_ ->], Hd as [_ ->].
    exists out. split; [exact Hrun|]. split; [exact Hbounds|].
    apply (Hat 1 1); lia.
Defined.

Section ContentBounds.

Variable img : image.Image.
Hypothesis alpha_range : forall x y, 0 <= image.A (image.At img x y).

Lemma bounds_pixel_scan_pixel (y : Z) (st : utils.ContentBounds) (x : Z) :
  imaging.bounds_pixel img y st x = utils.scan_pixel img y st x.
Proof.
  unfold imaging.bounds_pixel, utils.scan_pixel, imaging.IsTransparent.
  specialize (alpha_range x y).
  destruct (Z.eqb_spec (image.A (image.At img x y)) 0);
    destruct (Z.ltb_spec 0 (image.A (image.At img x y)));
    cbn [negb]; try reflexivity; lia.
Qed.

Lemma GetImageBounds_scan :
  imaging.GetImageBounds img
  = let st := utils.scan img in
    if negb (utils.found st) then image.Rect 0 0 0 0
    else image.Rect (utils.minX st) (utils.minY st)
                    (iadd (utils.maxX st) 1) (iadd (utils.maxY st) 1).
Proof.
  unfold imaging.GetImageBounds, utils.scan. cbv zeta.
  set (xs := utils.loop _ _). set (ys := utils.loop _ _).
  set (init := {| utils.minX := _ |}).
  replace (fold_left (fun st y => fold_left (imaging.bounds_pixel img y) xs st)
             ys init)
    with (fold_left (fun st y => fold_left (utils.scan_pixel img y) xs st)
            ys init); [reflexivity|].
  apply fold_left_ext_In. intros st y _.
  apply fold_left_ext_In. intros st' x _. symmetry.
  apply bounds_pixel_scan_pixel.
Qed.

End ContentBounds.

(** X16. [GetImageBounds] and [TrimTransparent] find the same box.  For
    a well-formed image (alpha values are not negative): when no pixel is
    visible, [GetImageBounds] is the empty rectangle at the origin, while
    [TrimTransparent] returns an image of 1x1; otherwise [GetImageBounds]
    is the tight bounding box [x0, y0, x1 + 1, y1 + 1] of the visible
    pixels, and the image [TrimTransparent] returns has its width and
    height. *)
Theorem GetImageBounds_is_the_trimmed_box (img : image.Image) :
  image_ok img ->
  (forall x y, 0 <= image.A (image.At img x y)) ->
  exists out,
    utils.TrimTransparent img = Ok out /\
    (((forall x y, ~ visible img x y) /\
      imaging.GetImageBounds img = image.Rect 0 0 0 0 /\
      image.Bounds out = image.Rect 0 0 1 1)
     \/
     exists x0 y0 x1 y1,
       (forall x y, visible img x y -> x0 <= x <= x1 /\ y0 <= y <= y1) /\
       (exists y, visible img x0 y) /\ (exists y, visible img x1 y) /\
       (exists x, visible img x y0) /\ (exists x, visible img x y1) /\
       imaging.GetImageBounds img
       = {| image.Min := {| image.X := x0; image.Y := y0 |};
            image.Max := {| image.X := x1 + 1; image.Y := y1 + 1 |} |} /\
       image.Dx (image.Bounds out) = image.Dx (imaging.GetImageBounds img) /\
       image.Dy (image.Bounds out) = image.Dy (imaging.GetImageBounds img)).
Proof.
  intros Hok Halpha. destruct (scan_visible img) as [Hnone Hsome].
  rewrite (GetImageBounds_scan img Halpha). cbv zeta.
  destruct (utils.found (utils.scan img)) eqn:Hf; cbn [negb].
  - destruct (TrimTransparent_found img Hok Hf)
      as (Fw & Fh & out & Hrun & Hb & _).
    destruct (Hsome eq_refl) as (H1 & H2 & H3 & H4 & H5).
    pose proof (scan_scan_inv img) as Hinv. unfold scan_inv in Hinv.
    specialize (Hinv Hf). destruct Hinv as (A1 & A2 & A3 & B1 & B2 & B3).
    destruct Hok as (Fx0 & Fy0 & Fx1 & Fy1 & _).
    set (st := utils.scan img) in *.
    unfold fits, int_min, int_max in *.
    assert (Ex : iadd (utils.maxX st) 1 = utils.maxX st + 1)
      by (apply wrap_fits; unfold fits, int_min, int_max; lia).
    assert (Ey : iadd (utils.maxY st) 1 = utils.maxY st + 1)
      by (apply wrap_fits; unfold fits, int_min, int_max; lia).
    assert (ER : image.Rect (utils.minX st) (utils.minY st)
                   (iadd (utils.maxX st) 1) (iadd (utils.maxY st) 1)
                 = {| image.Min := {| image.X := utils.minX st;
                                      image.Y := utils.minY st |};
                      image.Max := {| image.X := utils.maxX st + 1;
                                      image.Y := utils.maxY st + 1 |} |}).
    { rewrite Ex, Ey. unfold image.Rect.
      destruct (Z.ltb_spec (utils.maxX st + 1) (utils.minX st)); [lia|].
      destruct (Z.ltb_spec (utils.maxY st + 1) (utils.minY st)); [lia|].
      reflexivity. }
    exists out. split; [exact Hrun|]. right.
    exists (utils.minX st), (utils.minY st), (utils.maxX st), (utils.maxY st).
    repeat (split; [assumption|]).
    rewrite ER, Hb, Rect_origin by lia.
    unfold image.Dx, image.Dy, isub.
    cbn [image.Min image.Max image.X image.Y].
    split; f_equal; lia.
  - rewrite (TrimTransparent_blank img Hf).
    eexists. split; [reflexivity|]. left.
    split; [exact (Hnone eq_refl)|]. split; reflexivity.
Qed.


Lemma GetImageBounds_is_the_trimmed_box_witness :
  imaging.GetImageBounds dot_image = image.Rect 1 1 2 2.
Proof.
  assert (V : forall x y, visible dot_image x y -> x = 1 /\ y = 1).
  { intros x y [_ H]. cbn in H.
    destruct (Z.eqb_spec x 1); destruct (Z.eqb_spec y 1); cbn in H; lia. }
  destruct (GetImageBounds_is_the_trimmed_box dot_image)
    as (out & _ & [(Hnone & _) | (x0 & y0 & x1 & y1 & _ & (ya & Ha)
                                  & (yb & Hb) & (xc & Hc) & (xd & Hd)
                                  & Hbounds & _)]).
  - unfold image_ok, fits, int_min, int_max. cbn. lia.
  - intros x y. cbn. destruct ((x =? 1) && (y =? 1)); cbn; lia.
  - exfalso. apply (Hnone 1 1). split; [reflexivity|]. cbn. lia.
  - apply V in Ha, Hb, Hc, Hd.
    destruct Ha as [-> _], Hb as [-> _], Hc as [_ ->], Hd as [_ ->].
    exact Hbounds.
Defined.


(** ** Validation: what an accepted configuration guarantees *)

Section Validation.

Variable cfg : config.Config.

(** What [ValidateSpritesheetConfig] has checked when it returns no
    error. *)
Lemma ValidateSpritesheetConfig_None :
  validation.ValidateSpritesheetConfig cfg = None ->
  1 <= config.TileWidth cfg <= 2048 /\ 1 <= config.TileHeight cfg <= 2048 /\
  ((1 <= config.Cols cfg <= 100 /\ config.Rows cfg <= 0) \/
   (config.Cols cfg <= 0 /\ 1 <= config.Rows cfg <= 100)) /\
  0 <= config.Padding cfg <= 100.
Proof.
  unfold validation.ValidateSpritesheetConfig. cbv zeta.
  destruct (Z.leb_spec (config.TileWidth cfg) 0); [discriminate|].
  destruct (Z.leb_spec (config.TileHeight cfg) 0); [discriminate|].
  cbn [orb].
  destruct (Z.ltb_spec 2048 (config.TileWidth cfg)); [discriminate|].
  destruct (Z.ltb_spec 2048 (config.TileHeight cfg)); [discriminate|].
  cbn [orb].
  destruct (Z.leb_spec (config.Cols cfg) 0);
    destruct (Z.leb_spec (config.Rows cfg) 0); cbn [andb];
    try discriminate;
    destruct (Z.ltb_spec 0 (config.Cols cfg));
    destruct (Z.ltb_spec 0 (config.Rows cfg)); cbn [andb];
    try discriminate; try lia;
    destruct (Z.ltb_spec 100 (config.Cols cfg)); try discriminate;
    destruct (Z.ltb_spec 100 (config.Rows cfg)); try discriminate;
    cbn [orb];
    destruct (Z.ltb_spec (config.Padding cfg) 0); try discriminate;
    destruct (Z.ltb_spec 100 (config.Padding cfg)); try discriminate;
    intros _; lia.
Qed.

Lemma ValidateFileCount_None (n : Z) (mode : string) :
  validation.ValidateFileCount n mode = None ->
  1 <= n <= 1000 /\ (mode = "spritesheet" -> n <= 256).
Proof.
  unfold validation.ValidateFileCount. cbv zeta.
  destruct (Z.leb_spec n 0); [discriminate|].
  destruct (Z.ltb_spec 1000 n); [discriminate|].
  destruct (String.eqb_spec mode "spritesheet") as [E|E].
  - destruct (Z.ltb_spec 256 n); [discriminate|]. intros _. lia.
  - intros _. split; [lia|]. intros; contradiction.
Qed.

(** The layout of a validated configuration for a validated count. *)
Lemma validated_layout (n : Z) :
  validation.ValidateSpritesheetConfig cfg = None ->
  1 <= n <= 256 ->
  let l := spritesheet.calculateLayout (spritesheet.NewGenerator cfg) n in
  ((1 <= config.Cols cfg ->
      spritesheet.Cols l = config.Cols cfg /\
      spritesheet.Rows l = ceil_div n (config.Cols cfg)) /\
   (config.Cols cfg <= 0 ->
      spritesheet.Rows l = config.Rows cfg /\
      spritesheet.Cols l = ceil_div n (config.Rows cfg))) /\
  1 <= spritesheet.Cols l <= 256 /\ 1 <= spritesheet.Rows l <= 256 /\
  n <= spritesheet.Cols l * spritesheet.Rows l /\
  spritesheet.LayoutWidth l
    = spritesheet.Cols l * config.TileWidth cfg
      + (spritesheet.Cols l - 1) * config.Padding cfg /\
  spritesheet.LayoutHeight l
    = spritesheet.Rows l * config.TileHeight cfg
      + (spritesheet.Rows l - 1) * config.Padding cfg.
Proof.
  intros Hv Hn l.
  destruct (ValidateSpritesheetConfig_None Hv) as (Htw & Hth & Hgrid & Hp).
  set (g := spritesheet.NewGenerator cfg) in *.
  assert (Hc53 : config.Cols (spritesheet.config_ g) < 2 ^ 53)
    by (unfold g, spritesheet.NewGenerator; cbn [spritesheet.config_]; lia).
  assert (Hr53 : config.Rows (spritesheet.config_ g) < 2 ^ 53)
    by (unfold g, spritesheet.NewGenerator; cbn [spritesheet.config_]; lia).
  assert (Hn52 : 0 < n < 2 ^ 52) by lia.
  destruct (calculateLayout_grid g n Hn52 Hc53 Hr53) as (G1 & G2 & _).
  destruct (calculateLayout_room g n Hn52 Hc53 Hr53) as (C1 & R1 & Hroom).
  destruct (calculateLayout_sides g n) as (Hw & Hh & _).
  fold l in G1, G2, C1, R1, Hroom, Hw, Hh.
  unfold g, spritesheet.NewGenerator in G1, G2, Hw, Hh.
  cbn [spritesheet.config_] in G1, G2, Hw, Hh.
  assert (Hbound : spritesheet.Cols l <= 256 /\ spritesheet.Rows l <= 256).
  { destruct Hgrid as [[Hc Hr] | [Hc Hr]].
    - destruct (G1 ltac:(lia)) as [E1 E2]. rewrite E1, E2.
      pose proof (ceil_div_pos n (config.Cols cfg) ltac:(lia) ltac:(lia)).
      lia.
    - destruct (G2 Hc ltac:(lia)) as [E1 E2]. rewrite E1, E2.
      pose proof (ceil_div_pos n (config.Rows cfg) ltac:(lia) ltac:(lia)).
      lia. }
  split.
  { split; [intros H; apply G1; lia|].
    intros H. apply G2; [exact H|lia]. }
  split; [lia|]. split; [lia|]. split; [exact Hroom|].
  rewrite Hw, Hh.
  split; apply wrap_fits; unfold fits, int_min, int_max; nia.
Qed.

End Validation.

(** X17. What validation buys: for a configuration that
    [ValidateSpritesheetConfig] accepts and a number of tiles that
    [ValidateFileCount] accepts for a spritesheet, [createSpritesheet] on
    the layout that [calculateLayout] computes never fails to allocate the
    canvas; each side of the sheet is positive and at most
    256 * 2048 + 255 * 100 = 549788 pixels, and the metadata passes
    [ValidateMetadata] when no tile has an empty name. *)
Theorem validated_input_makes_a_valid_sheet (cfg : config.Config)
    (tiles : list spritesheet.ImageInfo) :
  let g := spritesheet.NewGenerator cfg in
  let n := Z.of_nat (length tiles) in
  let l := spritesheet.calculateLayout g n in
  validation.ValidateSpritesheetConfig cfg = None ->
  validation.ValidateFileCount n "spritesheet" = None ->
  exists sheet meta,
    spritesheet.createSpritesheet g tiles l = Ok (sheet, meta) /\
    0 < metadata.SheetWidth meta <= 549788 /\
    0 < metadata.SheetHeight meta <= 549788 /\
    (Forall (fun t => spritesheet.Filename t <> "") tiles ->
     Exporter.ValidateMetadata meta = None).
Proof.
  intros g n l Hv Hc.
  destruct (ValidateSpritesheetConfig_None cfg Hv) as (Htw & Hth & Hgrid & Hp).
  destruct (ValidateFileCount_None n _ Hc) as (Hn & Hn'). specialize (Hn' eq_refl).
  destruct (validated_layout cfg n Hv ltac:(lia))
    as (_ & C & R & Hroom & Ew & Eh).
  fold g l in C, R, Hroom, Ew, Eh.
  assert (Bw : 0 < spritesheet.LayoutWidth l <= 549788) by (rewrite Ew; nia).
  assert (Bh : 0 < spritesheet.LayoutHeight l <= 549788) by (rewrite Eh; nia).
  assert (Ha : allocatable (spritesheet.LayoutWidth l)
                           (spritesheet.LayoutHeight l)).
  { unfold allocatable.
    rewrite Dx_Rect, Dy_Rect by (unfold int_max; lia).
    apply mul3NonNeg_fits; unfold int_max; try lia. nia. }
  destruct (createSpritesheet_spec g l tiles ltac:(lia)
              ltac:(fold n; unfold int_max; lia) Ha)
    as (sheet & meta & Hrun & _ & _ & Sw & Sh).
  exists sheet, meta. split; [exact Hrun|].
  rewrite Sw, Sh. split; [exact Bw|]. split; [exact Bh|].
  intros Hnames.
  destruct (calculated_sheet_is_valid g tiles) as (sheet' & meta' & Hrun' & Hok);
    try assumption; unfold g, spritesheet.NewGenerator;
    cbn [spritesheet.config_]; fold g n l;
    try (unfold fits, int_min, int_max; lia).
  - change (fits (spritesheet.Cols l * config.TileWidth cfg
                  + (spritesheet.Cols l - 1) * config.Padding cfg)).
    rewrite <- Ew. unfold fits, int_min, int_max. lia.
  - change (fits (spritesheet.Rows l * config.TileHeight cfg
                  + (spritesheet.Rows l - 1) * config.Padding cfg)).
    rewrite <- Eh. unfold fits, int_min, int_max. lia.
  - assert (E : Ok (sheet', meta') = Ok (sheet, meta))
      by (rewrite <- Hrun, <- Hrun'; reflexivity).
    inversion E; subst. exact Hok.
Qed.

Lemma validated_input_makes_a_valid_sheet_witness :
  exists sheet meta,
    spritesheet.createSpritesheet sample_generator
      [tile_named "a" 64 64; tile_named "b" 64 64; tile_named "c" 64 64]
      (spritesheet.calculateLayout sample_generator 3)
      = Ok (sheet, meta) /\
    Exporter.ValidateMetadata meta = None.
Proof.
  destruct (validated_input_makes_a_valid_sheet sample_config
              [tile_named "a" 64 64; tile_named "b" 64 64;
               tile_named "c" 64 64])
    as (sheet & meta & Hrun & _ & _ & Hok).
  - vm_compute. reflexivity.
  - vm_compute. reflexivity.
  - exists sheet, meta. split; [exact Hrun|]. apply Hok.
    repeat apply List.Forall_cons; [| | |apply List.Forall_nil]; discriminate.
Defined.

Section Memory.

Variable cfg : config.Config.
Variable n : Z.

Lemma idiv_nonzero (a b : Z) :
  b <> 0 -> validation.idiv a b = Ok (wrap (Z.quot a b)).
Proof.
  intros H. unfold validation.idiv, iquot.
  destruct (Z.eqb_spec b 0); [contradiction|reflexivity].
Qed.

(** The division of [ValidateMemoryUsage] never has a zero divisor. *)
Lemma estimatedMemory_total :
  exists bytes, validation.estimatedMemory cfg n = Ok bytes.
Proof.
  unfold validation.estimatedMemory. cbv zeta.
  destruct (Config.IsSpritesheetMode cfg) eqn:Hm; [|eexists; reflexivity].
  unfold Config.IsSpritesheetMode in Hm.
  apply andb_prop in Hm as [_ Hm]. apply orb_prop in Hm.
  destruct (Z.eqb_spec (config.Cols cfg) 0) as [Ec|Ec].
  - assert (Hr : config.Rows cfg <> 0).
    { destruct Hm as [Hm|Hm]; apply Z.ltb_lt in Hm; lia. }
    rewrite (idiv_nonzero _ _ Hr). cbn [mbind result_bind].
    destruct (Z.eqb_spec (config.Rows cfg) 0); [contradiction|].
    cbn. eexists; reflexivity.
  - cbn [mbind result_bind mret result_ret].
    destruct (Z.eqb_spec (config.Rows cfg) 0) as [Er|Er].
    + rewrite (idiv_nonzero _ _ Ec). cbn. eexists; reflexivity.
    + cbn. eexists; reflexivity.
Qed.

End Memory.

Ltac unwrap tac :=
  repeat match goal with
         | |- context [wrap ?z] =>
             lazymatch z with
             | context [wrap _] => fail
             | _ => rewrite (wrap_fits z)
                      by (unfold fits, int_min, int_max; tac)
             end
         end.

(** The estimate on exact numbers. *)
Lemma estimate_exact (n tw th p cols rows : Z) :
  1 <= n <= 256 -> 1 <= tw <= 2048 -> 1 <= th <= 2048 -> 0 <= p <= 100 ->
  1 <= cols <= 256 -> 1 <= rows <= 256 ->
  iadd (imul n (imul (imul tw th) 4))
       (imul (imul (iadd (imul cols tw) (imul (isub cols 1) p))
                   (iadd (imul rows th) (imul (isub rows 1) p))) 4)
  = 4 * n * tw * th
    + 4 * (cols * tw + (cols - 1) * p) * (rows * th + (rows - 1) * p).
Proof.
  intros Hn Htw Hth Hp Hc Hr.
  assert (A1 : 1 <= tw * th <= 2048 * 2048) by nia.
  assert (A2 : 1 <= n * (tw * th * 4) <= 256 * (2048 * 2048 * 4)) by nia.
  assert (A3 : 1 <= cols * tw <= 256 * 2048) by nia.
  assert (A4 : 1 <= rows * th <= 256 * 2048) by nia.
  assert (A5 : 0 <= (cols - 1) * p <= 255 * 100) by nia.
  assert (A6 : 0 <= (rows - 1) * p <= 255 * 100) by nia.
  unfold iadd, isub, imul.
  rewrite (wrap_fits (tw * th)) by (unfold fits, int_min, int_max; lia).
  rewrite (wrap_fits (tw * th * 4)) by (unfold fits, int_min, int_max; lia).
  rewrite (wrap_fits (n * _)) by (unfold fits, int_min, int_max; lia).
  rewrite (wrap_fits (cols - 1)) by (unfold fits, int_min, int_max; lia).
  rewrite (wrap_fits (rows - 1)) by (unfold fits, int_min, int_max; lia).
  rewrite (wrap_fits (cols * tw)) by (unfold fits, int_min, int_max; lia).
  rewrite (wrap_fits (rows * th)) by (unfold fits, int_min, int_max; lia).
  rewrite (wrap_fits ((cols - 1) * p)) by (unfold fits, int_min, int_max; lia).
  rewrite (wrap_fits ((rows - 1) * p)) by (unfold fits, int_min, int_max; lia).
  rewrite (wrap_fits (cols * tw + _)) by (unfold fits, int_min, int_max; lia).
  rewrite (wrap_fits (rows * th + _)) by (unfold fits, int_min, int_max; lia).
  set (W := cols * tw + (cols - 1) * p) in *.
  set (H := rows * th + (rows - 1) * p) in *.
  assert (BW : 1 <= W <= 549788) by (subst W; lia).
  assert (BH : 1 <= H <= 549788) by (subst H; lia).
  assert (A7 : 1 <= W * H <= 549788 * 549788) by nia.
  rewrite (wrap_fits (W * H)) by (unfold fits, int_min, int_max; lia).
  rewrite (wrap_fits (W * H * 4)) by (unfold fits, int_min, int_max; lia).
  rewrite wrap_fits by (unfold fits, int_min, int_max; lia).
  ring.
Qed.

(** For validated input the estimate is exact, and its sheet is the
    sheet of [calculateLayout]. *)
Lemma estimatedMemory_validated (cfg : config.Config) (n : Z) :
  Config.Validate cfg = None ->
  validation.ValidateSpritesheetConfig cfg = None ->
  1 <= n <= 256 ->
  let l := spritesheet.calculateLayout (spritesheet.NewGenerator cfg) n in
  validation.estimatedMemory cfg n
  = Ok (4 * n * config.TileWidth cfg * config.TileHeight cfg
        + 4 * spritesheet.LayoutWidth l * spritesheet.LayoutHeight l).
Proof.
  intros Hv Hs Hn l.
  destruct (Validate_None cfg Hv)
    as (_ & _ & _ & _ & _ & _ & Hc0 & Hr0 & _).
  destruct (ValidateSpritesheetConfig_None cfg Hs) as (Htw & Hth & Hgrid & Hp).
  destruct (validated_layout cfg n Hs Hn) as ((G1 & G2) & C & R & _ & Ew & Eh).
  fold l in G1, G2, C, R, Ew, Eh. rewrite Ew, Eh.
  unfold validation.estimatedMemory. cbv zeta.
  assert (Hm : Config.IsSpritesheetMode cfg = true).
  { unfold Config.IsSpritesheetMode.
    destruct (Z.ltb_spec 0 (config.TileWidth cfg)); [|lia].
    destruct (Z.ltb_spec 0 (config.TileHeight cfg)); [|lia].
    destruct (Z.ltb_spec 0 (config.Cols cfg));
      destruct (Z.ltb_spec 0 (config.Rows cfg)); cbn; try reflexivity; lia. }
  rewrite Hm.
  destruct Hgrid as [[Hc Hr] | [Hc Hr]].
  - assert (Er : config.Rows cfg = 0) by lia.
    destruct (G1 ltac:(lia)) as [E1 E2]. rewrite E1, E2 in *.
    destruct (Z.eqb_spec (config.Cols cfg) 0); [lia|].
    cbn [mbind result_bind mret result_ret]. rewrite Er. cbn [Z.eqb].
    rewrite idiv_nonzero by lia. cbn [mbind result_bind mret result_ret].
    assert (Eq : wrap (Z.quot (isub (iadd n (config.Cols cfg)) 1)
                              (config.Cols cfg))
                 = ceil_div n (config.Cols cfg)).
    { unfold iadd, isub, ceil_div. unwrap lia.
      rewrite Z.quot_div_nonneg by lia.
      apply wrap_fits. unfold fits, int_min, int_max.
      pose proof (ceil_div_pos n (config.Cols cfg) ltac:(lia) ltac:(lia)) as B.
      unfold ceil_div in B. lia. }
    rewrite Eq. f_equal. apply estimate_exact; lia.
  - assert (Ec : config.Cols cfg = 0) by lia.
    destruct (G2 ltac:(lia)) as [E1 E2]. rewrite E1, E2 in *.
    rewrite Ec. cbn [Z.eqb].
    rewrite idiv_nonzero by lia. cbn [mbind result_bind mret result_ret].
    destruct (Z.eqb_spec (config.Rows cfg) 0); [lia|].
    cbn [mbind result_bind mret result_ret].
    assert (Eq : wrap (Z.quot (isub (iadd n (config.Rows cfg)) 1)
                              (config.Rows cfg))
                 = ceil_div n (config.Rows cfg)).
    { unfold iadd, isub, ceil_div. unwrap lia.
      rewrite Z.quot_div_nonneg by lia.
      apply wrap_fits. unfold fits, int_min, int_max.
      pose proof (ceil_div_pos n (config.Rows cfg) ltac:(lia) ltac:(lia)) as B.
      unfold ceil_div in B. lia. }
    rewrite Eq. f_equal. apply estimate_exact; lia.
Qed.

(** X18. [ValidateMemoryUsage] never divides by zero: it returns for
    every configuration and count.  For a configuration that [Validate]
    and [ValidateSpritesheetConfig] accept and a count that
    [ValidateFileCount] accepts for a spritesheet, nothing overflows and the
    estimate is four bytes for every pixel of the tiles and of the sheet
    that [calculateLayout] lays out; the usage is accepted exactly when
    that estimate is at most 500 MiB. *)
Theorem ValidateMemoryUsage_estimates_the_sheet (cfg : config.Config)
    (n : Z) :
  (exists outcome, validation.ValidateMemoryUsage cfg n = Ok outcome) /\
  (Config.Validate cfg = None ->
   validation.ValidateSpritesheetConfig cfg = None ->
   validation.ValidateFileCount n "spritesheet" = None ->
   let l := spritesheet.calculateLayout (spritesheet.NewGenerator cfg) n in
   let bytes :=
     4 * n * config.TileWidth cfg * config.TileHeight cfg
     + 4 * spritesheet.LayoutWidth l * spritesheet.LayoutHeight l in
   validation.estimatedMemory cfg n = Ok bytes /\
   (validation.ValidateMemoryUsage cfg n = Ok None
    <-> bytes <= 500 * 1024 * 1024)).
Proof.
  split.
  - unfold validation.ValidateMemoryUsage.
    destruct (estimatedMemory_total cfg n) as (bytes & ->).
    cbn [mbind result_bind]. cbv zeta.
    destruct (_ <? bytes); eexists; reflexivity.
  - intros Hv Hs Hc l bytes.
    destruct (ValidateFileCount_None n _ Hc) as (Hn & Hn').
    specialize (Hn' eq_refl).
    pose proof (estimatedMemory_validated cfg n Hv Hs ltac:(lia)) as E.
    cbv zeta in E. fold l in E. fold bytes in E. clearbody bytes.
    split; [exact E|].
    unfold validation.ValidateMemoryUsage. rewrite E.
    cbn [mbind result_bind]. cbv zeta.
    destruct (Z.ltb_spec (500 * 1024 * 1024) bytes); unfold mret, result_ret.
    + split; [intros H'; discriminate H'|lia].
    + split; [lia|reflexivity].
Qed.

Lemma ValidateMemoryUsage_estimates_the_sheet_witness :
  validation.estimatedMemory sample_config 3 = Ok 116752.
Proof.
  refine (eq_trans
            (proj1 (proj2 (ValidateMemoryUsage_estimates_the_sheet
                             sample_config 3) _ _ _)) _).
  - vm_compute. reflexivity.
  - vm_compute. reflexivity.
  - vm_compute. reflexivity.
  - vm_compute. reflexivity.
Defined.


(** ** Centring and padding *)

Section Centring.

Lemma half_exact (z : Z) : fits z -> imaging.half z = Z.quot z 2.
Proof.
  intros H. unfold imaging.half. apply wrap_fits.
  unfold fits, int_min, int_max in *.
  pose proof (Z.quot_rem' z 2) as E.
  pose proof (Z.rem_bound_abs z 2 ltac:(lia)) as B. lia.
Qed.

(** Where the offset of [CenterImage] puts an extent [w] in a canvas
    extent [c]. *)
Lemma half_margins (c w : Z) :
  let x := Z.quot (c - w) 2 in
  let far := c - (x + w) in
  (w <= c -> 0 <= x <= far /\ far <= x + 1) /\
  (c < w -> far <= x <= 0 /\ x <= far + 1).
Proof.
  cbv zeta.
  pose proof (Z.quot_rem' (c - w) 2) as E.
  split; intros H.
  - pose proof (Z.rem_bound_pos (c - w) 2 ltac:(lia) ltac:(lia)). lia.
  - pose proof (Z.rem_bound_pos_neg (c - w) 2 ltac:(lia) ltac:(lia)). lia.
Qed.

End Centring.

(** X19. [CenterImage] draws the whole image once, over a fresh canvas
    of the size asked for, into a rectangle of the size of the image whose
    margins differ by at most one pixel: when the image fits the canvas,
    the left margin is not negative and the right one is equal to it or
    one pixel larger; when the image is wider than the canvas it sticks out
    on both sides, by the same number of pixels or by one more on the
    right.  The same holds from top to bottom. *)
Theorem CenterImage_margins (img : image.Image) (canvasWidth canvasHeight : Z) :
  let w := image.Dx (image.Bounds img) in
  let h := image.Dy (image.Bounds img) in
  0 <= w -> 0 <= h ->
  0 <= canvasWidth <= int_max -> 0 <= canvasHeight <= int_max ->
  allocatable canvasWidth canvasHeight ->
  exists canvas x y,
    imaging.CenterImage img canvasWidth canvasHeight = Ok canvas /\
    image.Bounds (draw.Dst canvas) = image.Rect 0 0 canvasWidth canvasHeight /\
    draw.Calls canvas
    = [ {| draw.r := {| image.Min := {| image.X := x; image.Y := y |};
                        image.Max := {| image.X := x + w;
                                        image.Y := y + h |} |};
           draw.src := img;
           draw.sp := image.Min (image.Bounds img);
           draw.op := draw.Over |} ] /\
    (let right := canvasWidth - (x + w) in
     (w <= canvasWidth -> 0 <= x <= right /\ right <= x + 1) /\
     (canvasWidth < w -> right <= x <= 0 /\ x <= right + 1)) /\
    (let bottom := canvasHeight - (y + h) in
     (h <= canvasHeight -> 0 <= y <= bottom /\ bottom <= y + 1) /\
     (canvasHeight < h -> bottom <= y <= 0 /\ y <= bottom + 1)).
Proof.
  intros w h Hw Hh Hcw Hch Ha.
  pose proof (wrap_range (image.X (image.Max (image.Bounds img))
                          - image.X (image.Min (image.Bounds img)))) as Fw.
  pose proof (wrap_range (image.Y (image.Max (image.Bounds img))
                          - image.Y (image.Min (image.Bounds img)))) as Fh.
  change (fits w) in Fw. change (fits h) in Fh.
  unfold fits, int_min, int_max in Fw, Fh, Hcw, Hch.
  pose proof (half_margins canvasWidth w) as Mx.
  pose proof (half_margins canvasHeight h) as My. cbv zeta in Mx, My.
  set (x := Z.quot (canvasWidth - w) 2) in *.
  set (y := Z.quot (canvasHeight - h) 2) in *.
  assert (Ex : imaging.half (isub canvasWidth w) = x).
  { unfold isub. rewrite wrap_fits by (unfold fits, int_min, int_max; lia).
    apply half_exact. unfold fits, int_min, int_max; lia. }
  assert (Ey : imaging.half (isub canvasHeight h) = y).
  { unfold isub. rewrite wrap_fits by (unfold fits, int_min, int_max; lia).
    apply half_exact. unfold fits, int_min, int_max; lia. }
  assert (Bx : - int_max <= 2 * x <= int_max /\ x + w <= int_max /\
               (0 <= x \/ - w <= 2 * x)).
  { pose proof (Z.quot_rem' (canvasWidth - w) 2) as E.
    pose proof (Z.rem_bound_abs (canvasWidth - w) 2 ltac:(lia)) as B.
    fold x in E. unfold int_max. lia. }
  assert (By : - int_max <= 2 * y <= int_max /\ y + h <= int_max /\
               (0 <= y \/ - h <= 2 * y)).
  { pose proof (Z.quot_rem' (canvasHeight - h) 2) as E.
    pose proof (Z.rem_bound_abs (canvasHeight - h) 2 ltac:(lia)) as B.
    fold y in E. unfold int_max. lia. }
  unfold int_max in Bx, By.
  exists (draw.Draw
            (draw.NewCanvas
               {| image.Bounds := image.Rect 0 0 canvasWidth canvasHeight;
                  image.At := fun _ _ => image.Transparent |})
            (image.Rect x y (x + w) (y + h)) img
            (image.Min (image.Bounds img)) draw.Over), x, y.
  split.
  - unfold imaging.CenterImage. cbv zeta.
    rewrite (NewRGBA_allocatable _ _ Ha). cbn [mbind result_bind].
    fold w h. rewrite Ex, Ey. unfold iadd.
    rewrite !wrap_fits by (unfold fits, int_min, int_max; lia).
    reflexivity.
  - split; [reflexivity|]. split; [|split; assumption].
    cbn [draw.Draw draw.NewCanvas draw.Calls app]. unfold image.Rect.
    destruct (Z.ltb_spec (x + w) x); [lia|].
    destruct (Z.ltb_spec (y + h) y); [lia|]. reflexivity.
Qed.

Lemma CenterImage_margins_witness :
  exists canvas,
    imaging.CenterImage dot_image 8 8 = Ok canvas /\
    map draw.r (draw.Calls canvas) = [image.Rect 2 2 5 5].
Proof.
  destruct (CenterImage_margins dot_image 8 8)
    as (canvas & x & y & Hrun & _ & Hcalls & Hx & Hy).
  - vm_compute. discriminate.
  - vm_compute. discriminate.
  - unfold int_max. lia.
  - unfold int_max. lia.
  - vm_compute. discriminate.
  - exists canvas. split; [exact Hrun|]. rewrite Hcalls. cbn [map draw.r].
    cbv zeta in Hx, Hy.
    change (image.Dx (image.Bounds dot_image)) with 3 in *.
    change (image.Dy (image.Bounds dot_image)) with 3 in *.
    assert (x = 2) as -> by lia. assert (y = 2) as -> by lia.
    reflexivity.
Defined.

(** X20. [PadImage] is [CenterImage] on a canvas that is larger than the
    image by twice the padding in each direction (on [int]s without
    overflow): the padding is the margin on every side.  For a padding that
    is not negative the image is drawn once, at [(padding, padding)], on a
    fresh canvas of that size. *)
Theorem PadImage_is_CenterImage (img : image.Image) (padding : Z) :
  let w := image.Dx (image.Bounds img) in
  let h := image.Dy (image.Bounds img) in
  fits (2 * padding) -> fits (w + 2 * padding) -> fits (h + 2 * padding) ->
  imaging.PadImage img padding
    = imaging.CenterImage img (w + 2 * padding) (h + 2 * padding) /\
  (0 <= padding -> 0 <= w -> 0 <= h ->
   allocatable (w + 2 * padding) (h + 2 * padding) ->
   exists canvas,
     imaging.PadImage img padding = Ok canvas /\
     image.Bounds (draw.Dst canvas)
       = image.Rect 0 0 (w + 2 * padding) (h + 2 * padding) /\
     draw.Calls canvas
     = [ {| draw.r :=
              {| image.Min := {| image.X := padding; image.Y := padding |};
                 image.Max := {| image.X := padding + w;
                                 image.Y := padding + h |} |};
            draw.src := img;
            draw.sp := image.Min (image.Bounds img);
            draw.op := draw.Over |} ]).
Proof.
  intros w h F2 Fw Fh.
  assert (Ew : iadd w (imul 2 padding) = w + 2 * padding).
  { unfold iadd, imul. rewrite (wrap_fits (2 * padding)) by exact F2.
    apply wrap_fits. exact Fw. }
  assert (Eh : iadd h (imul 2 padding) = h + 2 * padding).
  { unfold iadd, imul. rewrite (wrap_fits (2 * padding)) by exact F2.
    apply wrap_fits. exact Fh. }
  assert (Hx : imaging.half (isub (w + 2 * padding) w) = padding).
  { unfold isub. replace (w + 2 * padding - w) with (2 * padding) by lia.
    rewrite (wrap_fits _ F2). rewrite half_exact by exact F2.
    rewrite Z.mul_comm. apply Z.quot_mul. lia. }
  assert (Hy : imaging.half (isub (h + 2 * padding) h) = padding).
  { unfold isub. replace (h + 2 * padding - h) with (2 * padding) by lia.
    rewrite (wrap_fits _ F2). rewrite half_exact by exact F2.
    rewrite Z.mul_comm. apply Z.quot_mul. lia. }
  assert (E : imaging.PadImage img padding
              = imaging.CenterImage img (w + 2 * padding) (h + 2 * padding)).
  { unfold imaging.PadImage, imaging.CenterImage. cbv zeta. fold w h.
    rewrite Ew, Eh, Hx, Hy. reflexivity. }
  split; [exact E|].
  intros Hp Hw Hh Ha.
  assert (Fpw : fits (padding + w))
    by (unfold fits, int_min, int_max in *; lia).
  assert (Fph : fits (padding + h))
    by (unfold fits, int_min, int_max in *; lia).
  unfold imaging.PadImage. cbv zeta. fold w h.
  rewrite Ew, Eh, (NewRGBA_allocatable _ _ Ha). cbn [mbind result_bind].
  eexists. split; [reflexivity|]. split; [reflexivity|].
  cbn [draw.Draw draw.NewCanvas draw.Calls app]. unfold iadd.
  rewrite (wrap_fits _ Fpw), (wrap_fits _ Fph). unfold image.Rect.
  destruct (Z.ltb_spec (padding + w) padding); [lia|].
  destruct (Z.ltb_spec (padding + h) padding); [lia|]. reflexivity.
Qed.

Lemma PadImage_is_CenterImage_witness :
  imaging.PadImage dot_image 2 = imaging.CenterImage dot_image 7 7.
Proof.
  destruct (PadImage_is_CenterImage dot_image 2) as [E _].
  - vm_compute. split; discriminate.
  - vm_compute. split; discriminate.
  - vm_compute. split; discriminate.
  - exact E.
Defined.


(** ** The probe reads text, not markup *)

Section FirstOccurrence.

Lemma cons_append (c : ascii) (a b : string) :
  (String c a ++ b)%string = String c (a ++ b)%string.
Proof. reflexivity. Qed.

Lemma from_append (a b : string) :
  strings.from (a ++ b) (String.length a) = b.
Proof.
  induction a as [|c a IH]; cbn [String.length].
  - change ("" ++ b)%string with b. destruct b; reflexivity.
  - rewrite cons_append. cbn [strings.from]. exact IH.
Qed.

Lemma upto_append (a b : string) :
  strings.upto (a ++ b) (String.length a) = a.
Proof.
  induction a as [|c a IH]; cbn [String.length].
  - change ("" ++ b)%string with b. destruct b; reflexivity.
  - rewrite cons_append. cbn [strings.upto]. rewrite IH. reflexivity.
Qed.

Lemma Index_range (s sub : string) : -1 <= strings.Index s sub.
Proof.
  induction s as [|c s IH]; cbn [strings.Index].
  - destruct (strings.HasPrefix "" sub); lia.
  - destruct (strings.HasPrefix (String c s) sub); [lia|].
    destruct (Z.ltb_spec (strings.Index s sub) 0); lia.
Qed.

(** The closing quote that is found is the first one. *)
Lemma Index_quote (v rest : string) :
  strings.Index v strings.quote = -1 ->
  strings.Index (v ++ strings.quote ++ rest) strings.quote = strings.len v.
Proof.
  unfold strings.len.
  induction v as [|c v IH]; intros H.
  - change ("" ++ strings.quote ++ rest)%string
      with (String (ascii_of_nat 34) rest).
    unfold strings.quote. cbn [strings.Index strings.HasPrefix].
    rewrite Ascii.eqb_refl. destruct rest; reflexivity.
  - rewrite cons_append. cbn [strings.Index] in H |- *.
    unfold strings.quote in H |- *. cbn [strings.HasPrefix] in H |- *.
    destruct (Ascii.eqb (ascii_of_nat 34) c) eqn:Ec.
    + destruct v; discriminate H.
    + cbn [andb] in H |- *. fold strings.quote in H |- *.
      pose proof (Index_range v strings.quote) as R.
      destruct (Z.ltb_spec (strings.Index v strings.quote) 0) as [Hlt|Hge];
        [|lia].
      rewrite IH by lia. cbn [String.length].
      destruct (Z.ltb_spec (Z.of_nat (String.length v)) 0); lia.
Qed.

Lemma append_assoc (a b c : string) :
  ((a ++ b) ++ c)%string = (a ++ b ++ c)%string.
Proof.
  induction a as [|x a IH]; [reflexivity|].
  rewrite !cons_append, IH. reflexivity.
Qed.

(** The text that [parseSVGDimensions] takes for an attribute: what
    follows the first occurrence of the name with [=] and a quote, up to
    the next quote. *)
Lemma attribute_first (name pre v rest : string) :
  let needle := (name ++ "=" ++ strings.quote)%string in
  let svg := (pre ++ needle ++ v ++ strings.quote ++ rest)%string in
  strings.Index svg needle = strings.len pre ->
  strings.Index v strings.quote = -1 ->
  probe.attribute svg name = Some v.
Proof.
  intros needle svg Hfirst Hv. unfold probe.attribute. fold needle.
  rewrite Hfirst. unfold strings.len.
  destruct (Z.eqb_spec (Z.of_nat (String.length pre)) (-1)); [lia|].
  assert (Estart : Z.to_nat (Z.of_nat (String.length pre)
                             + (Z.of_nat (String.length name) + 2))
                   = String.length (pre ++ needle)).
  { unfold needle. rewrite !append_length. unfold strings.quote.
    cbn [String.length]. lia. }
  assert (Esvg : svg = ((pre ++ needle) ++ v ++ strings.quote ++ rest)%string).
  { unfold svg. rewrite append_assoc. reflexivity. }
  rewrite Estart. rewrite Esvg at 1. rewrite from_append.
  rewrite (Index_quote v rest Hv). unfold strings.len.
  destruct (Z.eqb_spec (Z.of_nat (String.length v)) (-1)); [lia|].
  unfold strings.slice. rewrite Estart. rewrite Esvg, from_append.
  rewrite (Index_quote v rest Hv). unfold strings.len.
  replace (Z.to_nat _) with (String.length v) by lia.
  rewrite upto_append. reflexivity.
Qed.

End FirstOccurrence.

(** X21. The probe of both converters reads text, not markup: the width
    is the number in the text that follows the first occurrence of the
    characters [width=] and a double quote, up to the next double quote,
    whatever stands before them, so also when they end the name of another
    attribute such as [stroke-width].  The same holds for the height. *)
Theorem parseSVGDimensions_reads_first_occurrence (pre v rest : string)
    (n : float64) :
  (let svg := (pre ++ "width=" ++ strings.quote ++ v ++ strings.quote
               ++ rest)%string in
   strings.Index svg ("width=" ++ strings.quote) = strings.len pre ->
   strings.Index v strings.quote = -1 ->
   svg.parseFloatRod v = Some n ->
   exists h,
     svg.RodConverter.parseSVGDimensions svg = Ok (n, h) /\
     svg.RSVGConverter.parseSVGDimensions svg = Ok (n, h)) /\
  (let svg := (pre ++ "height=" ++ strings.quote ++ v ++ strings.quote
               ++ rest)%string in
   strings.Index svg ("height=" ++ strings.quote) = strings.len pre ->
   strings.Index v strings.quote = -1 ->
   svg.parseFloatRod v = Some n ->
   exists w,
     svg.RodConverter.parseSVGDimensions svg = Ok (w, n) /\
     svg.RSVGConverter.parseSVGDimensions svg = Ok (w, n)).
Proof.
  split; intros svg Hfirst Hv Hn.
  - pose proof (attribute_first "width" pre v rest Hfirst Hv) as Ha.
    change (probe.attribute svg "width" = Some v) in Ha.
    exists (snd (probe.size svg)).
    assert (E : probe.size svg = (n, snd (probe.size svg))).
    { unfold probe.size, probe.explicit. rewrite Ha, Hn. reflexivity. }
    rewrite <- E. split; apply parseSVGDimensionsWith_size.
  - pose proof (attribute_first "height" pre v rest Hfirst Hv) as Ha.
    change (probe.attribute svg "height" = Some v) in Ha.
    exists (fst (probe.size svg)).
    assert (E : probe.size svg = (fst (probe.size svg), n)).
    { unfold probe.size, probe.explicit. rewrite Ha, Hn. reflexivity. }
    rewrite <- E. split; apply parseSVGDimensionsWith_size.
Qed.

Lemma parseSVGDimensions_reads_first_occurrence_witness :
  exists h,
    svg.RodConverter.parseSVGDimensions stroked = Ok (f64.of_int 3, h) /\
    svg.RSVGConverter.parseSVGDimensions stroked = Ok (f64.of_int 3, h).
Proof.
  apply (proj1 (parseSVGDimensions_reads_first_occurrence "<svg stroke-" "3"
                  (" width=" ++ strings.quote ++ "200" ++ strings.quote
                   ++ ">") (f64.of_int 3))).
  - vm_compute. reflexivity.
  - vm_compute. reflexivity.
  - vm_compute. reflexivity.
Defined.


(** ** Temporary files *)

(** [cleanup] removes the files it is given. *)
Lemma cleanup_difference (tempFiles : list string) :
  forall disk, cmd.cleanup tempFiles disk = disk ∖ list_to_set tempFiles.
Proof.
  unfold cmd.cleanup.
  induction tempFiles as [|t ts IH]; intros disk; cbn [fold_left list_to_set].
  - set_solver.
  - rewrite IH. set_solver.
Qed.

Section TemporaryFiles.

Variable env : cmd.Env.
Hypothesis Hfresh : names_fresh env.

(** What the loop does to the files that exist, from any point on. *)
Lemma prepare_spec (files : list string) :
  forall maps temps disk0,
    (forall t, t ∈ temps -> t ∉ disk0) -> NoDup temps ->
    match cmd.prepare env files maps temps (disk0 ∪ list_to_set temps) with
    | (Ok (maps', temps'), disk') =>
        exists more,
          maps' = (maps ++ more)%list /\
          temps' = (temps ++ map utils.PNGPath
                               (List.filter utils.IsTemporary more))%list /\
          map utils.OriginalPath more = List.filter wanted files /\
          Forall mapping_ok more /\
          (forall t, t ∈ temps' -> t ∉ disk0) /\ NoDup temps' /\
          disk' = disk0 ∪ list_to_set temps'
    | (Err e, disk') =>
        (exists err,
           e = Wrapf "failed to create temp file: "
                 (Wrapf "failed to create temp file: " err) /\
           disk' = disk0) \/
        (exists file tempFile err,
           In file files /\ filepath.Ext file = ".svg" /\
           cmd.ConvertFile env file tempFile = Some err /\
           e = Wrapf ("failed to convert " ++ file ++ ": ") err /\
           (tempFile ∉ disk0) /\ disk' = {[ tempFile ]} ∪ disk0)
    | (Panic _, _) => False
    end.
Proof.
  induction files as [|file rest IH]; intros maps temps disk0 Hnew Hnd;
    cbn [cmd.prepare].
  - exists []. rewrite !app_nil_r. cbn. repeat split; auto.
  - cbv zeta. unfold wanted at 1. cbn [List.filter].
    fold (wanted file).
    destruct (String.eqb_spec (filepath.Ext file) ".png") as [Epng|Epng].
    + specialize (IH (maps ++ [ {| utils.PNGPath := file;
                                   utils.OriginalPath := file;
                                   utils.IsTemporary := false |} ])%list
                     temps disk0 Hnew Hnd).
      destruct (cmd.prepare env rest _ temps _) as [[[maps' temps'] | e | m] disk'].
      * destruct IH as (more & -> & -> & Ho & Hok & Hn' & Hnd' & ->).
        unfold wanted at 1. rewrite Epng. cbn [String.eqb orb].
        eexists (_ :: more).
        split; [rewrite <- app_assoc; reflexivity|].
        cbn [List.filter utils.IsTemporary].
        split; [reflexivity|]. cbn [map utils.OriginalPath].
        rewrite Ho. split; [reflexivity|].
        split; [|repeat split; assumption].
        apply List.Forall_cons; [|exact Hok].
        unfold mapping_ok. cbn. split; [exact Epng|reflexivity].
      * destruct IH as [IH | (f & t & err & Hin & IH)]; [left; exact IH|].
        right. exists f, t, err. split; [right; exact Hin|exact IH].
      * exact IH.
    + destruct (String.eqb_spec (filepath.Ext file) ".svg") as [Esvg|Esvg].
      * unfold cmd.CreateTempFile.
        destruct (cmd.CreateTemp env _ _) as [tempFile|err] eqn:Ect.
        -- apply Hfresh in Ect.
           assert (Hd0 : tempFile ∉ disk0) by set_solver.
           assert (Hts : tempFile ∉ temps) by set_solver.
           destruct (cmd.ConvertFile env file tempFile) as [err|] eqn:Ecv.
           ++ right. exists file, tempFile, err.
              split; [left; reflexivity|]. split; [exact Esvg|].
              split; [exact Ecv|]. split; [reflexivity|].
              split; [exact Hd0|].
              rewrite cleanup_difference. set_solver.
           ++ specialize (IH (maps ++ [ {| utils.PNGPath := tempFile;
                                           utils.OriginalPath := file;
                                           utils.IsTemporary := true |} ])%list
                             (temps ++ [tempFile])%list disk0).
              replace (disk0 ∪ list_to_set (temps ++ [tempFile]))
                with ({[ tempFile ]} ∪ (disk0 ∪ list_to_set temps)) in IH
                by (rewrite list_to_set_app_L; set_solver).
              destruct (cmd.prepare env rest _ _ _)
                as [[[maps' temps'] | e | m] disk'].
              ** destruct IH as (more & -> & -> & Ho & Hok & Hn' & Hnd' & ->).
                 { intros t Ht. set_solver. }
                 { apply NoDup_app. split; [exact Hnd|].
                   split; [set_solver|apply NoDup_singleton]. }
                 unfold wanted at 1. rewrite Esvg. cbn [String.eqb orb].
                 eexists (_ :: more).
                 split; [rewrite <- app_assoc; reflexivity|].
                 cbn [List.filter utils.IsTemporary map utils.PNGPath].
                 split; [rewrite <- app_assoc; reflexivity|].
                 cbn [map utils.OriginalPath].
                 rewrite Ho. split; [reflexivity|].
                 split; [|repeat split; assumption].
                 apply List.Forall_cons; [|exact Hok].
                 unfold mapping_ok. cbn. exact Esvg.
              ** destruct IH as [IH | (f & t & err & Hin & IH)];
                   [set_solver| |left; exact IH|].
                 { apply NoDup_app. split; [exact Hnd|].
                   split; [set_solver|apply NoDup_singleton]. }
                 right. exists f, t, err. split; [right; exact Hin|exact IH].
              ** apply IH; [set_solver|].
                 apply NoDup_app. split; [exact Hnd|].
                 split; [set_solver|apply NoDup_singleton].
        -- left. exists err. split; [reflexivity|].
           rewrite cleanup_difference. set_solver.
      * specialize (IH maps temps disk0 Hnew Hnd).
        assert (Ew : wanted file = false).
        { unfold wanted.
          destruct (String.eqb_spec (filepath.Ext file) ".png");
            [contradiction|].
          destruct (String.eqb_spec (filepath.Ext file) ".svg");
            [contradiction|reflexivity]. }
        rewrite Ew.
        destruct (cmd.prepare env rest maps temps _)
          as [[[maps' temps'] | e | m] disk'].
        -- exact IH.
        -- destruct IH as [IH | (f & t & err & Hin & IH)]; [left; exact IH|].
           right. exists f, t, err. split; [right; exact Hin|exact IH].
        -- exact IH.
Qed.

End TemporaryFiles.

(** X22. When [preparePNGFiles] succeeds, the mappings are those of the
    files with the extension [.png] or [.svg], in the order of the input
    (all other files are skipped): a PNG file is mapped to itself, an SVG
    file to a temporary file.  The temporary files are distinct new files,
    and [cleanup] removes exactly them: afterwards the files that exist are
    those that existed before. *)
Theorem preparePNGFiles_mappings (env : cmd.Env) (files : list string)
    (disk : gset string) (mappings : list utils.FileMapping)
    (temps : list string) (disk' : gset string) :
  names_fresh env ->
  cmd.preparePNGFiles env files disk = (Ok (mappings, temps), disk') ->
  map utils.OriginalPath mappings = List.filter wanted files /\
  Forall mapping_ok mappings /\
  temps = map utils.PNGPath (List.filter utils.IsTemporary mappings) /\
  NoDup temps /\ (forall t, t ∈ temps -> t ∉ disk) /\
  disk' = disk ∪ list_to_set temps /\
  cmd.cleanup temps disk' = disk.
Proof.
  intros Hfresh Hrun. unfold cmd.preparePNGFiles in Hrun.
  pose proof (prepare_spec env Hfresh files [] [] disk) as H.
  cbn [list_to_set] in H.
  replace (disk ∪ ∅) with disk in H by set_solver.
  rewrite Hrun in H.
  destruct H as (more & -> & -> & Ho & Hok & Hn & Hnd & ->).
  { intros t Ht. set_solver. }
  { apply NoDup_nil_2. }
  cbn [app] in *.
  repeat (split; [assumption || reflexivity|]).
  rewrite cleanup_difference. set_solver.
Qed.

Lemma preparePNGFiles_mappings_witness :
  cmd.cleanup ["0"; "1"] ({[ "1" ]} ∪ ({[ "0" ]} ∪ ∅)) = (∅ : gset string).
Proof.
  refine (proj2 (proj2 (proj2 (proj2 (proj2 (proj2
    (preparePNGFiles_mappings converting
       ["a.png"; "b.svg"; "notes.txt"; "c.svg"] ∅
       [ {| utils.PNGPath := "a.png"; utils.OriginalPath := "a.png";
            utils.IsTemporary := false |};
         {| utils.PNGPath := "0"; utils.OriginalPath := "b.svg";
            utils.IsTemporary := true |};
         {| utils.PNGPath := "1"; utils.OriginalPath := "c.svg";
            utils.IsTemporary := true |} ]
       ["0"; "1"] ({[ "1" ]} ∪ ({[ "0" ]} ∪ ∅)) _ _))))))).
  - intros pattern disk path H. cbn in H. inversion H. apply is_fresh.
  - vm_compute. reflexivity.
Defined.

(** X23. When [preparePNGFiles] fails, [cleanup] has run, but it does not
    know the temporary file of the SVG file that could not be converted:
    after a failed conversion exactly that new file is left behind, beside
    the files that existed before.  When no temporary file could be
    created, nothing is left behind. *)
Theorem preparePNGFiles_failure_leaves_a_file (env : cmd.Env)
    (files : list string) (disk : gset string) (e : error)
    (disk' : gset string) :
  names_fresh env ->
  cmd.preparePNGFiles env files disk = (Err e, disk') ->
  (exists err,
     e = Wrapf "failed to create temp file: "
           (Wrapf "failed to create temp file: " err) /\
     disk' = disk) \/
  (exists file tempFile err,
     In file files /\ filepath.Ext file = ".svg" /\
     cmd.ConvertFile env file tempFile = Some err /\
     e = Wrapf ("failed to convert " ++ file ++ ": ") err /\
     (tempFile ∉ disk) /\ disk' = {[ tempFile ]} ∪ disk).
Proof.
  intros Hfresh Hrun. unfold cmd.preparePNGFiles in Hrun.
  pose proof (prepare_spec env Hfresh files [] [] disk) as H.
  cbn [list_to_set] in H.
  replace (disk ∪ ∅) with disk in H by set_solver.
  rewrite Hrun in H. apply H.
  - intros t Ht. set_solver.
  - apply NoDup_nil_2.
Qed.

Lemma preparePNGFiles_failure_leaves_a_file_witness :
  (exists err,
     Wrapf "failed to convert bad.svg: " (Errorf "failed to parse SVG")
     = Wrapf "failed to create temp file: "
         (Wrapf "failed to create temp file: " err) /\
     ({[ "1" ]} : gset string) = ∅) \/
  (exists file tempFile err,
     In file ["a.svg"; "bad.svg"; "c.svg"] /\ filepath.Ext file = ".svg" /\
     cmd.ConvertFile failing_on_bad file tempFile = Some err /\
     Wrapf "failed to convert bad.svg: " (Errorf "failed to parse SVG")
     = Wrapf ("failed to convert " ++ file ++ ": ") err /\
     (tempFile ∉ (∅ : gset string)) /\
     ({[ "1" ]} : gset string) = {[ tempFile ]} ∪ ∅).
Proof.
  apply (preparePNGFiles_failure_leaves_a_file failing_on_bad
           ["a.svg"; "bad.svg"; "c.svg"] ∅).
  - intros pattern disk path H. cbn in H. inversion H. apply is_fresh.
  - vm_compute. reflexivity.
Defined.


(** ** Sorting the input files *)

Section Sorting.

Variable Slice : sorting.Sorter.
Variable Stat : sorting.Stater.

(** The first loop of [sortByCTime] keeps the files in their order, or
    stops at the first file without information. *)
Lemma stat_files_spec (files : list string) :
  forall infos,
    match sorting.stat_files Stat files infos with
    | Ok infos' =>
        map sorting.Path infos' = (map sorting.Path infos ++ files)%list
    | Err e =>
        exists file err,
          In file files /\ Stat file = inr err /\
          e = Wrapf ("failed to stat file " ++ file ++ ": ") err
    | Panic _ => False
    end.
Proof.
  induction files as [|file rest IH]; intros infos; cbn [sorting.stat_files].
  - cbn. rewrite app_nil_r. reflexivity.
  - destruct (Stat file) as [modTime|err] eqn:E.
    + specialize (IH (infos ++ [ {| sorting.Path := file;
                                    sorting.Name := filepath.Base file;
                                    sorting.CTime := modTime |} ])%list).
      destruct (sorting.stat_files Stat rest _) as [infos'|e|m].
      * rewrite IH, map_app, <- app_assoc. reflexivity.
      * destruct IH as (f & err & Hin & IH). exists f, err.
        split; [right; exact Hin|exact IH].
      * exact IH.
    + exists file, err. split; [left; reflexivity|].
      split; [exact E|reflexivity].
Qed.

End Sorting.

(** X24. [SortFiles] returns an empty list as it is, without an error,
    whatever the mode, even one it does not support.  For the sort mode
    of a configuration that passed [Validate] after [SetDefaults] it never
    fails with the unsupported-mode error: it returns the files rearranged
    ([sort.Slice] rearranging the slice it is given), or in the mode
    [ctime] fails with the error of a file whose information cannot be read;
    in the mode [manual] the files are returned in their order. *)
Theorem SortFiles_of_a_validated_mode (Slice : sorting.Sorter)
    (Stat : sorting.Stater) (cfg : config.Config) (files : list string) :
  permutes Slice ->
  let d := Config.SetDefaults cfg in
  Config.Validate d = None ->
  (forall mode, sorting.SortFiles Slice Stat [] mode = Ok []) /\
  match sorting.SortFiles Slice Stat files (config.Sort d) with
  | Ok sorted =>
      sorted ≡ₚ files /\ (config.Sort d = "manual" -> sorted = files)
  | Err e =>
      config.Sort d = "ctime" /\
      exists file err,
        In file files /\ Stat file = inr err /\
        e = Wrapf ("failed to stat file " ++ file ++ ": ") err
  | Panic _ => False
  end.
Proof.
  intros Hperm d Hv. split; [reflexivity|].
  destruct (Validate_None d Hv)
    as (_ & _ & _ & _ & _ & _ & _ & _ & _ & _ & Hsort & _).
  assert (Hne : config.Sort d <> "").
  { subst d. unfold Config.SetDefaults. cbn [config.Sort].
    destruct (String.eqb_spec (config.Sort cfg) ""); [discriminate|].
    assumption. }
  unfold sorting.SortFiles.
  destruct files as [|file rest]; [cbn; split; [reflexivity|auto]|].
  cbn [length Nat.eqb].
  unfold Config.SortByName, Config.SortByCTime, Config.SortManual.
  destruct Hsort as [E | [E | [E | E]]]; [contradiction| | |]; rewrite E.
  - cbn [String.eqb Ascii.eqb Bool.eqb andb]. unfold sorting.sortByName.
    split; [apply Hperm|discriminate].
  - cbn [String.eqb Ascii.eqb Bool.eqb andb]. unfold sorting.sortByCTime.
    pose proof (stat_files_spec Stat (file :: rest) []) as H.
    destruct (sorting.stat_files Stat (file :: rest) []) as [infos|e|m];
      cbn [mbind result_bind mret result_ret].
    + split; [|discriminate]. cbn [map app] in H. rewrite <- H.
      apply Permutation_map, Hperm.
    + split; [reflexivity|exact H].
    + exact H.
  - cbn [String.eqb Ascii.eqb Bool.eqb andb]. split; reflexivity.
Qed.

Lemma insert_sorted_Permutation {A : Type} (less : A -> A -> bool) (x : A)
    (l : list A) :
  insert_sorted less x l ≡ₚ x :: l.
Proof.
  induction l as [|y l IH]; cbn [insert_sorted]; [reflexivity|].
  destruct (less y x); [|reflexivity].
  rewrite IH. apply perm_swap.
Qed.

Lemma insertion_sort_permutes : permutes insertion_sort.
Proof.
  intros A l less. unfold insertion_sort.
  induction l as [|x l IH]; cbn [fold_right]; [reflexivity|].
  rewrite insert_sorted_Permutation, IH. reflexivity.
Qed.

Lemma SortFiles_of_a_validated_mode_witness :
  let files := ["icons/b.svg"; "icons/a.png"; "icons/c.svg"] in
  let d := Config.SetDefaults bare_config in
  (forall mode, sorting.SortFiles insertion_sort sample_times [] mode = Ok []) /\
  match sorting.SortFiles insertion_sort sample_times files (config.Sort d)
  with
  | Ok sorted =>
      sorted ≡ₚ files /\ (config.Sort d = "manual" -> sorted = files)
  | Err e =>
      config.Sort d = "ctime" /\
      exists file err,
        In file files /\ sample_times file = inr err /\
        e = Wrapf ("failed to stat file " ++ file ++ ": ") err
  | Panic _ => False
  end.
Proof.
  apply (SortFiles_of_a_validated_mode insertion_sort sample_times
           bare_config ["icons/b.svg"; "icons/a.png"; "icons/c.svg"]).
  - apply insertion_sort_permutes.
  - vm_compute. reflexivity.
Defined.
